(** * jaxlib/gpu/triton.cc: the host-side launcher of Triton GPU kernels

    A shallow embedding of [src/jaxlib/gpu/triton.cc].  The C++ code talks to
    three things it does not own: the CUDA driver, the PTX assembler and
    zlib/protobuf.  They are gathered in an [Environment]; every function of
    the launcher is a state transformer over a [World] that carries the
    trace of effects performed so far, the heap of shared [Kernel] objects
    and the two process-wide caches. *)

From Stdlib Require Import ZArith List String Ascii Lia Bool.
From Stdlib Require Import Floats.SpecFloat.
From stdpp Require Import gmap strings list fin_maps.

Open Scope Z_scope.

(** ** Machine integers and floats *)

Definition wrap32 (z : Z) : Z := z mod 2 ^ 32.
Definition wrap64 (z : Z) : Z := z mod 2 ^ 64.

Definition INT_MIN : Z := - 2 ^ 31.
Definition INT_MAX : Z := 2 ^ 31 - 1.

(** [float] is IEEE-754 binary32: 24 bits of precision, infinities at
    exponent 128. *)
Definition float := spec_float.
Definition f32_prec : Z := 24.
Definition f32_emax : Z := 128.

Definition f32_infinity : float := S754_infinity false.
Definition f32_of_Z (z : Z) : float := binary_normalize f32_prec f32_emax z 0 false.
Definition f32_div (x y : float) : float := SFdiv f32_prec f32_emax x y.
Definition f32_ltb (x y : float) : bool := SFltb x y.

(** [std::min(a, b)] is [(b < a) ? b : a]. *)
Definition f32_min (a b : float) : float := if f32_ltb b a then b else a.

(** The integer part of a finite float, rounded towards zero. *)
Definition f32_trunc (x : float) : option Z :=
  match x with
  | S754_zero _ => Some 0
  | S754_finite s m e =>
      let mag := match e with
                 | Zneg p => Z.shiftr (Zpos m) (Zpos p)
                 | _ => Z.shiftl (Zpos m) e
                 end in
      Some (if s then - mag else mag)
  | _ => None
  end.

(** [static_cast<int>(x)]: truncation, when the truncated value fits an
    [int]; otherwise C++ leaves the conversion undefined. *)
Definition static_cast_int (x : float) : option Z :=
  match f32_trunc x with
  | Some z => if (INT_MIN <=? z) && (z <=? INT_MAX) then Some z else None
  | None => None
  end.

(** ** Driver handles *)

Definition CUstream := Z.
Definition CUcontext := Z.
Definition CUmodule := Z.
Definition CUfunction := Z.
Definition CUdevice := Z.
Definition CUevent := Z.
Definition CUdeviceptr := Z.

(** [CUresult]: success, or one of the driver's error codes (all of them
    known to [cuGetErrorName], so that the [CHECK_EQ] of [AsStatus] holds). *)
Inductive CUresult :=
| CUDA_SUCCESS
| CUDA_ERROR (code : positive).

Inductive DeviceAttribute :=
| CU_DEVICE_ATTRIBUTE_MAX_SHARED_MEMORY_PER_BLOCK_OPTIN
| CU_DEVICE_ATTRIBUTE_MAX_SHARED_MEMORY_PER_MULTIPROCESSOR.

Inductive FunctionAttribute :=
| CU_FUNC_ATTRIBUTE_SHARED_SIZE_BYTES
| CU_FUNC_ATTRIBUTE_MAX_DYNAMIC_SHARED_SIZE_BYTES.

(** ** Parameters of a kernel call *)

Record ArrayParameter := {
  bytes_to_zero : Z;
  ptr_must_be_divisible_by_16 : bool
}.

Inductive ScalarParameter :=
| bool_ (b : bool)
| i32 (v : Z)
| u32 (v : Z)
| i64 (v : Z)
| u64 (v : Z).

(** [KernelCall::Parameter], a [std::variant]. *)
Inductive CallParameter :=
| Array (a : ArrayParameter)
| Scalar (s : ScalarParameter).

(** What the driver reads through one entry of [void** params]: the device
    pointer held in a slot of the caller's buffer array, or the inline
    storage of a scalar. *)
Inductive KernelArg :=
| ArgBuffer (ptr : CUdeviceptr)
| ArgScalar (s : ScalarParameter).

(** A host-side [std::vector<uint8_t>] handed to an asynchronous copy: the
    key it is stored under in [input_copies] and its length. *)
Record HostVector := {
  hv_key : nat;
  hv_size : Z
}.

(** ** Driver calls *)

Inductive DriverCall :=
| cuStreamGetCtx (stream : CUstream)
| cuCtxPushCurrent (context : CUcontext)
| cuCtxPopCurrent
| cuModuleLoadData (image : string)
| cuModuleGetFunction (module : CUmodule) (name : string)
| cuCtxGetDevice
| cuDeviceGetAttribute (attr : DeviceAttribute) (device : CUdevice)
| cuFuncSetCacheConfig_PREFER_SHARED (function : CUfunction)
| cuFuncGetAttribute (attr : FunctionAttribute) (function : CUfunction)
| cuFuncSetAttribute (function : CUfunction) (attr : FunctionAttribute) (value : Z)
| cuLaunchKernel (function : CUfunction) (grid : Z * Z * Z) (block : Z * Z * Z)
    (shared_mem_bytes : Z) (stream : CUstream) (params : list KernelArg)
| cuMemsetD8Async (ptr : CUdeviceptr) (value : Z) (n : Z) (stream : CUstream)
| cuMemcpyDtoHAsync (dst : HostVector) (src : CUdeviceptr) (n : Z) (stream : CUstream)
| cuMemcpyHtoDAsync (dst : CUdeviceptr) (src : HostVector) (n : Z) (stream : CUstream)
| cuStreamSynchronize (stream : CUstream)
| cuEventCreate
| cuEventRecord (event : CUevent) (stream : CUstream)
| cuEventSynchronize (event : CUevent)
| cuEventElapsedTime (start stop : CUevent)
| cuEventDestroy (event : CUevent).

(** The names under which failing driver calls are reported. *)
Inductive DriverFn :=
| fn_cuStreamGetCtx | fn_cuCtxPushCurrent | fn_cuModuleLoadData
| fn_cuModuleGetFunction | fn_cuCtxGetDevice | fn_cuDeviceGetAttribute
| fn_cuFuncSetCacheConfig | fn_cuFuncGetAttribute | fn_cuFuncSetAttribute
| fn_cuLaunchKernel | fn_cuMemsetD8Async | fn_cuMemcpyDtoHAsync
| fn_cuMemcpyHtoDAsync | fn_cuStreamSynchronize | fn_cuEventCreate
| fn_cuEventRecord | fn_cuEventSynchronize | fn_cuEventElapsedTime
| fn_cuEventDestroy | fn_cuCtxPopCurrent.

Definition fn_of (c : DriverCall) : DriverFn :=
  match c with
  | cuStreamGetCtx _ => fn_cuStreamGetCtx
  | cuCtxPushCurrent _ => fn_cuCtxPushCurrent
  | cuCtxPopCurrent => fn_cuCtxPopCurrent
  | cuModuleLoadData _ => fn_cuModuleLoadData
  | cuModuleGetFunction _ _ => fn_cuModuleGetFunction
  | cuCtxGetDevice => fn_cuCtxGetDevice
  | cuDeviceGetAttribute _ _ => fn_cuDeviceGetAttribute
  | cuFuncSetCacheConfig_PREFER_SHARED _ => fn_cuFuncSetCacheConfig
  | cuFuncGetAttribute _ _ => fn_cuFuncGetAttribute
  | cuFuncSetAttribute _ _ _ => fn_cuFuncSetAttribute
  | cuLaunchKernel _ _ _ _ _ _ => fn_cuLaunchKernel
  | cuMemsetD8Async _ _ _ _ => fn_cuMemsetD8Async
  | cuMemcpyDtoHAsync _ _ _ _ => fn_cuMemcpyDtoHAsync
  | cuMemcpyHtoDAsync _ _ _ _ => fn_cuMemcpyHtoDAsync
  | cuStreamSynchronize _ => fn_cuStreamSynchronize
  | cuEventCreate => fn_cuEventCreate
  | cuEventRecord _ _ => fn_cuEventRecord
  | cuEventSynchronize _ => fn_cuEventSynchronize
  | cuEventElapsedTime _ _ => fn_cuEventElapsedTime
  | cuEventDestroy _ => fn_cuEventDestroy
  end.

(** What a driver call hands back: its result code, the handle or integer
    written through its out-parameter, and (for [cuEventElapsedTime]) the
    milliseconds written through its [float*]. *)
Record DriverReply := {
  result : CUresult;
  out : Z;
  out_ms : float
}.

(** ** Statuses *)

Inductive Message :=
| MsgOperationFailed (fn : DriverFn) (error : CUresult)
| MsgNotDivisibleBy16 (i : nat) (ptr : CUdeviceptr)
| MsgSharedMemoryExceeds
| MsgUnknownScalarParameterType
| MsgFailedToUncompress
| MsgFailedToParse
| MsgUnknownKernelCallType
| MsgExternal (text : string).

Inductive StatusCode :=
| kInvalidArgument
| kInternal
| kOtherCode (c : nat).

Record Error := {
  code : StatusCode;
  message : Message
}.

Definition InvalidArgumentError (m : Message) : Error :=
  {| code := kInvalidArgument; message := m |}.
Definition InternalError (m : Message) : Error :=
  {| code := kInternal; message := m |}.

(** [absl::Status]. *)
Inductive Status :=
| OkStatus
| ErrorStatus (e : Error).

(** ** Effects *)

Inductive MutexId :=
| KernelMutex (kernel : nat)
| KernelCacheMutex
| CallCacheMutex.

Inductive LogLine :=
| LogAutotuning (name : string)
| LogRan1Iter (description : string) (t : float)
| LogBenchmarkingCapped
| LogBenchmarkingWith (timed_iters : Z)
| LogRanIters (description : string) (timed_iters : Z) (t : float)
| LogNewBest (description : string)
| LogFinished (name : string) (description : string).

Inductive Event :=
| EvDriver (c : DriverCall) (r : DriverReply)
| EvLock (m : MutexId)
| EvUnlock (m : MutexId)
| EvCompileGpuAsm (cc_major cc_minor : Z) (ptx : string)
| EvLog (l : LogLine).

(** ** Descriptors

    Modelled from the spec: the generated header [jaxlib/gpu/triton.proto.h]
    is not part of the sources; the messages below carry the fields of the
    descriptor schema, with the accessors the launcher calls on them. *)

Record TritonKernel := {
  ptx : string;
  kernel_name : string;
  num_warps : Z;
  shared_mem_bytes : Z;
  compute_capability : Z
}.

Inductive TritonKernelCall_Parameter :=
| value_array (a : ArrayParameter)
| kBool (b : bool)
| kI32 (v : Z)
| kU32 (v : Z)
| kI64 (v : Z)
| kU64 (v : Z)
| VALUE_NOT_SET.

Record TritonKernelCall := {
  kernel : TritonKernel;
  grid_0 : Z;
  grid_1 : Z;
  grid_2 : Z;
  parameters : list TritonKernelCall_Parameter
}.

Record TritonAutotunedKernelCall_Config := {
  config_kernel_call : TritonKernelCall;
  config_description : string
}.

Record TritonAutotunedKernelCall_InputOutputAlias := {
  input_buffer_idx : Z;
  output_buffer_idx : Z;
  buffer_size_bytes : Z
}.

Record TritonAutotunedKernelCall := {
  name : string;
  configs : list TritonAutotunedKernelCall_Config;
  input_output_aliases : list TritonAutotunedKernelCall_InputOutputAlias
}.

Inductive TritonAnyKernelCall :=
| has_kernel_call (p : TritonKernelCall)
| has_autotuned_kernel_call (p : TritonAutotunedKernelCall)
| value_not_set.

(** ** Objects *)

(** [class Kernel].  The four leading fields are fixed by the constructor;
    [modules_] and [functions_] are guarded by the kernel's mutex. *)
Record Kernel := {
  module_image_ : string;
  kernel_name_ : string;
  block_dim_x_ : Z;
  shared_mem_bytes_ : Z;
  modules_ : list CUmodule;
  functions_ : gmap Z CUfunction
}.

Definition kNumThreadsPerWarp : Z := 32.

Definition Kernel_new (module_image kernel_name : string)
    (num_warps shared_mem_bytes : Z) : Kernel :=
  {| module_image_ := module_image;
     kernel_name_ := kernel_name;
     block_dim_x_ := wrap32 (num_warps * kNumThreadsPerWarp);
     shared_mem_bytes_ := shared_mem_bytes;
     modules_ := [];
     functions_ := ∅ |}.

(** [class KernelCall]; [kernel_] is the address of the shared [Kernel]. *)
Record KernelCall := {
  kernel_ : nat;
  grid_ : Z * Z * Z;
  parameters_ : list CallParameter
}.

Record Config := {
  kernel_call : KernelCall;
  description : string
}.

(** [class AutotunedKernelCall]; [autotune_once_] is [true] once the
    [absl::once_flag] has fired. *)
Record AutotunedKernelCall := {
  name_ : string;
  configs_ : list Config;
  input_output_aliases_ : list (nat * nat * Z);
  autotune_once_ : bool;
  autotune_status_ : Status
}.

(** What a [std::unique_ptr<KernelCallBase>] owns. *)
Inductive KernelCallBase :=
| IsKernelCall (c : KernelCall)
| IsAutotunedKernelCall (c : AutotunedKernelCall).

Definition KernelKey : Type := string * string * Z * Z * Z.

(** ** The world *)

Record World := {
  trace : list Event;
  kernel_heap : list Kernel;
  kernels : gmap KernelKey nat;
  call_heap : list KernelCallBase;
  kernel_calls : gmap string nat
}.

Definition initial_world : World :=
  {| trace := []; kernel_heap := []; kernels := ∅;
     call_heap := []; kernel_calls := ∅ |}.

Definition set_trace (t : list Event) (w : World) : World :=
  {| trace := t; kernel_heap := kernel_heap w; kernels := kernels w;
     call_heap := call_heap w; kernel_calls := kernel_calls w |}.

Definition set_kernel_heap (h : list Kernel) (w : World) : World :=
  {| trace := trace w; kernel_heap := h; kernels := kernels w;
     call_heap := call_heap w; kernel_calls := kernel_calls w |}.

Definition set_kernels (m : gmap KernelKey nat) (w : World) : World :=
  {| trace := trace w; kernel_heap := kernel_heap w; kernels := m;
     call_heap := call_heap w; kernel_calls := kernel_calls w |}.

Definition set_call_heap (h : list KernelCallBase) (w : World) : World :=
  {| trace := trace w; kernel_heap := kernel_heap w; kernels := kernels w;
     call_heap := h; kernel_calls := kernel_calls w |}.

Definition set_kernel_calls (m : gmap string nat) (w : World) : World :=
  {| trace := trace w; kernel_heap := kernel_heap w; kernels := kernels w;
     call_heap := call_heap w; kernel_calls := m |}.

(** ** The environment *)

Inductive ZlibResult :=
| Z_OK (uncompressed : string)
| Z_BUF_ERROR
| Z_OTHER_ERROR.

Record Environment := {
  (** the driver's answer to a call, given everything that happened before *)
  driver : list Event -> DriverCall -> DriverReply;
  (** [stream_executor::CompileGpuAsm] *)
  CompileGpuAsm : Z -> Z -> string -> Error + string;
  (** zlib's [uncompress], given the capacity of the destination *)
  uncompress : Z -> string -> ZlibResult;
  (** [TritonAnyKernelCall::ParseFromString] *)
  ParseFromString : string -> option TritonAnyKernelCall
}.

(** ** The monad of launcher code

    A computation returns a value, returns a non-ok [absl::Status], or
    takes the process down: a failed [CHECK], or an access the language
    leaves undefined.  [OutOfFuel] is not an outcome of the program: it marks
    a run of the one unbounded loop of the file that did not finish within
    the number of rounds the model was given. *)

Inductive Fault :=
| CheckFailed
| UndefinedBehaviour
| OutOfFuel.

Inductive Result (A : Type) :=
| Ok (a : A)
| Err (e : Error)
| Fatal (f : Fault).

Arguments Ok {A} a.
Arguments Err {A} e.
Arguments Fatal {A} f.

Definition M (A : Type) : Type := World -> Result A * World.

Definition ret {A} (a : A) : M A := fun w => (Ok a, w).
Definition fail {A} (e : Error) : M A := fun w => (Err e, w).
Definition fatal {A} (f : Fault) : M A := fun w => (Fatal f, w).

(** The outcome of code that does not touch the world. *)
Definition returning {A} (r : Result A) : M A := fun w => (r, w).

Definition bind {A B} (m : M A) (k : A -> M B) : M B :=
  fun w =>
    match m w with
    | (Ok a, w') => k a w'
    | (Err e, w') => (Err e, w')
    | (Fatal f, w') => (Fatal f, w')
    end.

Notation "'let*' x := m 'in' k" := (bind m (fun x => k))
  (at level 10, x name, m at level 100, k at level 200).
Notation "m ;; k" := (bind m (fun _ => k))
  (at level 100, k at level 200, right associativity).

(** [absl::Cleanup] and the destructor of [absl::MutexLock]: [cleanup] runs
    when the scope is left, whatever status the body returns. *)
Definition finally {A} (body : M A) (cleanup : World -> World) : M A :=
  fun w =>
    match body w with
    | (Fatal f, w') => (Fatal f, w')
    | (r, w') => (r, cleanup w')
    end.

Definition record (e : Event) (w : World) : World :=
  set_trace (trace w ++ [e]) w.

Definition emit (e : Event) : M unit := fun w => (Ok tt, record e w).

Definition LOG (l : LogLine) : M unit := emit (EvLog l).

Definition with_lock {A} (m : MutexId) (body : M A) : M A :=
  emit (EvLock m) ;; finally body (record (EvUnlock m)).

(** [JAX_RETURN_IF_ERROR(status)] *)
Definition JAX_RETURN_IF_ERROR (s : Status) : M unit :=
  match s with
  | OkStatus => ret tt
  | ErrorStatus e => fail e
  end.

(** The status a computation returns, as a value (the [[=] { ... }()] of
    the entry point and the lambda of [call_once]). *)
Definition status_of (m : M unit) : M Status :=
  fun w =>
    match m w with
    | (Ok _, w') => (Ok OkStatus, w')
    | (Err e, w') => (Ok (ErrorStatus e), w')
    | (Fatal f, w') => (Fatal f, w')
    end.

Definition load_kernel (k : nat) : M Kernel :=
  fun w =>
    match kernel_heap w !! k with
    | Some x => (Ok x, w)
    | None => (Fatal UndefinedBehaviour, w)
    end.

Definition store_kernel (k : nat) (x : Kernel) : M unit :=
  fun w => (Ok tt, set_kernel_heap (<[k := x]> (kernel_heap w)) w).

(** [std::make_shared<Kernel>] *)
Definition make_shared (x : Kernel) : M nat :=
  fun w => (Ok (length (kernel_heap w)), set_kernel_heap (kernel_heap w ++ [x]) w).

(** [buffers[i]] on the caller's [void** buffers], which holds
    [length buffers] pointers; reading past them is undefined. *)
Definition read_buffer (buffers : list CUdeviceptr) (i : nat) : M CUdeviceptr :=
  match buffers !! i with
  | Some p => ret p
  | None => fatal UndefinedBehaviour
  end.

Section Driver.
Context (env : Environment).

(** One call into the driver: the reply is the environment's, and the
    call is appended to the trace together with it. *)
Definition call (c : DriverCall) : M DriverReply :=
  fun w =>
    let r := driver env (trace w) c in
    (Ok r, record (EvDriver c r) w).

(** [AsStatus] *)
Definition AsStatus (error : CUresult) (fn : DriverFn) : Status :=
  match error with
  | CUDA_SUCCESS => OkStatus
  | _ => ErrorStatus (InternalError (MsgOperationFailed fn error))
  end.

(** [CUDA_RETURN_IF_ERROR(expr)]; the reply is handed on for the
    out-parameters of [expr]. *)
Definition CUDA_RETURN_IF_ERROR (c : DriverCall) : M DriverReply :=
  let* r := call c in
  JAX_RETURN_IF_ERROR (AsStatus (result r) (fn_of c)) ;;
  ret r.
End Driver.

(** ** class Kernel *)

Module Kernel.
Section Methods.
Context (env : Environment).

Definition kMaxStaticSharedMemBytes : Z := 49152.

Definition push_back_module (module : CUmodule) (k : Kernel) : Kernel :=
  {| module_image_ := module_image_ k; kernel_name_ := kernel_name_ k;
     block_dim_x_ := block_dim_x_ k; shared_mem_bytes_ := shared_mem_bytes_ k;
     modules_ := modules_ k ++ [module]; functions_ := functions_ k |}.

Definition insert_function (context : CUcontext) (function : CUfunction)
    (k : Kernel) : Kernel :=
  {| module_image_ := module_image_ k; kernel_name_ := kernel_name_ k;
     block_dim_x_ := block_dim_x_ k; shared_mem_bytes_ := shared_mem_bytes_ k;
     modules_ := modules_ k; functions_ := <[context := function]> (functions_ k) |}.

(** [functions_.insert({context, function})] followed by [CHECK(success)] *)
Definition functions_insert (self : nat) (context : CUcontext)
    (function : CUfunction) : M unit :=
  let* k := load_kernel self in
  match functions_ k !! context with
  | Some _ => fatal CheckFailed
  | None => store_kernel self (insert_function context function k)
  end.

(** The part of [GetFunctionForContext] after the insertion, for a kernel
    that asks for more than 48kB of shared memory. *)
Definition setup_dynamic_shared_memory (k : Kernel) (function : CUfunction)
    : M CUfunction :=
  let* device := CUDA_RETURN_IF_ERROR env cuCtxGetDevice in
  let* shared_optin :=
    CUDA_RETURN_IF_ERROR env
      (cuDeviceGetAttribute
         CU_DEVICE_ATTRIBUTE_MAX_SHARED_MEMORY_PER_BLOCK_OPTIN (out device)) in
  if wrap32 (out shared_optin) <? shared_mem_bytes_ k then
    fail (InvalidArgumentError MsgSharedMemoryExceeds)
  else if kMaxStaticSharedMemBytes <? out shared_optin then
    CUDA_RETURN_IF_ERROR env (cuFuncSetCacheConfig_PREFER_SHARED function) ;;
    let* shared_total :=
      CUDA_RETURN_IF_ERROR env
        (cuDeviceGetAttribute
           CU_DEVICE_ATTRIBUTE_MAX_SHARED_MEMORY_PER_MULTIPROCESSOR (out device)) in
    let* shared_static :=
      CUDA_RETURN_IF_ERROR env
        (cuFuncGetAttribute CU_FUNC_ATTRIBUTE_SHARED_SIZE_BYTES function) in
    CUDA_RETURN_IF_ERROR env
      (cuFuncSetAttribute function
         CU_FUNC_ATTRIBUTE_MAX_DYNAMIC_SHARED_SIZE_BYTES
         (out shared_optin - out shared_static)) ;;
    ret function
  else ret function.

(** The part of [GetFunctionForContext] that runs with [context] pushed. *)
Definition load_function (self : nat) (context : CUcontext) : M CUfunction :=
  let* k := load_kernel self in
  let* module := CUDA_RETURN_IF_ERROR env (cuModuleLoadData (module_image_ k)) in
  store_kernel self (push_back_module (out module) k) ;;
  let* function :=
    CUDA_RETURN_IF_ERROR env (cuModuleGetFunction (out module) (kernel_name_ k)) in
  functions_insert self context (out function) ;;
  if shared_mem_bytes_ k <=? kMaxStaticSharedMemBytes then ret (out function)
  else setup_dynamic_shared_memory k (out function).

Definition GetFunctionForContext (self : nat) (context : CUcontext)
    : M CUfunction :=
  with_lock (KernelMutex self)
    (let* k := load_kernel self in
     match functions_ k !! context with
     | Some function => ret function
     | None =>
         CUDA_RETURN_IF_ERROR env (cuCtxPushCurrent context) ;;
         finally (load_function self context)
           (fun w => snd (call env cuCtxPopCurrent w))
     end).

Definition Launch (self : nat) (stream : CUstream) (grid : Z * Z * Z)
    (params : list KernelArg) : M unit :=
  let* context := CUDA_RETURN_IF_ERROR env (cuStreamGetCtx stream) in
  let* function := GetFunctionForContext self (out context) in
  let* k := load_kernel self in
  CUDA_RETURN_IF_ERROR env
    (cuLaunchKernel function grid (block_dim_x_ k, 1, 1)
       (shared_mem_bytes_ k) stream params) ;;
  ret tt.
End Methods.
End Kernel.

(** ** GetKernel *)

Section GetKernel.
Context (env : Environment).

Definition kernel_key (proto : TritonKernel) : KernelKey :=
  (ptx proto, kernel_name proto, num_warps proto, shared_mem_bytes proto,
   compute_capability proto).

(** [kernels.insert({key, kernel})] followed by [CHECK(success)] *)
Definition kernels_insert (key : KernelKey) (k : nat) : M unit :=
  fun w =>
    match kernels w !! key with
    | Some _ => (Fatal CheckFailed, w)
    | None => (Ok tt, set_kernels (<[key := k]> (kernels w)) w)
    end.

Definition compile (proto : TritonKernel) : M string :=
  let cc_major := compute_capability proto / 10 in
  let cc_minor := compute_capability proto mod 10 in
  emit (EvCompileGpuAsm cc_major cc_minor (ptx proto)) ;;
  match CompileGpuAsm env cc_major cc_minor (ptx proto) with
  | inl e => fail e
  | inr module_image => ret module_image
  end.

Definition GetKernel (proto : TritonKernel) : M nat :=
  let key := kernel_key proto in
  with_lock KernelCacheMutex
    (fun w =>
       match kernels w !! key with
       | Some k => (Ok k, w)
       | None =>
           (let* module_image := compile proto in
            let* k :=
              make_shared
                (Kernel_new module_image (kernel_name proto) (num_warps proto)
                   (shared_mem_bytes proto)) in
            kernels_insert key k ;;
            ret k) w
       end).
End GetKernel.

(** ** class KernelCall *)

Module KernelCall.
Section Methods.
Context (env : Environment).

Definition zero_fill (a : ArrayParameter) (ptr : CUdeviceptr)
    (stream : CUstream) : M unit :=
  if 0 <? bytes_to_zero a then
    CUDA_RETURN_IF_ERROR env (cuMemsetD8Async ptr 0 (bytes_to_zero a) stream) ;;
    ret tt
  else ret tt.

(** The loop of [Launch], from parameter [i] on: [cursor] is how far
    [buffers++] has advanced, [params] the vector built so far. *)
Fixpoint bind_parameters (parameters : list CallParameter) (i : nat)
    (stream : CUstream) (buffers : list CUdeviceptr) (cursor : nat)
    (params : list KernelArg) : M (list KernelArg) :=
  match parameters with
  | [] => ret params
  | Array array :: rest =>
      let* ptr := read_buffer buffers cursor in
      if ptr_must_be_divisible_by_16 array && negb (wrap64 ptr mod 16 =? 0) then
        fail (InvalidArgumentError (MsgNotDivisibleBy16 i ptr))
      else
        zero_fill array ptr stream ;;
        bind_parameters rest (S i) stream buffers (S cursor)
          (params ++ [ArgBuffer ptr])
  | Scalar scalar :: rest =>
      bind_parameters rest (S i) stream buffers cursor
        (params ++ [ArgScalar scalar])
  end.

Definition Launch (self : KernelCall) (stream : CUstream)
    (buffers : list CUdeviceptr) : M unit :=
  let* params := bind_parameters (parameters_ self) 0 stream buffers 0 [] in
  Kernel.Launch env (kernel_ self) stream (grid_ self) params.

Definition ScalarParameter_FromProto (proto : TritonKernelCall_Parameter)
    : M ScalarParameter :=
  match proto with
  | kBool b => ret (bool_ b)
  | kI32 v => ret (i32 v)
  | kU32 v => ret (u32 v)
  | kI64 v => ret (i64 v)
  | kU64 v => ret (u64 v)
  | _ => fail (InvalidArgumentError MsgUnknownScalarParameterType)
  end.

Fixpoint parameters_FromProto (protos : list TritonKernelCall_Parameter)
    (parameters : list CallParameter) : M (list CallParameter) :=
  match protos with
  | [] => ret parameters
  | value_array a :: rest =>
      parameters_FromProto rest (parameters ++ [Array a])
  | parameter :: rest =>
      let* scalar := ScalarParameter_FromProto parameter in
      parameters_FromProto rest (parameters ++ [Scalar scalar])
  end.

Definition FromProto (proto : TritonKernelCall) : M KernelCall :=
  let* k := GetKernel env (kernel proto) in
  let* parameters := parameters_FromProto (parameters proto) [] in
  ret {| kernel_ := k;
         grid_ := (grid_0 proto, grid_1 proto, grid_2 proto);
         parameters_ := parameters |}.
End Methods.
End KernelCall.

(** ** class AutotunedKernelCall *)

Definition load_autotuned (a : nat) : M AutotunedKernelCall :=
  fun w =>
    match call_heap w !! a with
    | Some (IsAutotunedKernelCall c) => (Ok c, w)
    | _ => (Fatal UndefinedBehaviour, w)
    end.

Definition store_autotuned (a : nat) (c : AutotunedKernelCall) : M unit :=
  fun w =>
    (Ok tt, set_call_heap (<[a := IsAutotunedKernelCall c]> (call_heap w)) w).

Definition with_configs (cs : list Config) (c : AutotunedKernelCall)
    : AutotunedKernelCall :=
  {| name_ := name_ c; configs_ := cs;
     input_output_aliases_ := input_output_aliases_ c;
     autotune_once_ := autotune_once_ c;
     autotune_status_ := autotune_status_ c |}.

Definition with_status (s : Status) (c : AutotunedKernelCall)
    : AutotunedKernelCall :=
  {| name_ := name_ c; configs_ := configs_ c;
     input_output_aliases_ := input_output_aliases_ c;
     autotune_once_ := autotune_once_ c;
     autotune_status_ := s |}.

Definition with_once (c : AutotunedKernelCall) : AutotunedKernelCall :=
  {| name_ := name_ c; configs_ := configs_ c;
     input_output_aliases_ := input_output_aliases_ c;
     autotune_once_ := true;
     autotune_status_ := autotune_status_ c |}.

(** [std::swap(configs[i], configs[0])] *)
Definition swap_with_front (i : nat) (cs : list Config) : list Config :=
  match cs !! i, cs !! 0%nat with
  | Some ci, Some c0 => <[0%nat := ci]> (<[i := c0]> cs)
  | _, _ => cs
  end.

Module AutotunedKernelCall.
Section Methods.
Context (env : Environment).

Definition kBenchmarkTimeMillis : float := f32_of_Z 10.

Fixpoint launch_repeatedly (kernel_call : KernelCall) (stream : CUstream)
    (buffers : list CUdeviceptr) (n : nat) : M unit :=
  match n with
  | O => ret tt
  | S n' =>
      KernelCall.Launch env kernel_call stream buffers ;;
      launch_repeatedly kernel_call stream buffers n'
  end.

Definition Benchmark (stream : CUstream) (kernel_call : KernelCall)
    (buffers : list CUdeviceptr) (num_iterations : Z) : M float :=
  let* start := CUDA_RETURN_IF_ERROR env cuEventCreate in
  let* stop := CUDA_RETURN_IF_ERROR env cuEventCreate in
  KernelCall.Launch env kernel_call stream buffers ;;
  CUDA_RETURN_IF_ERROR env (cuEventRecord (out start) stream) ;;
  launch_repeatedly kernel_call stream buffers (Z.to_nat num_iterations) ;;
  CUDA_RETURN_IF_ERROR env (cuEventRecord (out stop) stream) ;;
  CUDA_RETURN_IF_ERROR env (cuEventSynchronize (out stop)) ;;
  let* elapsed_ms :=
    CUDA_RETURN_IF_ERROR env (cuEventElapsedTime (out start) (out stop)) in
  CUDA_RETURN_IF_ERROR env (cuEventDestroy (out start)) ;;
  CUDA_RETURN_IF_ERROR env (cuEventDestroy (out stop)) ;;
  ret (out_ms elapsed_ms).

(** The first loop of [Autotune]; [input_copies] maps an input index to
    the length of the host vector stored under it. *)
Fixpoint save_aliased_inputs (aliases : list (nat * nat * Z))
    (stream : CUstream) (buffers : list CUdeviceptr)
    (input_copies : gmap nat Z) : M (gmap nat Z) :=
  match aliases with
  | [] => ret input_copies
  | (input_idx, output_idx, size) :: rest =>
      let* input := read_buffer buffers input_idx in
      let* output := read_buffer buffers output_idx in
      if input =? output then
        CUDA_RETURN_IF_ERROR env
          (cuMemcpyDtoHAsync {| hv_key := input_idx; hv_size := size |}
             input size stream) ;;
        save_aliased_inputs rest stream buffers (<[input_idx := size]> input_copies)
      else save_aliased_inputs rest stream buffers input_copies
  end.

(** The loop that runs one iteration of each config. *)
Fixpoint calibrate (configs : list Config) (stream : CUstream)
    (buffers : list CUdeviceptr) (best : float) : M float :=
  match configs with
  | [] => ret best
  | config :: rest =>
      let* t := Benchmark stream (kernel_call config) buffers 1 in
      LOG (LogRan1Iter (description config) t) ;;
      calibrate rest stream buffers (f32_min best t)
  end.

(** [std::max(static_cast<int>(kBenchmarkTimeMillis / best), 1)], then the
    cap at 100 with its two branches. *)
Definition choose_timed_iters (best : float) : M Z :=
  match static_cast_int (f32_div kBenchmarkTimeMillis best) with
  | None => fatal UndefinedBehaviour
  | Some quotient =>
      let timed_iters := Z.max quotient 1 in
      if 100 <? timed_iters then
        LOG LogBenchmarkingCapped ;; ret 100
      else
        let timed_iters := Z.min timed_iters 100 in
        LOG (LogBenchmarkingWith timed_iters) ;; ret timed_iters
  end.

(** The benchmarking loop, with [n] configs left to visit from index [i];
    the vector is read and swapped in place, in the object. *)
Fixpoint select (self : nat) (stream : CUstream) (buffers : list CUdeviceptr)
    (timed_iters : Z) (n i : nat) (best : float) : M unit :=
  match n with
  | O => ret tt
  | S n' =>
      let* obj := load_autotuned self in
      match configs_ obj !! i with
      | None => fatal UndefinedBehaviour
      | Some config =>
          let* t := Benchmark stream (kernel_call config) buffers timed_iters in
          LOG (LogRanIters (description config) timed_iters t) ;;
          if f32_ltb t best then
            LOG (LogNewBest (description config)) ;;
            store_autotuned self
              (with_configs (swap_with_front i (configs_ obj)) obj) ;;
            select self stream buffers timed_iters n' (S i) t
          else select self stream buffers timed_iters n' (S i) best
      end
  end.

(** [configs_.erase(configs_.begin() + 1, configs_.end())] *)
Definition discard_all_but_best (self : nat) : M unit :=
  let* obj := load_autotuned self in
  store_autotuned self (with_configs (take 1 (configs_ obj)) obj).

(** The last loop of [Autotune].  [input_copies[input_idx]] creates an
    empty vector when nothing is stored under [input_idx]. *)
Fixpoint restore_aliased_inputs (aliases : list (nat * nat * Z))
    (stream : CUstream) (buffers : list CUdeviceptr)
    (input_copies : gmap nat Z) : M unit :=
  match aliases with
  | [] => ret tt
  | (input_idx, _, size) :: rest =>
      let* input := read_buffer buffers input_idx in
      let copy_size := default 0 (input_copies !! input_idx) in
      CUDA_RETURN_IF_ERROR env
        (cuMemcpyHtoDAsync input {| hv_key := input_idx; hv_size := copy_size |}
           size stream) ;;
      restore_aliased_inputs rest stream buffers
        (<[input_idx := copy_size]> input_copies)
  end.

(** [Autotune], once the context of the stream is current. *)
Definition Autotune_body (self : nat) (stream : CUstream)
    (buffers : list CUdeviceptr) : M unit :=
  let* obj := load_autotuned self in
  let* input_copies :=
    save_aliased_inputs (input_output_aliases_ obj) stream buffers ∅ in
  LOG (LogAutotuning (name_ obj)) ;;
  let* best := calibrate (configs_ obj) stream buffers f32_infinity in
  let* timed_iters := choose_timed_iters best in
  select self stream buffers timed_iters (length (configs_ obj)) 0 f32_infinity ;;
  discard_all_but_best self ;;
  let* obj' := load_autotuned self in
  match configs_ obj' !! 0%nat with
  | None => fatal UndefinedBehaviour
  | Some best_config =>
      LOG (LogFinished (name_ obj') (description best_config)) ;;
      restore_aliased_inputs (input_output_aliases_ obj') stream buffers
        input_copies ;;
      CUDA_RETURN_IF_ERROR env (cuStreamSynchronize stream) ;;
      ret tt
  end.

Definition Autotune (self : nat) (stream : CUstream)
    (buffers : list CUdeviceptr) : M unit :=
  let* context := CUDA_RETURN_IF_ERROR env (cuStreamGetCtx stream) in
  CUDA_RETURN_IF_ERROR env (cuCtxPushCurrent (out context)) ;;
  finally (Autotune_body self stream buffers)
    (fun w => snd (call env cuCtxPopCurrent w)).

(** The body handed to [absl::call_once]. *)
Definition autotune_once (self : nat) (stream : CUstream)
    (buffers : list CUdeviceptr) : M unit :=
  let* obj := load_autotuned self in
  if autotune_once_ obj then ret tt
  else
    (if (1 <? length (configs_ obj))%nat then
       let* status := status_of (Autotune self stream buffers) in
       let* obj' := load_autotuned self in
       store_autotuned self (with_status status obj')
     else ret tt) ;;
    let* obj' := load_autotuned self in
    store_autotuned self (with_once obj').

Definition Launch (self : nat) (stream : CUstream)
    (buffers : list CUdeviceptr) : M unit :=
  autotune_once self stream buffers ;;
  let* obj := load_autotuned self in
  JAX_RETURN_IF_ERROR (autotune_status_ obj) ;;
  match configs_ obj !! 0%nat with
  | None => fatal UndefinedBehaviour
  | Some config => KernelCall.Launch env (kernel_call config) stream buffers
  end.

Fixpoint configs_FromProto (protos : list TritonAutotunedKernelCall_Config)
    (configs : list Config) : M (list Config) :=
  match protos with
  | [] => ret configs
  | config :: rest =>
      let* kernel_call := KernelCall.FromProto env (config_kernel_call config) in
      configs_FromProto rest
        (configs ++ [{| kernel_call := kernel_call;
                        description := config_description config |}])
  end.

Definition alias_FromProto (a : TritonAutotunedKernelCall_InputOutputAlias)
    : nat * nat * Z :=
  (Z.to_nat (input_buffer_idx a), Z.to_nat (output_buffer_idx a),
   buffer_size_bytes a).

Definition FromProto (proto : TritonAutotunedKernelCall)
    : M AutotunedKernelCall :=
  let* configs := configs_FromProto (configs proto) [] in
  ret {| name_ := name proto;
         configs_ := configs;
         input_output_aliases_ := map alias_FromProto (input_output_aliases proto);
         autotune_once_ := false;
         autotune_status_ := OkStatus |}.
End Methods.
End AutotunedKernelCall.

(** ** GetKernelCall and the entry point *)

Section GetKernelCall.
Context (env : Environment).

(** [std::make_unique] *)
Definition make_unique (c : KernelCallBase) : M nat :=
  fun w => (Ok (length (call_heap w)), set_call_heap (call_heap w ++ [c]) w).

(** The [while (true)] loop around [uncompress], for at most [fuel]
    rounds; [dest_len] is a [uLongf].  The loop touches nothing but its
    locals. *)
Fixpoint uncompress_loop (fuel : nat) (dest_len : Z) (opaque : string)
    : Result string :=
  match fuel with
  | O => Fatal OutOfFuel
  | S fuel' =>
      match uncompress env dest_len opaque with
      | Z_OK serialized => Ok serialized
      | Z_BUF_ERROR => uncompress_loop fuel' (wrap64 (dest_len * 2)) opaque
      | Z_OTHER_ERROR => Err (InvalidArgumentError MsgFailedToUncompress)
      end
  end.

(** The loop from its first guess, five times the size of the opaque. *)
Definition decompress (fuel : nat) (opaque : string) : Result string :=
  uncompress_loop fuel (wrap64 (5 * Z.of_nat (String.length opaque))) opaque.

(** [kernel_calls.insert({serialized, kernel_call})] followed by
    [CHECK(success)] *)
Definition kernel_calls_insert (key : string) (c : nat) : M unit :=
  fun w =>
    match kernel_calls w !! key with
    | Some _ => (Fatal CheckFailed, w)
    | None => (Ok tt, set_kernel_calls (<[key := c]> (kernel_calls w)) w)
    end.

Definition construct (proto : TritonAnyKernelCall) : M nat :=
  match proto with
  | has_kernel_call p =>
      let* kernel_call_ := KernelCall.FromProto env p in
      make_unique (IsKernelCall kernel_call_)
  | has_autotuned_kernel_call p =>
      let* c := AutotunedKernelCall.FromProto env p in
      make_unique (IsAutotunedKernelCall c)
  | value_not_set => fail (InvalidArgumentError MsgUnknownKernelCallType)
  end.

Definition GetKernelCall (fuel : nat) (opaque : string) : M nat :=
  with_lock CallCacheMutex
    (fun w =>
       match kernel_calls w !! opaque with
       | Some it => (Ok it, w)
       | None =>
           (let* serialized := returning (decompress fuel opaque) in
            match ParseFromString env serialized with
            | None => fail (InvalidArgumentError MsgFailedToParse)
            | Some proto =>
                let* kernel_call := construct proto in
                kernel_calls_insert serialized kernel_call ;;
                ret kernel_call
            end) w
       end).

(** [kernel_call->Launch(stream, buffers)], a virtual call *)
Definition KernelCallBase_Launch (c : nat) (stream : CUstream)
    (buffers : list CUdeviceptr) : M unit :=
  fun w =>
    match call_heap w !! c with
    | Some (IsKernelCall kc) => KernelCall.Launch env kc stream buffers w
    | Some (IsAutotunedKernelCall _) =>
        AutotunedKernelCall.Launch env c stream buffers w
    | None => (Fatal UndefinedBehaviour, w)
    end.

(** [LaunchTritonKernel]; the status it returns is what it writes to the
    [XlaCustomCallStatus]. *)
Definition LaunchTritonKernel (fuel : nat) (stream : CUstream)
    (buffers : list CUdeviceptr) (opaque : string) : M Status :=
  status_of
    (let* kernel_call := GetKernelCall fuel opaque in
     KernelCallBase_Launch kernel_call stream buffers).
End GetKernelCall.


(** ** The Python module

    [get_compute_capability] talks to the driver through three calls the
    launcher proper does not make; they have a trace of their own. *)

Inductive ModuleCall :=
| cuInit (Flags : Z)
| cuDeviceGetAttribute_COMPUTE_CAPABILITY_MAJOR (device : CUdevice)
| cuDeviceGetAttribute_COMPUTE_CAPABILITY_MINOR (device : CUdevice).

Definition ModuleTrace : Type := list (ModuleCall * DriverReply).

(** What the lambda returns: the capability, or the [InternalError] that
    [AsStatus] makes of the failing call and its result; the sum
    [major * 10 + minor] is computed on [int]s, where overflow is
    undefined. *)
Inductive Capability :=
| CapabilityOk (compute_capability : Z)
| CapabilityError (call : ModuleCall) (error : CUresult)
| CapabilityUndefined.

Definition get_compute_capability
    (module_driver : ModuleTrace -> ModuleCall -> DriverReply)
    (device : Z) (t : ModuleTrace) : Capability * ModuleTrace :=
  let init := module_driver t (cuInit device) in
  let t := t ++ [(cuInit device, init)] in
  match result init with
  | CUDA_ERROR _ => (CapabilityError (cuInit device) (result init), t)
  | CUDA_SUCCESS =>
      let major :=
        module_driver t (cuDeviceGetAttribute_COMPUTE_CAPABILITY_MAJOR device) in
      let t := t ++ [(cuDeviceGetAttribute_COMPUTE_CAPABILITY_MAJOR device, major)] in
      match result major with
      | CUDA_ERROR _ =>
          (CapabilityError (cuDeviceGetAttribute_COMPUTE_CAPABILITY_MAJOR device)
             (result major), t)
      | CUDA_SUCCESS =>
          let minor :=
            module_driver t (cuDeviceGetAttribute_COMPUTE_CAPABILITY_MINOR device) in
          let t := t ++ [(cuDeviceGetAttribute_COMPUTE_CAPABILITY_MINOR device, minor)] in
          match result minor with
          | CUDA_ERROR _ =>
              (CapabilityError (cuDeviceGetAttribute_COMPUTE_CAPABILITY_MINOR device)
                 (result minor), t)
          | CUDA_SUCCESS =>
              let tens := out major * 10 in
              let sum := tens + out minor in
              if (INT_MIN <=? tens) && (tens <=? INT_MAX)
                 && (INT_MIN <=? sum) && (sum <=? INT_MAX)
              then (CapabilityOk sum, t)
              else (CapabilityUndefined, t)
          end
      end
  end.
(** * Vocabulary of the specification *)

(** ** Relations every step of a computation respects *)

(** [m] takes a world only to worlds related to it by [R], whatever it
    returns. *)
Definition respects (R : World -> World -> Prop) {A} (m : M A) : Prop :=
  forall w r w', m w = (r, w') -> R w w'.

(** [w'] is [w] after some more events, all of which satisfy [P]. *)
Definition emits (P : Event -> Prop) (w w' : World) : Prop :=
  exists evs, trace w' = trace w ++ evs /\ Forall P evs.

(** [m] returns no other errors than those in [Q]. *)
Definition fails_only (Q : Error -> Prop) {A} (m : M A) : Prop :=
  forall w e w', m w = (Err e, w') -> Q e.

(** ** Events by kind *)

Definition event_fn (e : Event) : option DriverFn :=
  match e with
  | EvDriver c _ => Some (fn_of c)
  | _ => None
  end.

Definition is_zero_fill (e : Event) : Prop :=
  event_fn e = Some fn_cuMemsetD8Async.

Definition not_a_launch (e : Event) : Prop :=
  event_fn e <> Some fn_cuLaunchKernel.

Definition is_log (e : Event) : Prop :=
  match e with
  | EvLog _ => True
  | _ => False
  end.

(** ** Binding buffers to parameters *)

(** The number of array parameters among the first [j] parameters: where
    the buffer cursor stands when parameter [j] is reached. *)
Fixpoint arrays_before (ps : list CallParameter) (j : nat) : nat :=
  match j, ps with
  | S j', Array _ :: rest => S (arrays_before rest j')
  | S j', Scalar _ :: rest => arrays_before rest j'
  | _, _ => 0%nat
  end.

Definition misaligned (p : CUdeviceptr) : Prop := wrap64 p mod 16 <> 0.

(** Parameter [j] of [ps] asks for an aligned pointer and is handed the
    misaligned [q], the cursor standing at [cursor] when [ps] starts. *)
Definition offending (buffers : list CUdeviceptr) (ps : list CallParameter)
    (cursor j : nat) (q : CUdeviceptr) : Prop :=
  exists a, ps !! j = Some (Array a) /\ ptr_must_be_divisible_by_16 a = true /\
            buffers !! (cursor + arrays_before ps j)%nat = Some q /\ misaligned q.

(** Scalars are passed as they are, and the array parameter at position [j]
    gets the buffer whose index is the number of array parameters before
    [j]. *)
Definition bound_positionally (buffers : list CUdeviceptr)
    (ps : list CallParameter) (cursor : nat) (args : list KernelArg) : Prop :=
  length args = length ps /\
  forall j,
    (forall s, ps !! j = Some (Scalar s) -> args !! j = Some (ArgScalar s)) /\
    (forall a, ps !! j = Some (Array a) ->
       exists p, buffers !! (cursor + arrays_before ps j)%nat = Some p /\
                 args !! j = Some (ArgBuffer p)).

Definition successful_zero_fill (stream : CUstream) (e : Event) : Prop :=
  exists q n r, e = EvDriver (cuMemsetD8Async q 0 n stream) r /\ 0 < n /\
                result r = CUDA_SUCCESS.

(** The zero-fills of the array parameters before position [k] are all
    among [evs]. *)
Definition zero_filled_before (stream : CUstream) (buffers : list CUdeviceptr)
    (ps : list CallParameter) (cursor k : nat) (evs : list Event) : Prop :=
  forall j a, (j < k)%nat -> ps !! j = Some (Array a) -> 0 < bytes_to_zero a ->
    exists q r, buffers !! (cursor + arrays_before ps j)%nat = Some q /\
                EvDriver (cuMemsetD8Async q 0 (bytes_to_zero a) stream) r ∈ evs /\
                result r = CUDA_SUCCESS.

(** ** What the methods of Kernel emit *)

Definition resolution_fn (f : DriverFn) : bool :=
  match f with
  | fn_cuCtxPushCurrent | fn_cuCtxPopCurrent | fn_cuModuleLoadData
  | fn_cuModuleGetFunction | fn_cuCtxGetDevice | fn_cuDeviceGetAttribute
  | fn_cuFuncSetCacheConfig | fn_cuFuncGetAttribute | fn_cuFuncSetAttribute => true
  | _ => false
  end.

(** The events of [Kernel::GetFunctionForContext]. *)
Definition resolution_event (e : Event) : Prop :=
  match e with
  | EvDriver c _ => resolution_fn (fn_of c) = true
  | EvLock (KernelMutex _) | EvUnlock (KernelMutex _) => True
  | _ => False
  end.

(** The events of [Kernel::Launch] on [stream], [grid] and [params]. *)
Definition launch_event (stream : CUstream) (grid : Z * Z * Z)
    (params : list KernelArg) (e : Event) : Prop :=
  resolution_event e \/
  (exists r, e = EvDriver (cuStreamGetCtx stream) r) \/
  (exists f b sh r, e = EvDriver (cuLaunchKernel f grid b sh stream params) r).

Definition driver_failure (e : Error) : Prop :=
  exists fn err, e = InternalError (MsgOperationFailed fn err).

(** The errors of [Kernel::Launch]. *)
Definition kernel_failure (e : Error) : Prop :=
  driver_failure e \/ e = InvalidArgumentError MsgSharedMemoryExceeds.

(** ** Concrete environments *)

Definition ok_reply (handle : Z) (ms : float) : DriverReply :=
  {| result := CUDA_SUCCESS; out := handle; out_ms := ms |}.

Definition error_reply (c : positive) : DriverReply :=
  {| result := CUDA_ERROR c; out := 0; out_ms := S754_zero false |}.

(** A driver that accepts every call; the context of stream [s] is
    [s + 100], any other handle it hands out is the number of events so far,
    and every timing is one millisecond. *)
Definition obliging_driver (t : list Event) (c : DriverCall) : DriverReply :=
  match c with
  | cuStreamGetCtx stream => ok_reply (stream + 100) (f32_of_Z 1)
  | _ => ok_reply (Z.of_nat (length t)) (f32_of_Z 1)
  end.

(** An environment around a driver: the assembler returns the source as the
    module image, and (unless said otherwise) nothing decompresses. *)
Definition env_of (drv : list Event -> DriverCall -> DriverReply) : Environment :=
  {| driver := drv;
     CompileGpuAsm := fun _ _ ptx => inr ptx;
     uncompress := fun _ _ => Z_OTHER_ERROR;
     ParseFromString := fun _ => None |}.

(** A world whose only object is one kernel, at address 0. *)
Definition one_kernel_world (shared_mem_bytes : Z) : World :=
  set_kernel_heap [Kernel_new "image" "kernel" 4 shared_mem_bytes] initial_world.

Definition call_on (ps : list CallParameter) : KernelCall :=
  {| kernel_ := 0; grid_ := (4, 1, 1); parameters_ := ps |}.

Definition plain_array : ArrayParameter :=
  {| bytes_to_zero := 0; ptr_must_be_divisible_by_16 := false |}.
Definition aligned_array : ArrayParameter :=
  {| bytes_to_zero := 0; ptr_must_be_divisible_by_16 := true |}.
Definition zeroed_array (n : Z) : ArrayParameter :=
  {| bytes_to_zero := n; ptr_must_be_divisible_by_16 := false |}.

(** A driver that refuses every [cuMemsetD8Async] and accepts the rest. *)
Definition memset_refusing_driver (t : list Event) (c : DriverCall) : DriverReply :=
  match c with
  | cuMemsetD8Async _ _ _ _ => error_reply 1
  | _ => obliging_driver t c
  end.

(** The call of the positional-binding scenario: parameter types
    [A, S, A, S, A]. *)
Definition asasa : KernelCall :=
  call_on [Array plain_array; Scalar (i32 7); Array plain_array;
           Scalar (u64 9); Array plain_array].

Definition asasa_run : Result unit * World :=
  KernelCall.Launch (env_of obliging_driver) asasa 5 [4096; 8192; 12288]
    (one_kernel_world 0).

(** A zero-filled array followed by an array that must be aligned, the
    second buffer being [0x1008]. *)
Definition zero_then_aligned : KernelCall :=
  call_on [Array (zeroed_array 8); Array aligned_array].

Definition zero_then_aligned_run (drv : list Event -> DriverCall -> DriverReply)
    : Result unit * World :=
  KernelCall.Launch (env_of drv) zero_then_aligned 5 [4096; 4104]
    (one_kernel_world 0).

(** ** Frames *)

(** The kernel objects are untouched. *)
Definition same_kernel_heap (w w' : World) : Prop :=
  kernel_heap w' = kernel_heap w.

(** The call objects and the call cache are untouched. *)
Definition same_calls (w w' : World) : Prop :=
  call_heap w' = call_heap w /\ kernel_calls w' = kernel_calls w.

(** A driver whose devices allow no more than 48kB of shared memory per
    block, even on request. *)
Definition scarce_optin_driver (t : list Event) (c : DriverCall) : DriverReply :=
  match c with
  | cuDeviceGetAttribute CU_DEVICE_ATTRIBUTE_MAX_SHARED_MEMORY_PER_BLOCK_OPTIN _ =>
      ok_reply 49152 (f32_of_Z 1)
  | _ => obliging_driver t c
  end.

(** ** Driver events *)

(** The handles of the events the trace created, and of those it destroyed. *)
Definition created_events (t : list Event) : list CUevent :=
  flat_map (fun e => match e with
                     | EvDriver cuEventCreate r =>
                         match result r with
                         | CUDA_SUCCESS => [out r]
                         | _ => []
                         end
                     | _ => []
                     end) t.

Definition destroyed_events (t : list Event) : list CUevent :=
  flat_map (fun e => match e with
                     | EvDriver (cuEventDestroy h) _ => [h]
                     | _ => []
                     end) t.

(** A driver on which no stream has a context. *)
Definition no_context_driver (t : list Event) (c : DriverCall) : DriverReply :=
  match c with
  | cuStreamGetCtx _ => error_reply 400
  | _ => obliging_driver t c
  end.

(** ** Critical sections *)

Definition same_mutex (m1 m2 : MutexId) : bool :=
  match m1, m2 with
  | KernelMutex a, KernelMutex b => Nat.eqb a b
  | KernelCacheMutex, KernelCacheMutex => true
  | CallCacheMutex, CallCacheMutex => true
  | _, _ => false
  end.

(** Every call of the assembler in [t] happens while mutex [m] is not held,
    [held] telling whether it is when [t] starts. *)
Fixpoint compiles_outside (m : MutexId) (held : bool) (t : list Event) : bool :=
  match t with
  | [] => true
  | EvLock m' :: rest => compiles_outside m (same_mutex m m' || held) rest
  | EvUnlock m' :: rest => compiles_outside m (negb (same_mutex m m') && held) rest
  | EvCompileGpuAsm _ _ _ :: rest => negb held && compiles_outside m held rest
  | _ :: rest => compiles_outside m held rest
  end.

Definition some_kernel : TritonKernel :=
  {| ptx := "ptx"; kernel_name := "kernel"; num_warps := 4;
     shared_mem_bytes := 0; compute_capability := 80 |}.

(** ** A toy codec

    An opaque is its descriptor behind one letter, [z] or [Z]: every
    descriptor has two compressed forms. *)
Definition toy_uncompress (dest_len : Z) (source : string) : ZlibResult :=
  match source with
  | String c rest =>
      if Ascii.eqb c "z"%char || Ascii.eqb c "Z"%char then
        if Z.of_nat (String.length rest) <=? dest_len then Z_OK rest
        else Z_BUF_ERROR
      else Z_OTHER_ERROR
  | EmptyString => Z_OTHER_ERROR
  end.

Definition some_call : TritonKernelCall :=
  {| kernel := some_kernel; grid_0 := 4; grid_1 := 1; grid_2 := 1;
     parameters := [kI32 7] |}.

Definition toy_parse (serialized : string) : option TritonAnyKernelCall :=
  if String.eqb serialized "call" then Some (has_kernel_call some_call) else None.

Definition toy_env : Environment :=
  {| driver := obliging_driver;
     CompileGpuAsm := fun _ _ ptx => inr ptx;
     uncompress := toy_uncompress;
     ParseFromString := toy_parse |}.

(** The world after a first [GetKernelCall] on the opaque [zcall]. *)
Definition after_first_call : World :=
  snd (GetKernelCall toy_env 8 "zcall" initial_world).

(** ** An autotuned call whose alias is not used *)

Definition two_configs : AutotunedKernelCall :=
  {| name_ := "f";
     configs_ := [{| kernel_call := call_on [Array plain_array; Array plain_array];
                     description := "A" |};
                  {| kernel_call := call_on [Array plain_array; Array plain_array];
                     description := "B" |}];
     input_output_aliases_ := [(0%nat, 1%nat, 16)];
     autotune_once_ := false;
     autotune_status_ := OkStatus |}.

Definition two_configs_world : World :=
  set_call_heap [IsAutotunedKernelCall two_configs] (one_kernel_world 0).

(** [Autotune] on buffers [p, q] with [p <> q]. *)
Definition unaliased_run : Result unit * World :=
  AutotunedKernelCall.Autotune (env_of obliging_driver) 0 5 [4096; 8192]
    two_configs_world.

(** ** Floats in order *)

Definition f32_leb (x y : float) : bool := SFleb x y.

(** Where a float that is not a NaN stands in the order of floats: by sign
    class, then exponent, then mantissa. *)
Definition f32_rank (x : float) : option (Z * Z * Z) :=
  match x with
  | S754_nan => None
  | S754_infinity s => Some (if s then -2 else 2, 0, 0)
  | S754_zero _ => Some (0, 0, 0)
  | S754_finite s m e => Some (if s then (-1, - e, Zneg m) else (1, e, Zpos m))
  end.

Definition rank_lt (a b : Z * Z * Z) : Prop :=
  let '(a1, a2, a3) := a in
  let '(b1, b2, b3) := b in
  a1 < b1 \/ (a1 = b1 /\ (a2 < b2 \/ (a2 = b2 /\ a3 < b3))).

Definition rank_le (a b : Z * Z * Z) : Prop := rank_lt a b \/ a = b.

(** [floor] of a finite float. *)
Definition f32_floor (x : float) : option Z :=
  match x with
  | S754_zero _ => Some 0
  | S754_finite s m e =>
      let v := if s then Zneg m else Zpos m in
      Some (if 0 <=? e then v * 2 ^ e else v / 2 ^ (- e))
  | _ => None
  end.

(** ** Autotuning *)

(** The lines logged by a stretch of the trace. *)
Definition logs (t : list Event) : list LogLine :=
  omap (fun e => match e with EvLog l => Some l | _ => None end) t.

Definition quiet (e : Event) : Prop := ~ is_log e.

(** The timings the log reports: of the single iterations, and of the
    timed runs. *)
Definition single_runs (ls : list LogLine) : list (string * float) :=
  omap (fun l => match l with LogRan1Iter d t => Some (d, t) | _ => None end) ls.

Definition timed_runs (ls : list LogLine) : list (string * Z * float) :=
  omap (fun l => match l with LogRanIters d n t => Some (d, n, t) | _ => None end) ls.

(** The running best of the benchmarking loop over the timings [ts] of the
    configs from index [i] on: the best time so far and the index of the
    config it belongs to. *)
Fixpoint pick (ts : list float) (i : nat) (best : float) (cur : nat) : float * nat :=
  match ts with
  | [] => (best, cur)
  | t :: rest =>
      if f32_ltb t best then pick rest (S i) t i else pick rest (S i) best cur
  end.

(** Config [k] is the fastest, the earlier one winning a tie: its time is
    below infinity, no config is strictly faster than [k], and no config
    before [k] is as fast.  When no time is below infinity (every time is
    infinite or not a number) nothing is ever selected and config 0 stays
    in front. *)
Definition fastest_first (ts : list float) (k : nat) : Prop :=
  (exists tk, ts !! k = Some tk /\ f32_ltb tk f32_infinity = true /\
     (forall j tj, ts !! j = Some tj -> f32_ltb tj tk = false) /\
     (forall j tj, (j < k)%nat -> ts !! j = Some tj -> f32_leb tj tk = false)) \/
  (k = 0%nat /\ forall j tj, ts !! j = Some tj -> f32_ltb tj f32_infinity = false).

(** What the running best knows after the first [i] timings of [all]. *)
Definition running_best (all : list float) (i : nat) (best : float)
    (cur : nat) : Prop :=
  (forall j tj, (j < i)%nat -> all !! j = Some tj -> f32_ltb tj best = false) /\
  (forall j tj, (j < cur)%nat -> all !! j = Some tj -> f32_leb tj best = false) /\
  (((cur < i)%nat /\ all !! cur = Some best /\ f32_ltb best f32_infinity = true) \/
   (cur = 0%nat /\ best = f32_infinity)).

(** The timed runs a stretch of the trace reports are those of [cs], in
    order, with the timings [ts]. *)
Definition reports (timed_iters : Z) (evs : list Event) (cs : list Config)
    (ts : list float) : Prop :=
  timed_runs (logs evs)
    = zip_with (fun c t => (description c, timed_iters, t)) cs ts /\
  length ts = length cs.

Definition untimed (e : Event) : Prop :=
  match e with
  | EvLog (LogRanIters _ _ _) => False
  | _ => True
  end.

(** From [w] to [w'] the trace grew, and the timed runs it reports on the
    way are [runs]. *)
Definition advance (w w' : World) (runs : list (string * Z * float)) : Prop :=
  exists evs, trace w' = trace w ++ evs /\ timed_runs (logs evs) = runs.

(** ** Two configs of different speed *)

Definition config_on (grid_x : Z) (d : string) : Config :=
  {| kernel_call := {| kernel_ := 0; grid_ := (grid_x, 1, 1); parameters_ := [] |};
     description := d |}.

Definition a_and_b : AutotunedKernelCall :=
  {| name_ := "f";
     configs_ := [config_on 4 "A"; config_on 8 "B"];
     input_output_aliases_ := [];
     autotune_once_ := false;
     autotune_status_ := OkStatus |}.

Definition a_and_b_world : World :=
  set_call_heap [IsAutotunedKernelCall a_and_b] (one_kernel_world 0).

(** The first grid dimension of the last kernel launched. *)
Definition last_grid (t : list Event) : Z :=
  foldl (fun g e => match e with
                    | EvDriver (cuLaunchKernel _ (gx, _, _) _ _ _ _) _ => gx
                    | _ => g
                    end) 0 t.

(** A driver on which a benchmark of config A (grid 4) takes 2 ms and one
    of config B (grid 8) takes 1 ms. *)
Definition timing_driver (t : list Event) (c : DriverCall) : DriverReply :=
  match c with
  | cuEventElapsedTime _ _ =>
      ok_reply 0 (f32_of_Z (if last_grid t =? 8 then 1 else 2))
  | _ => obliging_driver t c
  end.

Definition a_and_b_run (drv : list Event -> DriverCall -> DriverReply)
    : Result unit * World :=
  AutotunedKernelCall.Launch (env_of drv) 0 5 [] a_and_b_world.

Definition a_and_b_calibration : Result float * World :=
  AutotunedKernelCall.calibrate (env_of timing_driver) (configs_ a_and_b) 5 []
    f32_infinity a_and_b_world.

(** ** Error paths *)

(** When [m] returns an error, either the error is one of [Q], or [m] has
    emitted only events of [P]. *)
Definition errs (P : Event -> Prop) (Q : Error -> Prop) {A} (m : M A) : Prop :=
  forall w e w', m w = (Err e, w') -> Q e \/ emits P w w'.

Definition not_a_destroy (e : Event) : Prop :=
  event_fn e <> Some fn_cuEventDestroy.

Definition destroy_failure (e : Error) : Prop :=
  exists err, e = InternalError (MsgOperationFailed fn_cuEventDestroy err).

Definition failing_benchmark : Result float * World :=
  AutotunedKernelCall.Benchmark (env_of no_context_driver) 5 (call_on []) [] 1
    (one_kernel_world 0).

(** The call cache is untouched. *)
Definition same_call_cache (w w' : World) : Prop :=
  kernel_calls w' = kernel_calls w.


(** ** Setting up dynamic shared memory *)

(** The driver calls of the opt-in sequence for [function], when the device
    reports the limit [optin]: the two queries, and then, if the limit is
    above 48kB, the cache preference, the per-multiprocessor total, the
    static size of the function and the new dynamic limit. *)
Definition opt_in_sequence (function : CUfunction)
    (device optin config total static set : DriverReply) : list Event :=
  [EvDriver cuCtxGetDevice device;
   EvDriver (cuDeviceGetAttribute
               CU_DEVICE_ATTRIBUTE_MAX_SHARED_MEMORY_PER_BLOCK_OPTIN (out device)) optin]
  ++ (if Kernel.kMaxStaticSharedMemBytes <? out optin then
        [EvDriver (cuFuncSetCacheConfig_PREFER_SHARED function) config;
         EvDriver (cuDeviceGetAttribute
                     CU_DEVICE_ATTRIBUTE_MAX_SHARED_MEMORY_PER_MULTIPROCESSOR (out device))
           total;
         EvDriver (cuFuncGetAttribute CU_FUNC_ATTRIBUTE_SHARED_SIZE_BYTES function) static;
         EvDriver (cuFuncSetAttribute function
                     CU_FUNC_ATTRIBUTE_MAX_DYNAMIC_SHARED_SIZE_BYTES
                     (out optin - out static)) set]
      else []).

(** The world after kernel 0 of [one_kernel_world] has been resolved for
    context 1 on the obliging driver. *)
Definition resolved_world (shared_mem_bytes : Z)
    (drv : list Event -> DriverCall -> DriverReply) : World :=
  snd (Kernel.GetFunctionForContext (env_of drv) 0 1 (one_kernel_world shared_mem_bytes)).

(** A driver whose devices allow 99kB of shared memory per block on
    request, and whose functions use 1kB of static shared memory. *)
Definition generous_optin_driver (t : list Event) (c : DriverCall) : DriverReply :=
  match c with
  | cuDeviceGetAttribute CU_DEVICE_ATTRIBUTE_MAX_SHARED_MEMORY_PER_BLOCK_OPTIN _ =>
      ok_reply 101376 (f32_of_Z 1)
  | cuFuncGetAttribute CU_FUNC_ATTRIBUTE_SHARED_SIZE_BYTES _ =>
      ok_reply 1024 (f32_of_Z 1)
  | _ => obliging_driver t c
  end.

(** A driver that cannot find any function in a module. *)
Definition no_function_driver (t : list Event) (c : DriverCall) : DriverReply :=
  match c with
  | cuModuleGetFunction _ _ => error_reply 500
  | _ => obliging_driver t c
  end.

(** ** What the launcher keeps *)

(** From [w] to [w'] nothing was dropped: both caches kept their entries
    and neither heap lost an object. *)
Definition grows (w w' : World) : Prop :=
  kernels w ⊆ kernels w' /\ kernel_calls w ⊆ kernel_calls w' /\
  (length (kernel_heap w) <= length (kernel_heap w'))%nat /\
  (length (call_heap w) <= length (call_heap w'))%nat.

(** [k'] is [k] with, possibly, more modules loaded and more functions
    registered: what the constructor set is as it was. *)
Definition kernel_evolves (k k' : Kernel) : Prop :=
  module_image_ k' = module_image_ k /\ kernel_name_ k' = kernel_name_ k /\
  block_dim_x_ k' = block_dim_x_ k /\ shared_mem_bytes_ k' = shared_mem_bytes_ k /\
  modules_ k `prefix_of` modules_ k' /\ functions_ k ⊆ functions_ k'.

Definition kernels_evolve (w w' : World) : Prop :=
  forall a k, kernel_heap w !! a = Some k ->
    exists k', kernel_heap w' !! a = Some k' /\ kernel_evolves k k'.

(** [k] is the kernel the descriptor with key [key] stands for: its image
    is what the assembler made of the descriptor's source for its compute
    capability, and name, block size and shared memory are the
    descriptor's. *)
Definition kernel_for (env : Environment) (key : KernelKey) (k : Kernel) : Prop :=
  let '(ptx, kernel_name, num_warps, shared_mem_bytes, compute_capability) := key in
  CompileGpuAsm env (compute_capability / 10) (compute_capability mod 10) ptx
    = inr (module_image_ k) /\
  kernel_name_ k = kernel_name /\
  block_dim_x_ k = wrap32 (num_warps * kNumThreadsPerWarp) /\
  shared_mem_bytes_ k = shared_mem_bytes.

(** Every entry of the kernel cache leads to the kernel of its key, and
    every entry of the call cache to a call object. *)
Definition caches_well_formed (env : Environment) (w : World) : Prop :=
  (forall key a, kernels w !! key = Some a ->
     exists k, kernel_heap w !! a = Some k /\ kernel_for env key k) /\
  (forall key a, kernel_calls w !! key = Some a ->
     (a < length (call_heap w))%nat).

(** The entry point on the opaque [zcall] of the toy codec, in the empty
    world. *)
Definition first_entry : Result Status * World :=
  LaunchTritonKernel toy_env 8 5 [] "zcall" initial_world.

(** ** Zero-fills and decoded parameters *)

(** The zero-fills a call with parameters [ps] asks for, reading the
    buffers from [cursor] on: pointer and byte count, in parameter order. *)
Fixpoint zero_fills (ps : list CallParameter) (buffers : list CUdeviceptr)
    (cursor : nat) : list (CUdeviceptr * Z) :=
  match ps with
  | [] => []
  | Array a :: rest =>
      match buffers !! cursor with
      | Some p => if 0 <? bytes_to_zero a then [(p, bytes_to_zero a)] else []
      | None => []
      end ++ zero_fills rest buffers (S cursor)
  | Scalar _ :: rest => zero_fills rest buffers cursor
  end.

(** [e] is the accepted zero-fill of [n] bytes at [p] on [stream]. *)
Definition zero_fill_of (stream : CUstream) (e : Event) (fill : CUdeviceptr * Z) : Prop :=
  exists r, e = EvDriver (cuMemsetD8Async fill.1 0 fill.2 stream) r /\
            result r = CUDA_SUCCESS.

(** Why the loop of [KernelCall::Launch] stops at an error when one of the
    first [j + 1] parameters of [ps] is offending.  Either it reached the
    first offending parameter, [k]: all it did is enqueue, with success and
    in order, the zero-fills of the parameters before [k], and the error
    names [k] and its pointer.  Or the driver refused the zero-fill of an
    array parameter [k] that comes before every offending parameter: the
    refused call is the last event, behind the successful zero-fills of the
    parameters before [k], and the error is the driver's. *)
Definition stopped_by (stream : CUstream) (buffers : list CUdeviceptr)
    (ps : list CallParameter) (i0 cursor j : nat) (evs : list Event)
    (e : Error) : Prop :=
  (exists k q, (k <= j)%nat /\ offending buffers ps cursor k q /\
     (forall k' q', (k' < k)%nat -> ~ offending buffers ps cursor k' q') /\
     Forall2 (zero_fill_of stream) evs (zero_fills (take k ps) buffers cursor) /\
     e = InvalidArgumentError (MsgNotDivisibleBy16 (i0 + k) q)) \/
  (exists k a q r fills, (k < j)%nat /\
     (forall k' q', (k' <= k)%nat -> ~ offending buffers ps cursor k' q') /\
     ps !! k = Some (Array a) /\ 0 < bytes_to_zero a /\
     buffers !! (cursor + arrays_before ps k)%nat = Some q /\
     evs = fills ++ [EvDriver (cuMemsetD8Async q 0 (bytes_to_zero a) stream) r] /\
     Forall2 (zero_fill_of stream) fills (zero_fills (take k ps) buffers cursor) /\
     result r <> CUDA_SUCCESS /\
     e = InternalError (MsgOperationFailed fn_cuMemsetD8Async (result r))).

(** The parameter a descriptor's parameter stands for, if it has a value. *)
Definition decoded_parameter (p : TritonKernelCall_Parameter) : option CallParameter :=
  match p with
  | value_array a => Some (Array a)
  | kBool b => Some (Scalar (bool_ b))
  | kI32 v => Some (Scalar (i32 v))
  | kU32 v => Some (Scalar (u32 v))
  | kI64 v => Some (Scalar (i64 v))
  | kU64 v => Some (Scalar (u64 v))
  | VALUE_NOT_SET => None
  end.

(** [c] is the call the descriptor [p] stands for, in a world whose kernel
    cache holds [c]'s kernel under the key of [p]'s kernel. *)
Definition decoded_call (w : World) (p : TritonKernelCall) (c : KernelCall) : Prop :=
  kernels w !! kernel_key (kernel p) = Some (kernel_ c) /\
  grid_ c = (grid_0 p, grid_1 p, grid_2 p) /\
  Forall2 (fun x y => decoded_parameter x = Some y) (parameters p) (parameters_ c).

Definition decoded_config (w : World) (p : TritonAutotunedKernelCall_Config)
    (c : Config) : Prop :=
  description c = config_description p /\
  decoded_call w (config_kernel_call p) (kernel_call c).

(** A call descriptor one of whose parameters has no value. *)
Definition unset_call : TritonKernelCall :=
  {| kernel := some_kernel; grid_0 := 4; grid_1 := 1; grid_2 := 1;
     parameters := [kI32 7; VALUE_NOT_SET] |}.

(** An autotuned descriptor with two configs on the same kernel. *)
Definition twin_configs : TritonAutotunedKernelCall :=
  {| name := "f";
     configs := [{| config_kernel_call := some_call; config_description := "A" |};
                 {| config_kernel_call := some_call; config_description := "B" |}];
     input_output_aliases :=
       [{| input_buffer_idx := 0; output_buffer_idx := 1; buffer_size_bytes := 16 |}] |}.

(** ** Call objects over time *)

(** [c'] is [c] after some autotuning: some configs may have gone, none has
    been added, and if there were any there still are; the rest of the
    object is as it was. *)
Definition call_evolves (c c' : AutotunedKernelCall) : Prop :=
  name_ c' = name_ c /\
  input_output_aliases_ c' = input_output_aliases_ c /\
  autotune_once_ c' = autotune_once_ c /\
  autotune_status_ c' = autotune_status_ c /\
  configs_ c' ⊆+ configs_ c /\
  (configs_ c <> [] -> configs_ c' <> []).

(** From [w] to [w'] the call cache is untouched, and so are the call
    objects, except that the autotuned call at [self] may have evolved. *)
Definition tuned (self : nat) (w w' : World) : Prop :=
  kernel_calls w' = kernel_calls w /\
  length (call_heap w') = length (call_heap w) /\
  (forall a, a <> self -> call_heap w' !! a = call_heap w !! a) /\
  forall c, call_heap w !! self = Some (IsAutotunedKernelCall c) ->
    exists c', call_heap w' !! self = Some (IsAutotunedKernelCall c') /\
               call_evolves c c'.

(** A driver that refuses to synchronize any stream. *)
Definition sync_refusing_driver (t : list Event) (c : DriverCall) : DriverReply :=
  match c with
  | cuStreamSynchronize _ => error_reply 700
  | _ => timing_driver t c
  end.

(** [Autotune] on the two configs of different speed. *)
Definition a_and_b_autotune (drv : list Event -> DriverCall -> DriverReply)
    : Result unit * World :=
  AutotunedKernelCall.Autotune (env_of drv) 0 5 [] a_and_b_world.

(** An autotuned call with a single config, not launched yet. *)
Definition only_a : AutotunedKernelCall :=
  {| name_ := "f";
     configs_ := [config_on 4 "A"];
     input_output_aliases_ := [];
     autotune_once_ := false;
     autotune_status_ := OkStatus |}.

Definition only_a_world : World :=
  set_call_heap [IsAutotunedKernelCall only_a] (one_kernel_world 0).

(** ** Benchmarks *)

(** The number of kernel launches in a stretch of the trace. *)
Definition kernel_launches (t : list Event) : nat :=
  length (omap (fun e => match e with
                         | EvDriver (cuLaunchKernel _ _ _ _ _ _) r => Some r
                         | _ => None
                         end) t).

(** Events that are not calls on driver events (the timers of a benchmark). *)
Definition not_a_timer (e : Event) : Prop :=
  match event_fn e with
  | Some fn_cuEventCreate | Some fn_cuEventRecord | Some fn_cuEventSynchronize
  | Some fn_cuEventElapsedTime | Some fn_cuEventDestroy => False
  | _ => True
  end.

(** The trace of a benchmark of [n] iterations that succeeds: the two
    events are created; the warm-up runs; [start] is recorded, the [timed]
    launches run, [stop] is recorded and awaited; the time between the two
    is read and both events are destroyed. *)
Definition benchmark_trace (stream : CUstream)
    (start stop recorded_start recorded_stop awaited elapsed destroyed_start
       destroyed_stop : DriverReply)
    (warm_up timed : list Event) : list Event :=
  [EvDriver cuEventCreate start; EvDriver cuEventCreate stop]
  ++ warm_up
  ++ [EvDriver (cuEventRecord (out start) stream) recorded_start]
  ++ timed
  ++ [EvDriver (cuEventRecord (out stop) stream) recorded_stop;
      EvDriver (cuEventSynchronize (out stop)) awaited;
      EvDriver (cuEventElapsedTime (out start) (out stop)) elapsed;
      EvDriver (cuEventDestroy (out start)) destroyed_start;
      EvDriver (cuEventDestroy (out stop)) destroyed_stop].


(** A driver whose benchmarks all take a NaN of milliseconds. *)
Definition nan_timing_driver (t : list Event) (c : DriverCall) : DriverReply :=
  match c with
  | cuEventElapsedTime _ _ => ok_reply 0 S754_nan
  | _ => obliging_driver t c
  end.

(** ** Building calls *)

Definition not_a_driver_call (e : Event) : Prop := event_fn e = None.

(** The capacity [uncompress] is offered on its try number [j]: five times
    the size of the opaque, doubled [j] times, as a [uLongf]. *)
Definition capacity (opaque : string) (j : nat) : Z :=
  wrap64 (5 * Z.of_nat (String.length opaque) * 2 ^ Z.of_nat j).

(** What the loop makes of an answer of [uncompress] other than
    [Z_BUF_ERROR]. *)
Definition uncompressed (answer : ZlibResult) : Result string :=
  match answer with
  | Z_OK serialized => Ok serialized
  | _ => Err (InvalidArgumentError MsgFailedToUncompress)
  end.

(** A codec that needs a buffer of at least 64 bytes. *)
Definition demanding_uncompress (dest_len : Z) (source : string) : ZlibResult :=
  if dest_len <? 64 then Z_BUF_ERROR else toy_uncompress dest_len source.

Definition demanding_env : Environment :=
  {| driver := obliging_driver;
     CompileGpuAsm := fun _ _ ptx => inr ptx;
     uncompress := demanding_uncompress;
     ParseFromString := toy_parse |}.

(** An environment whose assembler rejects every source. *)
Definition failing_assembler_env : Environment :=
  {| driver := obliging_driver;
     CompileGpuAsm := fun _ _ _ =>
       inl {| code := kInternal; message := MsgExternal "ptxas failed" |};
     uncompress := toy_uncompress;
     ParseFromString := toy_parse |}.

(** ** Scopes

    A mutex is held from its lock to its unlock, and a context is current
    from the push the driver accepted to the pop. *)

Inductive Scope :=
| ScopeLock (m : MutexId)
| ScopeContext.

(** The scopes left open by [t], starting with [open]; [None] when [t]
    closes a scope that is not the innermost open one. *)
Fixpoint unwind (t : list Event) (open : list Scope) : option (list Scope) :=
  match t with
  | [] => Some open
  | EvLock m :: rest => unwind rest (ScopeLock m :: open)
  | EvUnlock m :: rest =>
      match open with
      | ScopeLock m' :: outer => if same_mutex m m' then unwind rest outer else None
      | _ => None
      end
  | EvDriver (cuCtxPushCurrent _) r :: rest =>
      match result r with
      | CUDA_SUCCESS => unwind rest (ScopeContext :: open)
      | _ => unwind rest open
      end
  | EvDriver cuCtxPopCurrent _ :: rest =>
      match open with
      | ScopeContext :: outer => unwind rest outer
      | _ => None
      end
  | _ :: rest => unwind rest open
  end.

(** [evs] closes every scope it opens, innermost first, and no other. *)
Definition well_nested (evs : list Event) : Prop :=
  forall open, unwind evs open = Some open.

(** Whenever [m] returns, with a value or an error, what it has added to
    the trace is well nested. *)
Definition settles {A} (m : M A) : Prop :=
  forall w r w', m w = (r, w') -> (forall f, r <> Fatal f) ->
    exists evs, trace w' = trace w ++ evs /\ well_nested evs.

Definition scope_free (e : Event) : Prop :=
  match e with
  | EvLock _ | EvUnlock _ => False
  | EvDriver (cuCtxPushCurrent _) _ | EvDriver cuCtxPopCurrent _ => False
  | _ => True
  end.

(** The entry point on the autotuned call of two configs, found in the
    call cache under the key [ab]. *)
Definition a_and_b_cached : World :=
  set_kernel_calls {[ "ab"%string := 0%nat ]} a_and_b_world.

Definition a_and_b_entry : Result Status * World :=
  LaunchTritonKernel (env_of timing_driver) 8 5 [] "ab" a_and_b_cached.

(** ** Compute capabilities *)

(** A driver for the module: device 0 is of compute capability 8.6. *)
Definition ampere_driver (t : ModuleTrace) (c : ModuleCall) : DriverReply :=
  match c with
  | cuInit _ => ok_reply 0 (S754_zero false)
  | cuDeviceGetAttribute_COMPUTE_CAPABILITY_MAJOR _ => ok_reply 8 (S754_zero false)
  | cuDeviceGetAttribute_COMPUTE_CAPABILITY_MINOR _ => ok_reply 6 (S754_zero false)
  end.

(** The kernel descriptor [some_kernel] for a device of capability [cc]. *)
Definition kernel_for_capability (cc : Z) : TritonKernel :=
  {| ptx := "ptx"; kernel_name := "kernel"; num_warps := 4;
     shared_mem_bytes := 0; compute_capability := cc |}.

(** ** Launches that go through *)

(** The driver accepts every call. *)
Definition accepting (drv : list Event -> DriverCall -> DriverReply) : Prop :=
  forall t c, result (drv t c) = CUDA_SUCCESS.

(** The shared memory kernel [k] asks for is granted: it is within the
    static limit, or within the opt-in limit the driver reports for every
    device. *)
Definition shared_memory_granted (env : Environment) (k : Kernel) : Prop :=
  shared_mem_bytes_ k <= Kernel.kMaxStaticSharedMemBytes \/
  forall t device,
    shared_mem_bytes_ k <=
      wrap32 (out (driver env t
                     (cuDeviceGetAttribute
                        CU_DEVICE_ATTRIBUTE_MAX_SHARED_MEMORY_PER_BLOCK_OPTIN device))).

(** The call [kc] can be launched on [buffers] in [w]: its kernel is there
    and is granted its shared memory, there is a buffer for each of its
    array parameters, and no parameter that requires alignment is handed a
    misaligned pointer. *)
Definition launchable (env : Environment) (buffers : list CUdeviceptr)
    (kc : KernelCall) (w : World) : Prop :=
  (exists k, kernel_heap w !! kernel_ kc = Some k /\ shared_memory_granted env k) /\
  (arrays_before (parameters_ kc) (length (parameters_ kc)) <= length buffers)%nat /\
  (forall j q, ~ offending buffers (parameters_ kc) 0 j q).

(** Every config of [cs] can be launched. *)
Definition ready (env : Environment) (buffers : list CUdeviceptr)
    (cs : list Config) (w : World) : Prop :=
  forall c, c ∈ cs -> launchable env buffers (kernel_call c) w.

(** The object at [self] is [obj] with its configs in some order. *)
Definition reordered (self : nat) (obj : AutotunedKernelCall) (w : World) : Prop :=
  exists cs, call_heap w !! self = Some (IsAutotunedKernelCall (with_configs cs obj)) /\
             cs ≡ₚ configs_ obj.

(** Every kernel launch among [evs] is a launch of the call [kc] on
    [stream]: on its grid, with the buffers bound to its parameters by
    position. *)
Definition launches_of (kc : KernelCall) (stream : CUstream)
    (buffers : list CUdeviceptr) (evs : list Event) : Prop :=
  forall f g b sh st params reply,
    EvDriver (cuLaunchKernel f g b sh st params) reply ∈ evs ->
    g = grid_ kc /\ st = stream /\
    bound_positionally buffers (parameters_ kc) 0 params.

(** ** The benchmarks of an autotuning *)

(** [run] is the trace of a benchmark of the call [kc] over [n] iterations
    that returned the time [t]: one launch of [kc] to warm up, [n] launches
    of [kc] between the two recorded events, nothing logged, and [t] is the
    time the driver reports between the two events. *)
Definition benchmark_run (stream : CUstream) (buffers : list CUdeviceptr)
    (kc : KernelCall) (n : Z) (t : float) (run : list Event) : Prop :=
  exists start stop recorded_start recorded_stop awaited elapsed destroyed_start
         destroyed_stop warm_up timed,
    run = benchmark_trace stream start stop recorded_start recorded_stop awaited
            elapsed destroyed_start destroyed_stop warm_up timed /\
    t = out_ms elapsed /\
    kernel_launches warm_up = 1%nat /\ kernel_launches timed = Z.to_nat n /\
    launches_of kc stream buffers warm_up /\ launches_of kc stream buffers timed /\
    Forall not_a_timer warm_up /\ Forall not_a_timer timed /\
    Forall quiet warm_up /\ Forall quiet timed.

(** [runs] are the traces of the benchmarks of the configs [cs], in order,
    each over [n] iterations, and [ts] the times they returned. *)
Definition benchmarks (stream : CUstream) (buffers : list CUdeviceptr) (n : Z)
    (cs : list Config) (ts : list float) (runs : list (list Event)) : Prop :=
  Forall3 (fun c t run => benchmark_run stream buffers (kernel_call c) n t run)
    cs ts runs.

(** The trace of the loop that runs one iteration of each config: each
    benchmark is followed by the line that reports its time. *)
Fixpoint calibration_trace (cs : list Config) (ts : list float)
    (runs : list (list Event)) : list Event :=
  match cs, ts, runs with
  | c :: cs', t :: ts', run :: runs' =>
      run ++ EvLog (LogRan1Iter (description c) t) :: calibration_trace cs' ts' runs'
  | _, _, _ => []
  end.

(** The trace of the benchmarking loop over [n] iterations, [best] being
    the best time so far: each benchmark is followed by the line that
    reports its time, and by the line that announces a new best config when
    its time is below the best so far. *)
Fixpoint selection_trace (n : Z) (cs : list Config) (ts : list float)
    (runs : list (list Event)) (best : float) : list Event :=
  match cs, ts, runs with
  | c :: cs', t :: ts', run :: runs' =>
      run ++ EvLog (LogRanIters (description c) n t) ::
        (if f32_ltb t best
         then EvLog (LogNewBest (description c)) :: selection_trace n cs' ts' runs' t
         else selection_trace n cs' ts' runs' best)
  | _, _, _ => []
  end.

(** The driver calls of [Autotune] outside its benchmarks: on the context,
    on the copies of the aliased inputs, and the final synchronization. *)
Definition housekeeping (e : Event) : Prop :=
  match event_fn e with
  | Some fn_cuStreamGetCtx | Some fn_cuCtxPushCurrent | Some fn_cuCtxPopCurrent
  | Some fn_cuMemcpyDtoHAsync | Some fn_cuMemcpyHtoDAsync
  | Some fn_cuStreamSynchronize => True
  | _ => False
  end.

(** [evs] is the trace of an autotuning of [obj] up to the end of the loop
    that runs one iteration of each config, which measured the times [ts]:
    driver calls on the context and on the copies of the aliased inputs,
    the line that announces the autotuning, and the benchmarks of the
    configs over one iteration, in order. *)
Definition calibration (stream : CUstream) (buffers : list CUdeviceptr)
    (obj : AutotunedKernelCall) (ts : list float) (evs : list Event) : Prop :=
  exists pre runs,
    evs = pre ++ EvLog (LogAutotuning (name_ obj))
              :: calibration_trace (configs_ obj) ts runs /\
    Forall housekeeping pre /\
    benchmarks stream buffers 1 (configs_ obj) ts runs.

(** [evs] is the trace of the benchmarking loop of [obj] over [n]
    iterations, which measured the times [ts]: the benchmarks of the configs
    over [n] iterations, in the original order. *)
Definition selection (stream : CUstream) (buffers : list CUdeviceptr)
    (obj : AutotunedKernelCall) (n : Z) (ts : list float) (evs : list Event)
    : Prop :=
  exists runs,
    evs = selection_trace n (configs_ obj) ts runs f32_infinity /\
    benchmarks stream buffers n (configs_ obj) ts runs.

(** Nothing stands in the way of an autotuning of [obj] on [buffers] in
    [w]: the driver accepts every call, every config can be launched, the
    buffers of the aliases are there, and the quotient of the target time by
    any time the driver reports has an [int] value. *)
Definition unhindered (env : Environment) (buffers : list CUdeviceptr)
    (obj : AutotunedKernelCall) (w : World) : Prop :=
  accepting (driver env) /\
  ready env buffers (configs_ obj) w /\
  (forall i o size, (i, o, size) ∈ input_output_aliases_ obj ->
     (i < length buffers)%nat /\ (o < length buffers)%nat) /\
  (forall t start stop,
     is_Some (static_cast_int
                (f32_div AutotunedKernelCall.kBenchmarkTimeMillis
                   (out_ms (driver env t (cuEventElapsedTime start stop)))))).

(** The line that announces the iteration count, [quotient] being the
    target time over the best calibration time, as an [int]. *)
Definition announcement (quotient : Z) : LogLine :=
  if 100 <? Z.max quotient 1 then LogBenchmarkingCapped
  else LogBenchmarkingWith (Z.min (Z.max quotient 1) 100).

(** Events of an autotuning that has not settled on an iteration count:
    no count is announced, no timed run is reported, nothing is selected. *)
Definition uncalibrated (e : Event) : Prop :=
  match e with
  | EvLog (LogAutotuning _) | EvLog (LogRan1Iter _ _) => True
  | EvLog _ => False
  | _ => True
  end.

Definition not_ok {A} (r : Result A) : Prop := forall a, r <> Ok a.

(** A timed run reported in [evs] ran [n] iterations. *)
Definition timed_with (n : Z) (e : Event) : Prop :=
  forall d m t, e = EvLog (LogRanIters d m t) -> m = n.

(** A driver on which no time at all passes between two events. *)
Definition zero_timing_driver (t : list Event) (c : DriverCall) : DriverReply :=
  match c with
  | cuEventElapsedTime _ _ => ok_reply 0 (S754_zero false)
  | _ => obliging_driver t c
  end.
(** * Properties of launcher code *)

(** ** Relations every step of a computation respects *)

Section Respects.
Context (R : World -> World -> Prop).
Context (R_refl : forall w, R w w).
Context (R_trans : forall w1 w2 w3, R w1 w2 -> R w2 w3 -> R w1 w3).

Lemma respects_ret {A} (a : A) : respects R (ret a).
Proof. intros w r w' [= _ <-]. apply R_refl. Qed.

Lemma respects_fail {A} (e : Error) : respects R (@fail A e).
Proof. intros w r w' [= _ <-]. apply R_refl. Qed.

Lemma respects_fatal {A} (f : Fault) : respects R (@fatal A f).
Proof. intros w r w' [= _ <-]. apply R_refl. Qed.

Lemma respects_bind {A B} (m : M A) (k : A -> M B) :
  respects R m -> (forall a, respects R (k a)) -> respects R (bind m k).
Proof.
  intros Hm Hk w r w'. unfold bind.
  destruct (m w) as [[a | e | f] w1] eqn:E; intros H.
  - eapply R_trans; [eapply Hm, E | eapply Hk, H].
  - injection H as _ <-. eapply Hm, E.
  - injection H as _ <-. eapply Hm, E.
Qed.

Lemma respects_finally {A} (body : M A) (cleanup : World -> World) :
  respects R body -> (forall w, R w (cleanup w)) -> respects R (finally body cleanup).
Proof.
  intros Hb Hc w r w'. unfold finally.
  destruct (body w) as [[a | e | f] w1] eqn:E; intros [= _ <-];
    try (eapply R_trans; [eapply Hb, E | apply Hc]).
  eapply Hb, E.
Qed.

Lemma respects_status_of (m : M unit) : respects R m -> respects R (status_of m).
Proof.
  intros Hm w r w'. unfold status_of.
  destruct (m w) as [[a | e | f] w1] eqn:E; intros [= _ <-]; eapply Hm, E.
Qed.

(** Code that first looks at the world. *)
Lemma respects_read {A} (f : World -> M A) :
  (forall w0, respects R (f w0)) -> respects R (fun w => f w w).
Proof. intros Hf w r w' H. eapply Hf, H. Qed.

Lemma respects_JAX_RETURN_IF_ERROR (s : Status) : respects R (JAX_RETURN_IF_ERROR s).
Proof. destruct s; [apply respects_ret | apply respects_fail]. Qed.

Lemma respects_read_buffer buffers i : respects R (read_buffer buffers i).
Proof.
  unfold read_buffer. destruct (buffers !! i);
    [apply respects_ret | apply respects_fatal].
Qed.

Lemma respects_load_kernel k : respects R (load_kernel k).
Proof.
  intros w r w'. unfold load_kernel.
  destruct (kernel_heap w !! k); intros [= _ <-]; apply R_refl.
Qed.

Lemma respects_load_autotuned a : respects R (load_autotuned a).
Proof.
  intros w r w'. unfold load_autotuned.
  destruct (call_heap w !! a) as [[c | c] |]; intros [= _ <-]; apply R_refl.
Qed.

(** A computation that changes the world by [f] and cannot fail. *)
Lemma respects_update {A} (a : World -> A) (f : World -> World) :
  (forall w, R w (f w)) -> respects R (fun w => (Ok (a w), f w)).
Proof. intros Hf w r w' [= _ <-]. apply Hf. Qed.
End Respects.

(** ** What a computation adds to the trace *)

Lemma emits_refl P w : emits P w w.
Proof. exists []. by rewrite app_nil_r. Qed.

Lemma emits_trans P w1 w2 w3 : emits P w1 w2 -> emits P w2 w3 -> emits P w1 w3.
Proof.
intros (e1 & H1 & F1) (e2 & H2 & F2). exists (e1 ++ e2). split.
- by rewrite H2, H1, app_assoc.
- by apply Forall_app.
Qed.

Lemma emits_weaken (P Q : Event -> Prop) w w' :
(forall e, P e -> Q e) -> emits P w w' -> emits Q w w'.
Proof.
intros HPQ (evs & H & F). exists evs. split; [done |].
eapply Forall_impl; eauto.
Qed.

Lemma emits_record P e w : P e -> emits P w (record e w).
Proof. intros He. exists [e]. split; [done | by constructor]. Qed.

Lemma emits_same_trace P w w' : trace w' = trace w -> emits P w w'.
Proof. intros H. exists []. by rewrite app_nil_r. Qed.

Section Emits.
Context (env : Environment) (P : Event -> Prop).

Lemma emits_bind {A B} (m : M A) (k : A -> M B) :
  respects (emits P) m -> (forall a, respects (emits P) (k a)) -> respects (emits P) (bind m k).
Proof. apply respects_bind, emits_trans. Qed.

Lemma emits_emit e : P e -> respects (emits P) (emit e).
Proof. intros He w r w' [= _ <-]. by apply emits_record. Qed.

Lemma emits_call c : (forall r, P (EvDriver c r)) -> respects (emits P) (call env c).
Proof. intros Hc w r w' [= _ <-]. apply emits_record, Hc. Qed.

Lemma emits_CUDA_RETURN_IF_ERROR c :
  (forall r, P (EvDriver c r)) -> respects (emits P) (CUDA_RETURN_IF_ERROR env c).
Proof.
  intros Hc. unfold CUDA_RETURN_IF_ERROR.
  apply emits_bind; [by apply emits_call |]. intros r.
  apply emits_bind; [apply respects_JAX_RETURN_IF_ERROR, emits_refl |].
  intros _. apply respects_ret, emits_refl.
Qed.

Lemma emits_with_lock {A} m (body : M A) :
  P (EvLock m) -> P (EvUnlock m) -> respects (emits P) body -> respects (emits P) (with_lock m body).
Proof.
  intros Hl Hu Hb. unfold with_lock.
  apply emits_bind; [by apply emits_emit |]. intros _.
  apply respects_finally; [apply emits_trans | done |].
  intros w. by apply emits_record.
Qed.

Lemma emits_store_kernel k x : respects (emits P) (store_kernel k x).
Proof. intros w r w' [= _ <-]. by apply emits_same_trace. Qed.

Lemma emits_store_autotuned a c : respects (emits P) (store_autotuned a c).
Proof. intros w r w' [= _ <-]. by apply emits_same_trace. Qed.
End Emits.

(** ** The errors a computation returns *)

Section FailsOnly.
Context (env : Environment) (Q : Error -> Prop).

Lemma fails_only_ret {A} (a : A) : fails_only Q (ret a).
Proof. by intros w e w'. Qed.

Lemma fails_only_fatal {A} (f : Fault) : fails_only Q (@fatal A f).
Proof. by intros w e w'. Qed.

Lemma fails_only_fail {A} (e : Error) : Q e -> fails_only Q (@fail A e).
Proof. by intros He w e' w' [= <- _]. Qed.

Lemma fails_only_bind {A B} (m : M A) (k : A -> M B) :
  fails_only Q m -> (forall a, fails_only Q (k a)) -> fails_only Q (bind m k).
Proof.
  intros Hm Hk w e w'. unfold bind.
  destruct (m w) as [[a | e0 | f] w1] eqn:E; intros H.
  - eapply Hk, H.
  - injection H as <- _. eapply Hm, E.
  - done.
Qed.

Lemma fails_only_finally {A} (body : M A) cleanup :
  fails_only Q body -> fails_only Q (finally body cleanup).
Proof.
  intros Hb w e w'. unfold finally.
  destruct (body w) as [[a | e0 | f] w1] eqn:E; intros [= <-]. eapply Hb, E.
Qed.

Lemma fails_only_with_lock {A} m (body : M A) :
  fails_only Q body -> fails_only Q (with_lock m body).
Proof.
  intros Hb. unfold with_lock. apply fails_only_bind; [by intros w e w' |].
  intros _. by apply fails_only_finally.
Qed.

Lemma fails_only_read {A} (f : World -> M A) :
  (forall w0, fails_only Q (f w0)) -> fails_only Q (fun w => f w w).
Proof. intros Hf w e w' H. eapply Hf, H. Qed.

Lemma fails_only_CUDA_RETURN_IF_ERROR c :
  (forall err, Q (InternalError (MsgOperationFailed (fn_of c) err))) ->
  fails_only Q (CUDA_RETURN_IF_ERROR env c).
Proof.
  intros Hc w e w'. unfold CUDA_RETURN_IF_ERROR, bind, call. simpl.
  destruct (result _); simpl; [done |]. by intros [= <- _].
Qed.

Lemma fails_only_load_kernel k : fails_only Q (load_kernel k).
Proof. intros w e w'. unfold load_kernel. by destruct (_ !! _). Qed.

Lemma fails_only_store_kernel k x : fails_only Q (store_kernel k x).
Proof. by intros w e w'. Qed.

Lemma fails_only_read_buffer buffers i : fails_only Q (read_buffer buffers i).
Proof. intros w e w'. unfold read_buffer. by destruct (_ !! _). Qed.
End FailsOnly.

(** ** Taking computations apart *)

Lemma bind_Ok {A B} (m : M A) (k : A -> M B) w b w' :
  bind m k w = (Ok b, w') ->
  exists a w1, m w = (Ok a, w1) /\ k a w1 = (Ok b, w').
Proof.
  unfold bind. destruct (m w) as [[a | e | f] w1]; [eauto | done | done].
Qed.

Lemma bind_Err {A B} (m : M A) (k : A -> M B) w e w' :
  bind m k w = (Err e, w') ->
  m w = (Err e, w') \/ exists a w1, m w = (Ok a, w1) /\ k a w1 = (Err e, w').
Proof.
  unfold bind. destruct (m w) as [[a | e0 | f] w1]; [eauto | | done].
  intros [= <- <-]. by left.
Qed.

Section DriverCalls.
Context (env : Environment).

Lemma CUDA_RETURN_IF_ERROR_inv c w r w' :
  CUDA_RETURN_IF_ERROR env c w = (r, w') ->
  exists reply,
    reply = driver env (trace w) c /\ w' = record (EvDriver c reply) w /\
    ((result reply = CUDA_SUCCESS /\ r = Ok reply) \/
     (result reply <> CUDA_SUCCESS /\
      r = Err (InternalError (MsgOperationFailed (fn_of c) (result reply))))).
Proof.
  unfold CUDA_RETURN_IF_ERROR, bind, call. simpl.
  destruct (result _) eqn:R; simpl; intros [= <- <-];
    (eexists; split; [reflexivity |]; split; [done |]).
  - by left.
  - right. by rewrite R.
Qed.

Lemma CUDA_RETURN_IF_ERROR_Ok c w reply w' :
  CUDA_RETURN_IF_ERROR env c w = (Ok reply, w') ->
  reply = driver env (trace w) c /\ result reply = CUDA_SUCCESS /\
  w' = record (EvDriver c reply) w.
Proof.
  intros H. apply CUDA_RETURN_IF_ERROR_inv in H as (r & Hr & -> & [[? [= <-]] | [_ [=]]]).
  done.
Qed.
End DriverCalls.

(** ** class Kernel *)

Section KernelLemmas.
Context (env : Environment).

Lemma setup_dynamic_shared_memory_emits k function :
  respects (emits resolution_event)
    (Kernel.setup_dynamic_shared_memory env k function).
Proof.
  unfold Kernel.setup_dynamic_shared_memory.
  apply emits_bind; [by apply emits_CUDA_RETURN_IF_ERROR |]. intros device.
  apply emits_bind; [by apply emits_CUDA_RETURN_IF_ERROR |]. intros shared_optin.
  destruct (_ <? _); [apply respects_fail, emits_refl |].
  destruct (_ <? _); [| apply respects_ret, emits_refl].
  repeat (apply emits_bind; [by apply emits_CUDA_RETURN_IF_ERROR | intros ?]).
  apply respects_ret, emits_refl.
Qed.

Lemma functions_insert_emits self context function :
  respects (emits resolution_event) (Kernel.functions_insert self context function).
Proof.
  unfold Kernel.functions_insert.
  apply emits_bind; [apply respects_load_kernel, emits_refl |]. intros k.
  destruct (_ !! _); [apply respects_fatal, emits_refl | apply emits_store_kernel].
Qed.

Lemma load_function_emits self context :
  respects (emits resolution_event) (Kernel.load_function env self context).
Proof.
  unfold Kernel.load_function.
  apply emits_bind; [apply respects_load_kernel, emits_refl |]. intros k.
  apply emits_bind; [by apply emits_CUDA_RETURN_IF_ERROR |]. intros module.
  apply emits_bind; [apply emits_store_kernel |]. intros _.
  apply emits_bind; [by apply emits_CUDA_RETURN_IF_ERROR |]. intros function.
  apply emits_bind; [apply functions_insert_emits |]. intros _.
  destruct (_ <=? _); [apply respects_ret, emits_refl |].
  apply setup_dynamic_shared_memory_emits.
Qed.

Lemma GetFunctionForContext_emits self context :
  respects (emits resolution_event) (Kernel.GetFunctionForContext env self context).
Proof.
  unfold Kernel.GetFunctionForContext.
  apply emits_with_lock; [done | done |].
  apply emits_bind; [apply respects_load_kernel, emits_refl |]. intros k.
  destruct (_ !! _); [apply respects_ret, emits_refl |].
  apply emits_bind; [by apply emits_CUDA_RETURN_IF_ERROR |]. intros _.
  apply respects_finally; [apply emits_trans | apply load_function_emits |].
  intros w. by apply emits_record.
Qed.

Lemma Kernel_Launch_emits self stream grid params :
  respects (emits (launch_event stream grid params))
    (Kernel.Launch env self stream grid params).
Proof.
  unfold Kernel.Launch.
  apply emits_bind.
  { apply emits_CUDA_RETURN_IF_ERROR. intros r. right. left. by exists r. }
  intros context. apply emits_bind.
  { intros w r w' H. eapply emits_weaken; [| eapply GetFunctionForContext_emits, H].
    intros e He. by left. }
  intros function.
  apply emits_bind; [apply respects_load_kernel, emits_refl |]. intros k.
  apply emits_bind; [| intros _; apply respects_ret, emits_refl].
  apply emits_CUDA_RETURN_IF_ERROR. intros r. right. right. by eexists _, _, _, r.
Qed.

Lemma GetFunctionForContext_fails_only self context :
  fails_only kernel_failure (Kernel.GetFunctionForContext env self context).
Proof.
  assert (forall c, fails_only kernel_failure (CUDA_RETURN_IF_ERROR env c)) as Hc.
  { intros c. apply fails_only_CUDA_RETURN_IF_ERROR. intros err. left. by eexists _, _. }
  unfold Kernel.GetFunctionForContext.
  apply fails_only_with_lock.
  apply fails_only_bind; [apply fails_only_load_kernel |]. intros k.
  destruct (_ !! _); [apply fails_only_ret |].
  apply fails_only_bind; [apply Hc |]. intros _.
  apply fails_only_finally. unfold Kernel.load_function.
  apply fails_only_bind; [apply fails_only_load_kernel |]. intros k0.
  apply fails_only_bind; [apply Hc |]. intros module.
  apply fails_only_bind; [apply fails_only_store_kernel |]. intros _.
  apply fails_only_bind; [apply Hc |]. intros function.
  apply fails_only_bind.
  { unfold Kernel.functions_insert.
    apply fails_only_bind; [apply fails_only_load_kernel |]. intros k1.
    destruct (_ !! _); [apply fails_only_fatal | apply fails_only_store_kernel]. }
  intros _. destruct (_ <=? _); [apply fails_only_ret |].
  unfold Kernel.setup_dynamic_shared_memory.
  apply fails_only_bind; [apply Hc |]. intros device.
  apply fails_only_bind; [apply Hc |]. intros shared_optin.
  destruct (_ <? _); [apply fails_only_fail; by right |].
  destruct (_ <? _); [| apply fails_only_ret].
  repeat (apply fails_only_bind; [apply Hc | intros ?]).
  apply fails_only_ret.
Qed.

Lemma Kernel_Launch_fails_only self stream grid params :
  fails_only kernel_failure (Kernel.Launch env self stream grid params).
Proof.
  assert (forall c, fails_only kernel_failure (CUDA_RETURN_IF_ERROR env c)) as Hc.
  { intros c. apply fails_only_CUDA_RETURN_IF_ERROR. intros err. left. by eexists _, _. }
  unfold Kernel.Launch.
  apply fails_only_bind; [apply Hc |]. intros context.
  apply fails_only_bind; [apply GetFunctionForContext_fails_only |]. intros function.
  apply fails_only_bind; [apply fails_only_load_kernel |]. intros k.
  apply fails_only_bind; [apply Hc |]. intros _. apply fails_only_ret.
Qed.

(** A launch that returns ok has issued exactly one [cuLaunchKernel], last,
    and the driver accepted it. *)
Lemma Kernel_Launch_Ok self stream grid params w w' :
  Kernel.Launch env self stream grid params w = (Ok tt, w') ->
  exists evs f b sh r,
    trace w' = trace w ++ evs ++ [EvDriver (cuLaunchKernel f grid b sh stream params) r] /\
    Forall not_a_launch evs /\ result r = CUDA_SUCCESS.
Proof.
  unfold Kernel.Launch. intros H.
  apply bind_Ok in H as (context & w1 & H1 & H).
  apply bind_Ok in H as (function & w2 & H2 & H).
  apply bind_Ok in H as (k & w3 & H3 & H).
  apply bind_Ok in H as (reply & w4 & H4 & [= <-]).
  apply CUDA_RETURN_IF_ERROR_Ok in H1 as (-> & _ & ->).
  apply GetFunctionForContext_emits in H2 as (evs & Htr & Hall).
  assert (w3 = w2) as ->.
  { unfold load_kernel in H3. destruct (_ !! _); by injection H3 as _ <-. }
  apply CUDA_RETURN_IF_ERROR_Ok in H4 as (-> & Hok & ->).
  eexists (_ :: evs), _, _, _, _. split; [| split; [| exact Hok]].
  - simpl. rewrite Htr. simpl. by rewrite <- !app_assoc.
  - constructor; [done |]. eapply Forall_impl; [exact Hall |].
    intros [c r | | | |]; simpl; try done. unfold not_a_launch. simpl.
    intros Hc [= Hf]. by rewrite Hf in Hc.
Qed.
End KernelLemmas.

(** ** The parameter loop of KernelCall::Launch *)

Section BindParameters.
Context (env : Environment) (stream : CUstream) (buffers : list CUdeviceptr).

Lemma zero_fill_emits a ptr :
  respects (emits is_zero_fill) (KernelCall.zero_fill env a ptr stream).
Proof.
  unfold KernelCall.zero_fill. destruct (0 <? bytes_to_zero a).
  - apply emits_bind; [by apply emits_CUDA_RETURN_IF_ERROR |].
    intros _. apply respects_ret, emits_refl.
  - apply respects_ret, emits_refl.
Qed.

Lemma bind_parameters_emits ps : forall i cursor params,
  respects (emits is_zero_fill)
    (KernelCall.bind_parameters env ps i stream buffers cursor params).
Proof.
  induction ps as [| [a | s] rest IH]; intros i cursor params; simpl.
  - apply respects_ret, emits_refl.
  - apply emits_bind; [apply respects_read_buffer, emits_refl |]. intros ptr.
    destruct (_ && _); [apply respects_fail, emits_refl |].
    apply emits_bind; [apply zero_fill_emits | auto].
  - apply IH.
Qed.

(** What [zero_fill] does, case by case. *)
Lemma zero_fill_inv a ptr w r w' :
  KernelCall.zero_fill env a ptr stream w = (r, w') ->
  (bytes_to_zero a <= 0 /\ r = Ok tt /\ w' = w) \/
  (0 < bytes_to_zero a /\
   exists reply,
     w' = record (EvDriver (cuMemsetD8Async ptr 0 (bytes_to_zero a) stream) reply) w /\
     ((result reply = CUDA_SUCCESS /\ r = Ok tt) \/
      (result reply <> CUDA_SUCCESS /\
       r = Err (InternalError (MsgOperationFailed fn_cuMemsetD8Async (result reply)))))).
Proof.
  unfold KernelCall.zero_fill. destruct (0 <? bytes_to_zero a) eqn:E.
  - apply Z.ltb_lt in E. intros H. right. split; [done |].
    unfold bind, CUDA_RETURN_IF_ERROR, bind, call in H. simpl in H.
    eexists. split.
    + destruct (result _) eqn:R in H; simpl in H; by injection H as _ <-.
    + destruct (result _) eqn:R in H; simpl in H; injection H as <- _.
      * by left.
      * right. by rewrite R.
  - apply Z.ltb_ge in E. intros [= <- <-]. by left.
Qed.

Lemma read_buffer_inv i w r w' :
  read_buffer buffers i w = (r, w') ->
  w' = w /\ ((exists p, buffers !! i = Some p /\ r = Ok p) \/
             (buffers !! i = None /\ r = Fatal UndefinedBehaviour)).
Proof.
  unfold read_buffer. destruct (buffers !! i) as [p |]; intros [= <- <-]; eauto.
Qed.

Lemma alignment_test a ptr :
  ptr_must_be_divisible_by_16 a && negb (wrap64 ptr mod 16 =? 0) = true <->
  ptr_must_be_divisible_by_16 a = true /\ misaligned ptr.
Proof.
  unfold misaligned. rewrite andb_true_iff, negb_true_iff, Z.eqb_neq. tauto.
Qed.

Lemma bind_parameters_Ok ps : forall i cursor acc w params w',
  KernelCall.bind_parameters env ps i stream buffers cursor acc w = (Ok params, w') ->
  exists args, params = acc ++ args /\ bound_positionally buffers ps cursor args.
Proof.
  induction ps as [| [a | s] rest IH]; intros i cursor acc w params w'; simpl.
  - intros [= <- _]. exists []. rewrite app_nil_r. repeat split; intros ? [=].
  - unfold bind at 1.
    destruct (read_buffer buffers cursor w) as [r0 w0] eqn:E0.
    apply read_buffer_inv in E0 as [-> [(p & Hp & ->) | [_ ->]]]; [| done].
    destruct (_ && _); [done |].
    unfold bind at 1. destruct (KernelCall.zero_fill _ _ _ _ _) as [[[] | e | f] w1]; try done.
    intros H. apply IH in H as (args & -> & Hlen & Hargs).
    exists (ArgBuffer p :: args). split; [by rewrite <- app_assoc |].
    split; [simpl; by rewrite Hlen |].
    intros [| j]; simpl.
    + split; [intros ? [=] |]. intros ? _. exists p. by rewrite Nat.add_0_r.
    + rewrite Nat.add_succ_r. apply Hargs.
  - intros H. apply IH in H as (args & -> & Hlen & Hargs).
    exists (ArgScalar s :: args). split; [by rewrite <- app_assoc |].
    split; [simpl; by rewrite Hlen |].
    intros [| j]; simpl.
    + split; [by intros ? [= ->] | intros ? [=]].
    + apply Hargs.
Qed.

Lemma bind_parameters_NotDivisible ps : forall i0 cursor acc w i p w',
  KernelCall.bind_parameters env ps i0 stream buffers cursor acc w
    = (Err (InvalidArgumentError (MsgNotDivisibleBy16 i p)), w') ->
  exists k evs,
    i = (i0 + k)%nat /\ offending buffers ps cursor k p /\
    trace w' = trace w ++ evs /\ Forall (successful_zero_fill stream) evs /\
    zero_filled_before stream buffers ps cursor k evs.
Proof.
  induction ps as [| [a | s] rest IH]; intros i0 cursor acc w i p w'; simpl.
  - done.
  - unfold bind at 1.
    destruct (read_buffer buffers cursor w) as [r0 w0] eqn:E0.
    apply read_buffer_inv in E0 as [-> [(p0 & Hp0 & ->) | [_ ->]]]; [| done].
    destruct (_ && _) eqn:T.
    + intros [= <- <- <-]. apply alignment_test in T as [Hflag Hmis].
      exists 0%nat, []. rewrite Nat.add_0_r, app_nil_r.
      repeat split; [| constructor | intros ? ? ?; lia].
      exists a. by rewrite Nat.add_0_r.
    + unfold bind at 1.
      destruct (KernelCall.zero_fill _ _ _ _ _) as [r1 w1] eqn:E1.
      apply zero_fill_inv in E1
        as [(Hz & -> & ->) | (Hz & reply & -> & [[Hok ->] | [_ ->]])]; [| | done].
      * intros H. apply IH in H as (k & evs & -> & (a' & ? & ? & ? & ?) & Htr & Hall & Hcov).
        exists (S k), evs. split; [lia |]. split.
        { exists a'. simpl. by rewrite Nat.add_succ_r. }
        repeat split; [done .. |].
        intros [| j] a0 Hj; simpl.
        -- intros [= <-] ?. lia.
        -- rewrite Nat.add_succ_r. apply Hcov. lia.
      * intros H. apply IH in H as (k & evs & -> & (a' & ? & ? & ? & ?) & Htr & Hall & Hcov).
        eexists (S k), (_ :: evs). split; [lia |]. split.
        { exists a'. simpl. by rewrite Nat.add_succ_r. }
        split; [rewrite Htr; simpl; by rewrite <- app_assoc |].
        split.
        { constructor; [| done]. by eexists _, _, _. }
        intros [| j] a0 Hj; simpl.
        -- intros [= <-] _. exists p0, reply. rewrite Nat.add_0_r.
           split; [done |]. split; [left | done].
        -- rewrite Nat.add_succ_r. intros Ha0 Hb.
           destruct (Hcov j a0) as (q & r & ? & ? & ?); [lia | done | done |].
           exists q, r. split; [done |]. split; [by right | done].
  - intros H. apply IH in H as (k & evs & -> & (a' & ? & ? & ? & ?) & Htr & Hall & Hcov).
    exists (S k), evs. split; [lia |]. split; [by exists a' |].
    repeat split; [done .. |].
    intros [| j] a0 Hj; simpl; [done |]. apply Hcov. lia.
Qed.

Lemma offending_cons_array a rest cursor j q :
  offending buffers (Array a :: rest) cursor (S j) q <-> offending buffers rest (S cursor) j q.
Proof.
  unfold offending. simpl. by setoid_rewrite Nat.add_succ_r.
Qed.

Lemma offending_cons_scalar s rest cursor j q :
  offending buffers (Scalar s :: rest) cursor (S j) q <-> offending buffers rest cursor j q.
Proof. done. Qed.

Lemma offending_head a rest cursor q :
  offending buffers (Array a :: rest) cursor 0 q <->
  ptr_must_be_divisible_by_16 a = true /\ buffers !! cursor = Some q /\ misaligned q.
Proof.
  unfold offending. simpl. rewrite Nat.add_0_r. split.
  - by intros (a' & [= <-] & ? & ? & ?).
  - intros (? & ? & ?). by exists a.
Qed.

Lemma stopped_by_cons x rest i0 cursor cursor' j evs0 evs e :
  (forall k q, offending buffers (x :: rest) cursor (S k) q <-> offending buffers rest cursor' k q) ->
  (forall q, ~ offending buffers (x :: rest) cursor 0 q) ->
  (forall k, (cursor + arrays_before (x :: rest) (S k) = cursor' + arrays_before rest k)%nat) ->
  (forall k fills,
     Forall2 (zero_fill_of stream) fills (zero_fills (take k rest) buffers cursor') ->
     Forall2 (zero_fill_of stream) (evs0 ++ fills)
       (zero_fills (take (S k) (x :: rest)) buffers cursor)) ->
  stopped_by stream buffers rest (S i0) cursor' j evs e ->
  stopped_by stream buffers (x :: rest) i0 cursor (S j) (evs0 ++ evs) e.
Proof.
  intros Hshift Hhead Hidx Hfills
    [(k & q & Hk & Hoff & Hfirst & Hall & ->)
    | (k & a & q & r & fills & Hk & Hnone & Hps & Hpos & Hq & -> & Hall & Hr & ->)].
  - left. exists (S k), q. split; [lia |]. split; [by apply Hshift |].
    split.
    { intros [| k'] q' Hlt; [apply Hhead |]. rewrite Hshift. apply Hfirst. lia. }
    split; [by apply Hfills |].
    f_equal; f_equal; lia.
  - right. exists (S k), a, q, r, (evs0 ++ fills). split; [lia |].
    split.
    { intros [| k'] q' Hle; [apply Hhead |]. rewrite Hshift. apply Hnone. lia. }
    split; [done |]. split; [done |]. split; [by rewrite Hidx |].
    split; [by rewrite app_assoc |].
    split; [by apply Hfills |].
    done.
Qed.

(** A loop that meets an offending parameter never gets past it. *)
Lemma bind_parameters_rejects ps : forall i0 cursor acc w j p,
  offending buffers ps cursor j p ->
  exists e w' evs,
    KernelCall.bind_parameters env ps i0 stream buffers cursor acc w = (Err e, w') /\
    trace w' = trace w ++ evs /\
    stopped_by stream buffers ps i0 cursor j evs e.
Proof.
  induction ps as [| [a | s] rest IH]; intros i0 cursor acc w j p Hoff.
  - by destruct Hoff as (? & ? & _).
  - simpl. unfold bind at 1.
    assert (is_Some (buffers !! cursor)) as [p0 Hp0].
    { destruct Hoff as (? & _ & _ & Hb & _).
      apply lookup_lt_is_Some. apply lookup_lt_Some in Hb. lia. }
    unfold read_buffer at 1. rewrite Hp0. simpl.
    destruct (_ && _) eqn:T.
    { apply alignment_test in T as [Hflag Hmis].
      exists (InvalidArgumentError (MsgNotDivisibleBy16 i0 p0)), w, [].
      rewrite app_nil_r. repeat split.
      left. exists 0%nat, p0. rewrite Nat.add_0_r.
      split; [lia |]. split; [by apply offending_head |].
      split; [intros; lia |]. split; [constructor | done]. }
    assert (forall q, ~ offending buffers (Array a :: rest) cursor 0 q) as Hhead.
    { intros q (? & Hq & ?)%offending_head. rewrite Hp0 in Hq. injection Hq as <-.
      assert (ptr_must_be_divisible_by_16 a && negb (wrap64 p0 mod 16 =? 0) = true)
        as T' by by apply alignment_test.
      congruence. }
    assert (forall k, (cursor + arrays_before (Array a :: rest) (S k)
                       = S cursor + arrays_before rest k)%nat) as Hidx.
    { intros k. simpl. lia. }
    destruct j as [| j]; [by apply Hhead in Hoff |].
    apply offending_cons_array in Hoff.
    unfold bind at 1.
    destruct (KernelCall.zero_fill _ _ _ _ _) as [r1 w1] eqn:E1.
    apply zero_fill_inv in E1
      as [(Hz & -> & ->) | (Hz & reply & -> & [[Hok ->] | [Hko ->]])].
    + destruct (IH (S i0) (S cursor) (acc ++ [ArgBuffer p0]) w j p Hoff)
        as (e & w' & evs & -> & Htr & Hstop).
      exists e, w', evs. repeat split; [done |].
      apply (stopped_by_cons _ _ _ _ (S cursor) _ []); [| done | done | | done].
      * intros. apply offending_cons_array.
      * intros k fills Hfills. simpl. rewrite Hp0.
        apply Z.ltb_ge in Hz. by rewrite Hz.
    + set (ev := EvDriver _ reply).
      destruct (IH (S i0) (S cursor) (acc ++ [ArgBuffer p0]) (record ev w) j p Hoff)
        as (e & w' & evs & -> & Htr & Hstop).
      exists e, w', (ev :: evs). split; [done |].
      split; [rewrite Htr; simpl; by rewrite <- app_assoc |].
      apply (stopped_by_cons _ _ _ _ (S cursor) _ [ev]); [| done | done | | done].
      * intros. apply offending_cons_array.
      * intros k fills Hfills. simpl. rewrite Hp0.
        apply Z.ltb_lt in Hz. rewrite Hz. simpl.
        constructor; [by exists reply | done].
    + set (ev := EvDriver _ reply).
      eexists _, (record ev w), [ev]. repeat split.
      right. exists 0%nat, a, p0, reply, []. split; [lia |].
      split. { intros k' q' Hle. replace k' with 0%nat by lia. apply Hhead. }
      split; [done |]. split; [done |].
      split; [simpl; by rewrite Nat.add_0_r |].
      split; [done |]. split; [constructor | done].
  - simpl. destruct j as [| j]; [by destruct Hoff as (? & [=] & _) |].
    destruct (IH (S i0) cursor (acc ++ [ArgScalar s]) w j p Hoff)
      as (e & w' & evs & -> & Htr & Hstop).
    exists e, w', evs. repeat split; [done |].
    apply (stopped_by_cons _ _ _ _ cursor _ []); [done | | done | | done].
    + by intros q (? & [=] & _).
    + by intros k fills Hfills.
Qed.
End BindParameters.

(** ** KernelCall::Launch *)

Section KernelCallLaunch.
Context (env : Environment).

Lemma zero_fill_not_a_launch e : is_zero_fill e -> not_a_launch e.
Proof. unfold is_zero_fill, not_a_launch. by intros ->. Qed.

Lemma launch_event_inv stream grid params f g b sh st ps r :
  launch_event stream grid params (EvDriver (cuLaunchKernel f g b sh st ps) r) ->
  g = grid /\ st = stream /\ ps = params.
Proof.
  intros [H | [(r' & [=]) | (f' & b' & sh' & r' & [= -> -> -> -> -> -> ->])]]; done.
Qed.

(** C7, as the code has it. If an array parameter that requires 16-byte
    alignment is handed a pointer that is not a multiple of 16, [Launch]
    returns an error and issues no driver kernel launch.  Either the error
    is [InvalidArgument] naming the index and the pointer of the first such
    parameter, and all the call did is enqueue, with success and in order,
    the zero-fills of the array parameters before it; or the driver refused
    the zero-fill of an array parameter that stands before every such
    parameter: that refused memset is the last event, behind exactly the
    successful zero-fills of the array parameters before it, and its error
    is what is returned. *)
Theorem launch_rejects_misaligned self stream buffers w i p :
  offending buffers (parameters_ self) 0 i p ->
  exists e w' evs,
    KernelCall.Launch env self stream buffers w = (Err e, w') /\
    trace w' = trace w ++ evs /\ Forall not_a_launch evs /\
    stopped_by stream buffers (parameters_ self) 0 0 i evs e.
Proof.
  intros Hoff.
  destruct (bind_parameters_rejects env stream buffers _ 0%nat 0%nat [] w i p Hoff)
    as (e & w' & evs & Hrun & Htr & Hstop).
  exists e, w', evs. unfold KernelCall.Launch, bind. rewrite Hrun.
  repeat split; [done | | done].
  pose proof (bind_parameters_emits env stream buffers _ _ _ _ _ _ _ Hrun)
    as (evs' & Htr' & Hall).
  rewrite Htr in Htr'. apply app_inv_head in Htr'. subst evs'.
  eapply Forall_impl; [exact Hall | apply zero_fill_not_a_launch].
Qed.

(** C10. A launch that fails with [InvalidArgument] because the parameter
    at position [i] is misaligned has by then enqueued, successfully, the
    zero-fill of every array parameter with [bytes_to_zero > 0] before
    position [i]; these memsets are all the call did, and they stay in the
    trace: nothing undoes them. *)
Theorem failed_launch_keeps_zero_fills self stream buffers w i p w' :
  KernelCall.Launch env self stream buffers w
    = (Err (InvalidArgumentError (MsgNotDivisibleBy16 i p)), w') ->
  offending buffers (parameters_ self) 0 i p /\
  exists evs,
    trace w' = trace w ++ evs /\ Forall (successful_zero_fill stream) evs /\
    zero_filled_before stream buffers (parameters_ self) 0 i evs.
Proof.
  unfold KernelCall.Launch. intros [H | (params & w1 & _ & H)]%bind_Err.
  - apply bind_parameters_NotDivisible in H
      as (k & evs & -> & Hoff & Htr & Hall & Hcov).
    split; [done |]. by exists evs.
  - apply Kernel_Launch_fails_only in H as [(fn & err & [=]) | [=]].
Qed.
End KernelCallLaunch.

(** The scenario of the specification: with parameter types
    [A, S, A, S, A] and buffers [b0, b1, b2], the driver is handed
    [b0, b1, b2] in the array slots. *)
Example asasa_launch :
  fst asasa_run = Ok tt /\
  exists reply,
    last (trace (snd asasa_run)) =
      Some (EvDriver
              (cuLaunchKernel 4 (4, 1, 1) (128, 1, 1) 0 5
                 [ArgBuffer 4096; ArgScalar (i32 7); ArgBuffer 8192;
                  ArgScalar (u64 9); ArgBuffer 12288]) reply).
Proof. split; [by vm_compute |]. eexists. by vm_compute. Qed.

Lemma launch_rejects_misaligned_witness :
  offending [4096; 4104] (parameters_ zero_then_aligned) 0 1 4104 /\
  exists e w' evs,
    KernelCall.Launch (env_of obliging_driver) zero_then_aligned 5
      [4096; 4104] (one_kernel_world 0) = (Err e, w') /\
    trace w' = trace (one_kernel_world 0) ++ evs /\ Forall not_a_launch evs /\
    stopped_by 5 [4096; 4104] (parameters_ zero_then_aligned) 0 0 1 evs e.
Proof.
  assert (offending [4096; 4104] (parameters_ zero_then_aligned) 0 1 4104) as Hoff.
  { exists aligned_array. repeat split. vm_compute. discriminate. }
  split; [exact Hoff |].
  exact (launch_rejects_misaligned (env_of obliging_driver) zero_then_aligned 5
           [4096; 4104] (one_kernel_world 0) 1%nat 4104 Hoff).
Defined.

(** C7, as stated, fails: parameter 1 requires alignment and is handed
    [0x1008], yet [Launch] does not return [InvalidArgument]: the driver
    refuses the zero-fill of parameter 0 and its error is what comes back. *)
Lemma misaligned_behind_refused_zero_fill :
  offending [4096; 4104] (parameters_ zero_then_aligned) 0 1 4104 /\
  fst (zero_then_aligned_run memset_refusing_driver)
    = Err (InternalError (MsgOperationFailed fn_cuMemsetD8Async (CUDA_ERROR 1))) /\
  forall m, fst (zero_then_aligned_run memset_refusing_driver)
            <> Err (InvalidArgumentError m).
Proof.
  split; [| split].
  - exists aligned_array. repeat split. vm_compute. discriminate.
  - by vm_compute.
  - intros m. by vm_compute.
Qed.

Lemma failed_launch_keeps_zero_fills_witness :
  offending [4096; 4104] (parameters_ zero_then_aligned) 0 1 4104 /\
  exists evs,
    trace (snd (zero_then_aligned_run obliging_driver))
      = trace (one_kernel_world 0) ++ evs /\
    Forall (successful_zero_fill 5) evs /\
    zero_filled_before 5 [4096; 4104] (parameters_ zero_then_aligned) 0 1 evs.
Proof.
  apply (failed_launch_keeps_zero_fills (env_of obliging_driver) zero_then_aligned 5
           [4096; 4104] (one_kernel_world 0) 1%nat 4104
           (snd (zero_then_aligned_run obliging_driver))).
  vm_compute. reflexivity.
Defined.

(** ** Relations that do not look at the trace *)

Section TraceBlind.
Context (env : Environment) (R : World -> World -> Prop).
Context (R_refl : forall w, R w w).
Context (R_trans : forall w1 w2 w3, R w1 w2 -> R w2 w3 -> R w1 w3).
Context (R_record : forall e w, R w (record e w)).

Lemma respects_emit e : respects R (emit e).
Proof. intros w r w' [= _ <-]. apply R_record. Qed.

Lemma respects_call c : respects R (call env c).
Proof. intros w r w' [= _ <-]. apply R_record. Qed.

Lemma respects_CUDA_RETURN_IF_ERROR c : respects R (CUDA_RETURN_IF_ERROR env c).
Proof.
  unfold CUDA_RETURN_IF_ERROR.
  apply respects_bind; [done | apply respects_call |]. intros r.
  apply respects_bind; [done | by apply respects_JAX_RETURN_IF_ERROR |].
  intros _. by apply respects_ret.
Qed.

Lemma respects_with_lock {A} m (body : M A) :
  respects R body -> respects R (with_lock m body).
Proof.
  intros Hb. unfold with_lock.
  apply respects_bind; [done | apply respects_emit |]. intros _.
  by apply respects_finally.
Qed.

Lemma respects_setup_dynamic_shared_memory k function :
  respects R (Kernel.setup_dynamic_shared_memory env k function).
Proof.
  unfold Kernel.setup_dynamic_shared_memory.
  apply respects_bind; [done | apply respects_CUDA_RETURN_IF_ERROR |]. intros device.
  apply respects_bind; [done | apply respects_CUDA_RETURN_IF_ERROR |]. intros optin.
  destruct (_ <? _); [by apply respects_fail |].
  destruct (_ <? _); [| by apply respects_ret].
  repeat (apply respects_bind; [done | apply respects_CUDA_RETURN_IF_ERROR | intros ?]).
  by apply respects_ret.
Qed.
End TraceBlind.

Lemma same_kernel_heap_refl w : same_kernel_heap w w.
Proof. done. Qed.

Lemma same_kernel_heap_trans w1 w2 w3 :
  same_kernel_heap w1 w2 -> same_kernel_heap w2 w3 -> same_kernel_heap w1 w3.
Proof. unfold same_kernel_heap. congruence. Qed.

Lemma finally_inv {A} (body : M A) cleanup w r w' :
  finally body cleanup w = (r, w') ->
  exists w1, body w = (r, w1) /\ (w' = cleanup w1 \/ w' = w1).
Proof.
  unfold finally. destruct (body w) as [[a | e | f] w1]; intros [= <- <-]; eauto.
Qed.

Section Resolution.
Context (env : Environment).

Lemma load_kernel_inv k w r w' :
  load_kernel k w = (r, w') ->
  w' = w /\ ((exists x, kernel_heap w !! k = Some x /\ r = Ok x) \/
             (kernel_heap w !! k = None /\ r = Fatal UndefinedBehaviour)).
Proof.
  unfold load_kernel. destruct (_ !! _) as [x |]; intros [= <- <-]; eauto.
Qed.

(** A context that is already in the map is answered from the map. *)
Lemma GetFunctionForContext_hit self context w k function :
  kernel_heap w !! self = Some k -> functions_ k !! context = Some function ->
  Kernel.GetFunctionForContext env self context w
    = (Ok function,
       record (EvUnlock (KernelMutex self)) (record (EvLock (KernelMutex self)) w)).
Proof.
  intros Hk Hf. unfold Kernel.GetFunctionForContext, with_lock, bind, emit, finally.
  unfold load_kernel. simpl. by rewrite Hk, Hf.
Qed.

Lemma functions_insert_Ok self context function w w' :
  Kernel.functions_insert self context function w = (Ok tt, w') ->
  exists k, kernel_heap w !! self = Some k /\
    kernel_heap w' = <[self := Kernel.insert_function context function k]> (kernel_heap w).
Proof.
  unfold Kernel.functions_insert. intros (k & w1 & H1 & H)%bind_Ok.
  apply load_kernel_inv in H1 as [-> [(x & Hx & [= <-]) | [_ [=]]]].
  destruct (functions_ k !! context); [done |]. injection H as <-. by exists k.
Qed.

(** C2, where it fails. The insertion into [functions_] comes before the
    dynamic-shared-memory sequence: when [GetFunctionForContext] fails with
    the [InvalidArgument] of a request above the opt-in limit, the
    (context, function) entry is in the map all the same, and the next call
    for that context returns the function from the map, without error. *)
Theorem opt_in_failure_after_insertion self context w w' :
  Kernel.GetFunctionForContext env self context w
    = (Err (InvalidArgumentError MsgSharedMemoryExceeds), w') ->
  exists k function,
    kernel_heap w' !! self = Some k /\
    functions_ k !! context = Some function /\
    fst (Kernel.GetFunctionForContext env self context w') = Ok function.
Proof.
  intros H. unfold Kernel.GetFunctionForContext, with_lock in H.
  apply bind_Err in H as [[=] | ([] & w0 & [= <-] & H)].
  apply finally_inv in H as (w1 & H & Hw').
  assert (kernel_heap w' = kernel_heap w1) as Hheap by by destruct Hw' as [-> | ->].
  apply bind_Err in H as [H | (k & w2 & H2 & H)].
  { unfold load_kernel in H. simpl in H. by destruct (_ !! _). }
  apply load_kernel_inv in H2 as [-> _].
  destruct (_ !! _); [done |].
  apply bind_Err in H as [H | (r0 & w3 & _ & H)].
  { by apply CUDA_RETURN_IF_ERROR_inv in H as (? & _ & _ & [[_ [=]] | [_ [=]]]). }
  clear Hw'. apply finally_inv in H as (w4 & H & Hw').
  assert (kernel_heap w1 = kernel_heap w4) as Hheap' by by destruct Hw' as [-> | ->].
  unfold Kernel.load_function in H.
  apply bind_Err in H as [H | (k0 & w5 & _ & H)].
  { unfold load_kernel in H. by destruct (_ !! _). }
  apply bind_Err in H as [H | (module & w6 & _ & H)].
  { by apply CUDA_RETURN_IF_ERROR_inv in H as (? & _ & _ & [[_ [=]] | [_ [=]]]). }
  apply bind_Err in H as [[=] | ([] & w7 & _ & H)].
  apply bind_Err in H as [H | (function & w8 & _ & H)].
  { by apply CUDA_RETURN_IF_ERROR_inv in H as (? & _ & _ & [[_ [=]] | [_ [=]]]). }
  apply bind_Err in H as [H | ([] & w9 & Hins & H)].
  { unfold Kernel.functions_insert in H.
    apply bind_Err in H as [H | (k1 & w9 & _ & H)].
    - unfold load_kernel in H. by destruct (_ !! _).
    - by destruct (_ !! _). }
  apply functions_insert_Ok in Hins as (k1 & Hk1 & Hw9).
  destruct (_ <=? _); [done |].
  apply (respects_setup_dynamic_shared_memory env same_kernel_heap
           same_kernel_heap_refl same_kernel_heap_trans) in H; [| done].
  assert (kernel_heap w' !! self
          = Some (Kernel.insert_function context (out function) k1)) as Hk.
  { rewrite Hheap, Hheap', H, Hw9. apply list_lookup_insert_eq.
    by apply lookup_lt_Some in Hk1. }
  eexists _, _. split; [exact Hk |]. split.
  - simpl. apply lookup_insert_eq.
  - erewrite GetFunctionForContext_hit; [done | exact Hk |].
    simpl. apply lookup_insert_eq.
Qed.
End Resolution.

(** C2 at a failing input: a kernel that asks for 64kB of shared memory on a
    device whose opt-in limit is 48kB. *)
Lemma opt_in_failure_after_insertion_witness :
  fst (Kernel.GetFunctionForContext (env_of scarce_optin_driver) 0 1
         (one_kernel_world 65536))
    = Err (InvalidArgumentError MsgSharedMemoryExceeds) /\
  exists k function,
    kernel_heap
      (snd (Kernel.GetFunctionForContext (env_of scarce_optin_driver) 0 1
              (one_kernel_world 65536))) !! 0%nat = Some k /\
    functions_ k !! 1 = Some function /\
    fst (Kernel.GetFunctionForContext (env_of scarce_optin_driver) 0 1
           (snd (Kernel.GetFunctionForContext (env_of scarce_optin_driver) 0 1
                   (one_kernel_world 65536)))) = Ok function.
Proof.
  split; [by vm_compute |].
  apply (opt_in_failure_after_insertion (env_of scarce_optin_driver) 0 1
           (one_kernel_world 65536)).
  vm_compute. reflexivity.
Defined.

(** At the same input the module loaded for the context stays in
    [modules_] as well, next to the entry of [functions_]. *)
Example opt_in_failure_keeps_module :
  exists k module function,
    kernel_heap
      (snd (Kernel.GetFunctionForContext (env_of scarce_optin_driver) 0 1
              (one_kernel_world 65536))) !! 0%nat = Some k /\
    modules_ k = [module] /\ functions_ k = {[1 := function]}.
Proof. eexists _, _, _. by vm_compute. Qed.

(** ** GetKernel *)

(** C5, as stated, fails: on a miss the assembler runs while the cache's
    mutex is held. *)
Lemma compile_inside_critical_section :
  compiles_outside KernelCacheMutex false
    (trace (snd (GetKernel (env_of obliging_driver) some_kernel initial_world)))
  = false.
Proof. by vm_compute. Qed.

Section GetKernelLemmas.
Context (env : Environment).

Lemma kernels_insert_present key k w k0 :
  kernels w !! key = Some k0 -> kernels_insert key k w = (Fatal CheckFailed, w).
Proof. intros H. unfold kernels_insert. by rewrite H. Qed.

(** C5, as the code has it. [GetKernel] takes the cache's mutex once and
    holds it to the end: on a miss the assembler is called inside that one
    critical section, the lock is never released and taken again, and the
    insertion that follows cannot find the key taken (which would fail the
    [CHECK] and abort, not be tolerated). *)
Theorem GetKernel_compiles_under_lock proto w :
  kernels w !! kernel_key proto = None ->
  exists r w',
    GetKernel env proto w = (r, w') /\
    trace w' = trace w ++
      [EvLock KernelCacheMutex;
       EvCompileGpuAsm (compute_capability proto / 10) (compute_capability proto mod 10)
         (ptx proto);
       EvUnlock KernelCacheMutex] /\
    match CompileGpuAsm env (compute_capability proto / 10)
            (compute_capability proto mod 10) (ptx proto) with
    | inl e => r = Err e /\ kernels w' = kernels w
    | inr image =>
        r = Ok (length (kernel_heap w)) /\
        kernels w' = <[kernel_key proto := length (kernel_heap w)]> (kernels w) /\
        kernel_heap w' = kernel_heap w ++
          [Kernel_new image (kernel_name proto) (num_warps proto) (shared_mem_bytes proto)]
    end /\
    (forall k k0 w0, kernels w0 !! kernel_key proto = Some k0 ->
       kernels_insert (kernel_key proto) k w0 = (Fatal CheckFailed, w0)).
Proof.
  intros Hmiss.
  unfold GetKernel, with_lock, bind, emit, finally, compile, make_shared, kernels_insert.
  simpl. rewrite Hmiss.
  destruct (CompileGpuAsm _ _ _ _) as [e | image] eqn:E; simpl.
  - eexists _, _. split; [reflexivity |]. simpl. rewrite <- !app_assoc.
    repeat split. intros k k0 w0 ->. done.
  - rewrite Hmiss. eexists _, _. split; [reflexivity |]. simpl. rewrite <- !app_assoc.
    repeat split. intros k k0 w0 ->. done.
Qed.
End GetKernelLemmas.

Lemma GetKernel_compiles_under_lock_witness :
  exists r w',
    GetKernel (env_of obliging_driver) some_kernel initial_world = (r, w') /\
    trace w' = [EvLock KernelCacheMutex; EvCompileGpuAsm 8 0 "ptx";
                EvUnlock KernelCacheMutex] /\
    (r = Ok 0%nat /\
     kernels w' = <[kernel_key some_kernel := 0%nat]> (kernels initial_world) /\
     kernel_heap w' = [Kernel_new "ptx" "kernel" 4 0]) /\
    (forall k k0 w0, kernels w0 !! kernel_key some_kernel = Some k0 ->
       kernels_insert (kernel_key some_kernel) k w0 = (Fatal CheckFailed, w0)).
Proof.
  apply (GetKernel_compiles_under_lock (env_of obliging_driver) some_kernel
           initial_world).
  reflexivity.
Defined.

(** ** GetKernelCall *)

(** The first call on an opaque builds the call object and files it under
    the decompressed bytes; a second call, on the same opaque or on the
    other compressed form of the same descriptor, looks the opaque up,
    misses, builds the object again and aborts on the [CHECK] of the
    insertion. *)
Example second_call_aborts :
  GetKernelCall toy_env 8 "zcall" initial_world = (Ok 0%nat, after_first_call) /\
  kernel_calls after_first_call = {["call"%string := 0%nat]} /\
  fst (GetKernelCall toy_env 8 "zcall" after_first_call) = Fatal CheckFailed /\
  fst (GetKernelCall toy_env 8 "Zcall" after_first_call) = Fatal CheckFailed.
Proof. by vm_compute. Qed.

(** ** Autotune: aliased inputs *)

(** The alias [(0, 1, 16)] with two different buffers: nothing is copied
    to the host, and autotuning succeeds; yet the restore loop copies 16
    bytes from an empty host vector over the input buffer. *)
Example restore_writes_unsaved_alias :
  fst unaliased_run = Ok tt /\
  Forall (fun e => event_fn e <> Some fn_cuMemcpyDtoHAsync) (trace (snd unaliased_run)) /\
  exists reply,
    EvDriver (cuMemcpyHtoDAsync 4096 {| hv_key := 0; hv_size := 0 |} 16 5) reply
      ∈ trace (snd unaliased_run).
Proof.
  split; [by vm_compute |]. split.
  - apply Forall_forall. intros e He. vm_compute in He.
    repeat (apply elem_of_cons in He as [-> | He]; [by vm_compute |]).
    by apply elem_of_nil in He.
  - eexists. vm_compute. repeat (first [by apply list_elem_of_here | apply list_elem_of_further]).
Qed.


(** ** The order of floats *)

Lemma f32_compare_rank x y a b :
  f32_rank x = Some a -> f32_rank y = Some b ->
  match SFcompare x y with
  | Some Lt => rank_lt a b
  | Some Eq => a = b
  | Some Gt => rank_lt b a
  | None => False
  end.
Proof.
  destruct x as [sx | sx | | sx mx ex], y as [sy | sy | | sy my ey]; simpl;
    try done; intros [= <-] [= <-];
    try (destruct sx; simpl; lia); try (destruct sy; simpl; lia);
    try (destruct sx, sy; simpl; first [done | lia]).
  destruct sx, sy; simpl; try lia.
  - destruct (Z.compare_spec ex ey); [| lia | lia].
    subst. change (Pos.compare_cont Eq mx my) with (Pos.compare mx my).
    destruct (Pos.compare_spec mx my); simpl; [by subst | lia | lia].
  - destruct (Z.compare_spec ex ey); [| lia | lia].
    subst. change (Pos.compare_cont Eq mx my) with (Pos.compare mx my).
    destruct (Pos.compare_spec mx my); simpl; [by subst | lia | lia].
Qed.

Lemma f32_rank_is_Some x : x <> S754_nan -> is_Some (f32_rank x).
Proof. destruct x; simpl; eauto. done. Qed.

Lemma f32_compare_None x y :
  SFcompare x y = None -> f32_rank x = None \/ f32_rank y = None.
Proof.
  destruct (f32_rank x) as [a |] eqn:Ex; [| by left].
  destruct (f32_rank y) as [b |] eqn:Ey; [| by right].
  intros H. pose proof (f32_compare_rank x y a b Ex Ey) as Hc. by rewrite H in Hc.
Qed.

Lemma rank_lt_irrefl a : ~ rank_lt a a.
Proof. destruct a as [[a1 a2] a3]. simpl. lia. Qed.

Lemma rank_lt_trans a b c : rank_lt a b -> rank_lt b c -> rank_lt a c.
Proof.
  destruct a as [[a1 a2] a3], b as [[b1 b2] b3], c as [[c1 c2] c3]. simpl. lia.
Qed.

Lemma f32_ltb_rank x y :
  f32_ltb x y = true <->
  exists a b, f32_rank x = Some a /\ f32_rank y = Some b /\ rank_lt a b.
Proof.
  unfold f32_ltb, SFltb. split.
  - destruct (SFcompare x y) as [[] |] eqn:E; try done. intros _.
    destruct (f32_rank x) as [a |] eqn:Ex; [| by destruct x, y].
    destruct (f32_rank y) as [b |] eqn:Ey; [| by destruct x, y].
    exists a, b. repeat split.
    pose proof (f32_compare_rank x y a b Ex Ey) as Hc. by rewrite E in Hc.
  - intros (a & b & Ex & Ey & Hlt).
    pose proof (f32_compare_rank x y a b Ex Ey) as Hc.
    destruct (SFcompare x y) as [[] |]; [| done | | done].
    + subst. by apply rank_lt_irrefl in Hlt.
    + by apply (rank_lt_trans _ _ _ Hlt), rank_lt_irrefl in Hc.
Qed.

Lemma f32_leb_rank x y :
  f32_leb x y = true <->
  exists a b, f32_rank x = Some a /\ f32_rank y = Some b /\ rank_le a b.
Proof.
  unfold f32_leb, SFleb. split.
  - destruct (SFcompare x y) as [[] |] eqn:E; try done; intros _;
      (destruct (f32_rank x) as [a |] eqn:Ex; [| by destruct x, y]);
      (destruct (f32_rank y) as [b |] eqn:Ey; [| by destruct x, y]);
      exists a, b; repeat split;
      pose proof (f32_compare_rank x y a b Ex Ey) as Hc; rewrite E in Hc.
    + by right.
    + by left.
  - intros (a & b & Ex & Ey & Hle).
    pose proof (f32_compare_rank x y a b Ex Ey) as Hc.
    destruct (SFcompare x y) as [[] |]; [done | done | | done].
    destruct Hle as [Hlt | ->].
    + by apply (rank_lt_trans _ _ _ Hlt), rank_lt_irrefl in Hc.
    + by apply rank_lt_irrefl in Hc.
Qed.

Lemma f32_ltb_irrefl x : f32_ltb x x = false.
Proof.
  apply not_true_is_false. intros (a & b & Ea & Eb & Hlt)%f32_ltb_rank.
  rewrite Ea in Eb. injection Eb as <-. by apply rank_lt_irrefl in Hlt.
Qed.

Lemma f32_ltb_trans x y z :
  f32_ltb x y = true -> f32_ltb y z = true -> f32_ltb x z = true.
Proof.
  intros (a & b & Ea & Eb & H1)%f32_ltb_rank (b' & c & Eb' & Ec & H2)%f32_ltb_rank.
  rewrite Eb in Eb'. injection Eb' as <-.
  apply f32_ltb_rank. exists a, c. repeat split; [done .. |].
  by apply (rank_lt_trans _ b).
Qed.

Lemma f32_leb_ltb_trans x y z :
  f32_leb x y = true -> f32_ltb y z = true -> f32_ltb x z = true.
Proof.
  intros (a & b & Ea & Eb & H1)%f32_leb_rank (b' & c & Eb' & Ec & H2)%f32_ltb_rank.
  rewrite Eb in Eb'. injection Eb' as <-.
  apply f32_ltb_rank. exists a, c. repeat split; [done .. |].
  destruct H1 as [H1 | ->]; [by apply (rank_lt_trans _ b) | done].
Qed.

Lemma trunc_floor x t q :
  f32_trunc x = Some t -> f32_floor x = Some q ->
  q <= t <= Z.max q 0 /\ (0 <= q -> t = q).
Proof.
  destruct x as [s | s | | s m e]; simpl; try done.
  - intros [= <-] [= <-]. lia.
  - intros [= <-] [= <-]. destruct e as [| p | p]; simpl.
    + rewrite Z.shiftl_0_r, Z.pow_0_r. destruct s; lia.
    + rewrite Z.shiftl_mul_pow2 by lia. destruct s; lia.
    + rewrite Z.shiftr_div_pow2 by lia. change (- Z.neg p) with (Z.pos p).
      assert (0 < 2 ^ Z.pos p) as Hd by (apply Z.pow_pos_nonneg; lia).
      pose proof (Z.div_pos (Z.pos m) (2 ^ Z.pos p) ltac:(lia) Hd) as H0.
      destruct s; [| lia].
      assert (Z.neg m / 2 ^ Z.pos p <= - (Z.pos m / 2 ^ Z.pos p)).
      { apply Z.div_le_upper_bound; [done |].
        pose proof (Z.mul_div_le (Z.pos m) (2 ^ Z.pos p) Hd). lia. }
      assert (Z.neg m / 2 ^ Z.pos p < 0) by (apply Z.div_lt_upper_bound; lia).
      lia.
Qed.

Lemma static_cast_int_floor x z :
  static_cast_int x = Some z ->
  INT_MIN <= z <= INT_MAX /\
  exists q, f32_floor x = Some q /\ q <= z /\ Z.max z 1 = Z.max 1 q.
Proof.
  unfold static_cast_int. destruct (f32_trunc x) as [t |] eqn:Ht; [| done].
  destruct (Z.leb_spec INT_MIN t), (Z.leb_spec t INT_MAX); simpl; try done.
  intros [= <-]. split; [done |].
  destruct (f32_floor x) as [q |] eqn:Hq; [| by destruct x].
  exists q. split; [done |].
  destruct (trunc_floor _ _ _ Ht Hq) as [Hb Heq]. lia.
Qed.

Lemma static_cast_int_defined x q :
  f32_floor x = Some q -> INT_MIN <= q <= INT_MAX -> is_Some (static_cast_int x).
Proof.
  intros Hq Hrange. unfold static_cast_int.
  destruct (f32_trunc x) as [t |] eqn:Ht; [| by destruct x].
  destruct (trunc_floor _ _ _ Ht Hq) as [Hb Heq]. unfold INT_MIN, INT_MAX in *.
  destruct (Z.leb_spec (- 2 ^ 31) t), (Z.leb_spec t (2 ^ 31 - 1)); simpl; eauto; lia.
Qed.

(** ** Relations that look neither at the trace nor at the kernels *)

Section KernelBlind.
Context (env : Environment) (R : World -> World -> Prop).
Context (R_refl : forall w, R w w).
Context (R_trans : forall w1 w2 w3, R w1 w2 -> R w2 w3 -> R w1 w3).
Context (R_record : forall e w, R w (record e w)).
Context (R_kernel_heap : forall h w, R w (set_kernel_heap h w)).

Lemma respects_store_kernel k x : respects R (store_kernel k x).
Proof. intros w r w' [= _ <-]. apply R_kernel_heap. Qed.

Lemma respects_GetFunctionForContext self context :
  respects R (Kernel.GetFunctionForContext env self context).
Proof.
  pose proof (respects_CUDA_RETURN_IF_ERROR env R R_refl R_trans R_record) as Hc.
  unfold Kernel.GetFunctionForContext.
  apply respects_with_lock; [done .. |].
  apply respects_bind; [done | by apply respects_load_kernel |]. intros k.
  destruct (_ !! _); [by apply respects_ret |].
  apply respects_bind; [done | apply Hc |]. intros _.
  apply respects_finally; [done | | intros w; apply R_record].
  unfold Kernel.load_function.
  apply respects_bind; [done | by apply respects_load_kernel |]. intros k0.
  apply respects_bind; [done | apply Hc |]. intros module.
  apply respects_bind; [done | apply respects_store_kernel |]. intros _.
  apply respects_bind; [done | apply Hc |]. intros function.
  apply respects_bind; [done | |].
  { unfold Kernel.functions_insert.
    apply respects_bind; [done | by apply respects_load_kernel |]. intros k1.
    destruct (_ !! _); [by apply respects_fatal | apply respects_store_kernel]. }
  intros _. destruct (_ <=? _); [by apply respects_ret |].
  by apply respects_setup_dynamic_shared_memory.
Qed.

Lemma respects_Kernel_Launch self stream grid params :
  respects R (Kernel.Launch env self stream grid params).
Proof.
  pose proof (respects_CUDA_RETURN_IF_ERROR env R R_refl R_trans R_record) as Hc.
  unfold Kernel.Launch.
  apply respects_bind; [done | apply Hc |]. intros context.
  apply respects_bind; [done | apply respects_GetFunctionForContext |]. intros f.
  apply respects_bind; [done | by apply respects_load_kernel |]. intros k.
  apply respects_bind; [done | apply Hc |]. intros _. by apply respects_ret.
Qed.

Lemma respects_bind_parameters stream buffers ps : forall i cursor params,
  respects R (KernelCall.bind_parameters env ps i stream buffers cursor params).
Proof.
  pose proof (respects_CUDA_RETURN_IF_ERROR env R R_refl R_trans R_record) as Hc.
  induction ps as [| [a | s] rest IH]; intros i cursor params; simpl.
  - by apply respects_ret.
  - apply respects_bind; [done | by apply respects_read_buffer |]. intros ptr.
    destruct (_ && _); [by apply respects_fail |].
    apply respects_bind; [done | | auto].
    unfold KernelCall.zero_fill. destruct (_ <? _); [| by apply respects_ret].
    apply respects_bind; [done | apply Hc |]. intros _. by apply respects_ret.
  - apply IH.
Qed.

Lemma respects_KernelCall_Launch self stream buffers :
  respects R (KernelCall.Launch env self stream buffers).
Proof.
  unfold KernelCall.Launch.
  apply respects_bind; [done | apply respects_bind_parameters |]. intros params.
  apply respects_Kernel_Launch.
Qed.

Lemma respects_launch_repeatedly kc stream buffers n :
  respects R (AutotunedKernelCall.launch_repeatedly env kc stream buffers n).
Proof.
  induction n as [| n IH]; simpl; [by apply respects_ret |].
  apply respects_bind; [done | apply respects_KernelCall_Launch | by intros _].
Qed.

Lemma respects_Benchmark stream kc buffers num_iterations :
  respects R (AutotunedKernelCall.Benchmark env stream kc buffers num_iterations).
Proof.
  pose proof (respects_CUDA_RETURN_IF_ERROR env R R_refl R_trans R_record) as Hc.
  unfold AutotunedKernelCall.Benchmark.
  apply respects_bind; [done | apply Hc |]. intros start.
  apply respects_bind; [done | apply Hc |]. intros stop.
  apply respects_bind; [done | apply respects_KernelCall_Launch |]. intros _.
  apply respects_bind; [done | apply Hc |]. intros _.
  apply respects_bind; [done | apply respects_launch_repeatedly |]. intros _.
  repeat (apply respects_bind; [done | apply Hc | intros ?]).
  by apply respects_ret.
Qed.
End KernelBlind.

(** ** Benchmark logs nothing and leaves the call objects alone *)

Lemma same_calls_refl w : same_calls w w.
Proof. done. Qed.

Lemma same_calls_trans w1 w2 w3 :
  same_calls w1 w2 -> same_calls w2 w3 -> same_calls w1 w3.
Proof. unfold same_calls. intros [-> ->] [-> ->]. done. Qed.

Lemma Benchmark_same_calls env stream kc buffers n :
  respects same_calls (AutotunedKernelCall.Benchmark env stream kc buffers n).
Proof.
  apply respects_Benchmark;
    [apply same_calls_refl | apply same_calls_trans | done | done].
Qed.

Lemma KernelCall_Launch_same_calls env kc stream buffers :
  respects same_calls (KernelCall.Launch env kc stream buffers).
Proof.
  apply respects_KernelCall_Launch;
    [apply same_calls_refl | apply same_calls_trans | done | done].
Qed.

Lemma logs_app t1 t2 : logs (t1 ++ t2) = logs t1 ++ logs t2.
Proof. apply omap_app. Qed.

Lemma logs_quiet evs : Forall quiet evs -> logs evs = [].
Proof.
  induction 1 as [| e evs He _ IH]; [done |].
  unfold logs. simpl. destruct e; try done. by destruct He.
Qed.

Section Quiet.
Context (env : Environment).

Lemma CUDA_quiet c : respects (emits quiet) (CUDA_RETURN_IF_ERROR env c).
Proof. apply emits_CUDA_RETURN_IF_ERROR. intros r H. done. Qed.

Lemma KernelCall_Launch_quiet kc stream buffers :
  respects (emits quiet) (KernelCall.Launch env kc stream buffers).
Proof.
  unfold KernelCall.Launch. apply emits_bind.
  - intros w r w' H. eapply emits_weaken; [| eapply bind_parameters_emits, H].
    intros e He Hl. by destruct e.
  - intros params w r w' H.
    eapply emits_weaken; [| eapply Kernel_Launch_emits, H].
    intros e He Hl. destruct e; try done.
    destruct He as [He | [(? & [=]) | (? & ? & ? & ? & [=])]]. done.
Qed.

Lemma launch_repeatedly_quiet kc stream buffers n :
  respects (emits quiet) (AutotunedKernelCall.launch_repeatedly env kc stream buffers n).
Proof.
  induction n as [| n IH]; simpl; [apply respects_ret, emits_refl |].
  apply emits_bind; [apply KernelCall_Launch_quiet | by intros _].
Qed.

Lemma Benchmark_quiet stream kc buffers n :
  respects (emits quiet) (AutotunedKernelCall.Benchmark env stream kc buffers n).
Proof.
  unfold AutotunedKernelCall.Benchmark.
  apply emits_bind; [apply CUDA_quiet |]. intros start.
  apply emits_bind; [apply CUDA_quiet |]. intros stop.
  apply emits_bind; [apply KernelCall_Launch_quiet |]. intros _.
  apply emits_bind; [apply CUDA_quiet |]. intros _.
  apply emits_bind; [apply launch_repeatedly_quiet |]. intros _.
  repeat (apply emits_bind; [apply CUDA_quiet | intros ?]).
  apply respects_ret, emits_refl.
Qed.

(** What a benchmark leaves behind: no log line, and the call objects as
    they were. *)
Lemma Benchmark_frame stream kc buffers n w r w' :
  AutotunedKernelCall.Benchmark env stream kc buffers n w = (r, w') ->
  same_calls w w' /\ exists evs, trace w' = trace w ++ evs /\ logs evs = [].
Proof.
  intros H. split; [eapply Benchmark_same_calls, H |].
  apply Benchmark_quiet in H as (evs & Htr & Hq). exists evs. split; [done |].
  by apply logs_quiet.
Qed.
End Quiet.

(** ** Calibration *)

Lemma foldl_min_lower_bound ts : forall b0 (seen : list float),
  (forall s, s ∈ seen -> f32_ltb s b0 = false) ->
  forall t, t ∈ seen ++ ts -> f32_ltb t (foldl f32_min b0 ts) = false.
Proof.
  induction ts as [| x rest IH]; intros b0 seen Hseen t Ht; simpl.
  - rewrite app_nil_r in Ht. by apply Hseen.
  - apply (IH _ (seen ++ [x])); [| by rewrite <- app_assoc].
    intros s [Hs | ->%list_elem_of_singleton]%elem_of_app; unfold f32_min.
    + destruct (f32_ltb x b0) eqn:E; [| by apply Hseen].
      apply not_true_is_false. intros Hlt.
      pose proof (f32_ltb_trans _ _ _ Hlt E) as Hc.
      by rewrite (Hseen s Hs) in Hc.
    + destruct (f32_ltb x b0) eqn:E; [apply f32_ltb_irrefl | done].
Qed.

Lemma foldl_min_attained ts : forall b0,
  foldl f32_min b0 ts = b0 \/ foldl f32_min b0 ts ∈ ts.
Proof.
  induction ts as [| x rest IH]; intros b0; simpl; [by left |].
  destruct (IH (f32_min b0 x)) as [-> | Hin].
  - unfold f32_min. destruct (f32_ltb x b0); [right; by left | by left].
  - right. by right.
Qed.

Section CalibrationLoop.
Context (env : Environment) (stream : CUstream) (buffers : list CUdeviceptr).

Lemma calibrate_Ok configs : forall best0 w best w',
  AutotunedKernelCall.calibrate env configs stream buffers best0 w = (Ok best, w') ->
  same_calls w w' /\
  exists evs ts,
    trace w' = trace w ++ evs /\
    logs evs = zip_with LogRan1Iter (map description configs) ts /\
    length ts = length configs /\
    best = foldl f32_min best0 ts.
Proof.
  induction configs as [| config rest IH]; intros best0 w best w'; simpl.
  - intros [= <- <-]. split; [done |]. exists [], []. by rewrite app_nil_r.
  - intros (t & w1 & H1 & H)%bind_Ok.
    apply bind_Ok in H as ([] & w2 & [= <-] & H).
    apply Benchmark_frame in H1 as (Hc1 & evs1 & Htr1 & Hl1).
    apply IH in H as (Hc2 & evs2 & ts & Htr2 & Hl2 & Hlen & ->).
    split; [by apply (same_calls_trans _ w1) |].
    exists (evs1 ++ EvLog (LogRan1Iter (description config) t) :: evs2), (t :: ts).
    split; [| split; [| split]].
    + rewrite Htr2. simpl. rewrite Htr1, <- !app_assoc. done.
    + rewrite logs_app, Hl1. simpl. unfold logs in *. simpl. by rewrite Hl2.
    + simpl. by rewrite Hlen.
    + done.
Qed.

Lemma choose_timed_iters_Ok best w n w' :
  AutotunedKernelCall.choose_timed_iters best w = (Ok n, w') ->
  exists z,
    static_cast_int (f32_div AutotunedKernelCall.kBenchmarkTimeMillis best) = Some z /\
    n = Z.min (Z.max z 1) 100.
Proof.
  unfold AutotunedKernelCall.choose_timed_iters.
  destruct (static_cast_int _) as [z |]; [| done]. simpl.
  destruct (Z.ltb_spec 100 (Z.max z 1)); intros [= <- _]; exists z; (split; [done | lia]).
Qed.

(** The iteration count is computed whenever the floor of the quotient
    fits an [int]. *)
Lemma choose_timed_iters_defined best w q :
  f32_floor (f32_div AutotunedKernelCall.kBenchmarkTimeMillis best) = Some q ->
  INT_MIN <= q <= INT_MAX ->
  exists n w', AutotunedKernelCall.choose_timed_iters best w = (Ok n, w').
Proof.
  intros Hq Hrange. unfold AutotunedKernelCall.choose_timed_iters.
  destruct (static_cast_int_defined _ _ Hq Hrange) as [z ->]. simpl.
  destruct (_ <? _); eexists _, _; reflexivity.
Qed.

End CalibrationLoop.

(** ** Selection *)

Lemma f32_ltb_infinity x :
  f32_ltb x f32_infinity = false -> x = f32_infinity \/ x = S754_nan.
Proof. destruct x as [[] | [] | | [] m e]; simpl; try done; eauto. Qed.

Lemma pick_running_best ts : forall pre best cur,
  running_best (pre ++ ts) (length pre) best cur ->
  running_best (pre ++ ts) (length (pre ++ ts))
    (pick ts (length pre) best cur).1 (pick ts (length pre) best cur).2.
Proof.
  induction ts as [| t rest IH]; intros pre best cur Hrun; simpl.
  - by rewrite app_nil_r in *.
  - assert ((pre ++ t :: rest) !! length pre = Some t) as Ht
      by by apply list_lookup_middle.
    replace (pre ++ t :: rest) with ((pre ++ [t]) ++ rest) in *
      by by rewrite <- app_assoc.
    replace (S (length pre)) with (length (pre ++ [t]))
      by (rewrite length_app; simpl; lia).
    destruct Hrun as (Ha & Hb & Hc).
    destruct (f32_ltb t best) eqn:E; apply IH; rewrite length_app; simpl;
      (split; [| split]).
    + intros j tj Hj Hlook. destruct (decide (j = length pre)) as [-> | Hne].
      * rewrite Ht in Hlook. injection Hlook as <-. apply f32_ltb_irrefl.
      * apply not_true_is_false. intros Hlt.
        pose proof (f32_ltb_trans _ _ _ Hlt E) as Hc'.
        rewrite (Ha j tj) in Hc'; [done | lia | done].
    + intros j tj Hj Hlook. apply not_true_is_false. intros Hle.
      pose proof (f32_leb_ltb_trans _ _ _ Hle E) as Hc'.
      rewrite (Ha j tj) in Hc'; [done | lia | done].
    + left. split; [lia |]. split; [done |].
      destruct Hc as [(_ & _ & Hfin) | [_ ->]]; [| done].
      by apply (f32_ltb_trans _ best).
    + intros j tj Hj Hlook. destruct (decide (j = length pre)) as [-> | Hne].
      * rewrite Ht in Hlook. by injection Hlook as <-.
      * apply (Ha j); [lia | done].
    + done.
    + destruct Hc as [(? & ? & ?) | [? ?]]; [left; split; [lia | done] | by right].
Qed.

Lemma pick_fastest_first ts :
  fastest_first ts (pick ts 0 f32_infinity 0).2.
Proof.
  assert (running_best ([] ++ ts) (length (@nil float)) f32_infinity 0) as Hrun.
  { split; [| split]; [intros; simpl in *; lia .. | by right]. }
  apply pick_running_best in Hrun. simpl in Hrun.
  destruct Hrun as (Ha & Hb & [(Hlt & Hk & Hfin) | [Hk Hinf]]).
  - left. eexists. split; [exact Hk |]. split; [done |]. split.
    + intros j tj Hj. apply (Ha j); [by apply lookup_lt_Some in Hj | done].
    + done.
  - right. split; [done |]. intros j tj Hj. rewrite <- Hinf.
    apply (Ha j); [by apply lookup_lt_Some in Hj | done].
Qed.

(** The order of floats is total on the times that are below infinity. *)
Lemma f32_leb_or_ltb x y :
  f32_ltb x f32_infinity = true -> f32_ltb y f32_infinity = true ->
  f32_leb x y = true \/ f32_ltb y x = true.
Proof.
  intros (a & ia & Ha & _ & _)%f32_ltb_rank (b & ib & Hb & _ & _)%f32_ltb_rank.
  destruct (f32_leb x y) eqn:E; [by left |]. right.
  apply f32_ltb_rank. exists b, a. repeat split; [done .. |].
  assert (~ rank_le a b) as Hn.
  { intros Hle. assert (f32_leb x y = true) as E'; [| congruence].
    apply f32_leb_rank. by exists a, b. }
  unfold rank_le in Hn.
  destruct a as [[a1 a2] a3], b as [[b1 b2] b3]. simpl in *.
  destruct (decide ((a1, a2, a3) = (b1, b2, b3))) as [Heq | Hne]; [tauto |].
  assert (a1 <> b1 \/ a2 <> b2 \/ a3 <> b3) as Hd.
  { destruct (decide (a1 = b1)) as [-> |]; [| by left].
    destruct (decide (a2 = b2)) as [-> |]; [| right; by left].
    destruct (decide (a3 = b3)) as [-> |]; [done | right; by right]. }
  lia.
Qed.

(** At most one config is the fastest. *)
Lemma fastest_first_unique ts k1 k2 :
  fastest_first ts k1 -> fastest_first ts k2 -> k1 = k2.
Proof.
  intros [(t1 & H1 & F1 & A1 & B1) | [-> N1]] [(t2 & H2 & F2 & A2 & B2) | [-> N2]].
  - destruct (Nat.lt_trichotomy k1 k2) as [Hlt | [-> | Hlt]]; [| done |].
    + pose proof (B2 k1 t1 Hlt H1) as Hle. pose proof (A1 k2 t2 H2) as Hnlt.
      destruct (f32_leb_or_ltb t1 t2 F1 F2); congruence.
    + pose proof (B1 k2 t2 Hlt H2) as Hle. pose proof (A2 k1 t1 H1) as Hnlt.
      destruct (f32_leb_or_ltb t2 t1 F2 F1); congruence.
  - rewrite (N2 k1 t1 H1) in F1. done.
  - rewrite (N1 k2 t2 H2) in F2. done.
  - done.
Qed.

Lemma swap_with_front_length i (cs : list Config) :
  length (swap_with_front i cs) = length cs.
Proof.
  unfold swap_with_front. destruct (cs !! i), (cs !! 0%nat); try done.
  by rewrite !length_insert.
Qed.

Lemma swap_with_front_0 i (cs : list Config) ci :
  cs !! i = Some ci -> swap_with_front i cs !! 0%nat = Some ci.
Proof.
  intros Hi. unfold swap_with_front. rewrite Hi.
  destruct (cs !! 0%nat) as [c0 |] eqn:H0.
  - apply list_lookup_insert_eq. rewrite length_insert.
    by apply lookup_lt_Some in H0.
  - apply lookup_ge_None in H0. apply lookup_lt_Some in Hi. lia.
Qed.

Lemma swap_with_front_other i j (cs : list Config) :
  j <> 0%nat -> j <> i -> swap_with_front i cs !! j = cs !! j.
Proof.
  intros H0 Hi. unfold swap_with_front.
  destruct (cs !! i), (cs !! 0%nat); try done.
  by rewrite !list_lookup_insert_ne.
Qed.

Lemma load_autotuned_inv a w r w' :
  load_autotuned a w = (r, w') ->
  w' = w /\ ((exists c, call_heap w !! a = Some (IsAutotunedKernelCall c) /\ r = Ok c) \/
             r = Fatal UndefinedBehaviour).
Proof.
  unfold load_autotuned.
  destruct (call_heap w !! a) as [[c | c] |]; intros [= <- <-]; eauto.
Qed.

Lemma with_configs_configs obj : with_configs (configs_ obj) obj = obj.
Proof. by destruct obj. Qed.

Section SelectLoop.
Context (env : Environment) (stream : CUstream) (buffers : list CUdeviceptr).
Context (timed_iters : Z) (self : nat) (obj0 : AutotunedKernelCall).

Lemma select_Ok n : forall i best cur cs w w',
  call_heap w !! self = Some (IsAutotunedKernelCall (with_configs cs obj0)) ->
  length cs = length (configs_ obj0) ->
  (i + n = length (configs_ obj0))%nat ->
  (forall j, (i <= j)%nat -> cs !! j = configs_ obj0 !! j) ->
  cs !! 0%nat = configs_ obj0 !! cur ->
  AutotunedKernelCall.select env self stream buffers timed_iters n i best w
    = (Ok tt, w') ->
  exists evs ts cs',
    trace w' = trace w ++ evs /\
    reports timed_iters evs (drop i (configs_ obj0)) ts /\
    call_heap w' = <[self := IsAutotunedKernelCall (with_configs cs' obj0)]> (call_heap w) /\
    kernel_calls w' = kernel_calls w /\
    length cs' = length (configs_ obj0) /\
    cs' !! 0%nat = configs_ obj0 !! (pick ts i best cur).2.
Proof.
  induction n as [| n IH]; intros i best cur cs w w' Hself Hlen Hin Hrest Hfront; simpl.
  - intros [= <-]. exists [], [], cs. rewrite app_nil_r.
    rewrite drop_ge by lia. repeat split; [| done ..].
    symmetry. by apply list_insert_id.
  - intros (obj & w0 & Hload & H)%bind_Ok.
    apply load_autotuned_inv in Hload as [-> [(c & Hc & [= <-]) | [=]]].
    rewrite Hself in Hc. injection Hc as <-. simpl in H.
    assert (is_Some (configs_ obj0 !! i)) as [config Hconfig]
      by (apply lookup_lt_is_Some; lia).
    rewrite Hrest, Hconfig in H by lia.
    apply bind_Ok in H as (t & w1 & Hbench & H).
    apply Benchmark_frame in Hbench as ([Hheap1 Hcache1] & evs1 & Htr1 & Hlogs1).
    apply bind_Ok in H as ([] & w2 & [= <-] & H).
    rewrite (drop_S _ _ _ Hconfig).
    destruct (f32_ltb t best) eqn:E.
    + apply bind_Ok in H as ([] & w3 & [= <-] & H).
      apply bind_Ok in H as ([] & w4 & [= <-] & H).
      apply (IH (S i) t i (swap_with_front i cs)) in H
        as (evs & ts & cs' & Htr & [Hrep Hlts] & Hheap & Hcache & Hlen' & Hfront').
      * exists (evs1 ++ EvLog (LogRanIters (description config) timed_iters t)
                  :: EvLog (LogNewBest (description config)) :: evs), (t :: ts), cs'.
        split; [rewrite Htr; simpl; rewrite Htr1, <- !app_assoc; done |].
        split.
        { split; [| simpl; by rewrite Hlts].
          rewrite logs_app, Hlogs1. simpl. unfold logs in *. simpl.
          unfold timed_runs in *. simpl. by rewrite Hrep. }
        simpl in Hheap, Hcache.
        split; [by rewrite Hheap, list_insert_insert_eq, Hheap1 |].
        split; [by rewrite Hcache |]. split; [done |].
        simpl. by rewrite E.
      * simpl. rewrite Hheap1. apply list_lookup_insert_eq.
        by apply lookup_lt_Some in Hself.
      * by rewrite swap_with_front_length.
      * lia.
      * intros j Hj. rewrite swap_with_front_other by lia. apply Hrest. lia.
      * rewrite Hconfig. apply swap_with_front_0. by rewrite Hrest by lia.
    + apply (IH (S i) best cur cs) in H
        as (evs & ts & cs' & Htr & [Hrep Hlts] & Hheap & Hcache & Hlen' & Hfront').
      * exists (evs1 ++ EvLog (LogRanIters (description config) timed_iters t) :: evs),
          (t :: ts), cs'.
        split; [rewrite Htr; simpl; rewrite Htr1, <- !app_assoc; done |].
        split.
        { split; [| simpl; by rewrite Hlts].
          rewrite logs_app, Hlogs1. simpl. unfold logs in *. simpl.
          unfold timed_runs in *. simpl. by rewrite Hrep. }
        simpl in Hheap, Hcache.
        split; [by rewrite Hheap, Hheap1 |].
        split; [by rewrite Hcache |]. split; [done |].
        simpl. by rewrite E.
      * simpl. by rewrite Hheap1.
      * done.
      * lia.
      * intros j Hj. apply Hrest. lia.
      * done.
Qed.
End SelectLoop.

(** ** Autotune *)

Lemma timed_runs_app l1 l2 : timed_runs (l1 ++ l2) = timed_runs l1 ++ timed_runs l2.
Proof. apply omap_app. Qed.

Lemma advance_trans w1 w2 w3 r1 r2 :
  advance w1 w2 r1 -> advance w2 w3 r2 -> advance w1 w3 (r1 ++ r2).
Proof.
  intros (e1 & H1 & <-) (e2 & H2 & <-). exists (e1 ++ e2). split.
  - by rewrite H2, H1, app_assoc.
  - by rewrite logs_app, timed_runs_app.
Qed.

Lemma timed_runs_untimed evs : Forall untimed evs -> timed_runs (logs evs) = [].
Proof.
  induction 1 as [| e evs He _ IH]; [done |].
  destruct e as [? ? | ? | ? | ? ? ? | l]; unfold logs in *; simpl; try done.
  destruct l; simpl; done.
Qed.

Lemma advance_untimed w w' : emits untimed w w' -> advance w w' [].
Proof.
  intros (evs & Htr & Hall). exists evs. split; [done |].
  by apply timed_runs_untimed.
Qed.

Lemma advance_same_trace w w' : trace w' = trace w -> advance w w' [].
Proof. intros H. exists []. by rewrite app_nil_r. Qed.

Lemma advance_record e w : untimed e -> advance w (record e w) [].
Proof. intros He. by apply advance_untimed, emits_record. Qed.

Lemma quiet_untimed e : quiet e -> untimed e.
Proof. intros He. destruct e; try done. by destruct He. Qed.

Section AutotuneLemmas.
Context (env : Environment) (stream : CUstream) (buffers : list CUdeviceptr).

Lemma CUDA_untimed c : respects (emits untimed) (CUDA_RETURN_IF_ERROR env c).
Proof. by apply emits_CUDA_RETURN_IF_ERROR. Qed.

Lemma CUDA_same_calls c : respects same_calls (CUDA_RETURN_IF_ERROR env c).
Proof.
  apply respects_CUDA_RETURN_IF_ERROR;
    [apply same_calls_refl | apply same_calls_trans | done].
Qed.

Lemma save_aliased_inputs_untimed aliases : forall copies,
  respects (emits untimed)
    (AutotunedKernelCall.save_aliased_inputs env aliases stream buffers copies).
Proof.
  induction aliases as [| [[i o] size] rest IH]; intros copies; simpl.
  - apply respects_ret, emits_refl.
  - apply emits_bind; [apply respects_read_buffer, emits_refl |]. intros input.
    apply emits_bind; [apply respects_read_buffer, emits_refl |]. intros output.
    destruct (_ =? _); [| apply IH].
    apply emits_bind; [apply CUDA_untimed | intros _; apply IH].
Qed.

Lemma save_aliased_inputs_same_calls aliases : forall copies,
  respects same_calls
    (AutotunedKernelCall.save_aliased_inputs env aliases stream buffers copies).
Proof.
  induction aliases as [| [[i o] size] rest IH]; intros copies; simpl.
  - apply respects_ret, same_calls_refl.
  - apply respects_bind; [apply same_calls_trans | |].
    { apply respects_read_buffer, same_calls_refl. }
    intros input. apply respects_bind; [apply same_calls_trans | |].
    { apply respects_read_buffer, same_calls_refl. }
    intros output. destruct (_ =? _); [| apply IH].
    apply respects_bind; [apply same_calls_trans | apply CUDA_same_calls |].
    intros _. apply IH.
Qed.

Lemma restore_aliased_inputs_untimed aliases : forall copies,
  respects (emits untimed)
    (AutotunedKernelCall.restore_aliased_inputs env aliases stream buffers copies).
Proof.
  induction aliases as [| [[i o] size] rest IH]; intros copies; simpl.
  - apply respects_ret, emits_refl.
  - apply emits_bind; [apply respects_read_buffer, emits_refl |]. intros input.
    apply emits_bind; [apply CUDA_untimed | intros _; apply IH].
Qed.

Lemma restore_aliased_inputs_same_calls aliases : forall copies,
  respects same_calls
    (AutotunedKernelCall.restore_aliased_inputs env aliases stream buffers copies).
Proof.
  induction aliases as [| [[i o] size] rest IH]; intros copies; simpl.
  - apply respects_ret, same_calls_refl.
  - apply respects_bind; [apply same_calls_trans | |].
    { apply respects_read_buffer, same_calls_refl. }
    intros input.
    apply respects_bind; [apply same_calls_trans | apply CUDA_same_calls |].
    intros _. apply IH.
Qed.

Lemma calibrate_untimed configs : forall best,
  respects (emits untimed)
    (AutotunedKernelCall.calibrate env configs stream buffers best).
Proof.
  induction configs as [| config rest IH]; intros best; simpl.
  - apply respects_ret, emits_refl.
  - apply emits_bind.
    { intros w r w' H. eapply emits_weaken; [apply quiet_untimed |].
      eapply Benchmark_quiet, H. }
    intros t. apply emits_bind; [by apply emits_emit | intros _; apply IH].
Qed.

Lemma choose_timed_iters_inv best w r w' :
  AutotunedKernelCall.choose_timed_iters best w = (r, w') ->
  same_calls w w' /\ advance w w' [].
Proof.
  unfold AutotunedKernelCall.choose_timed_iters.
  destruct (static_cast_int _) as [z |]; simpl.
  - destruct (_ <? _); intros [= <- <-]; (split; [done |]); by apply advance_record.
  - intros [= <- <-]. split; [done |]. by apply advance_same_trace.
Qed.

Lemma zip_with_map_l {A B C D} (f : B -> C -> D) (g : A -> B) (l : list A) (k : list C) :
  zip_with f (map g l) k = zip_with (fun a c => f (g a) c) l k.
Proof.
  revert k. induction l as [| a l IH]; intros [| c k]; simpl; [done .. |].
  by rewrite IH.
Qed.

(** The restore loop, when it succeeds, has copied to the input buffer of
    every alias triple. *)
Lemma restore_aliased_inputs_Ok aliases : forall copies w w',
  AutotunedKernelCall.restore_aliased_inputs env aliases stream buffers copies w
    = (Ok tt, w') ->
  exists evs,
    trace w' = trace w ++ evs /\
    forall i o size, (i, o, size) ∈ aliases ->
      exists p hv r, buffers !! i = Some p /\
                     EvDriver (cuMemcpyHtoDAsync p hv size stream) r ∈ evs.
Proof.
  induction aliases as [| [[i0 o0] size0] rest IH]; intros copies w w'; simpl.
  - intros [= <-]. exists []. rewrite app_nil_r. split; [done |].
    by intros i o size Hin%elem_of_nil.
  - intros (p & w0 & Hread & H)%bind_Ok.
    apply read_buffer_inv in Hread as [-> [(p0 & Hp0 & [= <-]) | [_ [=]]]].
    apply bind_Ok in H as (reply & w1 & Hcopy & H).
    apply CUDA_RETURN_IF_ERROR_Ok in Hcopy as (_ & _ & ->).
    apply IH in H as (evs & Htr & Hall).
    eexists (_ :: evs). split; [rewrite Htr; simpl; by rewrite <- app_assoc |].
    intros i o size [[= -> -> ->] | Hin]%elem_of_cons.
    + eexists _, _, _. split; [done | left].
    + destruct (Hall i o size Hin) as (q & hv & r & Hq & Hev).
      exists q, hv, r. split; [done | by right].
Qed.

(** Autotuning that succeeds has benchmarked every config once with the
    timed iteration count, in the original order, and has left in the object
    exactly the config that was fastest, the earlier one winning a tie. *)
Lemma Autotune_body_Ok self obj0 w w' :
  call_heap w !! self = Some (IsAutotunedKernelCall obj0) ->
  configs_ obj0 <> [] ->
  AutotunedKernelCall.Autotune_body env self stream buffers w = (Ok tt, w') ->
  exists n ts k c,
    advance w w'
      (zip_with (fun c t => (description c, n, t)) (configs_ obj0) ts) /\
    length ts = length (configs_ obj0) /\
    fastest_first ts k /\ configs_ obj0 !! k = Some c /\
    call_heap w' = <[self := IsAutotunedKernelCall (with_configs [c] obj0)]> (call_heap w) /\
    kernel_calls w' = kernel_calls w /\
    (forall evs i o size,
       trace w' = trace w ++ evs -> (i, o, size) ∈ input_output_aliases_ obj0 ->
       exists p hv r, buffers !! i = Some p /\
                      EvDriver (cuMemcpyHtoDAsync p hv size stream) r ∈ evs).
Proof.
  intros Hself Hne H. unfold AutotunedKernelCall.Autotune_body in H.
  apply bind_Ok in H as (obj & w0 & Hload & H).
  apply load_autotuned_inv in Hload as [-> [(c0 & Hc0 & [= <-]) | [=]]].
  rewrite Hself in Hc0. injection Hc0 as <-.
  apply bind_Ok in H as (copies & w1 & Hsave & H).
  pose proof (save_aliased_inputs_same_calls _ _ _ _ _ Hsave) as [Hh1 Hk1].
  apply save_aliased_inputs_untimed, advance_untimed in Hsave.
  apply bind_Ok in H as ([] & w2 & [= <-] & H).
  apply bind_Ok in H as (best & w3 & Hcal & H).
  pose proof (calibrate_Ok _ _ _ _ _ _ _ _ Hcal) as ([Hh3 Hk3] & _).
  apply calibrate_untimed, advance_untimed in Hcal.
  apply bind_Ok in H as (n & w4 & Hchoose & H).
  apply choose_timed_iters_inv in Hchoose as ([Hh4 Hk4] & Hadv4).
  simpl in Hh3, Hk3. rewrite Hh3, Hh1 in Hh4. rewrite Hk3, Hk1 in Hk4.
  apply bind_Ok in H as ([] & w5 & Hsel & H).
  apply (select_Ok env stream buffers n self obj0 _ 0%nat _ 0%nat (configs_ obj0))
    in Hsel as (evs5 & ts & cs' & Htr5 & [Hrep Hlts] & Hh5 & Hk5 & Hlen5 & Hfront);
    [| by rewrite with_configs_configs, Hh4 | done | done | done | done].
  rewrite drop_0 in Hrep, Hlts.
  apply bind_Ok in H as ([] & w6 & Hdis & H).
  unfold AutotunedKernelCall.discard_all_but_best in Hdis.
  apply bind_Ok in Hdis as (obj5 & w5' & Hload5 & [= <-]).
  apply load_autotuned_inv in Hload5 as [-> [(c5 & Hc5 & [= <-]) | [=]]].
  assert (self < length (call_heap w))%nat as Hlt by by apply lookup_lt_Some in Hself.
  rewrite Hh5, list_lookup_insert_eq in Hc5 by by rewrite Hh4.
  injection Hc5 as <-.
  apply bind_Ok in H as (obj6 & w6' & Hload6 & H).
  apply load_autotuned_inv in Hload6 as [-> [(c6 & Hc6 & [= <-]) | [=]]].
  simpl in Hc6. rewrite list_lookup_insert_eq in Hc6
    by by rewrite Hh5, length_insert, Hh4.
  injection Hc6 as <-. simpl in H.
  pose proof (pick_fastest_first ts) as Hfast.
  set (k := (pick ts 0 f32_infinity 0).2) in *.
  assert (is_Some (configs_ obj0 !! k)) as [c Hc].
  { apply lookup_lt_is_Some.
    destruct Hfast as [(tk & Hk & _) | [-> _]].
    - apply lookup_lt_Some in Hk. lia.
    - destruct (configs_ obj0); [done | simpl; lia]. }
  assert (take 1 cs' = [c]) as Htake.
  { rewrite Hc in Hfront. destruct cs' as [| c' rest]; [done |].
    simpl in Hfront. by injection Hfront as ->. }
  rewrite Htake in H. simpl in H.
  apply bind_Ok in H as ([] & w7 & [= <-] & H).
  apply bind_Ok in H as ([] & w8 & Hres & H).
  pose proof (restore_aliased_inputs_same_calls _ _ _ _ _ Hres) as [Hh8 Hk8].
  pose proof (restore_aliased_inputs_Ok _ _ _ _ Hres) as (evs_r & Htr_r & Hwrites).
  apply restore_aliased_inputs_untimed, advance_untimed in Hres.
  apply bind_Ok in H as (sync & w9 & Hsync & [= <-]).
  pose proof (CUDA_same_calls _ _ _ _ Hsync) as [Hh9 Hk9].
  apply CUDA_untimed, advance_untimed in Hsync.
  pose proof (advance_trans _ _ _ _ _ Hsave
                (advance_record (EvLog (LogAutotuning (name_ obj0))) w1 I)) as A2.
  pose proof (advance_trans _ _ _ _ _ A2 Hcal) as A3.
  pose proof (advance_trans _ _ _ _ _ A3 Hadv4) as A4.
  assert (advance w4 w5 (zip_with (fun c t => (description c, n, t)) (configs_ obj0) ts))
    as A5 by by exists evs5.
  pose proof (advance_trans _ _ _ _ _ A4 A5) as A6. simpl in A6.
  set (w6 := set_call_heap _ w5) in *.
  assert (advance w5 w6 []) as A7 by (exists []; by rewrite app_nil_r).
  pose proof (advance_trans _ _ _ _ _ A6 A7) as A8.
  pose proof (advance_trans _ _ _ _ _ A8
                (advance_record (EvLog (LogFinished (name_ obj0) (description c))) w6 I))
    as A9.
  pose proof (advance_trans _ _ _ _ _ A9 Hres) as A10.
  pose proof (advance_trans _ _ _ _ _ A10 Hsync) as A11.
  exists n, ts, k, c.
  split; [by rewrite !app_nil_r in A11 |].
  split; [done |]. split; [done |]. split; [done |].
  split; [rewrite Hh9, Hh8; simpl; by rewrite Hh5, list_insert_insert_eq, Hh4 |].
  split; [rewrite Hk9, Hk8; simpl; by rewrite Hk5, Hk4 |].
  intros evs i o size Hevs Hin.
  destruct (Hwrites i o size Hin) as (p & hv & r & Hp & Hev).
  exists p, hv, r. split; [done |].
  destruct A9 as (pre & Hpre & _). destruct Hsync as (post & Hpost & _).
  rewrite Hpost, Htr_r, Hpre, <- !app_assoc in Hevs.
  apply app_inv_head in Hevs as <-.
  apply elem_of_app. right. apply elem_of_app. by left.
Qed.
End AutotuneLemmas.

Lemma bind_inv {A B} (m : M A) (k : A -> M B) w r w' :
  bind m k w = (r, w') ->
  (exists a w1, m w = (Ok a, w1) /\ k a w1 = (r, w')) \/
  (exists e, m w = (Err e, w') /\ r = Err e) \/
  (exists f, m w = (Fatal f, w') /\ r = Fatal f).
Proof.
  unfold bind. destruct (m w) as [[a | e | f] w1]; [eauto | |];
    intros [= <- <-]; eauto.
Qed.


Section FirstLaunch.
Context (env : Environment) (stream : CUstream) (buffers : list CUdeviceptr).

Lemma Autotune_Ok self obj0 w w' :
  call_heap w !! self = Some (IsAutotunedKernelCall obj0) ->
  configs_ obj0 <> [] ->
  AutotunedKernelCall.Autotune env self stream buffers w = (Ok tt, w') ->
  exists n ts k c,
    advance w w'
      (zip_with (fun c t => (description c, n, t)) (configs_ obj0) ts) /\
    length ts = length (configs_ obj0) /\
    fastest_first ts k /\ configs_ obj0 !! k = Some c /\
    call_heap w' = <[self := IsAutotunedKernelCall (with_configs [c] obj0)]> (call_heap w) /\
    kernel_calls w' = kernel_calls w /\
    (forall evs i o size,
       trace w' = trace w ++ evs -> (i, o, size) ∈ input_output_aliases_ obj0 ->
       exists p hv r, buffers !! i = Some p /\
                      EvDriver (cuMemcpyHtoDAsync p hv size stream) r ∈ evs).
Proof.
  intros Hself Hne H. unfold AutotunedKernelCall.Autotune in H.
  apply bind_Ok in H as (context & w1 & H1 & H).
  pose proof (CUDA_same_calls _ _ _ _ _ H1) as [Hh1 Hk1].
  apply CUDA_untimed, advance_untimed in H1.
  apply bind_Ok in H as (pushed & w2 & H2 & H).
  pose proof (CUDA_same_calls _ _ _ _ _ H2) as [Hh2 Hk2].
  apply CUDA_untimed, advance_untimed in H2.
  apply finally_inv in H as (w3 & H & Hw').
  pose proof H as Hbody.
  apply Autotune_body_Ok with (obj0 := obj0) in H
    as (n & ts & k & c & Hadv & Hlen & Hfast & Hc & Hheap & Hcache & Hwrites);
    [| by rewrite Hh2, Hh1 | done].
  exists n, ts, k, c.
  assert (advance w3 w' [] /\ call_heap w' = call_heap w3 /\
          kernel_calls w' = kernel_calls w3) as (A3 & Hh3 & Hk3).
  { destruct Hw' as [-> | ->].
    - split; [by apply advance_record | done].
    - split; [by apply advance_same_trace | done]. }
  pose proof (advance_trans _ _ _ _ _ H1 H2) as A.
  split; [| split; [done | split; [done | split; [done | split; [| split]]]]].
  - pose proof (advance_trans _ _ _ _ _ A Hadv) as A'.
    pose proof (advance_trans _ _ _ _ _ A' A3) as A''.
    by rewrite app_nil_r in A''.
  - by rewrite Hh3, Hheap, Hh2, Hh1.
  - by rewrite Hk3, Hcache, Hk2, Hk1.
  - intros evs i o size Hevs Hin.
    destruct A as (pre & Hpre & _). destruct Hadv as (mid & Hmid & _).
    destruct A3 as (post & Hpost & _).
    destruct (Hwrites mid i o size Hmid Hin) as (p & hv & r & Hp & Hev).
    exists p, hv, r. split; [done |].
    rewrite Hpost, Hmid, Hpre, <- !app_assoc in Hevs.
    apply app_inv_head in Hevs as <-.
    apply elem_of_app. right. apply elem_of_app. by left.
Qed.


End FirstLaunch.

(** The scenario of the specification: A takes 2 ms, B takes 1 ms; after
    the first launch B alone is left. *)
Example autotune_picks_faster :
  fst (a_and_b_run timing_driver) = Ok tt /\
  call_heap (snd (a_and_b_run timing_driver)) =
    [IsAutotunedKernelCall
       {| name_ := "f"; configs_ := [config_on 8 "B"]; input_output_aliases_ := [];
          autotune_once_ := true; autotune_status_ := OkStatus |}].
Proof. by vm_compute. Qed.


(** ** Benchmark: the events on error paths *)

Section Errs.
Context (P : Event -> Prop) (Q : Error -> Prop).

Lemma errs_of_respects {A} (m : M A) : respects (emits P) m -> errs P Q m.
Proof. intros Hm w e w' H. right. eapply Hm, H. Qed.

Lemma errs_of_fails_only {A} (m : M A) : fails_only Q m -> errs P Q m.
Proof. intros Hm w e w' H. left. eapply Hm, H. Qed.

Lemma errs_bind {A B} (m : M A) (k : A -> M B) :
  respects (emits P) m -> (forall a, errs P Q (k a)) -> errs P Q (bind m k).
Proof.
  intros Hm Hk w e w' [H | (a & w1 & H1 & H)]%bind_Err.
  - right. eapply Hm, H.
  - destruct (Hk a _ _ _ H) as [He | He]; [by left | right].
    eapply emits_trans; [eapply Hm, H1 | done].
Qed.
End Errs.

Section BenchmarkErrors.
Context (env : Environment).

Lemma KernelCall_Launch_emits (P : Event -> Prop) kc stream buffers :
  (forall e, is_zero_fill e -> P e) ->
  (forall grid params e, launch_event stream grid params e -> P e) ->
  respects (emits P) (KernelCall.Launch env kc stream buffers).
Proof.
  intros Hz Hl. unfold KernelCall.Launch. apply emits_bind.
  - intros w r w' H. eapply emits_weaken; [apply Hz |].
    eapply bind_parameters_emits, H.
  - intros params w r w' H. eapply emits_weaken; [apply Hl |].
    eapply Kernel_Launch_emits, H.
Qed.

Lemma KernelCall_Launch_no_destroy kc stream buffers :
  respects (emits not_a_destroy) (KernelCall.Launch env kc stream buffers).
Proof.
  apply KernelCall_Launch_emits.
  - intros e He. unfold not_a_destroy. by rewrite He.
  - intros grid params e [He | [(r & ->) | (f & b & sh & r & ->)]]; [| done | done].
    destruct e as [c r | [] | [] | |]; try done.
    unfold not_a_destroy. simpl in *. intros [= Hc]. by rewrite Hc in He.
Qed.

Lemma launch_repeatedly_no_destroy kc stream buffers n :
  respects (emits not_a_destroy)
    (AutotunedKernelCall.launch_repeatedly env kc stream buffers n).
Proof.
  induction n as [| n IH]; simpl; [apply respects_ret, emits_refl |].
  apply emits_bind; [apply KernelCall_Launch_no_destroy | by intros _].
Qed.

Lemma destroyed_events_none evs :
  Forall not_a_destroy evs -> destroyed_events evs = [].
Proof.
  induction 1 as [| e evs He _ IH]; [done |].
  unfold destroyed_events in *. simpl. rewrite IH.
  destruct e as [c r | | | |]; try done. by destruct c.
Qed.

(** C4, in general. Whenever [Benchmark] returns an error, unless the
    error is that of a failing [cuEventDestroy] itself, it returns without
    having destroyed any event: every early return leaves the events it has
    created alive. *)
Theorem failed_benchmark_destroys_nothing stream kc buffers n w e w' :
  AutotunedKernelCall.Benchmark env stream kc buffers n w = (Err e, w') ->
  ~ destroy_failure e ->
  exists evs, trace w' = trace w ++ evs /\ destroyed_events evs = [].
Proof.
  intros H Hnot.
  assert (errs not_a_destroy destroy_failure
            (AutotunedKernelCall.Benchmark env stream kc buffers n)) as Herrs.
  { unfold AutotunedKernelCall.Benchmark.
    apply errs_bind; [by apply emits_CUDA_RETURN_IF_ERROR |]. intros start.
    apply errs_bind; [by apply emits_CUDA_RETURN_IF_ERROR |]. intros stop.
    apply errs_bind; [apply KernelCall_Launch_no_destroy |]. intros _.
    apply errs_bind; [by apply emits_CUDA_RETURN_IF_ERROR |]. intros _.
    apply errs_bind; [apply launch_repeatedly_no_destroy |]. intros _.
    apply errs_bind; [by apply emits_CUDA_RETURN_IF_ERROR |]. intros _.
    apply errs_bind; [by apply emits_CUDA_RETURN_IF_ERROR |]. intros _.
    apply errs_bind; [by apply emits_CUDA_RETURN_IF_ERROR |]. intros elapsed.
    apply errs_of_fails_only.
    apply fails_only_bind.
    { apply fails_only_CUDA_RETURN_IF_ERROR. intros err. by exists err. }
    intros _. apply fails_only_bind; [| intros _; apply fails_only_ret].
    apply fails_only_CUDA_RETURN_IF_ERROR. intros err. by exists err. }
  destruct (Herrs _ _ _ H) as [He | (evs & Htr & Hall)]; [done |].
  exists evs. split; [done |]. by apply destroyed_events_none.
Qed.
End BenchmarkErrors.

(** C4 at a failing input: the warm-up launch fails, and [Benchmark]
    returns with both of its events created and neither destroyed. *)
Lemma failed_benchmark_destroys_nothing_witness :
  fst failing_benchmark
    = Err (InternalError (MsgOperationFailed fn_cuStreamGetCtx (CUDA_ERROR 400))) /\
  created_events (trace (snd failing_benchmark)) = [0; 1] /\
  exists evs,
    trace (snd failing_benchmark) = trace (one_kernel_world 0) ++ evs /\
    destroyed_events evs = [].
Proof.
  split; [by vm_compute |]. split; [by vm_compute |].
  apply (failed_benchmark_destroys_nothing (env_of no_context_driver) 5 (call_on [])
           [] 1 (one_kernel_world 0)
           (InternalError (MsgOperationFailed fn_cuStreamGetCtx (CUDA_ERROR 400)))).
  - vm_compute. reflexivity.
  - intros [err [=]].
Defined.

(** ** Autotune: aliased inputs *)

Section AliasedInputs.
Context (env : Environment) (stream : CUstream) (buffers : list CUdeviceptr).

(** The part of C3 that holds: the save loop copies to the host only for
    alias triples whose two buffers are the same pointer. *)
Lemma save_aliased_inputs_only_equal aliases : forall copies,
  respects
    (emits (fun e => exists i o size p reply,
              e = EvDriver (cuMemcpyDtoHAsync {| hv_key := i; hv_size := size |}
                              p size stream) reply /\
              (i, o, size) ∈ aliases /\
              buffers !! i = Some p /\ buffers !! o = Some p))
    (AutotunedKernelCall.save_aliased_inputs env aliases stream buffers copies).
Proof.
  induction aliases as [| [[i o] size] rest IH]; intros copies; simpl.
  - apply respects_ret, emits_refl.
  - assert (respects
              (emits (fun e => exists i0 o0 size0 p reply,
                        e = EvDriver (cuMemcpyDtoHAsync
                                        {| hv_key := i0; hv_size := size0 |}
                                        p size0 stream) reply /\
                        (i0, o0, size0) ∈ (i, o, size) :: rest /\
                        buffers !! i0 = Some p /\ buffers !! o0 = Some p))
              (AutotunedKernelCall.save_aliased_inputs env rest stream buffers
                 copies)) as Hrest.
    { intros w r w' H. eapply emits_weaken; [| eapply IH, H].
      intros e (i0 & o0 & size0 & p & reply & -> & Hin & Hi & Ho).
      exists i0, o0, size0, p, reply. repeat split; [by right | done ..]. }
    intros w r w' H.
    apply bind_inv in H as [(input & w0 & Hin & H) | [(e & Hin & _) | (f & Hin & _)]];
      [| apply read_buffer_inv in Hin as [-> _]; apply emits_refl ..].
    apply read_buffer_inv in Hin as [-> [(p & Hp & [= ->]) | [_ [=]]]].
    apply bind_inv in H as [(output & w0 & Hout & H) | [(e & Hout & _) | (f & Hout & _)]];
      [| apply read_buffer_inv in Hout as [-> _]; apply emits_refl ..].
    apply read_buffer_inv in Hout as [-> [(q & Hq & [= ->]) | [_ [=]]]].
    destruct (Z.eqb_spec p q) as [<- | Hne].
    + revert H. apply emits_bind.
      * apply emits_CUDA_RETURN_IF_ERROR. intros reply.
        exists i, o, size, p, reply. repeat split; [by left | done ..].
      * intros _ w1 r1 w1' H1. eapply emits_weaken; [| eapply IH, H1].
        intros e (i0 & o0 & size0 & p0 & reply & -> & Hin & Hi & Ho).
        exists i0, o0, size0, p0, reply. repeat split; [by right | done ..].
    + eapply Hrest, H.
Qed.

(** C3, where it fails, in general. An autotuning that succeeds has
    copied, in its restore loop, to the input buffer of every alias triple:
    also of those whose input and output buffers differ, for which nothing
    was saved. *)
Theorem autotune_restores_every_alias self obj0 w w' evs i o size :
  call_heap w !! self = Some (IsAutotunedKernelCall obj0) ->
  configs_ obj0 <> [] ->
  AutotunedKernelCall.Autotune env self stream buffers w = (Ok tt, w') ->
  trace w' = trace w ++ evs ->
  (i, o, size) ∈ input_output_aliases_ obj0 ->
  exists p hv r, buffers !! i = Some p /\
                 EvDriver (cuMemcpyHtoDAsync p hv size stream) r ∈ evs.
Proof.
  intros Hself Hne H Hevs Hin.
  apply Autotune_Ok with (obj0 := obj0) in H
    as (_ & _ & _ & _ & _ & _ & _ & _ & _ & _ & Hwrites); [| done ..].
  by apply (Hwrites evs i o).
Qed.
End AliasedInputs.

Lemma autotune_restores_every_alias_witness :
  [4096; 8192] !! 0%nat <> [4096; 8192] !! 1%nat /\
  exists p hv r,
    [4096; 8192] !! 0%nat = Some p /\
    EvDriver (cuMemcpyHtoDAsync p hv 16 5) r ∈ trace (snd unaliased_run).
Proof.
  split; [discriminate |].
  apply (autotune_restores_every_alias (env_of obliging_driver) 5 [4096; 8192]
           0%nat two_configs two_configs_world (snd unaliased_run)
           (trace (snd unaliased_run)) 0%nat 1%nat 16).
  - reflexivity.
  - discriminate.
  - vm_compute. reflexivity.
  - reflexivity.
  - left.
Defined.

(** ** GetKernelCall: the key of the probe and the key of the insertion *)

Lemma same_call_cache_refl w : same_call_cache w w.
Proof. done. Qed.

Lemma same_call_cache_trans w1 w2 w3 :
  same_call_cache w1 w2 -> same_call_cache w2 w3 -> same_call_cache w1 w3.
Proof. unfold same_call_cache. congruence. Qed.

Section CallCache.
Context (env : Environment).

Lemma GetKernel_same_call_cache proto :
  respects same_call_cache (GetKernel env proto).
Proof.
  unfold GetKernel.
  apply respects_with_lock; [apply same_call_cache_trans | done |].
  intros w r w'. destruct (kernels w !! kernel_key proto); [by intros [= _ <-] |].
  unfold bind, compile, emit, make_shared, kernels_insert. simpl.
  destruct (CompileGpuAsm _ _ _ _); simpl; [by intros [= _ <-] |].
  destruct (kernels w !! kernel_key proto); by intros [= _ <-].
Qed.

Lemma parameters_FromProto_same_call_cache protos : forall parameters,
  respects same_call_cache (KernelCall.parameters_FromProto protos parameters).
Proof.
  induction protos as [| p rest IH]; intros parameters; simpl.
  - apply respects_ret, same_call_cache_refl.
  - destruct p; try apply IH;
      (apply respects_bind; [apply same_call_cache_trans | | intros ?; apply IH]);
      first [apply respects_ret, same_call_cache_refl
            | apply respects_fail, same_call_cache_refl].
Qed.

Lemma KernelCall_FromProto_same_call_cache proto :
  respects same_call_cache (KernelCall.FromProto env proto).
Proof.
  unfold KernelCall.FromProto.
  apply respects_bind; [apply same_call_cache_trans | apply GetKernel_same_call_cache |].
  intros k. apply respects_bind;
    [apply same_call_cache_trans | apply parameters_FromProto_same_call_cache |].
  intros ps. apply respects_ret, same_call_cache_refl.
Qed.

Lemma configs_FromProto_same_call_cache protos : forall configs,
  respects same_call_cache (AutotunedKernelCall.configs_FromProto env protos configs).
Proof.
  induction protos as [| p rest IH]; intros configs; simpl.
  - apply respects_ret, same_call_cache_refl.
  - apply respects_bind;
      [apply same_call_cache_trans | apply KernelCall_FromProto_same_call_cache |].
    intros kc. apply IH.
Qed.

Lemma construct_same_call_cache proto :
  respects same_call_cache (construct env proto).
Proof.
  destruct proto as [p | p |]; simpl.
  - apply respects_bind;
      [apply same_call_cache_trans | apply KernelCall_FromProto_same_call_cache |].
    by intros kc w r w' [= _ <-].
  - apply respects_bind; [apply same_call_cache_trans | |].
    + unfold AutotunedKernelCall.FromProto.
      apply respects_bind;
        [apply same_call_cache_trans | apply configs_FromProto_same_call_cache |].
      intros cs. apply respects_ret, same_call_cache_refl.
    + by intros c w r w' [= _ <-].
  - apply respects_fail, same_call_cache_refl.
Qed.

(** What a call that misses and succeeds has done to the cache. *)
Lemma GetKernelCall_miss fuel opaque w c w' :
  kernel_calls w !! opaque = None ->
  GetKernelCall env fuel opaque w = (Ok c, w') ->
  exists serialized proto,
    decompress env fuel opaque = Ok serialized /\
    ParseFromString env serialized = Some proto /\
    kernel_calls w !! serialized = None /\
    kernel_calls w' = <[serialized := c]> (kernel_calls w).
Proof.
  intros Hmiss H. unfold GetKernelCall, with_lock in H.
  apply bind_Ok in H as ([] & w0 & [= <-] & H).
  apply finally_inv in H as (w1 & H & Hw'). simpl in H. rewrite Hmiss in H.
  apply bind_Ok in H as (serialized & w2 & Hdec & H).
  unfold returning in Hdec. injection Hdec as Hdec <-.
  destruct (ParseFromString env serialized) as [proto |] eqn:Hparse; [| done].
  apply bind_Ok in H as (kc & w3 & Hcons & H).
  apply construct_same_call_cache in Hcons. unfold same_call_cache in Hcons.
  simpl in Hcons.
  apply bind_Ok in H as ([] & w4 & Hins & [= <- <-]).
  unfold kernel_calls_insert in Hins.
  destruct (kernel_calls w3 !! serialized) eqn:Hfree; [done |].
  injection Hins as <-.
  exists serialized, proto. rewrite Hcons in Hfree.
  repeat split; [done .. |].
  destruct Hw' as [-> | ->]; simpl; by rewrite Hcons.
Qed.

(** C1, where it fails, in general. A call that misses and returns a call
    object has filed it under the decompressed bytes; from then on, a call
    on any opaque that decompresses to the same bytes and is not itself a
    key of the cache (the same opaque again, for one) never returns a call
    object: the lookup misses, and the insertion finds the key taken. *)
Theorem second_call_never_returns fuel opaque w c w' fuel2 opaque2 serialized c2 :
  kernel_calls w !! opaque = None ->
  GetKernelCall env fuel opaque w = (Ok c, w') ->
  decompress env fuel opaque = Ok serialized ->
  decompress env fuel2 opaque2 = Ok serialized ->
  kernel_calls w' !! opaque2 = None ->
  kernel_calls w' !! serialized = Some c /\
  fst (GetKernelCall env fuel2 opaque2 w') <> Ok c2.
Proof.
  intros Hmiss H Hdec Hdec2 Hmiss2.
  apply GetKernelCall_miss in H as (s & proto & Hs & Hparse & Hfree & Hcache); [| done].
  rewrite Hdec in Hs. injection Hs as <-.
  assert (kernel_calls w' !! serialized = Some c) as Hkey
    by (rewrite Hcache; apply lookup_insert_eq).
  split; [done |].
  unfold GetKernelCall, with_lock, bind, emit, finally. simpl. rewrite Hmiss2.
  unfold returning. rewrite Hdec2, Hparse.
  destruct (construct env proto _) as [[kc | e | f] w3] eqn:Hcons; [| done ..].
  apply construct_same_call_cache in Hcons. unfold same_call_cache in Hcons.
  simpl in Hcons. unfold kernel_calls_insert. by rewrite Hcons, Hkey.
Qed.
End CallCache.

(** C1 at a failing input: the opaque [zcall], twice. *)
Lemma second_call_never_returns_witness :
  kernel_calls after_first_call !! "call"%string = Some 0%nat /\
  fst (GetKernelCall toy_env 8 "zcall" after_first_call) <> Ok 0%nat.
Proof.
  apply (second_call_never_returns toy_env 8 "zcall" initial_world 0%nat
           after_first_call 8 "zcall" "call" 0%nat).
  - reflexivity.
  - vm_compute. reflexivity.
  - reflexivity.
  - reflexivity.
  - vm_compute. reflexivity.
Defined.
(** * Further properties of the launcher *)

(** ** Running driver calls forwards *)

Section Forwards.
Context (env : Environment).

Lemma CUDA_RETURN_IF_ERROR_run c w :
  CUDA_RETURN_IF_ERROR env c w =
    (match result (driver env (trace w) c) with
     | CUDA_SUCCESS => Ok (driver env (trace w) c)
     | err => Err (InternalError (MsgOperationFailed (fn_of c) err))
     end,
     record (EvDriver c (driver env (trace w) c)) w).
Proof.
  unfold CUDA_RETURN_IF_ERROR, bind, call. simpl.
  by destruct (result _).
Qed.

Lemma load_function_run self context w k r w' :
  kernel_heap w !! self = Some k -> functions_ k !! context = None ->
  Kernel.load_function env self context w = (r, w') ->
  exists r2 w2,
    r2 = driver env (trace w) (cuModuleLoadData (module_image_ k)) /\
    w2 = record (EvDriver (cuModuleLoadData (module_image_ k)) r2) w /\
    ((result r2 <> CUDA_SUCCESS /\ w' = w2 /\
      r = Err (InternalError (MsgOperationFailed fn_cuModuleLoadData (result r2)))) \/
     (result r2 = CUDA_SUCCESS /\
      exists r3 w3,
        r3 = driver env (trace w2) (cuModuleGetFunction (out r2) (kernel_name_ k)) /\
        w3 = record (EvDriver (cuModuleGetFunction (out r2) (kernel_name_ k)) r3)
               (set_kernel_heap (<[self := Kernel.push_back_module (out r2) k]> (kernel_heap w)) w2) /\
        ((result r3 <> CUDA_SUCCESS /\ w' = w3 /\
          r = Err (InternalError (MsgOperationFailed fn_cuModuleGetFunction (result r3)))) \/
         (result r3 = CUDA_SUCCESS /\
          exists w4,
            w4 = set_kernel_heap
                   (<[self := Kernel.insert_function context (out r3)
                                (Kernel.push_back_module (out r2) k)]> (kernel_heap w)) w3 /\
            if shared_mem_bytes_ k <=? Kernel.kMaxStaticSharedMemBytes
            then r = Ok (out r3) /\ w' = w4
            else Kernel.setup_dynamic_shared_memory env k (out r3) w4 = (r, w'))))).
Proof.
  intros Hk Hf H. unfold Kernel.load_function in H.
  unfold bind at 1 in H. unfold load_kernel at 1 in H. rewrite Hk in H.
  unfold bind at 1 in H. rewrite CUDA_RETURN_IF_ERROR_run in H.
  eexists _, _. split; [reflexivity |]. split; [reflexivity |].
  destruct (result (driver env (trace w) _)) eqn:R2.
  2: { left. by injection H as <- <-. }
  right. split; [done |].
  unfold bind at 1 in H. unfold store_kernel at 1 in H.
  unfold bind at 1 in H. rewrite CUDA_RETURN_IF_ERROR_run in H. simpl in H.
  eexists _, _. split; [reflexivity |]. split; [reflexivity |].
  destruct (result (driver env _ (cuModuleGetFunction _ _))) eqn:R3.
  2: { left. by injection H as <- <-. }
  right. split; [done |].
  unfold bind at 1 in H. unfold Kernel.functions_insert in H.
  unfold bind at 1 in H. unfold load_kernel at 1 in H. simpl in H.
  assert (self < length (kernel_heap w))%nat as Hlt by by apply lookup_lt_Some in Hk.
  rewrite list_lookup_insert_eq in H by done. simpl in H. rewrite Hf in H.
  unfold store_kernel in H. simpl in H. rewrite list_insert_insert_eq in H.
  eexists. split; [reflexivity |].
  destruct (_ <=? _); [by injection H as <- <- | exact H].
Qed.

Lemma GetFunctionForContext_run self context w k r w' :
  kernel_heap w !! self = Some k -> functions_ k !! context = None ->
  Kernel.GetFunctionForContext env self context w = (r, w') ->
  exists w0 r1 w1,
    w0 = record (EvLock (KernelMutex self)) w /\
    r1 = driver env (trace w0) (cuCtxPushCurrent context) /\
    w1 = record (EvDriver (cuCtxPushCurrent context) r1) w0 /\
    ((result r1 <> CUDA_SUCCESS /\ w' = record (EvUnlock (KernelMutex self)) w1 /\
      r = Err (InternalError (MsgOperationFailed fn_cuCtxPushCurrent (result r1)))) \/
     (result r1 = CUDA_SUCCESS /\
      exists wb,
        Kernel.load_function env self context w1 = (r, wb) /\
        ((exists f, r = Fatal f /\ w' = wb) \/
         ((forall f, r <> Fatal f) /\
          w' = record (EvUnlock (KernelMutex self))
                 (record (EvDriver cuCtxPopCurrent (driver env (trace wb) cuCtxPopCurrent))
                    wb))))).
Proof.
  intros Hk Hf H. unfold Kernel.GetFunctionForContext, with_lock in H.
  unfold bind at 1 in H. unfold emit at 1 in H.
  eexists _, _, _. split; [reflexivity |]. split; [reflexivity |]. split; [reflexivity |].
  unfold finally at 1 in H. unfold bind at 1 in H. unfold load_kernel at 1 in H.
  simpl in H. rewrite Hk, Hf in H.
  unfold bind at 1 in H. rewrite CUDA_RETURN_IF_ERROR_run in H. simpl in H.
  destruct (result (driver env _ (cuCtxPushCurrent context))) eqn:R1.
  2: { left. by injection H as <- <-. }
  right. split; [done |].
  unfold finally in H.
  destruct (Kernel.load_function env self context _) as [[a | e | f] wb] eqn:E;
    injection H as <- <-; eexists; (split; [reflexivity |]).
  - right. by split.
  - right. by split.
  - left. by exists f.
Qed.
End Forwards.

(** ** Kernel::GetFunctionForContext and Kernel::Launch *)

Section KernelResolution.
Context (env : Environment).

Lemma setup_dynamic_shared_memory_Ok k function w f w' :
  Kernel.setup_dynamic_shared_memory env k function w = (Ok f, w') ->
  f = function /\ kernel_heap w' = kernel_heap w.
Proof.
  intros H. split.
  - unfold Kernel.setup_dynamic_shared_memory in H.
    apply bind_Ok in H as (device & w1 & _ & H).
    apply bind_Ok in H as (optin & w2 & _ & H).
    destruct (_ <? _); [done |]. destruct (_ <? _); [| by injection H].
    apply bind_Ok in H as (? & w3 & _ & H).
    apply bind_Ok in H as (? & w4 & _ & H).
    apply bind_Ok in H as (? & w5 & _ & H).
    apply bind_Ok in H as (? & w6 & _ & H). by injection H.
  - by apply (respects_setup_dynamic_shared_memory env same_kernel_heap
                same_kernel_heap_refl same_kernel_heap_trans) in H.
Qed.

(** A resolution that returns a function leaves it registered for the
    context. *)
Lemma GetFunctionForContext_Ok self context w function w' :
  Kernel.GetFunctionForContext env self context w = (Ok function, w') ->
  exists k', kernel_heap w' !! self = Some k' /\
             functions_ k' !! context = Some function.
Proof.
  intros H.
  destruct (kernel_heap w !! self) as [k |] eqn:Hk.
  2: { unfold Kernel.GetFunctionForContext, with_lock, bind, emit, finally, load_kernel in H.
       simpl in H. by rewrite Hk in H. }
  assert (self < length (kernel_heap w))%nat as Hlt by by apply lookup_lt_Some in Hk.
  destruct (functions_ k !! context) as [f |] eqn:Hf.
  { rewrite (GetFunctionForContext_hit env self context w k f Hk Hf) in H.
    injection H as <- <-. by exists k. }
  apply (GetFunctionForContext_run env self context w k _ _ Hk Hf) in H
    as (w0 & r1 & w1 & Hw0 & Hr1 & Hw1 & [(_ & _ & [=]) | (_ & wb & H & Hw')]).
  destruct Hw' as [(f & [=] & _) | (_ & ->)].
  assert (kernel_heap w1 = kernel_heap w) as Hheap1 by by rewrite Hw1, Hw0.
  assert (kernel_heap w1 !! self = Some k) as Hk1 by by rewrite Hheap1.
  pose proof (load_function_run env self context w1 k _ _ Hk1 Hf H) as H'.
  clear H.
  destruct H' as (r2 & w2 & Hr2 & Hw2 & [(_ & _ & [=]) | (_ & r3 & w3 & Hr3 & Hw3 & H)]).
  destruct H as [(_ & _ & [=]) | (_ & w4 & Hw4 & H)].
  assert (function = out r3 /\ kernel_heap wb = kernel_heap w4) as [Hfun Hheap].
  { destruct (_ <=? _).
    - by destruct H as [[= <-] ->].
    - by apply setup_dynamic_shared_memory_Ok in H as [-> ->]. }
  eexists. simpl. rewrite Hheap, Hw4. simpl. rewrite Hheap1.
  split; [by apply list_lookup_insert_eq |]. simpl. rewrite Hfun. apply lookup_insert_eq.
Qed.

(** X1. Resolution is cached per context: once [GetFunctionForContext] has
    returned a function for a context, the next call for that context
    returns the same function from the map, making no driver call at all and
    leaving the kernel as it is. *)
Theorem resolved_function_is_cached self context w function w1 :
  Kernel.GetFunctionForContext env self context w = (Ok function, w1) ->
  exists w2,
    Kernel.GetFunctionForContext env self context w1 = (Ok function, w2) /\
    trace w2 = trace w1 ++ [EvLock (KernelMutex self); EvUnlock (KernelMutex self)] /\
    kernel_heap w2 = kernel_heap w1.
Proof.
  intros (k' & Hk' & Hf)%GetFunctionForContext_Ok.
  rewrite (GetFunctionForContext_hit env self context w1 k' function Hk' Hf).
  eexists. split; [reflexivity |]. simpl. by rewrite <- app_assoc.
Qed.

(** X2. A first resolution of a kernel within the static shared-memory
    limit: under the kernel's mutex the context is pushed, the module image
    loaded, the function looked up by name and the context popped, in this
    order and with nothing else; the module joins [modules_] and the
    function is registered for the context. *)
Theorem static_resolution_steps self context w k function w' :
  kernel_heap w !! self = Some k -> functions_ k !! context = None ->
  shared_mem_bytes_ k <= Kernel.kMaxStaticSharedMemBytes ->
  Kernel.GetFunctionForContext env self context w = (Ok function, w') ->
  exists pushed module found popped,
    trace w' = trace w ++
      [EvLock (KernelMutex self);
       EvDriver (cuCtxPushCurrent context) pushed;
       EvDriver (cuModuleLoadData (module_image_ k)) module;
       EvDriver (cuModuleGetFunction (out module) (kernel_name_ k)) found;
       EvDriver cuCtxPopCurrent popped;
       EvUnlock (KernelMutex self)] /\
    result pushed = CUDA_SUCCESS /\ result module = CUDA_SUCCESS /\
    result found = CUDA_SUCCESS /\ function = out found /\
    kernel_heap w' =
      <[self := Kernel.insert_function context function
                  (Kernel.push_back_module (out module) k)]> (kernel_heap w).
Proof.
  intros Hk Hf Hsmall H.
  apply (GetFunctionForContext_run env self context w k _ _ Hk Hf) in H
    as (w0 & r1 & w1 & Hw0 & Hr1 & Hw1 & [(_ & _ & [=]) | (Hok1 & wb & H & Hw')]).
  destruct Hw' as [(f & [=] & _) | (_ & ->)].
  assert (kernel_heap w1 = kernel_heap w) as Hheap1 by by rewrite Hw1, Hw0.
  assert (kernel_heap w1 !! self = Some k) as Hk1 by by rewrite Hheap1.
  pose proof (load_function_run env self context w1 k _ _ Hk1 Hf H) as H'. clear H.
  destruct H' as (r2 & w2 & Hr2 & Hw2 & [(_ & _ & [=]) | (Hok2 & r3 & w3 & Hr3 & Hw3 & H)]).
  destruct H as [(_ & _ & [=]) | (Hok3 & w4 & Hw4 & H)].
  apply Z.leb_le in Hsmall. rewrite Hsmall in H. destruct H as [[= ->] ->].
  exists r1, r2, r3, (driver env (trace w4) cuCtxPopCurrent).
  repeat split; try done.
  - simpl. rewrite Hw4. simpl. rewrite Hw3. simpl. rewrite Hw2. simpl.
    rewrite Hw1. simpl. rewrite Hw0. simpl. by rewrite <- !app_assoc.
  - simpl. rewrite Hw4. simpl. by rewrite Hheap1.
Qed.

(** X3. For a kernel within the static shared-memory limit a failed
    resolution registers nothing: [functions_] is as before.  A module that
    was loaded before [cuModuleGetFunction] failed stays in [modules_]. *)
Theorem static_resolution_failure_registers_nothing self context w k e w' :
  kernel_heap w !! self = Some k ->
  shared_mem_bytes_ k <= Kernel.kMaxStaticSharedMemBytes ->
  Kernel.GetFunctionForContext env self context w = (Err e, w') ->
  exists k',
    kernel_heap w' !! self = Some k' /\ functions_ k' = functions_ k /\
    (k' = k \/
     exists module err,
       k' = Kernel.push_back_module module k /\
       e = InternalError (MsgOperationFailed fn_cuModuleGetFunction err)).
Proof.
  intros Hk Hsmall H.
  assert (self < length (kernel_heap w))%nat as Hlt by by apply lookup_lt_Some in Hk.
  destruct (functions_ k !! context) as [f |] eqn:Hf.
  { by rewrite (GetFunctionForContext_hit env self context w k f Hk Hf) in H. }
  apply (GetFunctionForContext_run env self context w k _ _ Hk Hf) in H
    as (w0 & r1 & w1 & Hw0 & Hr1 & Hw1 & [(_ & -> & _) | (Hok1 & wb & H & Hw')]).
  { exists k. rewrite Hw1, Hw0. simpl. split; [done |]. split; [done | by left]. }
  destruct Hw' as [(f & [=] & _) | (_ & ->)].
  assert (kernel_heap w1 = kernel_heap w) as Hheap1 by by rewrite Hw1, Hw0.
  assert (kernel_heap w1 !! self = Some k) as Hk1 by by rewrite Hheap1.
  pose proof (load_function_run env self context w1 k _ _ Hk1 Hf H) as H'. clear H.
  destruct H' as (r2 & w2 & Hr2 & Hw2 & [(_ & -> & _) | (Hok2 & r3 & w3 & Hr3 & Hw3 & H)]).
  { exists k. rewrite Hw2. simpl. split; [done |]. split; [done | by left]. }
  destruct H as [(_ & -> & [= ->]) | (Hok3 & w4 & Hw4 & H)].
  - eexists. rewrite Hw3. simpl. rewrite Hheap1.
    split; [by apply list_lookup_insert_eq |]. split; [done |].
    right. by eexists _, _.
  - apply Z.leb_le in Hsmall. rewrite Hsmall in H. by destruct H as [[=] _].
Qed.

Lemma setup_dynamic_shared_memory_steps k function w f w' :
  Kernel.setup_dynamic_shared_memory env k function w = (Ok f, w') ->
  exists device optin config total static set,
    trace w' = trace w ++ opt_in_sequence function device optin config total static set /\
    Forall (fun e => exists c r, e = EvDriver c r /\ result r = CUDA_SUCCESS)
      (opt_in_sequence function device optin config total static set) /\
    shared_mem_bytes_ k <= wrap32 (out optin).
Proof.
  intros H. unfold Kernel.setup_dynamic_shared_memory in H.
  apply bind_Ok in H as (device & w1 & H1 & H).
  apply CUDA_RETURN_IF_ERROR_Ok in H1 as (_ & Hd & ->).
  apply bind_Ok in H as (optin & w2 & H2 & H).
  apply CUDA_RETURN_IF_ERROR_Ok in H2 as (_ & Ho & ->).
  destruct (wrap32 (out optin) <? shared_mem_bytes_ k) eqn:Hfit; [done |].
  apply Z.ltb_ge in Hfit. unfold opt_in_sequence.
  destruct (Kernel.kMaxStaticSharedMemBytes <? out optin) eqn:Hbig.
  - apply bind_Ok in H as (config & w3 & H3 & H).
    apply CUDA_RETURN_IF_ERROR_Ok in H3 as (_ & Hc & ->).
    apply bind_Ok in H as (total & w4 & H4 & H).
    apply CUDA_RETURN_IF_ERROR_Ok in H4 as (_ & Ht & ->).
    apply bind_Ok in H as (static & w5 & H5 & H).
    apply CUDA_RETURN_IF_ERROR_Ok in H5 as (_ & Hs & ->).
    apply bind_Ok in H as (set & w6 & H6 & H).
    apply CUDA_RETURN_IF_ERROR_Ok in H6 as (_ & Hset & ->).
    injection H as _ <-.
    exists device, optin, config, total, static, set. rewrite Hbig.
    split; [simpl; by rewrite <- !app_assoc |]. split; [| done].
    repeat constructor; by eexists _, _.
  - injection H as _ <-.
    exists device, optin, device, device, device, device. rewrite Hbig.
    split; [simpl; by rewrite <- !app_assoc |]. split; [| done].
    repeat constructor; by eexists _, _.
Qed.

(** X4. A first resolution of a kernel above the static shared-memory
    limit: between the lookup of the function and the pop of the context
    comes the opt-in sequence, every call of which succeeded; the device's
    opt-in limit, read as unsigned, is not below the kernel's request, and
    when the limit is above 48kB the function's dynamic limit is set to the
    opt-in limit less the function's static shared memory. *)
Theorem dynamic_resolution_steps self context w k function w' :
  kernel_heap w !! self = Some k -> functions_ k !! context = None ->
  Kernel.kMaxStaticSharedMemBytes < shared_mem_bytes_ k ->
  Kernel.GetFunctionForContext env self context w = (Ok function, w') ->
  exists pushed module found popped device optin config total static set,
    trace w' = trace w ++
      [EvLock (KernelMutex self);
       EvDriver (cuCtxPushCurrent context) pushed;
       EvDriver (cuModuleLoadData (module_image_ k)) module;
       EvDriver (cuModuleGetFunction (out module) (kernel_name_ k)) found]
      ++ opt_in_sequence function device optin config total static set
      ++ [EvDriver cuCtxPopCurrent popped; EvUnlock (KernelMutex self)] /\
    function = out found /\
    Forall (fun e => exists c r, e = EvDriver c r /\ result r = CUDA_SUCCESS)
      (opt_in_sequence function device optin config total static set) /\
    shared_mem_bytes_ k <= wrap32 (out optin).
Proof.
  intros Hk Hf Hbig H.
  apply (GetFunctionForContext_run env self context w k _ _ Hk Hf) in H
    as (w0 & r1 & w1 & Hw0 & Hr1 & Hw1 & [(_ & _ & [=]) | (Hok1 & wb & H & Hw')]).
  destruct Hw' as [(f & [=] & _) | (_ & ->)].
  assert (kernel_heap w1 = kernel_heap w) as Hheap1 by by rewrite Hw1, Hw0.
  assert (kernel_heap w1 !! self = Some k) as Hk1 by by rewrite Hheap1.
  pose proof (load_function_run env self context w1 k _ _ Hk1 Hf H) as H'. clear H.
  destruct H' as (r2 & w2 & Hr2 & Hw2 & [(_ & _ & [=]) | (Hok2 & r3 & w3 & Hr3 & Hw3 & H)]).
  destruct H as [(_ & _ & [=]) | (Hok3 & w4 & Hw4 & H)].
  apply Z.leb_gt in Hbig. rewrite Hbig in H.
  pose proof H as Hfun. apply setup_dynamic_shared_memory_Ok in Hfun as [-> _].
  apply setup_dynamic_shared_memory_steps in H
    as (device & optin & config & total & static & set & Htr & Hall & Hfit).
  exists r1, r2, r3, (driver env (trace wb) cuCtxPopCurrent),
    device, optin, config, total, static, set.
  split; [| done].
  simpl. rewrite Htr, Hw4. simpl. rewrite Hw3. simpl. rewrite Hw2. simpl.
  rewrite Hw1. simpl. rewrite Hw0. simpl. by rewrite <- !app_assoc.
Qed.

(** X5. A kernel launch that returns ok has asked the driver for the
    context of the stream, resolved the function for that context, and
    launched, last, the function registered for that context, on the given
    grid, with the kernel's block of [block_dim_x_] threads and its
    [shared_mem_bytes_]. *)
Theorem Kernel_Launch_launches_registered self stream grid params w w' :
  Kernel.Launch env self stream grid params w = (Ok tt, w') ->
  exists context evs function k launched,
    trace w' = trace w ++ EvDriver (cuStreamGetCtx stream) context :: evs ++
      [EvDriver (cuLaunchKernel function grid (block_dim_x_ k, 1, 1)
                   (shared_mem_bytes_ k) stream params) launched] /\
    result context = CUDA_SUCCESS /\ Forall resolution_event evs /\
    result launched = CUDA_SUCCESS /\
    kernel_heap w' !! self = Some k /\
    functions_ k !! out context = Some function.
Proof.
  unfold Kernel.Launch. intros H.
  apply bind_Ok in H as (context & w1 & H1 & H).
  apply bind_Ok in H as (function & w2 & H2 & H).
  apply bind_Ok in H as (k & w3 & H3 & H).
  apply bind_Ok in H as (reply & w4 & H4 & [= <-]).
  apply CUDA_RETURN_IF_ERROR_Ok in H1 as (_ & Hctx & ->).
  pose proof (GetFunctionForContext_emits env _ _ _ _ _ H2) as (evs & Htr & Hall).
  apply GetFunctionForContext_Ok in H2 as (k' & Hk' & Hf).
  apply load_kernel_inv in H3 as [-> [(x & Hx & [= <-]) | [_ [=]]]].
  rewrite Hk' in Hx. injection Hx as <-.
  apply CUDA_RETURN_IF_ERROR_Ok in H4 as (_ & Hok & ->).
  exists context, evs, function, k', reply.
  split; [| done]. simpl. rewrite Htr. simpl. by rewrite <- !app_assoc.
Qed.
End KernelResolution.

Lemma resolved_function_is_cached_witness :
  exists w2,
    Kernel.GetFunctionForContext (env_of obliging_driver) 0 1
      (resolved_world 0 obliging_driver) = (Ok 3, w2) /\
    trace w2 = trace (resolved_world 0 obliging_driver)
                 ++ [EvLock (KernelMutex 0); EvUnlock (KernelMutex 0)] /\
    kernel_heap w2 = kernel_heap (resolved_world 0 obliging_driver).
Proof.
  apply (resolved_function_is_cached (env_of obliging_driver) 0 1 (one_kernel_world 0)).
  vm_compute. reflexivity.
Defined.

Lemma static_resolution_steps_witness :
  exists pushed module found popped,
    trace (resolved_world 0 obliging_driver) = trace (one_kernel_world 0) ++
      [EvLock (KernelMutex 0);
       EvDriver (cuCtxPushCurrent 1) pushed;
       EvDriver (cuModuleLoadData "image") module;
       EvDriver (cuModuleGetFunction (out module) "kernel") found;
       EvDriver cuCtxPopCurrent popped;
       EvUnlock (KernelMutex 0)] /\
    result pushed = CUDA_SUCCESS /\ result module = CUDA_SUCCESS /\
    result found = CUDA_SUCCESS /\ 3 = out found /\
    kernel_heap (resolved_world 0 obliging_driver) =
      <[0%nat := Kernel.insert_function 1 3
                   (Kernel.push_back_module (out module) (Kernel_new "image" "kernel" 4 0))]>
        (kernel_heap (one_kernel_world 0)).
Proof.
  apply (static_resolution_steps (env_of obliging_driver) 0 1 (one_kernel_world 0)
           (Kernel_new "image" "kernel" 4 0) 3 (resolved_world 0 obliging_driver)).
  - reflexivity.
  - reflexivity.
  - vm_compute. discriminate.
  - vm_compute. reflexivity.
Defined.

Lemma static_resolution_failure_registers_nothing_witness :
  exists k',
    kernel_heap (resolved_world 0 no_function_driver) !! 0%nat = Some k' /\
    functions_ k' = functions_ (Kernel_new "image" "kernel" 4 0) /\
    (k' = Kernel_new "image" "kernel" 4 0 \/
     exists module err,
       k' = Kernel.push_back_module module (Kernel_new "image" "kernel" 4 0) /\
       InternalError (MsgOperationFailed fn_cuModuleGetFunction (CUDA_ERROR 500))
         = InternalError (MsgOperationFailed fn_cuModuleGetFunction err)).
Proof.
  apply (static_resolution_failure_registers_nothing (env_of no_function_driver) 0 1
           (one_kernel_world 0) (Kernel_new "image" "kernel" 4 0)
           (InternalError (MsgOperationFailed fn_cuModuleGetFunction (CUDA_ERROR 500)))
           (resolved_world 0 no_function_driver)).
  - reflexivity.
  - vm_compute. discriminate.
  - vm_compute. reflexivity.
Defined.

Lemma dynamic_resolution_steps_witness :
  exists pushed module found popped device optin config total static set,
    trace (resolved_world 65536 generous_optin_driver)
      = trace (one_kernel_world 65536) ++
      [EvLock (KernelMutex 0);
       EvDriver (cuCtxPushCurrent 1) pushed;
       EvDriver (cuModuleLoadData "image") module;
       EvDriver (cuModuleGetFunction (out module) "kernel") found]
      ++ opt_in_sequence 3 device optin config total static set
      ++ [EvDriver cuCtxPopCurrent popped; EvUnlock (KernelMutex 0)] /\
    3 = out found /\
    Forall (fun e => exists c r, e = EvDriver c r /\ result r = CUDA_SUCCESS)
      (opt_in_sequence 3 device optin config total static set) /\
    65536 <= wrap32 (out optin).
Proof.
  apply (dynamic_resolution_steps (env_of generous_optin_driver) 0 1
           (one_kernel_world 65536) (Kernel_new "image" "kernel" 4 65536) 3
           (resolved_world 65536 generous_optin_driver)).
  - reflexivity.
  - reflexivity.
  - vm_compute. reflexivity.
  - vm_compute. reflexivity.
Defined.

Lemma Kernel_Launch_launches_registered_witness :
  exists context evs function k launched,
    trace (snd (Kernel.Launch (env_of obliging_driver) 0 5 (4, 1, 1) []
                  (one_kernel_world 0)))
      = trace (one_kernel_world 0) ++ EvDriver (cuStreamGetCtx 5) context :: evs ++
      [EvDriver (cuLaunchKernel function (4, 1, 1) (block_dim_x_ k, 1, 1)
                   (shared_mem_bytes_ k) 5 []) launched] /\
    result context = CUDA_SUCCESS /\ Forall resolution_event evs /\
    result launched = CUDA_SUCCESS /\
    kernel_heap (snd (Kernel.Launch (env_of obliging_driver) 0 5 (4, 1, 1) []
                        (one_kernel_world 0))) !! 0%nat = Some k /\
    functions_ k !! out context = Some function.
Proof.
  apply (Kernel_Launch_launches_registered (env_of obliging_driver) 0 5 (4, 1, 1) []
           (one_kernel_world 0)).
  vm_compute. reflexivity.
Defined.

(** ** The steps by which the launcher changes the world

    Every change the launcher makes to the world is one of a few kinds: it
    appends an event, adds a module or a function to a kernel, creates a
    kernel together with its cache entry, overwrites a call object in
    place, creates a call object, or adds an entry to the call cache.  A
    relation closed under these steps is respected by every function, up
    to the entry point. *)

Section Steps.
Context (env : Environment) (R : World -> World -> Prop).
Context (R_refl : forall w, R w w).
Context (R_trans : forall w1 w2 w3, R w1 w2 -> R w2 w3 -> R w1 w3).
Context (R_record : forall e w, R w (record e w)).
Context (R_push_module : forall w self k module,
  kernel_heap w !! self = Some k ->
  R w (set_kernel_heap (<[self := Kernel.push_back_module module k]> (kernel_heap w)) w)).
Context (R_insert_function : forall w self k context function,
  kernel_heap w !! self = Some k -> functions_ k !! context = None ->
  R w (set_kernel_heap
         (<[self := Kernel.insert_function context function k]> (kernel_heap w)) w)).
Context (R_new_kernel : forall w proto image,
  kernels w !! kernel_key proto = None ->
  CompileGpuAsm env (compute_capability proto / 10) (compute_capability proto mod 10)
    (ptx proto) = inr image ->
  R w (set_kernels (<[kernel_key proto := length (kernel_heap w)]> (kernels w))
         (set_kernel_heap
            (kernel_heap w ++
               [Kernel_new image (kernel_name proto) (num_warps proto)
                  (shared_mem_bytes proto)]) w))).
Context (R_store_call : forall w a c,
  R w (set_call_heap (<[a := c]> (call_heap w)) w)).
Context (R_make_unique : forall w c,
  R w (set_call_heap (call_heap w ++ [c]) w)).
Context (R_kernel_calls_insert : forall w key a,
  kernel_calls w !! key = None -> (a < length (call_heap w))%nat ->
  R w (set_kernel_calls (<[key := a]> (kernel_calls w)) w)).

Local Ltac step :=
  apply respects_bind; [exact R_trans | | intros ?].
Local Ltac cuda :=
  apply (respects_CUDA_RETURN_IF_ERROR env R R_refl R_trans R_record).

Lemma steps_GetFunctionForContext self context :
  respects R (Kernel.GetFunctionForContext env self context).
Proof.
  intros w r w' H.
  destruct (kernel_heap w !! self) as [k |] eqn:Hk.
  2: { unfold Kernel.GetFunctionForContext, with_lock, bind, emit, finally, load_kernel in H.
       simpl in H. rewrite Hk in H. injection H as _ <-. apply R_record. }
  assert (self < length (kernel_heap w))%nat as Hlt by by apply lookup_lt_Some in Hk.
  destruct (functions_ k !! context) as [f |] eqn:Hf.
  { rewrite (GetFunctionForContext_hit env self context w k f Hk Hf) in H.
    injection H as _ <-. eapply R_trans; apply R_record. }
  apply (GetFunctionForContext_run env self context w k _ _ Hk Hf) in H
    as (w0 & r1 & w1 & Hw0 & Hr1 & Hw1 & [(_ & -> & _) | (Hok1 & wb & H & Hw')]).
  { rewrite Hw1, Hw0. eapply R_trans; [eapply R_trans |]; apply R_record. }
  assert (R w w1) as R1.
  { rewrite Hw1, Hw0. eapply R_trans; apply R_record. }
  assert (R wb w') as Rb.
  { destruct Hw' as [(f & _ & ->) | (_ & ->)]; [apply R_refl |].
    eapply R_trans; apply R_record. }
  apply (R_trans _ _ _ R1). apply (R_trans _ wb); [| exact Rb].
  assert (kernel_heap w1 = kernel_heap w) as Hheap1 by by rewrite Hw1, Hw0.
  assert (kernel_heap w1 !! self = Some k) as Hk1 by by rewrite Hheap1.
  pose proof (load_function_run env self context w1 k _ _ Hk1 Hf H) as H'. clear H.
  destruct H' as (r2 & w2 & Hr2 & Hw2 & [(_ & -> & _) | (Hok2 & r3 & w3 & Hr3 & Hw3 & H)]).
  { rewrite Hw2. apply R_record. }
  assert (R w1 w3) as R3.
  { rewrite Hw3. apply (R_trans _ w2); [rewrite Hw2; apply R_record |].
    eapply R_trans; [| apply R_record].
    replace (kernel_heap w1) with (kernel_heap w2) by by rewrite Hw2.
    apply R_push_module. by rewrite Hw2. }
  destruct H as [(_ & -> & _) | (Hok3 & w4 & Hw4 & H)]; [exact R3 |].
  apply (R_trans _ _ _ R3).
  assert (R w3 w4) as R4.
  { rewrite Hw4.
    replace (<[self := _]> (kernel_heap w1))
      with (<[self := Kernel.insert_function context (out r3)
                        (Kernel.push_back_module (out r2) k)]> (kernel_heap w3)).
    - apply R_insert_function; [| done].
      rewrite Hw3. simpl. apply list_lookup_insert_eq. by rewrite Hheap1.
    - rewrite Hw3. simpl. apply list_insert_insert_eq. }
  apply (R_trans _ _ _ R4).
  destruct (_ <=? _).
  - destruct H as [_ ->]. apply R_refl.
  - by apply (respects_setup_dynamic_shared_memory env R R_refl R_trans R_record) in H.
Qed.

Lemma steps_Kernel_Launch self stream grid params :
  respects R (Kernel.Launch env self stream grid params).
Proof.
  unfold Kernel.Launch.
  step; [cuda |]. step; [apply steps_GetFunctionForContext |].
  step; [by apply respects_load_kernel |]. step; [cuda |]. by apply respects_ret.
Qed.

Lemma steps_bind_parameters stream buffers ps : forall i cursor params,
  respects R (KernelCall.bind_parameters env ps i stream buffers cursor params).
Proof.
  induction ps as [| [a | s] rest IH]; intros i cursor params; simpl.
  - by apply respects_ret.
  - step; [by apply respects_read_buffer |].
    destruct (_ && _); [by apply respects_fail |].
    step; [| apply IH].
    unfold KernelCall.zero_fill. destruct (_ <? _); [| by apply respects_ret].
    step; [cuda |]. by apply respects_ret.
  - apply IH.
Qed.

Lemma steps_KernelCall_Launch self stream buffers :
  respects R (KernelCall.Launch env self stream buffers).
Proof.
  unfold KernelCall.Launch. step; [apply steps_bind_parameters |].
  apply steps_Kernel_Launch.
Qed.

Lemma steps_launch_repeatedly kc stream buffers n :
  respects R (AutotunedKernelCall.launch_repeatedly env kc stream buffers n).
Proof.
  induction n as [| n IH]; simpl; [by apply respects_ret |].
  step; [apply steps_KernelCall_Launch | done].
Qed.

Lemma steps_Benchmark stream kc buffers num_iterations :
  respects R (AutotunedKernelCall.Benchmark env stream kc buffers num_iterations).
Proof.
  unfold AutotunedKernelCall.Benchmark.
  step; [cuda |]. step; [cuda |]. step; [apply steps_KernelCall_Launch |].
  step; [cuda |]. step; [apply steps_launch_repeatedly |].
  repeat (step; [cuda |]). by apply respects_ret.
Qed.

Lemma steps_LOG l : respects R (LOG l).
Proof. apply respects_emit, R_record. Qed.

Lemma steps_store_autotuned a c : respects R (store_autotuned a c).
Proof. intros w r w' [= _ <-]. apply R_store_call. Qed.

Lemma steps_save_aliased_inputs stream buffers aliases : forall copies,
  respects R (AutotunedKernelCall.save_aliased_inputs env aliases stream buffers copies).
Proof.
  induction aliases as [| [[i o] size] rest IH]; intros copies; simpl.
  - by apply respects_ret.
  - step; [by apply respects_read_buffer |]. step; [by apply respects_read_buffer |].
    destruct (_ =? _); [| apply IH]. step; [cuda | apply IH].
Qed.

Lemma steps_restore_aliased_inputs stream buffers aliases : forall copies,
  respects R (AutotunedKernelCall.restore_aliased_inputs env aliases stream buffers copies).
Proof.
  induction aliases as [| [[i o] size] rest IH]; intros copies; simpl.
  - by apply respects_ret.
  - step; [by apply respects_read_buffer |]. step; [cuda | apply IH].
Qed.

Lemma steps_calibrate stream buffers configs : forall best,
  respects R (AutotunedKernelCall.calibrate env configs stream buffers best).
Proof.
  induction configs as [| c rest IH]; intros best; simpl.
  - by apply respects_ret.
  - step; [apply steps_Benchmark |]. step; [apply steps_LOG | apply IH].
Qed.

Lemma steps_choose_timed_iters best :
  respects R (AutotunedKernelCall.choose_timed_iters best).
Proof.
  unfold AutotunedKernelCall.choose_timed_iters.
  destruct (static_cast_int _); [| by apply respects_fatal].
  destruct (_ <? _); (step; [apply steps_LOG | by apply respects_ret]).
Qed.

Lemma steps_select self stream buffers timed_iters n : forall i best,
  respects R (AutotunedKernelCall.select env self stream buffers timed_iters n i best).
Proof.
  induction n as [| n IH]; intros i best; simpl; [by apply respects_ret |].
  step; [by apply respects_load_autotuned |].
  destruct (_ !! _); [| by apply respects_fatal].
  step; [apply steps_Benchmark |]. step; [apply steps_LOG |].
  destruct (f32_ltb _ _); [| apply IH].
  step; [apply steps_LOG |]. step; [apply steps_store_autotuned | apply IH].
Qed.

Lemma steps_Autotune self stream buffers :
  respects R (AutotunedKernelCall.Autotune env self stream buffers).
Proof.
  unfold AutotunedKernelCall.Autotune.
  step; [cuda |]. step; [cuda |].
  apply respects_finally; [exact R_trans | | intros w; apply R_record].
  unfold AutotunedKernelCall.Autotune_body.
  step; [by apply respects_load_autotuned |].
  step; [apply steps_save_aliased_inputs |]. step; [apply steps_LOG |].
  step; [apply steps_calibrate |]. step; [apply steps_choose_timed_iters |].
  step; [apply steps_select |].
  step.
  { unfold AutotunedKernelCall.discard_all_but_best.
    step; [by apply respects_load_autotuned | apply steps_store_autotuned]. }
  step; [by apply respects_load_autotuned |].
  destruct (_ !! _); [| by apply respects_fatal].
  step; [apply steps_LOG |]. step; [apply steps_restore_aliased_inputs |].
  step; [cuda |]. by apply respects_ret.
Qed.

Lemma steps_AutotunedKernelCall_Launch self stream buffers :
  respects R (AutotunedKernelCall.Launch env self stream buffers).
Proof.
  unfold AutotunedKernelCall.Launch. step.
  { unfold AutotunedKernelCall.autotune_once.
    step; [by apply respects_load_autotuned |].
    destruct (autotune_once_ _); [by apply respects_ret |].
    step.
    - destruct (_ <? _)%nat; [| by apply respects_ret].
      step; [apply respects_status_of, steps_Autotune |].
      step; [by apply respects_load_autotuned | apply steps_store_autotuned].
    - step; [by apply respects_load_autotuned | apply steps_store_autotuned]. }
  step; [by apply respects_load_autotuned |].
  step; [by apply respects_JAX_RETURN_IF_ERROR |].
  destruct (_ !! _); [apply steps_KernelCall_Launch | by apply respects_fatal].
Qed.

Lemma steps_GetKernel proto : respects R (GetKernel env proto).
Proof.
  unfold GetKernel.
  apply respects_with_lock; [exact R_trans | exact R_record |].
  intros w r w'. destruct (kernels w !! kernel_key proto) eqn:Hmiss;
    [intros [= _ <-]; apply R_refl |].
  unfold bind, compile, emit, make_shared, kernels_insert. simpl.
  destruct (CompileGpuAsm _ _ _ _) as [e | image] eqn:E; simpl;
    [intros [= _ <-]; apply R_record |].
  rewrite Hmiss. intros [= _ <-].
  eapply R_trans; [apply R_record |].
  by apply (R_new_kernel (record _ w) proto image).
Qed.

Lemma steps_parameters_FromProto protos : forall parameters,
  respects R (KernelCall.parameters_FromProto protos parameters).
Proof.
  induction protos as [| p rest IH]; intros parameters; simpl.
  - by apply respects_ret.
  - destruct p; try apply IH; (step; [| apply IH]);
      first [by apply respects_ret | by apply respects_fail].
Qed.

Lemma steps_KernelCall_FromProto proto :
  respects R (KernelCall.FromProto env proto).
Proof.
  unfold KernelCall.FromProto.
  step; [apply steps_GetKernel |]. step; [apply steps_parameters_FromProto |].
  by apply respects_ret.
Qed.

Lemma steps_configs_FromProto protos : forall configs,
  respects R (AutotunedKernelCall.configs_FromProto env protos configs).
Proof.
  induction protos as [| p rest IH]; intros configs; simpl.
  - by apply respects_ret.
  - step; [apply steps_KernelCall_FromProto | apply IH].
Qed.

Lemma steps_construct proto : respects R (construct env proto).
Proof.
  destruct proto as [p | p |]; simpl.
  - step; [apply steps_KernelCall_FromProto |].
    intros w r w' [= _ <-]. apply R_make_unique.
  - step.
    + unfold AutotunedKernelCall.FromProto.
      step; [apply steps_configs_FromProto | by apply respects_ret].
    + intros w r w' [= _ <-]. apply R_make_unique.
  - by apply respects_fail.
Qed.

(** A call object that [construct] returns has just been allocated. *)
Lemma construct_Ok proto w a w' :
  construct env proto w = (Ok a, w') -> (a < length (call_heap w'))%nat.
Proof.
  destruct proto as [p | p |]; simpl; [| | done].
  - intros (kc & w1 & _ & [= <- <-])%bind_Ok. simpl. rewrite length_app. simpl. lia.
  - intros (c & w1 & _ & [= <- <-])%bind_Ok. simpl. rewrite length_app. simpl. lia.
Qed.

Lemma steps_GetKernelCall fuel opaque : respects R (GetKernelCall env fuel opaque).
Proof.
  unfold GetKernelCall.
  apply respects_with_lock; [exact R_trans | exact R_record |].
  intros w r w'. destruct (kernel_calls w !! opaque);
    [intros [= _ <-]; apply R_refl |].
  intros H.
  apply bind_inv in H as [(serialized & w1 & H1 & H) | [(e & H1 & _) | (f & H1 & _)]];
    try (injection H1 as _ <-; apply R_refl).
  injection H1 as _ <-.
  destruct (ParseFromString env serialized) as [proto |];
    [| injection H as _ <-; apply R_refl].
  apply bind_inv in H as [(a & w2 & H2 & H) | [(e & H2 & _) | (f & H2 & _)]];
    try (eapply steps_construct, H2).
  eapply R_trans; [eapply steps_construct, H2 |].
  apply construct_Ok in H2.
  unfold bind, kernel_calls_insert in H.
  destruct (kernel_calls w2 !! serialized) eqn:Hfree; injection H as _ <-;
    [apply R_refl | by apply R_kernel_calls_insert].
Qed.

Lemma steps_KernelCallBase_Launch c stream buffers :
  respects R (KernelCallBase_Launch env c stream buffers).
Proof.
  intros w r w'. unfold KernelCallBase_Launch.
  destruct (call_heap w !! c) as [[kc | ac] |].
  - apply steps_KernelCall_Launch.
  - apply steps_AutotunedKernelCall_Launch.
  - intros [= _ <-]. apply R_refl.
Qed.

Lemma steps_LaunchTritonKernel fuel stream buffers opaque :
  respects R (LaunchTritonKernel env fuel stream buffers opaque).
Proof.
  unfold LaunchTritonKernel. apply respects_status_of.
  step; [apply steps_GetKernelCall | apply steps_KernelCallBase_Launch].
Qed.
End Steps.

(** ** What the entry point keeps *)

Lemma grows_refl w : grows w w.
Proof. by repeat split. Qed.

Lemma grows_trans w1 w2 w3 : grows w1 w2 -> grows w2 w3 -> grows w1 w3.
Proof.
  intros (A1 & B1 & C1 & D1) (A2 & B2 & C2 & D2).
  repeat split; [by etrans | by etrans | lia | lia].
Qed.

(** X6. The launcher never drops anything: over a call of the entry point,
    whatever it returns, every entry of the kernel cache and of the call
    cache stays bound to the same object, and no kernel and no call object
    is freed. *)
Theorem launcher_never_evicts env fuel stream buffers opaque w r w' :
  LaunchTritonKernel env fuel stream buffers opaque w = (r, w') -> grows w w'.
Proof.
  apply (steps_LaunchTritonKernel env grows grows_refl grows_trans).
  - intros e w0. by repeat split.
  - intros w0 self k module Hk. repeat split; simpl; try done.
    by rewrite length_insert.
  - intros w0 self k context function Hk Hf. repeat split; simpl; try done.
    by rewrite length_insert.
  - intros w0 proto image Hmiss _. repeat split; simpl; try done.
    + by apply insert_subseteq.
    + rewrite length_app. lia.
  - intros w0 a c. repeat split; simpl; try done. by rewrite length_insert.
  - intros w0 c. repeat split; simpl; try done. rewrite length_app. lia.
  - intros w0 key a Hfree _. repeat split; simpl; try done. by apply insert_subseteq.
Qed.

Lemma launcher_never_evicts_witness :
  grows initial_world (snd first_entry).
Proof.
  apply (launcher_never_evicts toy_env 8 5 [] "zcall" initial_world (fst first_entry)).
  vm_compute. reflexivity.
Defined.

Lemma kernel_evolves_refl k : kernel_evolves k k.
Proof. by repeat split. Qed.

Lemma kernel_evolves_trans k1 k2 k3 :
  kernel_evolves k1 k2 -> kernel_evolves k2 k3 -> kernel_evolves k1 k3.
Proof.
  intros (A1 & B1 & C1 & D1 & E1 & F1) (A2 & B2 & C2 & D2 & E2 & F2).
  repeat split; try congruence; by etrans.
Qed.

Lemma kernels_evolve_refl w : kernels_evolve w w.
Proof. intros a k Hk. exists k. split; [done | apply kernel_evolves_refl]. Qed.

Lemma kernels_evolve_trans w1 w2 w3 :
  kernels_evolve w1 w2 -> kernels_evolve w2 w3 -> kernels_evolve w1 w3.
Proof.
  intros H1 H2 a k Hk.
  destruct (H1 a k Hk) as (k2 & Hk2 & E1). destruct (H2 a k2 Hk2) as (k3 & Hk3 & E2).
  exists k3. split; [done |]. by eapply kernel_evolves_trans.
Qed.

Lemma kernels_evolve_same w w' : kernel_heap w' = kernel_heap w -> kernels_evolve w w'.
Proof. intros E a k Hk. exists k. rewrite E. split; [done | apply kernel_evolves_refl]. Qed.

Lemma kernels_evolve_insert w self k k' :
  kernel_heap w !! self = Some k -> kernel_evolves k k' ->
  kernels_evolve w (set_kernel_heap (<[self := k']> (kernel_heap w)) w).
Proof.
  intros Hk E a x Hx. simpl. destruct (decide (a = self)) as [-> | Hne].
  - exists k'. rewrite list_lookup_insert_eq by by apply lookup_lt_Some in Hk.
    split; [done |]. rewrite Hk in Hx. by injection Hx as <-.
  - exists x. rewrite list_lookup_insert_ne by done.
    split; [done | apply kernel_evolves_refl].
Qed.

(** X7. A kernel is what its constructor made it: over a call of the
    entry point, whatever it returns, every kernel keeps its module image,
    its name, its block size and its shared-memory request; the modules it
    has loaded and the functions it has registered stay, and others may
    join them. *)
Theorem launcher_keeps_kernels env fuel stream buffers opaque w r w' :
  LaunchTritonKernel env fuel stream buffers opaque w = (r, w') ->
  kernels_evolve w w'.
Proof.
  apply (steps_LaunchTritonKernel env kernels_evolve kernels_evolve_refl
           kernels_evolve_trans).
  - intros e w0. by apply kernels_evolve_same.
  - intros w0 self k module Hk. apply (kernels_evolve_insert _ _ k); [done |].
    repeat split; simpl; try done. by apply prefix_app_r.
  - intros w0 self k context function Hk Hf. apply (kernels_evolve_insert _ _ k); [done |].
    repeat split; simpl; try done. by apply insert_subseteq.
  - intros w0 proto image _ _ a k Hk. exists k. simpl.
    split; [| apply kernel_evolves_refl]. by apply lookup_app_l_Some.
  - intros w0 a c. by apply kernels_evolve_same.
  - intros w0 c. by apply kernels_evolve_same.
  - intros w0 key a _ _. by apply kernels_evolve_same.
Qed.

Lemma launcher_keeps_kernels_witness :
  kernels_evolve (snd first_entry)
    (snd (LaunchTritonKernel toy_env 8 6 [] "call" (snd first_entry))).
Proof.
  apply (launcher_keeps_kernels toy_env 8 6 [] "call" (snd first_entry)
           (fst (LaunchTritonKernel toy_env 8 6 [] "call" (snd first_entry)))).
  vm_compute. reflexivity.
Defined.

(** X8. The caches stay well formed: if every entry of the kernel cache
    leads to the kernel of its key and every entry of the call cache to a
    call object, the same is true after a call of the entry point, whatever
    it returns.  The empty caches are well formed. *)
Theorem launcher_keeps_caches_well_formed env fuel stream buffers opaque w r w' :
  caches_well_formed env w ->
  LaunchTritonKernel env fuel stream buffers opaque w = (r, w') ->
  caches_well_formed env w'.
Proof.
  intros Hwf H. revert Hwf.
  apply (steps_LaunchTritonKernel env
           (fun w w' => caches_well_formed env w -> caches_well_formed env w'))
    with (w := w) (w' := w') (r := r) (fuel := fuel) (stream := stream)
         (buffers := buffers) (opaque := opaque); [| | | | | | | | | exact H]; clear.
  - done.
  - intros w1 w2 w3 H1 H2 Hwf. by apply H2, H1.
  - done.
  - intros w self k module Hk [Hkernels Hcalls]. split; [| done]. simpl.
    intros key a Ha. destruct (Hkernels key a Ha) as (x & Hx & Hfor).
    destruct (decide (a = self)) as [-> | Hne].
    + rewrite list_lookup_insert_eq by by apply lookup_lt_Some in Hk.
      eexists. split; [done |]. rewrite Hk in Hx. injection Hx as <-.
      by destruct key as [[[[? ?] ?] ?] ?].
    + rewrite list_lookup_insert_ne by done. by exists x.
  - intros w self k context function Hk Hf [Hkernels Hcalls]. split; [| done]. simpl.
    intros key a Ha. destruct (Hkernels key a Ha) as (x & Hx & Hfor).
    destruct (decide (a = self)) as [-> | Hne].
    + rewrite list_lookup_insert_eq by by apply lookup_lt_Some in Hk.
      eexists. split; [done |]. rewrite Hk in Hx. injection Hx as <-.
      by destruct key as [[[[? ?] ?] ?] ?].
    + rewrite list_lookup_insert_ne by done. by exists x.
  - intros w proto image Hmiss E [Hkernels Hcalls]. split; [| done]. simpl.
    intros key a Ha. destruct (decide (key = kernel_key proto)) as [-> | Hne].
    + rewrite lookup_insert_eq in Ha. injection Ha as <-.
      eexists. split; [apply list_lookup_middle; done |].
      unfold kernel_for, kernel_key. simpl. by rewrite E.
    + rewrite lookup_insert_ne in Ha by done.
      destruct (Hkernels key a Ha) as (x & Hx & Hfor).
      exists x. split; [by apply lookup_app_l_Some | done].
  - intros w a c [Hkernels Hcalls]. split; [done |]. simpl.
    intros key b Hb. rewrite length_insert. by eapply Hcalls.
  - intros w c [Hkernels Hcalls]. split; [done |]. simpl.
    intros key b Hb. rewrite length_app. apply Hcalls in Hb. lia.
  - intros w key a Hfree Ha [Hkernels Hcalls]. split; [done |]. simpl.
    intros key' b Hb. destruct (decide (key' = key)) as [-> | Hne].
    + rewrite lookup_insert_eq in Hb. by injection Hb as <-.
    + rewrite lookup_insert_ne in Hb by done. by eapply Hcalls.
Qed.

Lemma launcher_keeps_caches_well_formed_witness :
  caches_well_formed toy_env (snd first_entry).
Proof.
  apply (launcher_keeps_caches_well_formed toy_env 8 5 [] "zcall" initial_world
           (fst first_entry)).
  - split; intros key a; simpl; by rewrite lookup_empty.
  - vm_compute. reflexivity.
Defined.

(** ** GetKernel *)

Section KernelCache.
Context (env : Environment).

Lemma GetKernel_hit proto w a :
  kernels w !! kernel_key proto = Some a ->
  GetKernel env proto w
    = (Ok a, record (EvUnlock KernelCacheMutex) (record (EvLock KernelCacheMutex) w)).
Proof.
  intros Hhit. unfold GetKernel, with_lock, bind, emit, finally. simpl. by rewrite Hhit.
Qed.

Lemma GetKernel_miss proto w :
  kernels w !! kernel_key proto = None ->
  GetKernel env proto w =
    let compiling :=
      record (EvCompileGpuAsm (compute_capability proto / 10)
                (compute_capability proto mod 10) (ptx proto))
        (record (EvLock KernelCacheMutex) w) in
    match CompileGpuAsm env (compute_capability proto / 10)
            (compute_capability proto mod 10) (ptx proto) with
    | inl e => (Err e, record (EvUnlock KernelCacheMutex) compiling)
    | inr image =>
        (Ok (length (kernel_heap w)),
         record (EvUnlock KernelCacheMutex)
           (set_kernels (<[kernel_key proto := length (kernel_heap w)]> (kernels w))
              (set_kernel_heap
                 (kernel_heap w ++
                    [Kernel_new image (kernel_name proto) (num_warps proto)
                       (shared_mem_bytes proto)]) compiling)))
    end.
Proof.
  intros Hmiss.
  unfold GetKernel, with_lock, bind, emit, finally, compile, make_shared, kernels_insert.
  simpl. rewrite Hmiss. destruct (CompileGpuAsm _ _ _ _); simpl; [done |].
  by rewrite Hmiss.
Qed.

(** X9. [GetKernel] never takes the process down: the [CHECK] behind its
    insertion cannot fail, because lookup and insertion happen under one
    hold of the mutex, with the same key. *)
Theorem GetKernel_never_aborts proto w f :
  fst (GetKernel env proto w) <> Fatal f.
Proof.
  destruct (kernels w !! kernel_key proto) as [a |] eqn:E.
  - by rewrite (GetKernel_hit _ _ _ E).
  - rewrite (GetKernel_miss _ _ E). simpl. by destruct (CompileGpuAsm _ _ _ _).
Qed.

(** X10. The kernel cache is idempotent: once [GetKernel] has returned a
    kernel for a descriptor, the next call for that descriptor returns the
    same kernel without calling the assembler, and changes nothing but the
    trace, to which it adds the lock and the unlock. *)
Theorem GetKernel_is_cached proto w a w1 :
  GetKernel env proto w = (Ok a, w1) ->
  exists w2,
    GetKernel env proto w1 = (Ok a, w2) /\
    trace w2 = trace w1 ++ [EvLock KernelCacheMutex; EvUnlock KernelCacheMutex] /\
    kernel_heap w2 = kernel_heap w1 /\ kernels w2 = kernels w1 /\
    call_heap w2 = call_heap w1 /\ kernel_calls w2 = kernel_calls w1.
Proof.
  intros H.
  assert (kernels w1 !! kernel_key proto = Some a) as Hbound.
  { destruct (kernels w !! kernel_key proto) as [b |] eqn:E.
    - rewrite (GetKernel_hit _ _ _ E) in H. by injection H as <- <-.
    - rewrite (GetKernel_miss _ _ E) in H. simpl in H.
      destruct (CompileGpuAsm _ _ _ _); [done |]. injection H as <- <-. simpl.
      apply lookup_insert_eq. }
  rewrite (GetKernel_hit _ _ _ Hbound). eexists. split; [reflexivity |].
  simpl. by rewrite <- app_assoc.
Qed.

(** X11. With well-formed caches, the kernel [GetKernel] returns for a
    descriptor is the kernel of that descriptor: it carries the image the
    assembler makes of the descriptor's source, and the descriptor's name,
    block size ([num_warps] times 32, as a [uint32_t]) and shared memory;
    and it is the one the cache now holds for the descriptor's key. *)
Theorem GetKernel_returns_kernel_of_descriptor proto w a w' :
  caches_well_formed env w ->
  GetKernel env proto w = (Ok a, w') ->
  kernels w' !! kernel_key proto = Some a /\
  exists k,
    kernel_heap w' !! a = Some k /\
    CompileGpuAsm env (compute_capability proto / 10) (compute_capability proto mod 10)
      (ptx proto) = inr (module_image_ k) /\
    kernel_name_ k = kernel_name proto /\
    block_dim_x_ k = wrap32 (num_warps proto * 32) /\
    shared_mem_bytes_ k = shared_mem_bytes proto.
Proof.
  intros [Hkernels _] H.
  destruct (kernels w !! kernel_key proto) as [b |] eqn:E.
  - rewrite (GetKernel_hit _ _ _ E) in H. injection H as <- <-. simpl.
    split; [done |]. by destruct (Hkernels _ _ E) as (k & Hk & Hfor); exists k.
  - rewrite (GetKernel_miss _ _ E) in H. simpl in H.
    destruct (CompileGpuAsm _ _ _ _) as [e | image] eqn:Hc; [done |].
    injection H as <- <-. simpl. split; [apply lookup_insert_eq |].
    eexists. split; [by apply list_lookup_middle |]. done.
Qed.
End KernelCache.

Lemma GetKernel_is_cached_witness :
  exists w2,
    GetKernel (env_of obliging_driver) some_kernel
      (snd (GetKernel (env_of obliging_driver) some_kernel initial_world)) = (Ok 0%nat, w2) /\
    trace w2 = trace (snd (GetKernel (env_of obliging_driver) some_kernel initial_world))
                 ++ [EvLock KernelCacheMutex; EvUnlock KernelCacheMutex] /\
    kernel_heap w2
      = kernel_heap (snd (GetKernel (env_of obliging_driver) some_kernel initial_world)) /\
    kernels w2 = kernels (snd (GetKernel (env_of obliging_driver) some_kernel initial_world)) /\
    call_heap w2
      = call_heap (snd (GetKernel (env_of obliging_driver) some_kernel initial_world)) /\
    kernel_calls w2
      = kernel_calls (snd (GetKernel (env_of obliging_driver) some_kernel initial_world)).
Proof.
  apply (GetKernel_is_cached (env_of obliging_driver) some_kernel initial_world).
  vm_compute. reflexivity.
Defined.

Lemma GetKernel_returns_kernel_of_descriptor_witness :
  kernels (snd (GetKernel (env_of obliging_driver) some_kernel initial_world))
    !! kernel_key some_kernel = Some 0%nat /\
  exists k,
    kernel_heap (snd (GetKernel (env_of obliging_driver) some_kernel initial_world))
      !! 0%nat = Some k /\
    CompileGpuAsm (env_of obliging_driver) (compute_capability some_kernel / 10)
      (compute_capability some_kernel mod 10) (ptx some_kernel) = inr (module_image_ k) /\
    kernel_name_ k = kernel_name some_kernel /\
    block_dim_x_ k = wrap32 (num_warps some_kernel * 32) /\
    shared_mem_bytes_ k = shared_mem_bytes some_kernel.
Proof.
  apply (GetKernel_returns_kernel_of_descriptor (env_of obliging_driver) some_kernel
           initial_world).
  - split; intros key a; simpl; by rewrite lookup_empty.
  - vm_compute. reflexivity.
Defined.

(** ** KernelCall::Launch: buffers and zero-fills *)

Section KernelCallBuffers.
Context (env : Environment) (stream : CUstream).

Lemma bind_parameters_ext ps : forall buffers buffers' i cursor acc w,
  (forall j, (j < arrays_before ps (length ps))%nat ->
     buffers !! (cursor + j)%nat = buffers' !! (cursor + j)%nat) ->
  KernelCall.bind_parameters env ps i stream buffers cursor acc w
    = KernelCall.bind_parameters env ps i stream buffers' cursor acc w.
Proof.
  induction ps as [| [a | s] rest IH]; intros buffers buffers' i cursor acc w Hsame;
    simpl; [done | |].
  - simpl in Hsame. unfold bind at 1 3. unfold read_buffer.
    assert (buffers !! cursor = buffers' !! cursor) as <-.
    { rewrite <- (Nat.add_0_r cursor). apply Hsame. lia. }
    destruct (buffers !! cursor) as [p |]; [| done]. unfold ret.
    destruct (_ && _); [done |]. unfold bind.
    destruct (KernelCall.zero_fill _ _ _ _ _) as [[[] | e | f] w1]; try done.
    apply IH. intros j Hj.
    replace (S cursor + j)%nat with (cursor + S j)%nat by lia. apply Hsame. lia.
  - apply IH. intros j Hj. apply Hsame. simpl in *. lia.
Qed.

(** X12. A launch reads one buffer per array parameter and no more: two
    buffer arrays that agree on their first [n] entries, [n] being the
    number of array parameters of the call, give the same run. *)
Theorem Launch_reads_one_buffer_per_array self buffers buffers' w :
  take (arrays_before (parameters_ self) (length (parameters_ self))) buffers
    = take (arrays_before (parameters_ self) (length (parameters_ self))) buffers' ->
  KernelCall.Launch env self stream buffers w
    = KernelCall.Launch env self stream buffers' w.
Proof.
  intros Htake. unfold KernelCall.Launch, bind.
  rewrite (bind_parameters_ext _ buffers buffers'); [done |].
  intros j Hj. simpl.
  rewrite <- (lookup_take_lt buffers _ j Hj), <- (lookup_take_lt buffers' _ j Hj).
  by rewrite Htake.
Qed.

Lemma bind_parameters_zero_fills buffers ps : forall i cursor acc w params w',
  KernelCall.bind_parameters env ps i stream buffers cursor acc w = (Ok params, w') ->
  exists fills,
    trace w' = trace w ++ fills /\
    Forall2 (zero_fill_of stream) fills (zero_fills ps buffers cursor).
Proof.
  induction ps as [| [a | s] rest IH]; intros i cursor acc w params w'; simpl.
  - intros [= _ <-]. exists []. by rewrite app_nil_r.
  - intros H. apply bind_Ok in H as (p & w0 & H0 & H).
    apply read_buffer_inv in H0 as [-> [(q & Hq & [= <-]) | [_ [=]]]]. rewrite Hq.
    destruct (_ && _); [done |].
    apply bind_Ok in H as ([] & w1 & H1 & H).
    apply IH in H as (fills & Htr & Hfills).
    apply zero_fill_inv in H1
      as [(Hz & _ & ->) | (Hz & reply & -> & [[Hok _] | [_ [=]]])].
    + exists fills. split; [done |].
      apply Z.ltb_ge in Hz. by rewrite Hz.
    + exists (EvDriver (cuMemsetD8Async p 0 (bytes_to_zero a) stream) reply :: fills).
      split; [rewrite Htr; simpl; by rewrite <- app_assoc |].
      apply Z.ltb_lt in Hz. rewrite Hz. simpl. constructor; [| done]. by exists reply.
  - apply IH.
Qed.

(** X13. A launch that returns ok has zero-filled, before anything else
    and in parameter order, exactly the buffers of the array parameters
    with [bytes_to_zero > 0], each once, with its byte count and on the
    stream of the launch; no other memset follows. *)
Theorem Launch_zero_fills_in_order self buffers w w' :
  KernelCall.Launch env self stream buffers w = (Ok tt, w') ->
  exists fills rest,
    trace w' = trace w ++ fills ++ rest /\
    Forall2 (zero_fill_of stream) fills (zero_fills (parameters_ self) buffers 0) /\
    Forall (fun e => ~ is_zero_fill e) rest.
Proof.
  unfold KernelCall.Launch. intros H.
  apply bind_Ok in H as (params & w1 & H1 & H).
  apply bind_parameters_zero_fills in H1 as (fills & Htr1 & Hfills).
  apply Kernel_Launch_emits in H as (rest & Htr & Hrest).
  exists fills, rest. split; [by rewrite Htr, Htr1, app_assoc |]. split; [done |].
  eapply Forall_impl; [exact Hrest |].
  intros e [He | [(r & ->) | (f & b & sh & r & ->)]]; [| done | done].
  destruct e as [c r | [] | [] | |]; try done.
  unfold is_zero_fill. simpl in *. intros [= Hc]. by rewrite Hc in He.
Qed.
End KernelCallBuffers.

Lemma Launch_reads_one_buffer_per_array_witness :
  KernelCall.Launch (env_of obliging_driver) asasa 5 [4096; 8192; 12288; 1; 2]
    (one_kernel_world 0)
  = KernelCall.Launch (env_of obliging_driver) asasa 5 [4096; 8192; 12288]
      (one_kernel_world 0).
Proof.
  apply (Launch_reads_one_buffer_per_array (env_of obliging_driver) 5 asasa).
  reflexivity.
Defined.

Lemma Launch_zero_fills_in_order_witness :
  exists fills rest,
    trace (snd (KernelCall.Launch (env_of obliging_driver)
                  (call_on [Array (zeroed_array 8); Scalar (i32 7); Array (zeroed_array 0);
                            Array (zeroed_array 4)])
                  5 [4096; 8192; 12288] (one_kernel_world 0)))
      = trace (one_kernel_world 0) ++ fills ++ rest /\
    Forall2 (zero_fill_of 5) fills [(4096, 8); (12288, 4)] /\
    Forall (fun e => ~ is_zero_fill e) rest.
Proof.
  apply (Launch_zero_fills_in_order (env_of obliging_driver) 5
           (call_on [Array (zeroed_array 8); Scalar (i32 7); Array (zeroed_array 0);
                     Array (zeroed_array 4)])
           [4096; 8192; 12288] (one_kernel_world 0)).
  vm_compute. reflexivity.
Defined.

(** ** Decoding descriptors *)

Section Decoding.
Context (env : Environment).

Lemma parameters_FromProto_run protos : forall acc w,
  KernelCall.parameters_FromProto protos acc w =
    (match mapM decoded_parameter protos with
     | Some ps => Ok (acc ++ ps)
     | None => Err (InvalidArgumentError MsgUnknownScalarParameterType)
     end, w).
Proof.
  induction protos as [| p rest IH]; intros acc w; simpl.
  - by rewrite app_nil_r.
  - destruct p; simpl; unfold bind, ret, fail; simpl; rewrite ?IH;
      try (destruct (mapM decoded_parameter rest); simpl; [by rewrite <- app_assoc | done]).
    done.
Qed.

Lemma GetKernel_kernels proto w a w' :
  GetKernel env proto w = (Ok a, w') ->
  kernels w ⊆ kernels w' /\ kernels w' !! kernel_key proto = Some a.
Proof.
  intros H. destruct (kernels w !! kernel_key proto) as [b |] eqn:E.
  - rewrite (GetKernel_hit _ _ _ _ E) in H. by injection H as <- <-.
  - rewrite (GetKernel_miss _ _ _ E) in H. simpl in H.
    destruct (CompileGpuAsm _ _ _ _); [done |]. injection H as <- <-. simpl.
    split; [by apply insert_subseteq | apply lookup_insert_eq].
Qed.

Lemma KernelCall_FromProto_Ok proto w kc w' :
  KernelCall.FromProto env proto w = (Ok kc, w') ->
  GetKernel env (kernel proto) w = (Ok (kernel_ kc), w') /\
  kernels w ⊆ kernels w' /\ decoded_call w' proto kc.
Proof.
  unfold KernelCall.FromProto. intros H.
  apply bind_Ok in H as (a & w1 & H1 & H).
  apply bind_Ok in H as (ps & w2 & H2 & [= <- <-]).
  rewrite parameters_FromProto_run in H2.
  destruct (mapM decoded_parameter (parameters proto)) as [qs |] eqn:Hqs; [| done].
  injection H2 as <- <-. simpl.
  pose proof (GetKernel_kernels _ _ _ _ H1) as [Hsub Hbound].
  repeat split; try done. by apply mapM_Some.
Qed.

(** X14. [KernelCall::FromProto] decodes a descriptor faithfully: when it
    returns a call, the call's kernel is the one [GetKernel] returns (and
    the cache holds) for the descriptor's kernel, its grid is the
    descriptor's, and its parameters are the descriptor's, one for one and
    in order, arrays as arrays and each scalar under its own type. *)
Theorem KernelCall_FromProto_decodes proto w kc w' :
  KernelCall.FromProto env proto w = (Ok kc, w') ->
  GetKernel env (kernel proto) w = (Ok (kernel_ kc), w') /\
  decoded_call w' proto kc.
Proof. intros (H1 & _ & H2)%KernelCall_FromProto_Ok. by split. Qed.

(** X15. A descriptor with a parameter that has no value is rejected only
    after its kernel has been compiled and cached: [FromProto] returns the
    [InvalidArgument] of the unknown scalar type, and the kernel cache has
    gained the entry of the descriptor's kernel all the same. *)
Theorem FromProto_rejects_after_compiling proto w image :
  VALUE_NOT_SET ∈ parameters proto ->
  kernels w !! kernel_key (kernel proto) = None ->
  CompileGpuAsm env (compute_capability (kernel proto) / 10)
    (compute_capability (kernel proto) mod 10) (ptx (kernel proto)) = inr image ->
  exists w',
    KernelCall.FromProto env proto w
      = (Err (InvalidArgumentError MsgUnknownScalarParameterType), w') /\
    kernels w' = <[kernel_key (kernel proto) := length (kernel_heap w)]> (kernels w) /\
    kernel_heap w' = kernel_heap w ++
      [Kernel_new image (kernel_name (kernel proto)) (num_warps (kernel proto))
         (shared_mem_bytes (kernel proto))].
Proof.
  intros Hunset Hmiss Hc. unfold KernelCall.FromProto, bind.
  rewrite (GetKernel_miss _ _ _ Hmiss). simpl. rewrite Hc.
  rewrite parameters_FromProto_run.
  destruct (mapM decoded_parameter (parameters proto)) as [qs |] eqn:Hqs.
  - apply mapM_Some in Hqs. apply list_elem_of_lookup in Hunset as [i Hi].
    destruct (Forall2_lookup_l _ _ _ _ _ Hqs Hi) as (y & _ & [=]).
  - eexists. split; [reflexivity |]. done.
Qed.

Lemma configs_FromProto_Ok protos : forall acc w cs w',
  AutotunedKernelCall.configs_FromProto env protos acc w = (Ok cs, w') ->
  kernels w ⊆ kernels w' /\
  exists new, cs = acc ++ new /\ Forall2 (decoded_config w') protos new.
Proof.
  induction protos as [| p rest IH]; intros acc w cs w'; simpl.
  - intros [= <- <-]. split; [done |]. exists []. by rewrite app_nil_r.
  - intros H. apply bind_Ok in H as (kc & w1 & H1 & H).
    apply KernelCall_FromProto_Ok in H1 as (_ & Hsub1 & Hbound & Hgrid & Hps).
    apply IH in H as (Hsub & new & -> & Hnew).
    split; [by etrans |].
    exists ({| kernel_call := kc; description := config_description p |} :: new).
    split; [by rewrite <- app_assoc |].
    constructor; [| done]. split; [done |]. simpl.
    split; [| done]. by eapply lookup_weaken.
Qed.

(** X16. [AutotunedKernelCall::FromProto] decodes the configs one for one
    and in order, each with its description and its call; the kernel of
    every config is the one the kernel cache holds, in the end, for the
    key of its descriptor, so that configs whose kernel descriptors have
    equal keys share one kernel object.  Name and alias triples are the
    descriptor's; the latch has not fired and the stored status is ok. *)
Theorem AutotunedKernelCall_FromProto_decodes proto w c w' :
  AutotunedKernelCall.FromProto env proto w = (Ok c, w') ->
  Forall2 (decoded_config w') (configs proto) (configs_ c) /\
  name_ c = name proto /\
  input_output_aliases_ c =
    map (fun a => (Z.to_nat (input_buffer_idx a), Z.to_nat (output_buffer_idx a),
                   buffer_size_bytes a)) (input_output_aliases proto) /\
  autotune_once_ c = false /\ autotune_status_ c = OkStatus /\
  forall i j pi pj ci cj,
    configs proto !! i = Some pi -> configs proto !! j = Some pj ->
    configs_ c !! i = Some ci -> configs_ c !! j = Some cj ->
    kernel_key (kernel (config_kernel_call pi))
      = kernel_key (kernel (config_kernel_call pj)) ->
    kernel_ (kernel_call ci) = kernel_ (kernel_call cj).
Proof.
  unfold AutotunedKernelCall.FromProto. intros H.
  apply bind_Ok in H as (cs & w1 & H1 & [= <- <-]).
  apply configs_FromProto_Ok in H1 as (_ & new & -> & Hnew). simpl.
  repeat split; try done.
  intros i j pi pj ci cj Hpi Hpj Hci Hcj Hkey.
  destruct (Forall2_lookup_l _ _ _ _ _ Hnew Hpi) as (ci' & Hci' & _ & Hbi & _).
  destruct (Forall2_lookup_l _ _ _ _ _ Hnew Hpj) as (cj' & Hcj' & _ & Hbj & _).
  rewrite Hci in Hci'. injection Hci' as <-.
  rewrite Hcj in Hcj'. injection Hcj' as <-.
  rewrite Hkey in Hbi. rewrite Hbi in Hbj. by injection Hbj.
Qed.
End Decoding.

Lemma KernelCall_FromProto_decodes_witness :
  GetKernel (env_of obliging_driver) (kernel some_call) initial_world
    = (Ok (kernel_ {| kernel_ := 0; grid_ := (4, 1, 1); parameters_ := [Scalar (i32 7)] |}),
       snd (KernelCall.FromProto (env_of obliging_driver) some_call initial_world)) /\
  decoded_call (snd (KernelCall.FromProto (env_of obliging_driver) some_call initial_world))
    some_call {| kernel_ := 0; grid_ := (4, 1, 1); parameters_ := [Scalar (i32 7)] |}.
Proof.
  apply (KernelCall_FromProto_decodes (env_of obliging_driver) some_call initial_world).
  vm_compute. reflexivity.
Defined.

Lemma FromProto_rejects_after_compiling_witness :
  exists w',
    KernelCall.FromProto (env_of obliging_driver) unset_call initial_world
      = (Err (InvalidArgumentError MsgUnknownScalarParameterType), w') /\
    kernels w' = <[kernel_key some_kernel := 0%nat]> (kernels initial_world) /\
    kernel_heap w' = [Kernel_new "ptx" "kernel" 4 0].
Proof.
  apply (FromProto_rejects_after_compiling (env_of obliging_driver) unset_call
           initial_world "ptx").
  - vm_compute. apply list_elem_of_further, list_elem_of_here.
  - reflexivity.
  - reflexivity.
Defined.

Lemma AutotunedKernelCall_FromProto_decodes_witness :
  exists c,
    fst (AutotunedKernelCall.FromProto (env_of obliging_driver) twin_configs initial_world)
      = Ok c /\
    Forall2 (decoded_config
               (snd (AutotunedKernelCall.FromProto (env_of obliging_driver) twin_configs
                       initial_world)))
      (configs twin_configs) (configs_ c) /\
    name_ c = name twin_configs /\
    input_output_aliases_ c = [(0%nat, 1%nat, 16)] /\
    autotune_once_ c = false /\ autotune_status_ c = OkStatus /\
    forall i j pi pj ci cj,
      configs twin_configs !! i = Some pi -> configs twin_configs !! j = Some pj ->
      configs_ c !! i = Some ci -> configs_ c !! j = Some cj ->
      kernel_key (kernel (config_kernel_call pi))
        = kernel_key (kernel (config_kernel_call pj)) ->
      kernel_ (kernel_call ci) = kernel_ (kernel_call cj).
Proof.
  eexists. split; [vm_compute; reflexivity |].
  apply (AutotunedKernelCall_FromProto_decodes (env_of obliging_driver) twin_configs
           initial_world).
  vm_compute. reflexivity.
Defined.

(** ** AutotunedKernelCall: what autotuning does to the object *)

Lemma call_evolves_refl c : call_evolves c c.
Proof. by repeat split. Qed.

Lemma call_evolves_trans c1 c2 c3 :
  call_evolves c1 c2 -> call_evolves c2 c3 -> call_evolves c1 c3.
Proof.
  intros (A1 & B1 & C1 & D1 & E1 & F1) (A2 & B2 & C2 & D2 & E2 & F2).
  repeat split; try congruence; [by etrans | auto].
Qed.

Lemma tuned_refl self w : tuned self w w.
Proof.
  repeat split; try done. intros c Hc. exists c. split; [done | apply call_evolves_refl].
Qed.

Lemma tuned_trans self w1 w2 w3 :
  tuned self w1 w2 -> tuned self w2 w3 -> tuned self w1 w3.
Proof.
  intros (A1 & B1 & C1 & D1) (A2 & B2 & C2 & D2).
  repeat split; [congruence | congruence | |].
  - intros a Ha. by rewrite C2, C1.
  - intros c Hc. destruct (D1 c Hc) as (c2 & Hc2 & E1).
    destruct (D2 c2 Hc2) as (c3 & Hc3 & E2).
    exists c3. split; [done |]. by eapply call_evolves_trans.
Qed.

Lemma tuned_same_calls self w w' : same_calls w w' -> tuned self w w'.
Proof.
  intros [Hh Hk]. repeat split; [done | by rewrite Hh | by intros; rewrite Hh |].
  intros c Hc. exists c. rewrite Hh. split; [done | apply call_evolves_refl].
Qed.

Lemma tuned_store self w c c' :
  call_heap w !! self = Some (IsAutotunedKernelCall c) -> call_evolves c c' ->
  tuned self w (set_call_heap (<[self := IsAutotunedKernelCall c']> (call_heap w)) w).
Proof.
  intros Hc E. repeat split; simpl.
  - by rewrite length_insert.
  - intros a Ha. by rewrite list_lookup_insert_ne.
  - intros c0 Hc0. rewrite Hc in Hc0. injection Hc0 as <-.
    exists c'. split; [| done].
    apply list_lookup_insert_eq. by apply lookup_lt_Some in Hc.
Qed.

Lemma swap_with_front_Permutation i (cs : list Config) : swap_with_front i cs ≡ₚ cs.
Proof.
  unfold swap_with_front.
  destruct (cs !! i) as [ci |] eqn:Hi; [| done].
  destruct (cs !! 0%nat) as [c0 |] eqn:H0; [| done].
  destruct cs as [| x tl]; [done |]. injection H0 as ->.
  destruct i as [| i]; simpl in *.
  - by injection Hi as ->.
  - rewrite <- (take_drop_middle tl i ci Hi) at 2.
    rewrite insert_take_drop by by apply lookup_lt_Some in Hi.
    rewrite <- !Permutation_middle. apply perm_swap.
Qed.

Section Tuning.
Context (env : Environment) (stream : CUstream) (buffers : list CUdeviceptr).
Context (self : nat).

Local Ltac tstep :=
  apply respects_bind; [apply tuned_trans | | intros ?].

Lemma tuned_CUDA c : respects (tuned self) (CUDA_RETURN_IF_ERROR env c).
Proof.
  intros w r w' H. by apply tuned_same_calls, (CUDA_same_calls env _ _ _ _ H).
Qed.

Lemma tuned_LOG l : respects (tuned self) (LOG l).
Proof. intros w r w' [= _ <-]. apply tuned_same_calls. by split. Qed.

Lemma tuned_Benchmark kc n :
  respects (tuned self) (AutotunedKernelCall.Benchmark env stream kc buffers n).
Proof.
  intros w r w' H. by apply tuned_same_calls, (Benchmark_same_calls _ _ _ _ _ _ _ _ H).
Qed.

Lemma tuned_select timed_iters n : forall i best,
  respects (tuned self)
    (AutotunedKernelCall.select env self stream buffers timed_iters n i best).
Proof.
  induction n as [| n IH]; intros i best w r w' H; simpl in H.
  { injection H as _ <-. apply tuned_refl. }
  apply bind_inv in H as [(obj & w0 & Hload & H) | [(e & Hload & _) | (f & Hload & _)]].
  2, 3: apply load_autotuned_inv in Hload as [-> _]; apply tuned_refl.
  apply load_autotuned_inv in Hload as [-> [(c & Hc & [= ->]) | [=]]].
  destruct (configs_ c !! i) as [config |] eqn:Hi;
    [| injection H as _ <-; apply tuned_refl].
  apply bind_inv in H as [(t & w1 & H1 & H) | [(e & H1 & _) | (f & H1 & _)]].
  2, 3: by eapply tuned_Benchmark.
  pose proof (Benchmark_same_calls _ _ _ _ _ _ _ _ H1) as [Hh1 Hk1].
  apply bind_inv in H as [([] & w2 & H2 & H) | [(e & [=] & _) | (f & [=] & _)]].
  injection H2 as <-.
  destruct (f32_ltb t best).
  - apply bind_inv in H as [([] & w3 & H3 & H) | [(e & [=] & _) | (f & [=] & _)]].
    injection H3 as <-.
    apply bind_inv in H as [([] & w4 & H4 & H) | [(e & [=] & _) | (f & [=] & _)]].
    injection H4 as <-.
    eapply tuned_trans; [| eapply IH, H].
    eapply tuned_trans; [eapply tuned_Benchmark, H1 |].
    apply (tuned_trans _ _
             (record (EvLog (LogNewBest (description config)))
                (record (EvLog (LogRanIters (description config) timed_iters t)) w1)));
      [apply tuned_same_calls; by split |].
    apply (tuned_store self
             (record (EvLog (LogNewBest (description config)))
                (record (EvLog (LogRanIters (description config) timed_iters t)) w1)) c);
      [simpl; by rewrite Hh1 |].
    repeat split; simpl; try done.
    + by rewrite swap_with_front_Permutation.
    + intros Hne Hnil. apply Hne. apply length_zero_iff_nil.
      by rewrite <- (swap_with_front_length i), Hnil.
  - eapply tuned_trans; [| eapply IH, H].
    eapply tuned_trans; [eapply tuned_Benchmark, H1 |].
    apply tuned_same_calls. by split.
Qed.

Lemma tuned_discard_all_but_best :
  respects (tuned self) (AutotunedKernelCall.discard_all_but_best self).
Proof.
  intros w r w' H. unfold AutotunedKernelCall.discard_all_but_best in H.
  apply bind_inv in H as [(obj & w0 & Hload & H) | [(e & Hload & _) | (f & Hload & _)]].
  2, 3: apply load_autotuned_inv in Hload as [-> _]; apply tuned_refl.
  apply load_autotuned_inv in Hload as [-> [(c & Hc & [= ->]) | [=]]].
  injection H as _ <-. apply (tuned_store self _ c); [done |].
  repeat split; simpl; try done.
  - apply sublist_submseteq, sublist_take.
  - by destruct (configs_ c).
Qed.

Lemma tuned_Autotune :
  respects (tuned self) (AutotunedKernelCall.Autotune env self stream buffers).
Proof.
  unfold AutotunedKernelCall.Autotune.
  tstep; [apply tuned_CUDA |]. tstep; [apply tuned_CUDA |].
  apply respects_finally; [apply tuned_trans | | intros w; apply tuned_same_calls; by split].
  unfold AutotunedKernelCall.Autotune_body.
  tstep; [apply respects_load_autotuned, tuned_refl |].
  tstep.
  { intros w r w' H. by apply tuned_same_calls, (save_aliased_inputs_same_calls _ _ _ _ _ _ _ _ H). }
  tstep; [apply tuned_LOG |].
  tstep.
  { apply (steps_calibrate env (tuned self)); try apply tuned_refl; try apply tuned_trans;
      intros; apply tuned_same_calls; by split. }
  tstep.
  { unfold AutotunedKernelCall.choose_timed_iters.
    destruct (static_cast_int _); [| apply respects_fatal, tuned_refl].
    destruct (_ <? _); (tstep; [apply tuned_LOG | apply respects_ret, tuned_refl]). }
  tstep; [apply tuned_select |].
  tstep; [apply tuned_discard_all_but_best |].
  tstep; [apply respects_load_autotuned, tuned_refl |].
  destruct (_ !! _); [| apply respects_fatal, tuned_refl].
  tstep; [apply tuned_LOG |].
  tstep.
  { intros w r w' H.
    by apply tuned_same_calls, (restore_aliased_inputs_same_calls _ _ _ _ _ _ _ _ H). }
  tstep; [apply tuned_CUDA |]. apply respects_ret, tuned_refl.
Qed.

(** X17. Autotuning only ever discards: whatever [Autotune] returns, the
    autotuned call it ran on keeps its name, its alias triples, its latch
    and its stored status; its configs are some of those it had, none
    added and none twice, and at least one if it had any.  No other call
    object and no entry of the call cache is touched. *)
Theorem Autotune_only_discards obj w r w' :
  call_heap w !! self = Some (IsAutotunedKernelCall obj) ->
  AutotunedKernelCall.Autotune env self stream buffers w = (r, w') ->
  kernel_calls w' = kernel_calls w /\
  (forall a, a <> self -> call_heap w' !! a = call_heap w !! a) /\
  exists obj',
    call_heap w' !! self = Some (IsAutotunedKernelCall obj') /\
    name_ obj' = name_ obj /\
    input_output_aliases_ obj' = input_output_aliases_ obj /\
    autotune_once_ obj' = autotune_once_ obj /\
    autotune_status_ obj' = autotune_status_ obj /\
    configs_ obj' ⊆+ configs_ obj /\
    (configs_ obj <> [] -> configs_ obj' <> []).
Proof.
  intros Hself H. apply tuned_Autotune in H as (Hk & _ & Hother & Hobj).
  split; [done |]. split; [done |].
  destruct (Hobj obj Hself) as (obj' & Hobj' & E). by exists obj'.
Qed.
End Tuning.

Lemma Autotune_only_discards_witness :
  kernel_calls (snd (a_and_b_autotune sync_refusing_driver)) = kernel_calls a_and_b_world /\
  (forall a, a <> 0%nat ->
     call_heap (snd (a_and_b_autotune sync_refusing_driver)) !! a
       = call_heap a_and_b_world !! a) /\
  exists obj',
    call_heap (snd (a_and_b_autotune sync_refusing_driver)) !! 0%nat
      = Some (IsAutotunedKernelCall obj') /\
    name_ obj' = name_ a_and_b /\
    input_output_aliases_ obj' = input_output_aliases_ a_and_b /\
    autotune_once_ obj' = autotune_once_ a_and_b /\
    autotune_status_ obj' = autotune_status_ a_and_b /\
    configs_ obj' ⊆+ configs_ a_and_b /\
    (configs_ a_and_b <> [] -> configs_ obj' <> []).
Proof.
  apply (Autotune_only_discards (env_of sync_refusing_driver) 5 [] 0 a_and_b a_and_b_world
           (fst (a_and_b_autotune sync_refusing_driver))).
  - reflexivity.
  - vm_compute. reflexivity.
Defined.

(** An autotuning that fails at the very end, when the stream is
    synchronized, has already discarded all configs but the best. *)
Example late_failure_has_discarded :
  fst (a_and_b_autotune sync_refusing_driver)
    = Err (InternalError (MsgOperationFailed fn_cuStreamSynchronize (CUDA_ERROR 700))) /\
  exists obj',
    call_heap (snd (a_and_b_autotune sync_refusing_driver)) !! 0%nat
      = Some (IsAutotunedKernelCall obj') /\
    configs_ obj' = [config_on 8 "B"].
Proof. split; [by vm_compute |]. eexists. split; by vm_compute. Qed.

(** ** AutotunedKernelCall::Launch: the latch *)

Section Latch.
Context (env : Environment).

Lemma Launch_latched self obj stream buffers w :
  call_heap w !! self = Some (IsAutotunedKernelCall obj) ->
  autotune_once_ obj = true ->
  AutotunedKernelCall.Launch env self stream buffers w =
    match autotune_status_ obj with
    | ErrorStatus e => (Err e, w)
    | OkStatus =>
        match configs_ obj !! 0%nat with
        | Some config => KernelCall.Launch env (kernel_call config) stream buffers w
        | None => (Fatal UndefinedBehaviour, w)
        end
    end.
Proof.
  intros Hself Honce.
  unfold AutotunedKernelCall.Launch, AutotunedKernelCall.autotune_once, bind,
    load_autotuned.
  rewrite Hself, Honce. simpl. rewrite Hself.
  destruct (autotune_status_ obj); simpl; [| done].
  by destruct (configs_ obj !! 0%nat).
Qed.

(** X18. A failed autotuning is final: when [Autotune] fails on the first
    launch of a call with several configs, the launch returns that error,
    and so does every later launch of the call, on any stream and buffers,
    without a single effect: autotuning is not tried again and no kernel
    is launched. *)
Theorem failed_autotuning_is_final self obj stream buffers w e wa :
  call_heap w !! self = Some (IsAutotunedKernelCall obj) ->
  autotune_once_ obj = false -> (1 < length (configs_ obj))%nat ->
  AutotunedKernelCall.Autotune env self stream buffers w = (Err e, wa) ->
  exists w',
    AutotunedKernelCall.Launch env self stream buffers w = (Err e, w') /\
    trace w' = trace wa /\
    forall stream' buffers',
      AutotunedKernelCall.Launch env self stream' buffers' w' = (Err e, w').
Proof.
  intros Hself Honce Hlen Hfail.
  pose proof (tuned_Autotune env stream buffers self _ _ _ Hfail) as (_ & _ & _ & Hobj).
  destruct (Hobj obj Hself) as (obj_a & Ha & _).
  assert (self < length (call_heap wa))%nat as Hlt by by apply lookup_lt_Some in Ha.
  set (final := with_once (with_status (ErrorStatus e) obj_a)).
  exists (set_call_heap (<[self := IsAutotunedKernelCall final]> (call_heap wa)) wa).
  assert (call_heap (set_call_heap (<[self := IsAutotunedKernelCall final]> (call_heap wa)) wa)
            !! self = Some (IsAutotunedKernelCall final)) as Hfinal.
  { simpl. by apply list_lookup_insert_eq. }
  split; [| split; [done |]].
  - unfold AutotunedKernelCall.Launch.
    unfold bind at 1. unfold AutotunedKernelCall.autotune_once.
    unfold bind at 1. unfold load_autotuned at 1. rewrite Hself, Honce.
    apply Nat.ltb_lt in Hlen. rewrite Hlen.
    unfold bind at 1. unfold bind at 1. unfold status_of. rewrite Hfail.
    unfold bind at 1. unfold load_autotuned at 1. rewrite Ha.
    unfold store_autotuned at 1.
    unfold bind at 1. unfold load_autotuned at 1. simpl.
    rewrite list_lookup_insert_eq by done. unfold store_autotuned. simpl.
    rewrite list_insert_insert_eq.
    unfold bind at 1. unfold load_autotuned at 1. simpl.
    rewrite list_lookup_insert_eq by done. done.
  - intros stream' buffers'.
    by rewrite (Launch_latched self final stream' buffers' _ Hfinal).
Qed.

(** X19. Once the latch of an autotuned call has fired with an ok status,
    a launch of the call is the launch of its config 0 and nothing else: no
    benchmark is run and the object is not written. *)
Theorem tuned_call_launches_config_0 self obj config stream buffers w :
  call_heap w !! self = Some (IsAutotunedKernelCall obj) ->
  autotune_once_ obj = true -> autotune_status_ obj = OkStatus ->
  configs_ obj !! 0%nat = Some config ->
  AutotunedKernelCall.Launch env self stream buffers w
    = KernelCall.Launch env (kernel_call config) stream buffers w.
Proof.
  intros Hself Honce Hok Hconfig.
  by rewrite (Launch_latched self obj stream buffers w Hself Honce), Hok, Hconfig.
Qed.

(** X20. A call with a single config is never autotuned: its first launch
    fires the latch and launches that config, without a benchmark. *)
Theorem single_config_is_not_autotuned self obj config stream buffers w :
  call_heap w !! self = Some (IsAutotunedKernelCall obj) ->
  autotune_once_ obj = false -> autotune_status_ obj = OkStatus ->
  configs_ obj = [config] ->
  AutotunedKernelCall.Launch env self stream buffers w
    = KernelCall.Launch env (kernel_call config) stream buffers
        (set_call_heap (<[self := IsAutotunedKernelCall (with_once obj)]> (call_heap w)) w).
Proof.
  intros Hself Honce Hok Hconfigs.
  assert (self < length (call_heap w))%nat as Hlt by by apply lookup_lt_Some in Hself.
  unfold AutotunedKernelCall.Launch, AutotunedKernelCall.autotune_once, bind,
    load_autotuned, store_autotuned.
  rewrite Hself, Honce, Hconfigs. simpl. rewrite Hself. simpl.
  rewrite list_lookup_insert_eq by done. simpl. by rewrite Hok, Hconfigs.
Qed.
End Latch.

Lemma failed_autotuning_is_final_witness :
  exists w',
    AutotunedKernelCall.Launch (env_of no_context_driver) 0 5 [] a_and_b_world
      = (Err (InternalError (MsgOperationFailed fn_cuStreamGetCtx (CUDA_ERROR 400))), w') /\
    trace w' = trace (snd (a_and_b_autotune no_context_driver)) /\
    forall stream' buffers',
      AutotunedKernelCall.Launch (env_of no_context_driver) 0 stream' buffers' w'
        = (Err (InternalError (MsgOperationFailed fn_cuStreamGetCtx (CUDA_ERROR 400))), w').
Proof.
  apply (failed_autotuning_is_final (env_of no_context_driver) 0 a_and_b 5 []
           a_and_b_world).
  - reflexivity.
  - reflexivity.
  - simpl. lia.
  - vm_compute. reflexivity.
Defined.

Lemma tuned_call_launches_config_0_witness :
  AutotunedKernelCall.Launch (env_of timing_driver) 0 5 [] (snd (a_and_b_run timing_driver))
    = KernelCall.Launch (env_of timing_driver) (kernel_call (config_on 8 "B")) 5 []
        (snd (a_and_b_run timing_driver)).
Proof.
  apply (tuned_call_launches_config_0 (env_of timing_driver) 0
           {| name_ := "f"; configs_ := [config_on 8 "B"]; input_output_aliases_ := [];
              autotune_once_ := true; autotune_status_ := OkStatus |}).
  - vm_compute. reflexivity.
  - reflexivity.
  - reflexivity.
  - reflexivity.
Defined.

Lemma single_config_is_not_autotuned_witness :
  AutotunedKernelCall.Launch (env_of obliging_driver) 0 5 [] only_a_world
    = KernelCall.Launch (env_of obliging_driver) (kernel_call (config_on 4 "A")) 5 []
        (set_call_heap (<[0%nat := IsAutotunedKernelCall (with_once only_a)]>
                          (call_heap only_a_world)) only_a_world).
Proof.
  apply (single_config_is_not_autotuned (env_of obliging_driver) 0 only_a).
  - reflexivity.
  - reflexivity.
  - reflexivity.
  - reflexivity.
Defined.

(** ** Benchmark *)

Lemma kernel_launches_app t1 t2 :
  kernel_launches (t1 ++ t2) = (kernel_launches t1 + kernel_launches t2)%nat.
Proof. unfold kernel_launches. by rewrite omap_app, length_app. Qed.

Lemma kernel_launches_none evs : Forall not_a_launch evs -> kernel_launches evs = 0%nat.
Proof.
  induction 1 as [| e evs He _ IH]; [done |].
  unfold kernel_launches in *. simpl.
  destruct e as [c r | | | |]; try done. by destruct c.
Qed.

Section BenchmarkSuccess.
Context (env : Environment) (stream : CUstream) (buffers : list CUdeviceptr).

Lemma KernelCall_Launch_no_timer kc :
  respects (emits not_a_timer) (KernelCall.Launch env kc stream buffers).
Proof.
  apply KernelCall_Launch_emits.
  - intros e He. unfold not_a_timer. by rewrite He.
  - intros grid params e [He | [(r & ->) | (f & b & sh & r & ->)]]; [| done | done].
    destruct e as [c r | [] | [] | |]; try done.
    unfold not_a_timer. simpl in *. by destruct c.
Qed.

(** A call launch that returns ok has launched one kernel. *)
Lemma KernelCall_Launch_once kc w w' :
  KernelCall.Launch env kc stream buffers w = (Ok tt, w') ->
  exists evs,
    trace w' = trace w ++ evs /\ kernel_launches evs = 1%nat /\ Forall not_a_timer evs.
Proof.
  intros H. pose proof (KernelCall_Launch_no_timer _ _ _ _ H) as (evs & Htr & Hnt).
  exists evs. split; [done |]. split; [| done].
  unfold KernelCall.Launch in H. apply bind_Ok in H as (params & w1 & H1 & H).
  apply bind_parameters_emits in H1 as (evs1 & Htr1 & Hall1).
  apply Kernel_Launch_Ok in H as (evs2 & f & b & sh & r & Htr2 & Hall2 & _).
  rewrite Htr1, <- app_assoc in Htr2. rewrite Htr in Htr2.
  apply app_inv_head in Htr2 as ->.
  rewrite !kernel_launches_app, (kernel_launches_none evs2 Hall2).
  rewrite kernel_launches_none; [done |].
  eapply Forall_impl; [exact Hall1 | apply zero_fill_not_a_launch].
Qed.


End BenchmarkSuccess.


(** ** Calibration and NaN *)

Lemma f32_ltb_not_nan t b : f32_ltb t b = true -> t <> S754_nan.
Proof. by intros H ->. Qed.

Lemma foldl_min_not_nan ts : forall b, b <> S754_nan -> foldl f32_min b ts <> S754_nan.
Proof.
  induction ts as [| t ts IH]; intros b Hb; simpl; [done |].
  apply IH. unfold f32_min. destruct (f32_ltb t b) eqn:E; [| done].
  by apply f32_ltb_not_nan in E.
Qed.

(** X22. Calibration is deaf to NaN: whatever times the driver reports for
    the single iterations, the best time calibration settles on is not a
    NaN, because [std::min(best, t)] keeps [best] unless [t < best]. *)
Theorem calibrated_best_is_not_nan env stream buffers configs w best w' :
  AutotunedKernelCall.calibrate env configs stream buffers f32_infinity w = (Ok best, w') ->
  best <> S754_nan.
Proof.
  intros (_ & evs & ts & _ & _ & _ & ->)%calibrate_Ok. by apply foldl_min_not_nan.
Qed.

Lemma calibrated_best_is_not_nan_witness : f32_infinity <> S754_nan.
Proof.
  apply (calibrated_best_is_not_nan (env_of nan_timing_driver) 5 [] (configs_ a_and_b)
           a_and_b_world f32_infinity
           (snd (AutotunedKernelCall.calibrate (env_of nan_timing_driver)
                   (configs_ a_and_b) 5 [] f32_infinity a_and_b_world))).
  vm_compute. reflexivity.
Defined.

(** ** GetKernelCall *)

Section BuildingCalls.
Context (env : Environment).

Lemma uncompress_loop_finds opaque answer k : forall d fuel,
  (forall j, (j < k)%nat ->
     uncompress env (wrap64 (d * 2 ^ Z.of_nat j)) opaque = Z_BUF_ERROR) ->
  uncompress env (wrap64 (d * 2 ^ Z.of_nat k)) opaque = answer ->
  answer <> Z_BUF_ERROR -> (k < fuel)%nat ->
  uncompress_loop env fuel (wrap64 d) opaque = uncompressed answer.
Proof.
  induction k as [| k IH]; intros d fuel Hbefore Hat Hanswer Hfuel;
    (destruct fuel as [| fuel]; [lia |]); simpl.
  - rewrite Z.mul_1_r in Hat. rewrite Hat. by destruct answer.
  - pose proof (Hbefore 0%nat ltac:(lia)) as H0. simpl in H0.
    rewrite Z.mul_1_r in H0. rewrite H0.
    replace (wrap64 (wrap64 d * 2)) with (wrap64 (d * 2))
      by (unfold wrap64; by rewrite Zmult_mod_idemp_l).
    apply IH; [| | done | lia].
    + intros j Hj. rewrite <- (Hbefore (S j)) by lia. do 2 f_equal.
      rewrite Nat2Z.inj_succ, Z.pow_succ_r by lia. ring.
    + rewrite <- Hat. do 2 f_equal. rewrite Nat2Z.inj_succ, Z.pow_succ_r by lia. ring.
Qed.

(** X23. The decompression loop offers [uncompress] five times the size
    of the opaque and doubles the offer after every [Z_BUF_ERROR]: if the
    first [k] offers are too small and the next one is answered otherwise,
    the loop ends on that answer, with the decompressed bytes if it is
    [Z_OK] and with the [InvalidArgument] of a failed decompression if
    not. *)
Theorem decompress_doubles_until_answered opaque k answer fuel :
  (forall j, (j < k)%nat -> uncompress env (capacity opaque j) opaque = Z_BUF_ERROR) ->
  uncompress env (capacity opaque k) opaque = answer ->
  answer <> Z_BUF_ERROR -> (k < fuel)%nat ->
  decompress env fuel opaque = uncompressed answer.
Proof. unfold decompress, capacity. apply uncompress_loop_finds. Qed.

Lemma GetKernel_no_driver_call proto :
  respects (emits not_a_driver_call) (GetKernel env proto).
Proof.
  intros w r w' H. destruct (kernels w !! kernel_key proto) as [a |] eqn:E.
  - rewrite (GetKernel_hit _ _ _ _ E) in H. injection H as _ <-.
    exists [EvLock KernelCacheMutex; EvUnlock KernelCacheMutex].
    split; [simpl; by rewrite <- app_assoc | by repeat constructor].
  - rewrite (GetKernel_miss _ _ _ E) in H. simpl in H.
    eexists [EvLock KernelCacheMutex; EvCompileGpuAsm _ _ _; EvUnlock KernelCacheMutex].
    split; [| by repeat constructor].
    destruct (CompileGpuAsm _ _ _ _); injection H as _ <-; simpl;
      by rewrite <- !app_assoc.
Qed.

Lemma KernelCall_FromProto_no_driver_call proto :
  respects (emits not_a_driver_call) (KernelCall.FromProto env proto).
Proof.
  unfold KernelCall.FromProto.
  apply emits_bind; [apply GetKernel_no_driver_call |]. intros a.
  apply emits_bind; [| intros ?; apply respects_ret, emits_refl].
  intros w r w'. rewrite parameters_FromProto_run. intros [= _ <-]. apply emits_refl.
Qed.

Lemma configs_FromProto_no_driver_call protos : forall acc,
  respects (emits not_a_driver_call)
    (AutotunedKernelCall.configs_FromProto env protos acc).
Proof.
  induction protos as [| p rest IH]; intros acc; simpl.
  - apply respects_ret, emits_refl.
  - apply emits_bind; [apply KernelCall_FromProto_no_driver_call | intros ?; apply IH].
Qed.

Lemma construct_no_driver_call proto :
  respects (emits not_a_driver_call) (construct env proto).
Proof.
  destruct proto as [p | p |]; simpl.
  - apply emits_bind; [apply KernelCall_FromProto_no_driver_call |].
    intros kc w r w' [= _ <-]. by apply emits_same_trace.
  - apply emits_bind.
    + unfold AutotunedKernelCall.FromProto.
      apply emits_bind; [apply configs_FromProto_no_driver_call |].
      intros ?. apply respects_ret, emits_refl.
    + intros c w r w' [= _ <-]. by apply emits_same_trace.
  - apply respects_fail, emits_refl.
Qed.

(** X24. Building a call never talks to the driver: whatever
    [GetKernelCall] returns, the events it adds are locks, unlocks and calls
    of the assembler.  Modules are loaded and functions looked up only when
    a kernel is first launched in a context. *)
Theorem GetKernelCall_makes_no_driver_call fuel opaque w r w' :
  GetKernelCall env fuel opaque w = (r, w') ->
  exists evs, trace w' = trace w ++ evs /\ Forall not_a_driver_call evs.
Proof.
  revert w r w'. unfold GetKernelCall.
  apply emits_with_lock; [done | done |].
  intros w r w'. destruct (kernel_calls w !! opaque);
    [intros [= _ <-]; apply emits_refl |].
  revert w r w'. apply emits_bind.
  { intros w r w' [= _ <-]. apply emits_refl. }
  intros serialized. destruct (ParseFromString env serialized);
    [| apply respects_fail, emits_refl].
  apply emits_bind; [apply construct_no_driver_call |]. intros c.
  apply emits_bind; [| intros ?; apply respects_ret, emits_refl].
  intros w r w'. unfold kernel_calls_insert.
  destruct (_ !! _); intros [= _ <-]; by apply emits_same_trace.
Qed.

Lemma construct_Err_same_calls proto w e w' :
  construct env proto w = (Err e, w') -> same_calls w w'.
Proof.
  assert (forall p, respects same_calls (KernelCall.FromProto env p)) as Hk.
  { intros p. apply steps_KernelCall_FromProto;
      [apply same_calls_refl | apply same_calls_trans | done | done]. }
  destruct proto as [p | p |]; simpl.
  - intros [H | (kc & w1 & _ & [=])]%bind_Err. eapply Hk, H.
  - intros [H | (c & w1 & _ & [=])]%bind_Err.
    unfold AutotunedKernelCall.FromProto in H.
    apply bind_Err in H as [H | (cs & w1 & _ & [=])].
    eapply (steps_configs_FromProto env same_calls), H;
      [apply same_calls_refl | apply same_calls_trans | done | done].
  - by intros [= _ <-].
Qed.

(** X25. A call that cannot be built leaves no trace in the call cache:
    when [GetKernelCall] returns an error, the call objects and the call
    cache are as they were. *)
Theorem failed_GetKernelCall_keeps_calls fuel opaque w e w' :
  GetKernelCall env fuel opaque w = (Err e, w') ->
  call_heap w' = call_heap w /\ kernel_calls w' = kernel_calls w.
Proof.
  intros H. unfold GetKernelCall, with_lock in H.
  apply bind_Err in H as [[=] | ([] & w0 & [= <-] & H)].
  apply finally_inv in H as (w1 & H & Hw').
  assert (same_calls w w1) as [Hh Hk].
  { simpl in H. destruct (kernel_calls w !! opaque); [done |].
    apply bind_Err in H as [H | (serialized & w2 & H2 & H)].
    { by injection H as _ <-. }
    injection H2 as _ <-.
    destruct (ParseFromString env serialized); [| by injection H as _ <-].
    apply bind_Err in H as [H | (c & w3 & _ & H)].
    - by apply construct_Err_same_calls in H.
    - apply bind_Err in H as [H | (? & ? & _ & [=])].
      unfold kernel_calls_insert in H. by destruct (_ !! _). }
  destruct Hw' as [-> | ->]; by rewrite <- Hh, <- Hk.
Qed.
End BuildingCalls.

Lemma decompress_doubles_until_answered_witness :
  decompress demanding_env 8 "zcall" = uncompressed (Z_OK "call").
Proof.
  apply (decompress_doubles_until_answered demanding_env "zcall" 2 (Z_OK "call") 8).
  - intros j Hj. destruct j as [| [| j]]; [reflexivity | reflexivity | lia].
  - reflexivity.
  - discriminate.
  - lia.
Defined.

Lemma GetKernelCall_makes_no_driver_call_witness :
  exists evs,
    trace after_first_call = trace initial_world ++ evs /\
    Forall not_a_driver_call evs.
Proof.
  apply (GetKernelCall_makes_no_driver_call toy_env 8 "zcall" initial_world (Ok 0%nat)).
  vm_compute. reflexivity.
Defined.

Lemma failed_GetKernelCall_keeps_calls_witness :
  call_heap (snd (GetKernelCall failing_assembler_env 8 "zcall" initial_world))
    = call_heap initial_world /\
  kernel_calls (snd (GetKernelCall failing_assembler_env 8 "zcall" initial_world))
    = kernel_calls initial_world.
Proof.
  apply (failed_GetKernelCall_keeps_calls failing_assembler_env 8 "zcall" initial_world
           {| code := kInternal; message := MsgExternal "ptxas failed" |}).
  vm_compute. reflexivity.
Defined.

(** ** Locks and contexts are scoped *)

Lemma unwind_app t1 t2 open :
  unwind (t1 ++ t2) open = unwind t1 open ≫= unwind t2.
Proof.
  revert open. induction t1 as [| e t1 IH]; intros open; simpl; [done |].
  destruct e as [c r | m | m | |]; try apply IH.
  - destruct c; try apply IH.
    + destruct (result r); apply IH.
    + destruct open as [| [] ?]; try done; apply IH.
  - destruct open as [| [] ?]; try done.
    destruct (same_mutex _ _); [apply IH | done].
Qed.

Lemma well_nested_nil : well_nested [].
Proof. done. Qed.

Lemma well_nested_app t1 t2 : well_nested t1 -> well_nested t2 -> well_nested (t1 ++ t2).
Proof. intros H1 H2 open. rewrite unwind_app, H1. simpl. apply H2. Qed.

Lemma well_nested_scope_free evs : Forall scope_free evs -> well_nested evs.
Proof.
  induction 1 as [| e evs He _ IH]; [done |]. intros open. simpl.
  destruct e as [c r | | | |]; try done; try apply IH.
  destruct c; try done; apply IH.
Qed.

Lemma same_mutex_refl m : same_mutex m m = true.
Proof. destruct m; simpl; [apply Nat.eqb_refl | done | done]. Qed.

Lemma well_nested_lock m evs :
  well_nested evs -> well_nested (EvLock m :: evs ++ [EvUnlock m]).
Proof.
  intros H open. simpl. rewrite unwind_app, H. simpl. by rewrite same_mutex_refl.
Qed.

Lemma well_nested_context c r r' evs :
  result r = CUDA_SUCCESS -> well_nested evs ->
  well_nested (EvDriver (cuCtxPushCurrent c) r :: evs ++ [EvDriver cuCtxPopCurrent r']).
Proof. intros Hr H open. simpl. rewrite Hr, unwind_app, H. done. Qed.

Lemma well_nested_refused c r :
  result r <> CUDA_SUCCESS -> well_nested [EvDriver (cuCtxPushCurrent c) r].
Proof. intros Hr open. simpl. by destruct (result r). Qed.

Section Settles.
Context (env : Environment).

Lemma settles_ret {A} (a : A) : settles (ret a).
Proof. intros w r w' [= _ <-] _. exists []. by rewrite app_nil_r. Qed.

Lemma settles_fail {A} (e : Error) : settles (@fail A e).
Proof. intros w r w' [= _ <-] _. exists []. by rewrite app_nil_r. Qed.

Lemma settles_fatal {A} (f : Fault) : settles (@fatal A f).
Proof. intros w r w' [= <- _] H. by destruct (H f). Qed.

Lemma settles_bind {A B} (m : M A) (k : A -> M B) :
  settles m -> (forall a, settles (k a)) -> settles (bind m k).
Proof.
  intros Hm Hk w r w' H Hr.
  apply bind_inv in H as [(a & w1 & H1 & H) | [(e & H1 & ->) | (f & _ & ->)]].
  - destruct (Hm _ _ _ H1) as (evs1 & Htr1 & Hn1); [done |].
    destruct (Hk _ _ _ _ H Hr) as (evs2 & Htr2 & Hn2).
    exists (evs1 ++ evs2). split; [by rewrite Htr2, Htr1, app_assoc |].
    by apply well_nested_app.
  - by apply (Hm _ _ _ H1).
  - by destruct (Hr f).
Qed.

Lemma settles_emits {A} (m : M A) : respects (emits scope_free) m -> settles m.
Proof.
  intros Hm w r w' H _. destruct (Hm _ _ _ H) as (evs & Htr & Hall).
  exists evs. split; [done | by apply well_nested_scope_free].
Qed.

Lemma settles_status_of (m : M unit) : settles m -> settles (status_of m).
Proof.
  intros Hm w r w' H Hr. unfold status_of in H.
  destruct (m w) as [[[] | e | f] w1] eqn:E; injection H as <- <-;
    [by eapply Hm | by eapply Hm | by destruct (Hr f)].
Qed.

Lemma settles_with_lock {A} mutex (body : M A) :
  settles body -> settles (with_lock mutex body).
Proof.
  intros Hb w r w' H Hr. unfold with_lock, bind, emit, finally in H.
  destruct (body (record (EvLock mutex) w)) as [[a | e | f] w1] eqn:E;
    injection H as <- <-; [| | by destruct (Hr f)];
    (destruct (Hb _ _ _ E) as (evs & Htr & Hn); [done |];
     exists (EvLock mutex :: evs ++ [EvUnlock mutex]);
     split; [simpl; rewrite Htr; simpl; by rewrite <- !app_assoc
            | by apply well_nested_lock]).
Qed.

(** A body run with a context pushed, and the context popped behind it. *)
Lemma settles_pushed {A} context (body : M A) :
  settles body ->
  settles (CUDA_RETURN_IF_ERROR env (cuCtxPushCurrent context) ;;
           finally body (fun w => snd (call env cuCtxPopCurrent w))).
Proof.
  intros Hb w r w' H Hr.
  apply bind_inv in H as [(pushed & w1 & H1 & H) | [(e & H1 & _) | (f & _ & ->)]].
  - apply CUDA_RETURN_IF_ERROR_Ok in H1 as (_ & Hok & ->).
    unfold finally in H.
    destruct (body _) as [[a | e | f] w2] eqn:E;
      injection H as <- <-; [| | by destruct (Hr f)];
      (destruct (Hb _ _ _ E) as (evs & Htr & Hn); [done |];
       eexists (EvDriver (cuCtxPushCurrent context) pushed :: evs ++ [EvDriver cuCtxPopCurrent _]);
       split; [simpl; rewrite Htr; simpl; by rewrite <- !app_assoc
              | by apply well_nested_context]).
  - apply CUDA_RETURN_IF_ERROR_inv in H1
      as (reply & _ & -> & [[_ [=]] | [Hbad _]]).
    exists [EvDriver (cuCtxPushCurrent context) reply]. split; [done |].
    by apply well_nested_refused.
  - by destruct (Hr f).
Qed.

Local Ltac quiet_cuda :=
  apply settles_emits, emits_CUDA_RETURN_IF_ERROR; by intros ?.
Local Ltac sstep := apply settles_bind; [| intros ?].

Lemma settles_load_kernel k : settles (load_kernel k).
Proof. apply settles_emits, respects_load_kernel, emits_refl. Qed.

Lemma settles_load_autotuned a : settles (load_autotuned a).
Proof. apply settles_emits, respects_load_autotuned, emits_refl. Qed.

Lemma settles_store_kernel k x : settles (store_kernel k x).
Proof. apply settles_emits, emits_store_kernel. Qed.

Lemma settles_store_autotuned a c : settles (store_autotuned a c).
Proof. apply settles_emits, emits_store_autotuned. Qed.

Lemma settles_LOG l : settles (LOG l).
Proof. apply settles_emits, emits_emit. done. Qed.

Lemma settles_read_buffer buffers i : settles (read_buffer buffers i).
Proof. apply settles_emits, respects_read_buffer, emits_refl. Qed.

Lemma settles_GetFunctionForContext self context :
  settles (Kernel.GetFunctionForContext env self context).
Proof.
  unfold Kernel.GetFunctionForContext. apply settles_with_lock.
  sstep; [apply settles_load_kernel |].
  destruct (_ !! _); [apply settles_ret |].
  apply settles_pushed. unfold Kernel.load_function.
  sstep; [apply settles_load_kernel |]. sstep; [quiet_cuda |].
  sstep; [apply settles_store_kernel |]. sstep; [quiet_cuda |].
  sstep.
  { unfold Kernel.functions_insert. sstep; [apply settles_load_kernel |].
    destruct (_ !! _); [apply settles_fatal | apply settles_store_kernel]. }
  destruct (_ <=? _); [apply settles_ret |].
  unfold Kernel.setup_dynamic_shared_memory.
  sstep; [quiet_cuda |]. sstep; [quiet_cuda |].
  destruct (_ <? _); [apply settles_fail |].
  destruct (_ <? _); [| apply settles_ret].
  repeat (sstep; [quiet_cuda |]). apply settles_ret.
Qed.

Lemma settles_Kernel_Launch self stream grid params :
  settles (Kernel.Launch env self stream grid params).
Proof.
  unfold Kernel.Launch. sstep; [quiet_cuda |].
  sstep; [apply settles_GetFunctionForContext |].
  sstep; [apply settles_load_kernel |]. sstep; [quiet_cuda |]. apply settles_ret.
Qed.

Lemma settles_KernelCall_Launch kc stream buffers :
  settles (KernelCall.Launch env kc stream buffers).
Proof.
  unfold KernelCall.Launch. sstep; [| apply settles_Kernel_Launch].
  apply settles_emits. intros w r w' H.
  eapply emits_weaken; [| eapply bind_parameters_emits, H].
  intros e He. destruct e as [c ? | | | |]; try done. by destruct c.
Qed.

Lemma settles_launch_repeatedly kc stream buffers n :
  settles (AutotunedKernelCall.launch_repeatedly env kc stream buffers n).
Proof.
  induction n as [| n IH]; simpl; [apply settles_ret |].
  sstep; [apply settles_KernelCall_Launch | done].
Qed.

Lemma settles_Benchmark stream kc buffers n :
  settles (AutotunedKernelCall.Benchmark env stream kc buffers n).
Proof.
  unfold AutotunedKernelCall.Benchmark.
  sstep; [quiet_cuda |]. sstep; [quiet_cuda |].
  sstep; [apply settles_KernelCall_Launch |]. sstep; [quiet_cuda |].
  sstep; [apply settles_launch_repeatedly |].
  repeat (sstep; [quiet_cuda |]). apply settles_ret.
Qed.

Lemma settles_save_aliased_inputs stream buffers aliases : forall copies,
  settles (AutotunedKernelCall.save_aliased_inputs env aliases stream buffers copies).
Proof.
  induction aliases as [| [[i o] size] rest IH]; intros copies; simpl.
  - apply settles_ret.
  - sstep; [apply settles_read_buffer |]. sstep; [apply settles_read_buffer |].
    destruct (_ =? _); [| apply IH]. sstep; [quiet_cuda | apply IH].
Qed.

Lemma settles_restore_aliased_inputs stream buffers aliases : forall copies,
  settles (AutotunedKernelCall.restore_aliased_inputs env aliases stream buffers copies).
Proof.
  induction aliases as [| [[i o] size] rest IH]; intros copies; simpl.
  - apply settles_ret.
  - sstep; [apply settles_read_buffer |]. sstep; [quiet_cuda | apply IH].
Qed.

Lemma settles_calibrate stream buffers configs : forall best,
  settles (AutotunedKernelCall.calibrate env configs stream buffers best).
Proof.
  induction configs as [| c rest IH]; intros best; simpl.
  - apply settles_ret.
  - sstep; [apply settles_Benchmark |]. sstep; [apply settles_LOG | apply IH].
Qed.

Lemma settles_select self stream buffers timed_iters n : forall i best,
  settles (AutotunedKernelCall.select env self stream buffers timed_iters n i best).
Proof.
  induction n as [| n IH]; intros i best; simpl; [apply settles_ret |].
  sstep; [apply settles_load_autotuned |].
  destruct (_ !! _); [| apply settles_fatal].
  sstep; [apply settles_Benchmark |]. sstep; [apply settles_LOG |].
  destruct (f32_ltb _ _); [| apply IH].
  sstep; [apply settles_LOG |]. sstep; [apply settles_store_autotuned | apply IH].
Qed.

Lemma settles_Autotune self stream buffers :
  settles (AutotunedKernelCall.Autotune env self stream buffers).
Proof.
  unfold AutotunedKernelCall.Autotune. sstep; [quiet_cuda |].
  apply settles_pushed. unfold AutotunedKernelCall.Autotune_body.
  sstep; [apply settles_load_autotuned |].
  sstep; [apply settles_save_aliased_inputs |]. sstep; [apply settles_LOG |].
  sstep; [apply settles_calibrate |].
  sstep.
  { unfold AutotunedKernelCall.choose_timed_iters.
    destruct (static_cast_int _); [| apply settles_fatal].
    destruct (_ <? _); (sstep; [apply settles_LOG | apply settles_ret]). }
  sstep; [apply settles_select |].
  sstep.
  { unfold AutotunedKernelCall.discard_all_but_best.
    sstep; [apply settles_load_autotuned | apply settles_store_autotuned]. }
  sstep; [apply settles_load_autotuned |].
  destruct (_ !! _); [| apply settles_fatal].
  sstep; [apply settles_LOG |]. sstep; [apply settles_restore_aliased_inputs |].
  sstep; [quiet_cuda |]. apply settles_ret.
Qed.

Lemma settles_AutotunedKernelCall_Launch self stream buffers :
  settles (AutotunedKernelCall.Launch env self stream buffers).
Proof.
  unfold AutotunedKernelCall.Launch. sstep.
  { unfold AutotunedKernelCall.autotune_once.
    sstep; [apply settles_load_autotuned |].
    destruct (autotune_once_ _); [apply settles_ret |].
    sstep.
    - destruct (_ <? _)%nat; [| apply settles_ret].
      sstep; [apply settles_status_of, settles_Autotune |].
      sstep; [apply settles_load_autotuned | apply settles_store_autotuned].
    - sstep; [apply settles_load_autotuned | apply settles_store_autotuned]. }
  sstep; [apply settles_load_autotuned |].
  sstep; [destruct (autotune_status_ _); [apply settles_ret | apply settles_fail] |].
  destruct (_ !! _); [apply settles_KernelCall_Launch | apply settles_fatal].
Qed.

Lemma settles_GetKernel proto : settles (GetKernel env proto).
Proof.
  unfold GetKernel. apply settles_with_lock. apply settles_emits.
  intros w r w'. destruct (kernels w !! kernel_key proto) eqn:Hmiss;
    [intros [= _ <-]; apply emits_refl |].
  unfold bind, compile, emit, make_shared, kernels_insert. simpl.
  destruct (CompileGpuAsm _ _ _ _); simpl;
    [intros [= _ <-]; by apply emits_record |].
  rewrite Hmiss. intros [= _ <-].
  eexists [_]. split; [done |]. by repeat constructor.
Qed.

Lemma settles_KernelCall_FromProto proto : settles (KernelCall.FromProto env proto).
Proof.
  unfold KernelCall.FromProto. sstep; [apply settles_GetKernel |].
  sstep; [| apply settles_ret].
  apply settles_emits. intros w r w'. rewrite parameters_FromProto_run.
  intros [= _ <-]. apply emits_refl.
Qed.

Lemma settles_configs_FromProto protos : forall acc,
  settles (AutotunedKernelCall.configs_FromProto env protos acc).
Proof.
  induction protos as [| p rest IH]; intros acc; simpl.
  - apply settles_ret.
  - sstep; [apply settles_KernelCall_FromProto | apply IH].
Qed.

Lemma settles_construct proto : settles (construct env proto).
Proof.
  destruct proto as [p | p |]; simpl.
  - sstep; [apply settles_KernelCall_FromProto |].
    apply settles_emits. intros w r w' [= _ <-]. by apply emits_same_trace.
  - sstep.
    + unfold AutotunedKernelCall.FromProto.
      sstep; [apply settles_configs_FromProto | apply settles_ret].
    + apply settles_emits. intros w r w' [= _ <-]. by apply emits_same_trace.
  - apply settles_fail.
Qed.

Lemma settles_GetKernelCall fuel opaque : settles (GetKernelCall env fuel opaque).
Proof.
  unfold GetKernelCall. apply settles_with_lock.
  intros w r w'. destruct (kernel_calls w !! opaque);
    [intros [= _ <-] _; exists []; by rewrite app_nil_r |].
  revert w r w'. sstep.
  { apply settles_emits. intros w r w' [= _ <-]. apply emits_refl. }
  destruct (ParseFromString env _); [| apply settles_fail].
  sstep; [apply settles_construct |]. sstep; [| apply settles_ret].
  apply settles_emits. intros w r w'. unfold kernel_calls_insert.
  destruct (_ !! _); intros [= _ <-]; by apply emits_same_trace.
Qed.

(** X26. Locks and contexts are scoped: whenever the entry point returns,
    the events it has added to the trace are well nested.  Every mutex it
    locked it has unlocked, every context the driver let it push it has
    popped, each scope closed inside the one that was open around it,
    whether the call succeeded or failed on the way. *)
Theorem launcher_closes_its_scopes fuel stream buffers opaque w status w' :
  LaunchTritonKernel env fuel stream buffers opaque w = (Ok status, w') ->
  exists evs, trace w' = trace w ++ evs /\ well_nested evs.
Proof.
  assert (settles (LaunchTritonKernel env fuel stream buffers opaque)) as Hs.
  { unfold LaunchTritonKernel. apply settles_status_of.
    sstep; [apply settles_GetKernelCall |].
    intros w0 r0 w0'. unfold KernelCallBase_Launch.
    destruct (call_heap w0 !! _) as [[kc | ac] |].
    - apply settles_KernelCall_Launch.
    - apply settles_AutotunedKernelCall_Launch.
    - intros [= <- _] Hr. by destruct (Hr UndefinedBehaviour). }
  intros H. by eapply Hs.
Qed.
End Settles.

Lemma launcher_closes_its_scopes_witness :
  exists evs, trace (snd a_and_b_entry) = trace a_and_b_cached ++ evs /\ well_nested evs.
Proof.
  apply (launcher_closes_its_scopes (env_of timing_driver) 8 5 [] "ab" a_and_b_cached
           OkStatus).
  vm_compute. reflexivity.
Defined.

(** ** Compute capabilities *)

(** X27. A compute capability survives the round trip: when
    [get_compute_capability] returns a capability, it has initialised the
    driver and read the device's major and minor versions, in this order,
    and returns ten times the major plus the minor; when the minor is a
    digit and the major is not negative, [GetKernel], on a descriptor that
    carries the capability and is not in the cache, hands the assembler that
    major and that minor. *)
Theorem capability_round_trip module_driver device t cc t' :
  get_compute_capability module_driver device t = (CapabilityOk cc, t') ->
  exists init major minor,
    t' = t ++ [(cuInit device, init);
               (cuDeviceGetAttribute_COMPUTE_CAPABILITY_MAJOR device, major);
               (cuDeviceGetAttribute_COMPUTE_CAPABILITY_MINOR device, minor)] /\
    result init = CUDA_SUCCESS /\ result major = CUDA_SUCCESS /\
    result minor = CUDA_SUCCESS /\
    cc = out major * 10 + out minor /\
    (0 <= out major -> 0 <= out minor <= 9 ->
     forall env proto w,
       compute_capability proto = cc -> kernels w !! kernel_key proto = None ->
       trace (snd (GetKernel env proto w)) = trace w ++
         [EvLock KernelCacheMutex;
          EvCompileGpuAsm (out major) (out minor) (ptx proto);
          EvUnlock KernelCacheMutex]).
Proof.
  intros H. unfold get_compute_capability in H. cbv zeta in H.
  set (init := module_driver t (cuInit device)) in *.
  set (t0 := t ++ [(cuInit device, init)]) in *.
  set (major := module_driver t0 (cuDeviceGetAttribute_COMPUTE_CAPABILITY_MAJOR device)) in *.
  set (t1 := t0 ++ [(cuDeviceGetAttribute_COMPUTE_CAPABILITY_MAJOR device, major)]) in *.
  set (minor := module_driver t1 (cuDeviceGetAttribute_COMPUTE_CAPABILITY_MINOR device)) in *.
  destruct (result init) eqn:R0; [| done].
  destruct (result major) eqn:R1; [| done].
  destruct (result minor) eqn:R2; [| done].
  destruct (_ && _); [| done]. injection H as <- <-.
  exists init, major, minor. split; [subst t1 t0; by rewrite <- !app_assoc |].
  split; [exact R0 |]. split; [exact R1 |]. split; [exact R2 |]. split; [done |].
  intros Hmajor Hminor env proto w Hcc Hmiss.
  rewrite (GetKernel_miss env proto w Hmiss). rewrite Hcc.
  match goal with
  | |- context [out ?a * 10 + out ?b] =>
      replace ((out a * 10 + out b) / 10) with (out a)
        by (apply Z.div_unique with (r := out b); lia);
      replace ((out a * 10 + out b) mod 10) with (out b)
        by (apply Z.mod_unique with (q := out a); lia)
  end.
  simpl. destruct (CompileGpuAsm _ _ _ _); simpl; by rewrite <- !app_assoc.
Qed.

Lemma capability_round_trip_witness :
  exists init major minor,
    snd (get_compute_capability ampere_driver 0 []) =
      [] ++ [(cuInit 0, init);
             (cuDeviceGetAttribute_COMPUTE_CAPABILITY_MAJOR 0, major);
             (cuDeviceGetAttribute_COMPUTE_CAPABILITY_MINOR 0, minor)] /\
    result init = CUDA_SUCCESS /\ result major = CUDA_SUCCESS /\
    result minor = CUDA_SUCCESS /\
    86 = out major * 10 + out minor /\
    (0 <= out major -> 0 <= out minor <= 9 ->
     forall env proto w,
       compute_capability proto = 86 -> kernels w !! kernel_key proto = None ->
       trace (snd (GetKernel env proto w)) = trace w ++
         [EvLock KernelCacheMutex;
          EvCompileGpuAsm (out major) (out minor) (ptx proto);
          EvUnlock KernelCacheMutex]).
Proof.
  apply (capability_round_trip ampere_driver 0 [] 86
           (snd (get_compute_capability ampere_driver 0 []))).
  vm_compute. reflexivity.
Defined.
(** * Launches that go through *)

Section AcceptedLaunch.
Context (env : Environment).
Context (Haccept : accepting (driver env)).

Lemma CUDA_accepts c w :
  CUDA_RETURN_IF_ERROR env c w =
    (Ok (driver env (trace w) c), record (EvDriver c (driver env (trace w) c)) w).
Proof. by rewrite CUDA_RETURN_IF_ERROR_run, Haccept. Qed.

Lemma setup_dynamic_shared_memory_accepts k function w :
  (forall t device,
     shared_mem_bytes_ k <=
       wrap32 (out (driver env t
                      (cuDeviceGetAttribute
                         CU_DEVICE_ATTRIBUTE_MAX_SHARED_MEMORY_PER_BLOCK_OPTIN device)))) ->
  exists f w', Kernel.setup_dynamic_shared_memory env k function w = (Ok f, w').
Proof.
  intros Hgranted. unfold Kernel.setup_dynamic_shared_memory.
  unfold bind at 1. rewrite CUDA_accepts.
  unfold bind at 1. rewrite CUDA_accepts.
  match goal with |- context [wrap32 (out ?r) <? _] => set (optin := r) end.
  destruct (Z.ltb_spec (wrap32 (out optin)) (shared_mem_bytes_ k)) as [Hlt | _].
  { subst optin. specialize (Hgranted
      (trace (record (EvDriver cuCtxGetDevice (driver env (trace w) cuCtxGetDevice)) w))
      (out (driver env (trace w) cuCtxGetDevice))). lia. }
  destruct (_ <? _); [| by eexists _, _].
  unfold bind at 1. rewrite CUDA_accepts.
  unfold bind at 1. rewrite CUDA_accepts.
  unfold bind at 1. rewrite CUDA_accepts.
  unfold bind at 1. rewrite CUDA_accepts.
  by eexists _, _.
Qed.

Lemma GetFunctionForContext_accepts self context w k :
  kernel_heap w !! self = Some k -> shared_memory_granted env k ->
  exists f w' k',
    Kernel.GetFunctionForContext env self context w = (Ok f, w') /\
    kernel_heap w' !! self = Some k'.
Proof.
  intros Hk Hgranted.
  assert (forall f w', Kernel.GetFunctionForContext env self context w = (Ok f, w') ->
            exists f w' k', Kernel.GetFunctionForContext env self context w = (Ok f, w') /\
                            kernel_heap w' !! self = Some k') as Hdone.
  { intros f w' H. destruct (GetFunctionForContext_Ok env _ _ _ _ _ H) as (k' & Hk' & _).
    by exists f, w', k'. }
  destruct (functions_ k !! context) as [f |] eqn:Hf.
  { eapply Hdone. by apply GetFunctionForContext_hit with (k := k). }
  destruct (Kernel.GetFunctionForContext env self context w) as [r w'] eqn:E.
  pose proof (GetFunctionForContext_run env self context w k r w' Hk Hf E) as H.
  destruct H as (w0 & r1 & w1 & Hw0 & Hr1 & Hw1 & [(Hko & _) | (_ & wb & Hload & Hw')]).
  { subst r1. by rewrite Haccept in Hko. }
  assert (kernel_heap w1 !! self = Some k) as Hk1 by by rewrite Hw1, Hw0.
  pose proof (load_function_run env self context w1 k _ _ Hk1 Hf Hload) as H.
  destruct H as (r2 & w2 & Hr2 & Hw2 & [(Hko & _) | (_ & r3 & w3 & Hr3 & Hw3 & H)]).
  { subst r2. by rewrite Haccept in Hko. }
  destruct H as [(Hko & _) | (_ & w4 & Hw4 & H)].
  { subst r3. by rewrite Haccept in Hko. }
  assert (exists f, r = Ok f) as [f ->].
  { destruct (Z.leb_spec (shared_mem_bytes_ k) Kernel.kMaxStaticSharedMemBytes) as [Hle | Hgt].
    - destruct H as [-> _]. by eexists.
    - destruct Hgranted as [Hle | Hopt]; [lia |].
      destruct (setup_dynamic_shared_memory_accepts k (out r3) w4 Hopt) as (f & w'' & Hs).
      rewrite Hs in H. injection H as <- _. by eexists. }
  by apply (Hdone f w').
Qed.

Lemma Kernel_Launch_accepts self stream grid params w k :
  kernel_heap w !! self = Some k -> shared_memory_granted env k ->
  exists w', Kernel.Launch env self stream grid params w = (Ok tt, w').
Proof.
  intros Hk Hgranted. unfold Kernel.Launch.
  unfold bind at 1. rewrite CUDA_accepts.
  set (w1 := record _ w).
  destruct (GetFunctionForContext_accepts self
              (out (driver env (trace w) (cuStreamGetCtx stream))) w1 k Hk Hgranted)
    as (f & w2 & k' & Hf & Hk').
  unfold bind at 1. rewrite Hf.
  unfold bind at 1. unfold load_kernel at 1. rewrite Hk'.
  unfold bind at 1. rewrite CUDA_accepts. by eexists.
Qed.

Lemma bind_parameters_accepts stream buffers ps : forall i cursor acc w,
  (cursor + arrays_before ps (length ps) <= length buffers)%nat ->
  (forall j q, ~ offending buffers ps cursor j q) ->
  exists params w',
    KernelCall.bind_parameters env ps i stream buffers cursor acc w = (Ok params, w') /\
    kernel_heap w' = kernel_heap w.
Proof.
  induction ps as [| [a | s] rest IH]; intros i cursor acc w Henough Haligned; simpl.
  - by eexists _, _.
  - simpl in Henough.
    assert (is_Some (buffers !! cursor)) as [p Hp] by (apply lookup_lt_is_Some; lia).
    unfold bind at 1. unfold read_buffer at 1. rewrite Hp. cbn [ret].
    destruct (_ && _) eqn:T.
    { apply alignment_test in T as [Hflag Hmis].
      destruct (Haligned 0%nat p). by apply offending_head. }
    assert (exists w1, KernelCall.zero_fill env a p stream w = (Ok tt, w1) /\
                       kernel_heap w1 = kernel_heap w) as (w1 & Hz & Hh1).
    { unfold KernelCall.zero_fill. destruct (_ <? _); [| by eexists].
      unfold bind. rewrite CUDA_accepts. by eexists. }
    unfold bind at 1. rewrite Hz.
    destruct (IH (S i) (S cursor) (acc ++ [ArgBuffer p]) w1) as (params & w' & Hrun & Hh).
    + lia.
    + intros j q Hoff. apply (Haligned (S j) q). by apply offending_cons_array.
    + exists params, w'. split; [done |]. by rewrite Hh.
  - simpl in Henough. apply IH; [done |].
    intros j q Hoff. by apply (Haligned (S j) q).
Qed.

Lemma KernelCall_Launch_accepts self stream buffers w k :
  kernel_heap w !! kernel_ self = Some k ->
  (arrays_before (parameters_ self) (length (parameters_ self)) <= length buffers)%nat ->
  (forall j q, ~ offending buffers (parameters_ self) 0 j q) ->
  shared_memory_granted env k ->
  exists w', KernelCall.Launch env self stream buffers w = (Ok tt, w').
Proof.
  intros Hk Henough Haligned Hgranted. unfold KernelCall.Launch.
  destruct (bind_parameters_accepts stream buffers (parameters_ self) 0%nat 0%nat [] w)
    as (params & w1 & Hrun & Hh); [done | done |].
  unfold bind. rewrite Hrun.
  apply (Kernel_Launch_accepts _ _ _ _ _ k); [by rewrite Hh | done].
Qed.
End AcceptedLaunch.

(** ** KernelCall::Launch binds by position *)

Section PositionalBinding.
Context (env : Environment).

Lemma launches_of_nil kc stream buffers : launches_of kc stream buffers [].
Proof. by intros f g b sh st params reply Hin%elem_of_nil. Qed.

Lemma launches_of_app kc stream buffers evs1 evs2 :
  launches_of kc stream buffers evs1 -> launches_of kc stream buffers evs2 ->
  launches_of kc stream buffers (evs1 ++ evs2).
Proof.
  intros H1 H2 f g b sh st params reply [Hin | Hin]%elem_of_app; eauto.
Qed.

Lemma launches_of_none kc stream buffers evs :
  Forall not_a_launch evs -> launches_of kc stream buffers evs.
Proof.
  intros Hall f g b sh st params reply Hin.
  rewrite Forall_forall in Hall. by apply Hall in Hin.
Qed.

(** Whatever [KernelCall::Launch] returns, the kernel launches it has
    issued are launches of the call, and one that returns ok has ended
    with such a launch, accepted by the driver. *)
Lemma KernelCall_Launch_bound self stream buffers w r w' :
  KernelCall.Launch env self stream buffers w = (r, w') ->
  exists evs,
    trace w' = trace w ++ evs /\
    launches_of self stream buffers evs /\
    (r = Ok tt ->
     exists f b sh params reply,
       last evs = Some (EvDriver (cuLaunchKernel f (grid_ self) b sh stream params) reply) /\
       result reply = CUDA_SUCCESS /\
       bound_positionally buffers (parameters_ self) 0 params).
Proof.
  unfold KernelCall.Launch, bind.
  destruct (KernelCall.bind_parameters _ _ _ _ _ _ _ _) as [[params | e | f] w1] eqn:E;
    pose proof (bind_parameters_emits env stream buffers _ _ _ _ _ _ _ E)
      as (evs1 & Htr1 & Hall1).
  - apply bind_parameters_Ok in E as (args & [= ->] & Hbound).
    intros H.
    pose proof (Kernel_Launch_emits env _ _ _ _ _ _ _ H) as (evs2 & Htr2 & Hall2).
    exists (evs1 ++ evs2). split; [by rewrite Htr2, Htr1, app_assoc |]. split.
    + intros f0 g b sh st params reply [Hin | Hin]%elem_of_app.
      * rewrite Forall_forall in Hall1. by apply Hall1 in Hin.
      * rewrite Forall_forall in Hall2. apply Hall2, launch_event_inv in Hin.
        by destruct Hin as (-> & -> & ->).
    + intros ->. apply Kernel_Launch_Ok in H as (evs & f0 & b & sh & reply & Htr & _ & Hok).
      rewrite Htr2 in Htr. apply app_inv_head in Htr. subst evs2.
      exists f0, b, sh, args, reply. split; [| done].
      by rewrite !app_assoc, last_snoc.
  - intros [= <- <-]. exists evs1. split; [done |]. split; [| done].
    apply launches_of_none.
    eapply Forall_impl; [exact Hall1 | apply zero_fill_not_a_launch].
  - intros [= <- <-]. exists evs1. split; [done |]. split; [| done].
    apply launches_of_none.
    eapply Forall_impl; [exact Hall1 | apply zero_fill_not_a_launch].
Qed.

(** C6. Positional binding.  Whatever [KernelCall::Launch] returns, every
    kernel launch it hands to the driver is on the call's grid and stream,
    passes every scalar parameter as it is and gives the array parameter at
    position [j] the buffer whose index is the number of array parameters
    before [j] (scalars do not advance the cursor); a launch that returns ok
    has ended with such a driver launch.  And the launch does go through:
    when the call's kernel is there and is granted its shared memory, there
    is a buffer for every array parameter, no parameter that requires
    alignment is handed a misaligned pointer and the driver accepts every
    call, [Launch] returns ok, having launched one kernel, in its last
    driver call, with the arguments bound by position. *)
Theorem launch_binds_buffers_positionally self stream buffers w :
  (forall r w',
     KernelCall.Launch env self stream buffers w = (r, w') ->
     exists evs,
       trace w' = trace w ++ evs /\
       launches_of self stream buffers evs /\
       (r = Ok tt ->
        exists f b sh params reply,
          last evs
            = Some (EvDriver (cuLaunchKernel f (grid_ self) b sh stream params) reply) /\
          result reply = CUDA_SUCCESS /\
          bound_positionally buffers (parameters_ self) 0 params)) /\
  (launchable env buffers self w -> accepting (driver env) ->
   exists w' evs f b sh params reply,
     KernelCall.Launch env self stream buffers w = (Ok tt, w') /\
     trace w' = trace w ++ evs /\
     kernel_launches evs = 1%nat /\
     last evs
       = Some (EvDriver (cuLaunchKernel f (grid_ self) b sh stream params) reply) /\
     result reply = CUDA_SUCCESS /\
     bound_positionally buffers (parameters_ self) 0 params).
Proof.
  split; [intros r w'; apply KernelCall_Launch_bound |].
  intros ((k & Hk & Hgranted) & Henough & Haligned) Haccept.
  destruct (KernelCall_Launch_accepts env Haccept self stream buffers w k)
    as (w' & Hrun); [done .. |].
  destruct (KernelCall_Launch_bound _ _ _ _ _ _ Hrun) as (evs & Htr & _ & Hlast).
  destruct (KernelCall_Launch_once env stream buffers _ _ _ Hrun) as (evs' & Htr' & Hn & _).
  rewrite Htr in Htr'. apply app_inv_head in Htr' as <-.
  destruct (Hlast eq_refl) as (f & b & sh & params & reply & ? & ? & ?).
  by exists w', evs, f, b, sh, params, reply.
Qed.
End PositionalBinding.

Lemma launch_binds_buffers_positionally_witness :
  exists w' evs f b sh params reply,
    KernelCall.Launch (env_of obliging_driver) asasa 5 [4096; 8192; 12288]
      (one_kernel_world 0) = (Ok tt, w') /\
    trace w' = trace (one_kernel_world 0) ++ evs /\
    kernel_launches evs = 1%nat /\
    last evs = Some (EvDriver (cuLaunchKernel f (grid_ asasa) b sh 5 params) reply) /\
    result reply = CUDA_SUCCESS /\
    bound_positionally [4096; 8192; 12288] (parameters_ asasa) 0 params.
Proof.
  apply (proj2 (launch_binds_buffers_positionally (env_of obliging_driver) asasa 5
                  [4096; 8192; 12288] (one_kernel_world 0))).
  - split; [| split].
    + exists (Kernel_new "image" "kernel" 4 0). split; [reflexivity |].
      left. vm_compute. discriminate.
    + simpl. lia.
    + intros j q (a & Hps & Hflag & _).
      destruct j as [| [| [| [| [| j]]]]]; simpl in Hps; try discriminate;
        injection Hps as <-; discriminate.
  - intros t c. by destruct c.
Defined.

(** * Autotuning, phase by phase *)

Section BenchmarkRuns.
Context (env : Environment) (stream : CUstream) (buffers : list CUdeviceptr).

Lemma KernelCall_Launch_one kc w w' :
  KernelCall.Launch env kc stream buffers w = (Ok tt, w') ->
  exists evs,
    trace w' = trace w ++ evs /\ kernel_launches evs = 1%nat /\
    launches_of kc stream buffers evs /\ Forall not_a_timer evs /\ Forall quiet evs.
Proof.
  intros H.
  destruct (KernelCall_Launch_once env stream buffers kc w w' H) as (evs & Htr & Hn & Hnt).
  destruct (KernelCall_Launch_bound env _ _ _ _ _ _ H) as (evs1 & Htr1 & Hl & _).
  destruct (KernelCall_Launch_quiet env _ _ _ _ _ _ H) as (evs2 & Htr2 & Hq).
  rewrite Htr in Htr1, Htr2.
  apply app_inv_head in Htr1 as <-. apply app_inv_head in Htr2 as <-.
  by exists evs.
Qed.

Lemma launch_repeatedly_run kc n : forall w w',
  AutotunedKernelCall.launch_repeatedly env kc stream buffers n w = (Ok tt, w') ->
  exists evs,
    trace w' = trace w ++ evs /\ kernel_launches evs = n /\
    launches_of kc stream buffers evs /\ Forall not_a_timer evs /\ Forall quiet evs.
Proof.
  induction n as [| n IH]; intros w w'; simpl.
  - intros [= <-]. exists []. rewrite app_nil_r.
    split; [done |]. split; [done |]. split; [apply launches_of_nil |].
    split; constructor.
  - intros ([] & w1 & H1 & H)%bind_Ok.
    apply KernelCall_Launch_one in H1 as (evs1 & Htr1 & Hn1 & Hl1 & Hnt1 & Hq1).
    apply IH in H as (evs2 & Htr2 & Hn2 & Hl2 & Hnt2 & Hq2).
    exists (evs1 ++ evs2). split; [by rewrite Htr2, Htr1, app_assoc |].
    split; [by rewrite kernel_launches_app, Hn1, Hn2 |].
    split; [by apply launches_of_app |]. split; by apply Forall_app.
Qed.

(** A benchmark that returns a time has run as [benchmark_run] says. *)
Lemma Benchmark_run kc n w t w' :
  AutotunedKernelCall.Benchmark env stream kc buffers n w = (Ok t, w') ->
  exists run, trace w' = trace w ++ run /\ benchmark_run stream buffers kc n t run.
Proof.
  unfold AutotunedKernelCall.Benchmark. intros H.
  apply bind_Ok in H as (start & w1 & H1 & H).
  apply CUDA_RETURN_IF_ERROR_Ok in H1 as (_ & _ & ->).
  apply bind_Ok in H as (stop & w2 & H2 & H).
  apply CUDA_RETURN_IF_ERROR_Ok in H2 as (_ & _ & ->).
  apply bind_Ok in H as ([] & w3 & H3 & H).
  apply KernelCall_Launch_one in H3 as (warm_up & Htr3 & Hn3 & Hl3 & Hnt3 & Hq3).
  apply bind_Ok in H as (recorded_start & w4 & H4 & H).
  apply CUDA_RETURN_IF_ERROR_Ok in H4 as (_ & _ & ->).
  apply bind_Ok in H as ([] & w5 & H5 & H).
  apply launch_repeatedly_run in H5 as (timed & Htr5 & Hn5 & Hl5 & Hnt5 & Hq5).
  apply bind_Ok in H as (recorded_stop & w6 & H6 & H).
  apply CUDA_RETURN_IF_ERROR_Ok in H6 as (_ & _ & ->).
  apply bind_Ok in H as (awaited & w7 & H7 & H).
  apply CUDA_RETURN_IF_ERROR_Ok in H7 as (_ & _ & ->).
  apply bind_Ok in H as (elapsed & w8 & H8 & H).
  apply CUDA_RETURN_IF_ERROR_Ok in H8 as (_ & _ & ->).
  apply bind_Ok in H as (destroyed_start & w9 & H9 & H).
  apply CUDA_RETURN_IF_ERROR_Ok in H9 as (_ & _ & ->).
  apply bind_Ok in H as (destroyed_stop & w10 & H10 & H).
  apply CUDA_RETURN_IF_ERROR_Ok in H10 as (_ & _ & ->).
  injection H as <- <-.
  eexists. split; [| by exists start, stop, recorded_start, recorded_stop, awaited, elapsed,
                          destroyed_start, destroyed_stop, warm_up, timed].
  unfold benchmark_trace. simpl. rewrite Htr5. simpl. rewrite Htr3.
  simpl. by rewrite <- !app_assoc.
Qed.

Lemma quiet_uncalibrated e : quiet e -> uncalibrated e.
Proof. intros He. destruct e; try done. by destruct He. Qed.

Lemma quiet_timed_with n e : quiet e -> timed_with n e.
Proof. intros He d m t ->. by destruct He. Qed.

Lemma housekeeping_quiet e : housekeeping e -> quiet e.
Proof. unfold housekeeping, quiet. destruct e; simpl; tauto. Qed.


(** *** The calibration loop *)

Lemma calibrate_same_calls configs : forall best0,
  respects same_calls (AutotunedKernelCall.calibrate env configs stream buffers best0).
Proof.
  induction configs as [| config rest IH]; intros best0; simpl.
  - apply respects_ret, same_calls_refl.
  - apply respects_bind; [apply same_calls_trans | apply Benchmark_same_calls |].
    intros t. apply respects_bind; [apply same_calls_trans | | intros _; apply IH].
    by intros w r w' [= <- <-].
Qed.

Lemma calibrate_uncalibrated configs : forall best0,
  respects (emits uncalibrated)
    (AutotunedKernelCall.calibrate env configs stream buffers best0).
Proof.
  induction configs as [| config rest IH]; intros best0; simpl.
  - apply respects_ret, emits_refl.
  - apply emits_bind.
    { intros w r w' H. eapply emits_weaken; [apply quiet_uncalibrated |].
      eapply Benchmark_quiet, H. }
    intros t. apply emits_bind; [by apply emits_emit | intros _; apply IH].
Qed.

Lemma calibrate_run configs : forall best0 w best w',
  AutotunedKernelCall.calibrate env configs stream buffers best0 w = (Ok best, w') ->
  exists ts runs,
    trace w' = trace w ++ calibration_trace configs ts runs /\
    benchmarks stream buffers 1 configs ts runs /\
    best = foldl f32_min best0 ts.
Proof.
  induction configs as [| config rest IH]; intros best0 w best w'; simpl.
  - intros [= <- <-]. exists [], []. rewrite app_nil_r. repeat split. constructor.
  - intros (t & w1 & H1 & H)%bind_Ok.
    apply bind_Ok in H as ([] & w2 & [= <-] & H).
    apply Benchmark_run in H1 as (run & Htr1 & Hrun).
    apply IH in H as (ts & runs & Htr2 & Hbs & ->).
    exists (t :: ts), (run :: runs). split; [| split; [by constructor | done]].
    rewrite Htr2. simpl. rewrite Htr1, <- !app_assoc. done.
Qed.
End BenchmarkRuns.

(** *** The benchmarking loop *)

Section SelectRuns.
Context (env : Environment) (stream : CUstream) (buffers : list CUdeviceptr).
Context (timed_iters : Z) (self : nat) (obj0 : AutotunedKernelCall).

Lemma timed_with_ran d t : timed_with timed_iters (EvLog (LogRanIters d timed_iters t)).
Proof. by intros d' m t' [= _ <- _]. Qed.

Lemma timed_with_other e : untimed e -> timed_with timed_iters e.
Proof. intros He d m t ->. done. Qed.

(** Whatever the loop returns, it has only permuted the configs, and the
    timed runs it reports ran [timed_iters] iterations; when it returns ok
    it has benchmarked every config from [i] on, in order, and the config in
    front is the one the running best picks. *)
Lemma select_run n : forall i best cur cs w r w',
  call_heap w !! self = Some (IsAutotunedKernelCall (with_configs cs obj0)) ->
  cs ≡ₚ configs_ obj0 ->
  (i + n = length (configs_ obj0))%nat ->
  (forall j, (i <= j)%nat -> cs !! j = configs_ obj0 !! j) ->
  cs !! 0%nat = configs_ obj0 !! cur ->
  AutotunedKernelCall.select env self stream buffers timed_iters n i best w = (r, w') ->
  kernel_calls w' = kernel_calls w /\
  exists evs cs',
    trace w' = trace w ++ evs /\
    Forall (timed_with timed_iters) evs /\
    cs' ≡ₚ configs_ obj0 /\
    call_heap w' = <[self := IsAutotunedKernelCall (with_configs cs' obj0)]> (call_heap w) /\
    (r = Ok tt ->
     exists ts runs,
       evs = selection_trace timed_iters (drop i (configs_ obj0)) ts runs best /\
       benchmarks stream buffers timed_iters (drop i (configs_ obj0)) ts runs /\
       cs' !! 0%nat = configs_ obj0 !! (pick ts i best cur).2).
Proof.
  induction n as [| n IH]; intros i best cur cs w r w' Hself Hperm Hin Hrest Hfront; simpl.
  - intros [= <- <-]. split; [done |]. exists [], cs. rewrite app_nil_r.
    split; [done |]. split; [constructor |]. split; [done |].
    split; [symmetry; by apply list_insert_id |].
    intros _. exists [], []. rewrite drop_ge by lia.
    split; [done |]. split; [constructor | done].
  - intros H. unfold bind at 1 in H. unfold load_autotuned at 1 in H.
    rewrite Hself in H. simpl in H.
    assert (is_Some (configs_ obj0 !! i)) as [config Hconfig]
      by (apply lookup_lt_is_Some; lia).
    rewrite Hrest, Hconfig in H by lia.
    assert (self < length (call_heap w))%nat as Hlt by by apply lookup_lt_Some in Hself.
    apply bind_inv in H as [(t & w1 & Hbench & H) | Hstop].
    2: { assert (r <> Ok tt /\
                 exists rb, AutotunedKernelCall.Benchmark env stream (kernel_call config)
                              buffers timed_iters w = (rb, w')) as [Hr [rb Hbench]].
         { destruct Hstop as [(e & ? & ->) | (f & ? & ->)]; split; eauto. }
         pose proof (Benchmark_same_calls _ _ _ _ _ _ _ _ Hbench) as [Hh Hk].
         apply Benchmark_quiet in Hbench as (evs & Htr & Hq).
         split; [done |]. exists evs, cs. split; [done |].
         split; [eapply Forall_impl; [exact Hq | apply quiet_timed_with] |].
         split; [done |].
         split; [rewrite Hh; symmetry; by apply list_insert_id |]. done. }
    pose proof (Benchmark_same_calls _ _ _ _ _ _ _ _ Hbench) as [Hh1 Hk1].
    pose proof (Benchmark_quiet _ _ _ _ _ _ _ _ Hbench) as (run' & Htr1' & Hq1).
    apply Benchmark_run in Hbench as (run & Htr1 & Hrun).
    rewrite Htr1 in Htr1'. apply app_inv_head in Htr1' as <-.
    unfold bind at 1 in H. unfold LOG at 1, emit at 1 in H.
    rewrite (drop_S _ _ _ Hconfig).
    destruct (f32_ltb t best) eqn:E.
    + unfold bind at 1 in H. unfold LOG at 1, emit at 1 in H.
      unfold bind at 1 in H. unfold store_autotuned at 1 in H.
      apply (IH (S i) t i (swap_with_front i cs)) in H
        as (Hk & evs & cs' & Htr & Hall & Hperm' & Hheap & Hok).
      * split; [by rewrite Hk |].
        exists (run ++ EvLog (LogRanIters (description config) timed_iters t)
                  :: EvLog (LogNewBest (description config)) :: evs), cs'.
        split; [rewrite Htr; simpl; rewrite Htr1, <- !app_assoc; done |].
        split.
        { apply Forall_app. split; [eapply Forall_impl; [exact Hq1 | apply quiet_timed_with] |].
          constructor; [apply timed_with_ran |].
          constructor; [by apply timed_with_other | done]. }
        split; [done |]. simpl in Hheap.
        split; [by rewrite Hheap, list_insert_insert_eq, Hh1 |].
        intros Hr. destruct (Hok Hr) as (ts & runs & -> & Hbs & Hfront').
        exists (t :: ts), (run :: runs). simpl. rewrite E.
        split; [done |]. split; [by constructor | done].
      * simpl. rewrite Hh1. apply list_lookup_insert_eq. done.
      * by rewrite swap_with_front_Permutation.
      * lia.
      * intros j Hj. rewrite swap_with_front_other by lia. apply Hrest. lia.
      * rewrite Hconfig. apply swap_with_front_0. by rewrite Hrest by lia.
    + apply (IH (S i) best cur cs) in H
        as (Hk & evs & cs' & Htr & Hall & Hperm' & Hheap & Hok).
      * split; [by rewrite Hk |].
        exists (run ++ EvLog (LogRanIters (description config) timed_iters t) :: evs), cs'.
        split; [rewrite Htr; simpl; rewrite Htr1, <- !app_assoc; done |].
        split.
        { apply Forall_app. split; [eapply Forall_impl; [exact Hq1 | apply quiet_timed_with] |].
          constructor; [apply timed_with_ran | done]. }
        split; [done |]. simpl in Hheap.
        split; [by rewrite Hheap, Hh1 |].
        intros Hr. destruct (Hok Hr) as (ts & runs & -> & Hbs & Hfront').
        exists (t :: ts), (run :: runs). simpl. rewrite E.
        split; [done |]. split; [by constructor | done].
      * simpl. by rewrite Hh1.
      * done.
      * lia.
      * intros j Hj. apply Hrest. lia.
      * done.
Qed.
End SelectRuns.

(** *** Autotune *)

Lemma bind_stopped {A B} (m : M A) w (r : Result B) w' :
  (exists e, m w = (Err e, w') /\ r = Err e) \/
  (exists f, m w = (Fatal f, w') /\ r = Fatal f) ->
  not_ok r /\ exists rm, m w = (rm, w').
Proof.
  intros [(e & H & ->) | (f & H & ->)]; (split; [by intros a | by eexists]).
Qed.

Section AutotuneRuns.
Context (env : Environment) (stream : CUstream) (buffers : list CUdeviceptr).

Lemma save_aliased_inputs_housekeeping aliases : forall copies,
  respects (emits housekeeping)
    (AutotunedKernelCall.save_aliased_inputs env aliases stream buffers copies).
Proof.
  induction aliases as [| [[i o] size] rest IH]; intros copies; simpl.
  - apply respects_ret, emits_refl.
  - apply emits_bind; [apply respects_read_buffer, emits_refl |]. intros input.
    apply emits_bind; [apply respects_read_buffer, emits_refl |]. intros output.
    destruct (_ =? _); [| apply IH].
    apply emits_bind; [by apply emits_CUDA_RETURN_IF_ERROR | intros _; apply IH].
Qed.

Lemma restore_aliased_inputs_housekeeping aliases : forall copies,
  respects (emits housekeeping)
    (AutotunedKernelCall.restore_aliased_inputs env aliases stream buffers copies).
Proof.
  induction aliases as [| [[i o] size] rest IH]; intros copies; simpl.
  - apply respects_ret, emits_refl.
  - apply emits_bind; [apply respects_read_buffer, emits_refl |]. intros input.
    apply emits_bind; [by apply emits_CUDA_RETURN_IF_ERROR | intros _; apply IH].
Qed.

Lemma housekeeping_uncalibrated e : housekeeping e -> uncalibrated e.
Proof. intros He. by apply quiet_uncalibrated, housekeeping_quiet. Qed.

Lemma housekeeping_timed_with n e : housekeeping e -> timed_with n e.
Proof. intros He. by apply quiet_timed_with, housekeeping_quiet. Qed.

Lemma choose_timed_iters_Some best z w :
  static_cast_int (f32_div AutotunedKernelCall.kBenchmarkTimeMillis best) = Some z ->
  AutotunedKernelCall.choose_timed_iters best w
    = (Ok (Z.min (Z.max z 1) 100), record (EvLog (announcement z)) w).
Proof.
  intros Hz. unfold AutotunedKernelCall.choose_timed_iters, announcement. rewrite Hz.
  simpl. destruct (Z.ltb_spec 100 (Z.max z 1)); unfold bind, LOG, emit, ret; simpl;
    do 2 f_equal; lia.
Qed.

(** How far an autotuning got, and what it left behind: it stopped before
    the end of its calibration loop; or its calibration loop measured the
    times [ts1], and then either the quotient of the target time by their
    minimum has no [int] value, and the process is lost, or the iteration
    count is announced, and either the benchmarking loop stopped, leaving
    every config in the list, or it timed every config and only the fastest
    is left. *)
Lemma Autotune_body_run self obj w r w' :
  call_heap w !! self = Some (IsAutotunedKernelCall obj) ->
  configs_ obj <> [] ->
  AutotunedKernelCall.Autotune_body env self stream buffers w = (r, w') ->
  kernel_calls w' = kernel_calls w /\
  exists evs,
    trace w' = trace w ++ evs /\
    ((not_ok r /\ call_heap w' = call_heap w /\ Forall uncalibrated evs) \/
     exists ts1 evs1 rest,
       evs = evs1 ++ rest /\ calibration stream buffers obj ts1 evs1 /\
       match static_cast_int
               (f32_div AutotunedKernelCall.kBenchmarkTimeMillis
                  (foldl f32_min f32_infinity ts1)) with
       | None =>
           r = Fatal UndefinedBehaviour /\ rest = [] /\ call_heap w' = call_heap w
       | Some z =>
           exists rest',
             rest = EvLog (announcement z) :: rest' /\
             Forall (timed_with (Z.min (Z.max z 1) 100)) rest' /\
             ((not_ok r /\
               exists cs', cs' ≡ₚ configs_ obj /\
                 call_heap w' = <[self := IsAutotunedKernelCall (with_configs cs' obj)]>
                                  (call_heap w)) \/
              exists ts sel post k c,
                rest' = sel ++ EvLog (LogFinished (name_ obj) (description c)) :: post /\
                selection stream buffers obj (Z.min (Z.max z 1) 100) ts sel /\
                Forall housekeeping post /\
                fastest_first ts k /\ configs_ obj !! k = Some c /\
                call_heap w' = <[self := IsAutotunedKernelCall (with_configs [c] obj)]>
                                 (call_heap w))
       end).
Proof.
  intros Hself Hne H. unfold AutotunedKernelCall.Autotune_body in H.
  assert (self < length (call_heap w))%nat as Hlt by by apply lookup_lt_Some in Hself.
  unfold bind at 1 in H. unfold load_autotuned at 1 in H. rewrite Hself in H.
  cbv beta iota in H.
  (* the copies of the aliased inputs *)
  apply bind_inv in H as [(copies & w1 & Hsave & H) | Hstop].
  2: { apply bind_stopped in Hstop as [Hr [rm Hsave]].
       pose proof (save_aliased_inputs_same_calls _ _ _ _ _ _ _ _ Hsave) as [Hh Hk].
       apply save_aliased_inputs_housekeeping in Hsave as (evs & Htr & Hall).
       split; [done |]. exists evs. split; [done |]. left.
       split; [done |]. split; [done |].
       eapply Forall_impl; [exact Hall | apply housekeeping_uncalibrated]. }
  pose proof (save_aliased_inputs_same_calls _ _ _ _ _ _ _ _ Hsave) as [Hh1 Hk1].
  apply save_aliased_inputs_housekeeping in Hsave as (pre & Htr1 & Hpre).
  unfold bind at 1 in H. unfold LOG at 1, emit at 1 in H.
  set (w2 := record (EvLog (LogAutotuning (name_ obj))) w1) in H.
  (* the calibration loop *)
  apply bind_inv in H as [(best & w3 & Hcal & H) | Hstop].
  2: { apply bind_stopped in Hstop as [Hr [rm Hcal]].
       pose proof (calibrate_same_calls _ _ _ _ _ _ _ _ Hcal) as [Hh Hk].
       apply calibrate_uncalibrated in Hcal as (evs & Htr & Hall).
       split; [by rewrite Hk |].
       exists (pre ++ EvLog (LogAutotuning (name_ obj)) :: evs).
       split; [rewrite Htr; simpl; rewrite Htr1, <- !app_assoc; done |]. left.
       split; [done |]. split; [by rewrite Hh |].
       apply Forall_app. split.
       - eapply Forall_impl; [exact Hpre | apply housekeeping_uncalibrated].
       - by constructor. }
  pose proof (calibrate_same_calls _ _ _ _ _ _ _ _ Hcal) as [Hh3 Hk3].
  apply calibrate_run in Hcal as (ts1 & runs1 & Htr3 & Hbs1 & ->).
  simpl in Hh3, Hk3.
  set (evs1 := pre ++ EvLog (LogAutotuning (name_ obj))
                 :: calibration_trace (configs_ obj) ts1 runs1).
  assert (trace w3 = trace w ++ evs1) as Htr3'.
  { rewrite Htr3. simpl. rewrite Htr1. unfold evs1. by rewrite <- !app_assoc. }
  assert (calibration stream buffers obj ts1 evs1) as Hcalib by by exists pre, runs1.
  assert (call_heap w3 = call_heap w) as Hh3' by by rewrite Hh3.
  assert (kernel_calls w3 = kernel_calls w) as Hk3' by by rewrite Hk3.
  clearbody evs1. clear Htr3 Htr1 Hh3 Hk3 Hh1 Hk1 Hpre Hbs1 w2 pre runs1 w1.
  (* the iteration count *)
  unfold bind at 1 in H.
  destruct (static_cast_int
              (f32_div AutotunedKernelCall.kBenchmarkTimeMillis
                 (foldl f32_min f32_infinity ts1))) as [z |] eqn:Hz.
  2: { unfold AutotunedKernelCall.choose_timed_iters in H. rewrite Hz in H.
       injection H as <- <-. split; [done |]. exists evs1. split; [done |].
       right. exists ts1, evs1, []. rewrite app_nil_r. split; [done |].
       split; [done |]. by rewrite Hz. }
  rewrite (choose_timed_iters_Some _ z _ Hz) in H.
  set (n := Z.min (Z.max z 1) 100) in *.
  set (w4 := record (EvLog (announcement z)) w3) in H.
  (* the benchmarking loop *)
  assert (forall rs ws,
            AutotunedKernelCall.select env self stream buffers n
              (length (configs_ obj)) 0 f32_infinity w4 = (rs, ws) ->
            kernel_calls ws = kernel_calls w /\
            exists evs cs',
              trace ws = trace w ++ evs1 ++ EvLog (announcement z) :: evs /\
              Forall (timed_with n) evs /\ cs' ≡ₚ configs_ obj /\
              call_heap ws = <[self := IsAutotunedKernelCall (with_configs cs' obj)]>
                               (call_heap w) /\
              (rs = Ok tt ->
               exists ts,
                 selection stream buffers obj n ts evs /\
                 cs' !! 0%nat = configs_ obj !! (pick ts 0 f32_infinity 0).2)) as Hselect.
  { intros rs ws Hsel.
    apply (select_run env stream buffers n self obj _ 0%nat _ 0%nat (configs_ obj))
      in Hsel as (Hk & evs & cs' & Htr & Hall & Hperm & Hheap & Hok);
      [| rewrite with_configs_configs; unfold w4; simpl; by rewrite Hh3'
       | done | done | done | done].
    unfold w4 in *. simpl in *.
    split; [by rewrite Hk |]. exists evs, cs'.
    split; [rewrite Htr, Htr3', <- !app_assoc; done |].
    split; [done |]. split; [done |].
    split; [by rewrite Hheap, Hh3' |].
    intros Hr. destruct (Hok Hr) as (ts & runs & -> & Hbs & Hfront).
    rewrite ?drop_0 in *. exists ts. split; [by exists runs | done]. }
  apply bind_inv in H as [([] & w5 & Hsel & H) | Hstop].
  2: { apply bind_stopped in Hstop as [Hr [rm Hsel]].
       apply Hselect in Hsel as (Hk & evs & cs' & Htr & Hall & Hperm & Hheap & _).
       split; [done |]. exists (evs1 ++ EvLog (announcement z) :: evs).
       split; [done |]. right. exists ts1, evs1, (EvLog (announcement z) :: evs).
       split; [done |]. split; [done |]. rewrite Hz.
       exists evs. split; [done |]. split; [done |]. left. split; [done |].
       by exists cs'. }
  apply Hselect in Hsel as (Hk5 & sel & cs' & Htr5 & Hall5 & Hperm & Hheap5 & Hok).
  destruct (Hok eq_refl) as (ts & Hsel & Hfront). clear Hok Hselect.
  pose proof (pick_fastest_first ts) as Hfast.
  set (k := (pick ts 0 f32_infinity 0).2) in *.
  assert (is_Some (configs_ obj !! k)) as [c Hc].
  { apply lookup_lt_is_Some. destruct Hsel as (runs & _ & Hbs).
    destruct Hfast as [(tk & Htk & _) | [-> _]].
    - apply lookup_lt_Some in Htk. apply Forall3_length_lm in Hbs. lia.
    - destruct (configs_ obj); [done | simpl; lia]. }
  assert (take 1 cs' = [c]) as Htake.
  { rewrite Hc in Hfront. destruct cs' as [| c' rest]; [done |].
    simpl in Hfront. by injection Hfront as ->. }
  (* the discard *)
  unfold bind at 1 in H. unfold AutotunedKernelCall.discard_all_but_best in H.
  unfold bind at 1 in H. unfold load_autotuned at 1 in H.
  rewrite Hheap5, list_lookup_insert_eq in H by done.
  cbv beta iota in H. unfold store_autotuned at 1 in H. cbv beta iota in H.
  unfold bind at 1 in H. unfold load_autotuned at 1 in H.
  cbn [call_heap set_call_heap] in H.
  rewrite list_lookup_insert_eq in H by by rewrite Hheap5, length_insert.
  cbv beta iota in H. cbn [configs_ with_configs name_ input_output_aliases_] in H.
  rewrite Htake in H. cbn [lookup list_lookup] in H.
  unfold bind at 1 in H. unfold LOG at 1, emit at 1 in H.
  match type of H with _ ?w0 = _ => set (w6 := w0) in H end.
  assert (respects (emits housekeeping)
            (AutotunedKernelCall.restore_aliased_inputs env (input_output_aliases_ obj)
               stream buffers copies ;;
             CUDA_RETURN_IF_ERROR env (cuStreamSynchronize stream) ;; ret tt)) as Hpost.
  { apply emits_bind; [apply restore_aliased_inputs_housekeeping |]. intros _.
    apply emits_bind; [by apply emits_CUDA_RETURN_IF_ERROR |]. intros _.
    apply respects_ret, emits_refl. }
  assert (respects same_calls
            (AutotunedKernelCall.restore_aliased_inputs env (input_output_aliases_ obj)
               stream buffers copies ;;
             CUDA_RETURN_IF_ERROR env (cuStreamSynchronize stream) ;; ret tt)) as Hsame.
  { apply respects_bind; [apply same_calls_trans | |].
    { apply restore_aliased_inputs_same_calls. }
    intros _. apply respects_bind; [apply same_calls_trans | apply CUDA_same_calls |].
    intros _. apply respects_ret, same_calls_refl. }
  pose proof (Hsame _ _ _ H) as [Hh Hk].
  apply Hpost in H as (post & Htr & Hall).
  unfold w6 in *. simpl in *.
  split; [by rewrite Hk |].
  exists (evs1 ++ EvLog (announcement z)
            :: sel ++ EvLog (LogFinished (name_ obj) (description c)) :: post).
  split; [rewrite Htr, Htr5; repeat (rewrite <- app_assoc; simpl); done |].
  right. exists ts1, evs1,
    (EvLog (announcement z)
       :: sel ++ EvLog (LogFinished (name_ obj) (description c)) :: post).
  split; [done |]. split; [done |]. rewrite Hz.
  exists (sel ++ EvLog (LogFinished (name_ obj) (description c)) :: post).
  split; [done |].
  split.
  { apply Forall_app. split; [done |]. constructor; [by apply timed_with_other |].
    eapply Forall_impl; [exact Hall | apply housekeeping_timed_with]. }
  right. exists ts, sel, post, k, c. split; [done |]. split; [done |].
  split; [done |]. split; [done |]. split; [done |].
  by rewrite Hh, Hheap5, list_insert_insert_eq.
Qed.
Lemma calibration_behind stream' buffers' obj ts evs0 evs :
  Forall housekeeping evs0 ->
  calibration stream' buffers' obj ts evs ->
  calibration stream' buffers' obj ts (evs0 ++ evs).
Proof.
  intros H0 (pre & runs & -> & Hpre & Hbs). exists (evs0 ++ pre), runs.
  split; [by rewrite <- app_assoc |]. split; [by apply Forall_app | done].
Qed.

(** [Autotune] is its body between the driver calls that make the context
    of the stream current and the one that pops it. *)
Lemma Autotune_run self obj w r w' :
  call_heap w !! self = Some (IsAutotunedKernelCall obj) ->
  configs_ obj <> [] ->
  AutotunedKernelCall.Autotune env self stream buffers w = (r, w') ->
  kernel_calls w' = kernel_calls w /\
  exists evs,
    trace w' = trace w ++ evs /\
    ((not_ok r /\ call_heap w' = call_heap w /\ Forall uncalibrated evs) \/
     exists ts1 evs1 rest,
       evs = evs1 ++ rest /\ calibration stream buffers obj ts1 evs1 /\
       match static_cast_int
               (f32_div AutotunedKernelCall.kBenchmarkTimeMillis
                  (foldl f32_min f32_infinity ts1)) with
       | None =>
           r = Fatal UndefinedBehaviour /\ rest = [] /\ call_heap w' = call_heap w
       | Some z =>
           exists rest',
             rest = EvLog (announcement z) :: rest' /\
             Forall (timed_with (Z.min (Z.max z 1) 100)) rest' /\
             ((not_ok r /\
               exists cs', cs' ≡ₚ configs_ obj /\
                 call_heap w' = <[self := IsAutotunedKernelCall (with_configs cs' obj)]>
                                  (call_heap w)) \/
              exists ts sel post k c,
                rest' = sel ++ EvLog (LogFinished (name_ obj) (description c)) :: post /\
                selection stream buffers obj (Z.min (Z.max z 1) 100) ts sel /\
                Forall housekeeping post /\
                fastest_first ts k /\ configs_ obj !! k = Some c /\
                call_heap w' = <[self := IsAutotunedKernelCall (with_configs [c] obj)]>
                                 (call_heap w))
       end).
Proof.
  intros Hself Hne H. unfold AutotunedKernelCall.Autotune in H.
  assert (forall c rc wc wc',
            housekeeping (EvDriver c (driver env [] c)) ->
            CUDA_RETURN_IF_ERROR env c wc = (rc, wc') ->
            call_heap wc' = call_heap wc /\ kernel_calls wc' = kernel_calls wc /\
            exists ev, trace wc' = trace wc ++ [ev] /\ housekeeping ev) as Hcall.
  { intros c rc wc wc' Hc Hrun. rewrite CUDA_RETURN_IF_ERROR_run in Hrun.
    injection Hrun as _ <-. split; [done |]. split; [done |]. by eexists. }
  apply bind_inv in H as [(context & w1 & H1 & H) | Hstop].
  2: { apply bind_stopped in Hstop as [Hr [rm H1]].
       apply Hcall in H1 as (Hh & Hk & ev & Htr & Hev); [| done].
       split; [done |]. exists [ev]. split; [done |]. left.
       split; [done |]. split; [done |].
       constructor; [by apply housekeeping_uncalibrated | constructor]. }
  apply Hcall in H1 as (Hh1 & Hk1 & ev1 & Htr1 & Hev1); [| done].
  apply bind_inv in H as [(pushed & w2 & H2 & H) | Hstop].
  2: { apply bind_stopped in Hstop as [Hr [rm H2]].
       apply Hcall in H2 as (Hh & Hk & ev & Htr & Hev); [| done].
       split; [by rewrite Hk |]. exists [ev1; ev].
       split; [rewrite Htr, Htr1, <- app_assoc; done |]. left.
       split; [done |]. split; [by rewrite Hh |].
       repeat constructor; by apply housekeeping_uncalibrated. }
  apply Hcall in H2 as (Hh2 & Hk2 & ev2 & Htr2 & Hev2); [| done].
  assert (trace w2 = trace w ++ [ev1; ev2]) as Htr2'
    by (rewrite Htr2, Htr1, <- app_assoc; done).
  assert (Forall housekeeping [ev1; ev2]) as Hpre by by repeat constructor.
  assert (call_heap w2 = call_heap w) as Hh2' by by rewrite Hh2.
  assert (kernel_calls w2 = kernel_calls w) as Hk2' by by rewrite Hk2.
  clear Htr1 Htr2 Hh1 Hh2 Hk1 Hk2 Hev1 Hev2 Hcall.
  assert (exists wb tail,
            AutotunedKernelCall.Autotune_body env self stream buffers w2 = (r, wb) /\
            trace w' = trace wb ++ tail /\ Forall housekeeping tail /\
            call_heap w' = call_heap wb /\ kernel_calls w' = kernel_calls wb /\
            ((exists f, r = Fatal f) -> tail = [])) as (wb & tail & Hbody & Htail).
  { unfold finally in H.
    destruct (AutotunedKernelCall.Autotune_body env self stream buffers w2)
      as [[a | e | f] wb]; injection H as <- <-.
    - eexists _, [_]. split; [done |]. split; [done |].
      split; [by repeat constructor |]. split; [done |]. split; [done |].
      by intros [f [=]].
    - eexists _, [_]. split; [done |]. split; [done |].
      split; [by repeat constructor |]. split; [done |]. split; [done |].
      by intros [f [=]].
    - eexists _, []. rewrite app_nil_r. split; [done |]. split; [done |].
      split; [constructor |]. done. }
  clear H. destruct Htail as (Htr & Htail & Hh & Hk & Hfatal).
  apply Autotune_body_run with (obj := obj) in Hbody
    as (Hkb & evs & Htrb & Hbody); [| by rewrite Hh2' | done].
  split; [by rewrite Hk, Hkb |].
  exists ([ev1; ev2] ++ evs ++ tail).
  split; [rewrite Htr, Htrb, Htr2', <- !app_assoc; done |].
  destruct Hbody as [(Hr & Hhb & Hall) | (ts1 & evs1 & rest & -> & Hcalib & Hbody)].
  { left. split; [done |]. split; [by rewrite Hh, Hhb |].
    apply Forall_app. split.
    - eapply Forall_impl; [exact Hpre | apply housekeeping_uncalibrated].
    - apply Forall_app. split; [done |].
      eapply Forall_impl; [exact Htail | apply housekeeping_uncalibrated]. }
  right. exists ts1, ([ev1; ev2] ++ evs1), (rest ++ tail).
  split; [by rewrite <- !app_assoc |].
  split; [by apply calibration_behind |].
  destruct (static_cast_int _) as [z |].
  - destruct Hbody as (rest' & -> & Hall & Hbody).
    exists (rest' ++ tail). split; [done |].
    split.
    { apply Forall_app. split; [done |].
      eapply Forall_impl; [exact Htail | apply housekeeping_timed_with]. }
    destruct Hbody as [(Hr & cs' & Hperm & Hhb)
                      | (ts & sel & post & k & c & -> & Hsel & Hpost & Hfast & Hc & Hhb)].
    + left. split; [done |]. exists cs'. split; [done |]. by rewrite Hh, Hhb, Hh2'.
    + right. exists ts, sel, (post ++ tail), k, c.
      split; [by rewrite <- app_assoc |]. split; [done |].
      split; [by apply Forall_app |]. split; [done |]. split; [done |].
      by rewrite Hh, Hhb, Hh2'.
  - destruct Hbody as (-> & -> & Hhb).
    rewrite Hfatal by by eexists. split; [done |]. split; [done |].
    by rewrite Hh, Hhb.
Qed.
End AutotuneRuns.

(** ** Autotuning that nothing stops *)

Lemma kernels_evolve_record e w : kernels_evolve w (record e w).
Proof. by apply kernels_evolve_same. Qed.

Lemma kernels_evolve_push_module w self k module :
  kernel_heap w !! self = Some k ->
  kernels_evolve w
    (set_kernel_heap (<[self := Kernel.push_back_module module k]> (kernel_heap w)) w).
Proof.
  intros Hk. apply (kernels_evolve_insert _ _ k); [done |].
  repeat split; simpl; try done. by apply prefix_app_r.
Qed.

Lemma kernels_evolve_insert_function w self k context function :
  kernel_heap w !! self = Some k -> functions_ k !! context = None ->
  kernels_evolve w
    (set_kernel_heap
       (<[self := Kernel.insert_function context function k]> (kernel_heap w)) w).
Proof.
  intros Hk Hf. apply (kernels_evolve_insert _ _ k); [done |].
  repeat split; simpl; try done. by apply insert_subseteq.
Qed.

Lemma KernelCall_Launch_evolves env kc stream buffers :
  respects kernels_evolve (KernelCall.Launch env kc stream buffers).
Proof.
  apply steps_KernelCall_Launch;
    [apply kernels_evolve_refl | apply kernels_evolve_trans | apply kernels_evolve_record
    | apply kernels_evolve_push_module | apply kernels_evolve_insert_function].
Qed.


Lemma launchable_evolves env buffers kc w w' :
  kernels_evolve w w' -> launchable env buffers kc w -> launchable env buffers kc w'.
Proof.
  intros Hev ((k & Hk & Hgranted) & Henough & Haligned).
  split; [| done]. destruct (Hev _ _ Hk) as (k' & Hk' & _ & _ & _ & Hsh & _).
  exists k'. split; [done |]. unfold shared_memory_granted in *. by rewrite Hsh.
Qed.

Section Unhindered.
Context (env : Environment) (stream : CUstream) (buffers : list CUdeviceptr).
Context (Haccept : accepting (driver env)).
Context (cs0 : list Config).

Lemma ready_evolves w w' :
  kernels_evolve w w' -> ready env buffers cs0 w -> ready env buffers cs0 w'.
Proof. intros Hev Hr c Hc. by apply (launchable_evolves _ _ _ w), Hr. Qed.

Lemma ready_record e w : ready env buffers cs0 w -> ready env buffers cs0 (record e w).
Proof. apply ready_evolves, kernels_evolve_record. Qed.

Lemma KernelCall_Launch_succeeds c w :
  c ∈ cs0 -> ready env buffers cs0 w ->
  exists w',
    KernelCall.Launch env (kernel_call c) stream buffers w = (Ok tt, w') /\
    ready env buffers cs0 w' /\ same_calls w w'.
Proof.
  intros Hc Hready.
  destruct (Hready c Hc) as ((k & Hk & Hgranted) & Henough & Haligned).
  destruct (KernelCall_Launch_accepts env Haccept (kernel_call c) stream buffers w k)
    as (w' & Hrun); [done .. |].
  exists w'. split; [done |]. split.
  - eapply ready_evolves; [| done]. eapply KernelCall_Launch_evolves, Hrun.
  - eapply KernelCall_Launch_same_calls, Hrun.
Qed.

Lemma launch_repeatedly_succeeds c n : forall w,
  c ∈ cs0 -> ready env buffers cs0 w ->
  exists w',
    AutotunedKernelCall.launch_repeatedly env (kernel_call c) stream buffers n w
      = (Ok tt, w') /\
    ready env buffers cs0 w' /\ same_calls w w'.
Proof.
  induction n as [| n IH]; intros w Hc Hready; simpl.
  - exists w. split; [done |]. split; [done | apply same_calls_refl].
  - destruct (KernelCall_Launch_succeeds c w Hc Hready) as (w1 & H1 & Hr1 & Hs1).
    destruct (IH w1 Hc Hr1) as (w2 & H2 & Hr2 & Hs2).
    exists w2. unfold bind. rewrite H1. split; [done |]. split; [done |].
    by apply (same_calls_trans _ w1).
Qed.

(** The times a driver reports. *)
Lemma Benchmark_succeeds c n w :
  c ∈ cs0 -> ready env buffers cs0 w ->
  exists t start stop w',
    AutotunedKernelCall.Benchmark env stream (kernel_call c) buffers n w
      = (Ok (out_ms (driver env t (cuEventElapsedTime start stop))), w') /\
    ready env buffers cs0 w' /\ same_calls w w'.
Proof.
  intros Hc Hready. unfold AutotunedKernelCall.Benchmark.
  unfold bind at 1. rewrite (CUDA_accepts env Haccept). cbv beta iota.
  unfold bind at 1. rewrite (CUDA_accepts env Haccept). cbv beta iota.
  unfold bind at 1.
  match goal with |- context [KernelCall.Launch _ _ _ _ ?w0] => set (w2 := w0) end.
  assert (ready env buffers cs0 w2) as Hr2 by by do 2 apply ready_record.
  destruct (KernelCall_Launch_succeeds c w2 Hc Hr2) as (w3 & H3 & Hr3 & Hs3).
  rewrite H3. cbv beta iota.
  unfold bind at 1. rewrite (CUDA_accepts env Haccept). cbv beta iota.
  unfold bind at 1.
  match goal with
  | |- context [AutotunedKernelCall.launch_repeatedly _ _ _ _ _ ?w0] => set (w4 := w0)
  end.
  assert (ready env buffers cs0 w4) as Hr4 by by apply ready_record.
  destruct (launch_repeatedly_succeeds c (Z.to_nat n) w4 Hc Hr4) as (w5 & H5 & Hr5 & Hs5).
  rewrite H5. cbv beta iota.
  unfold bind at 1. rewrite (CUDA_accepts env Haccept). cbv beta iota.
  unfold bind at 1. rewrite (CUDA_accepts env Haccept). cbv beta iota.
  unfold bind at 1. rewrite (CUDA_accepts env Haccept). cbv beta iota.
  unfold bind at 1. rewrite (CUDA_accepts env Haccept). cbv beta iota.
  unfold bind at 1. rewrite (CUDA_accepts env Haccept). cbv beta iota.
  unfold ret. eexists _, _, _, _. split; [reflexivity |].
  split; [by do 5 apply ready_record |].
  destruct Hs3 as [Hh3 Hk3], Hs5 as [Hh5 Hk5]. split; simpl.
  - rewrite Hh5. simpl. by rewrite Hh3.
  - rewrite Hk5. simpl. by rewrite Hk3.
Qed.

Lemma calibrate_succeeds cs : forall best0 w,
  (forall c, c ∈ cs -> c ∈ cs0) -> ready env buffers cs0 w ->
  exists best w',
    AutotunedKernelCall.calibrate env cs stream buffers best0 w = (Ok best, w') /\
    (best = best0 \/
     exists t start stop, best = out_ms (driver env t (cuEventElapsedTime start stop))) /\
    ready env buffers cs0 w' /\ same_calls w w'.
Proof.
  induction cs as [| c rest IH]; intros best0 w Hsub Hready; simpl.
  - exists best0, w. split; [done |]. split; [by left |].
    split; [done | apply same_calls_refl].
  - destruct (Benchmark_succeeds c 1 w) as (t & start & stop & w1 & H1 & Hr1 & Hs1);
      [apply Hsub; left | done |].
    unfold bind at 1. rewrite H1. cbv beta iota.
    unfold bind at 1. unfold LOG at 1, emit at 1. cbv beta iota.
    match goal with
    | |- context [AutotunedKernelCall.calibrate _ _ _ _ ?b ?w0] =>
        destruct (IH b w0) as (best & w2 & H2 & Hbest & Hr2 & Hs2)
    end.
    + intros c' Hc'. apply Hsub. by right.
    + by apply ready_record.
    + exists best, w2. split; [done |]. split.
      * destruct Hbest as [-> | Hbest]; [| by right].
        unfold f32_min. destruct (f32_ltb _ _); [right; by eexists _, _, _ | by left].
      * split; [done |]. apply (same_calls_trans _ w1); [done |].
        destruct Hs2 as [Hh Hk]. split; [by rewrite Hh | by rewrite Hk].
Qed.

Lemma save_aliased_inputs_succeeds aliases : forall copies w,
  (forall i o size, (i, o, size) ∈ aliases ->
     (i < length buffers)%nat /\ (o < length buffers)%nat) ->
  exists copies' w',
    AutotunedKernelCall.save_aliased_inputs env aliases stream buffers copies w
      = (Ok copies', w') /\
    kernel_heap w' = kernel_heap w /\ same_calls w w'.
Proof.
  induction aliases as [| [[i o] size] rest IH]; intros copies w Hin; simpl.
  - exists copies, w. split; [done |]. split; [done | apply same_calls_refl].
  - destruct (Hin i o size) as [Hi Ho]; [left |].
    apply lookup_lt_is_Some in Hi as [p Hp]. apply lookup_lt_is_Some in Ho as [q Hq].
    unfold bind at 1. unfold read_buffer at 1. rewrite Hp. cbv beta iota delta [ret].
    unfold bind at 1. unfold read_buffer at 1. rewrite Hq. cbv beta iota delta [ret].
    assert (forall i' o' size', (i', o', size') ∈ rest ->
              (i' < length buffers)%nat /\ (o' < length buffers)%nat) as Hrest.
    { intros i' o' size' H. apply (Hin i' o' size'). by right. }
    destruct (p =? q).
    + unfold bind at 1. rewrite (CUDA_accepts env Haccept). cbv beta iota.
      match goal with
      | |- context [AutotunedKernelCall.save_aliased_inputs _ _ _ _ ?c ?w0] =>
          destruct (IH c w0 Hrest) as (copies' & w' & H & Hh & Hs)
      end.
      exists copies', w'. split; [done |]. split; [by rewrite Hh |].
      destruct Hs as [Hh' Hk']. split; [by rewrite Hh' | by rewrite Hk'].
    + by apply IH.
Qed.

Lemma restore_aliased_inputs_succeeds aliases : forall copies w,
  (forall i o size, (i, o, size) ∈ aliases ->
     (i < length buffers)%nat /\ (o < length buffers)%nat) ->
  exists w',
    AutotunedKernelCall.restore_aliased_inputs env aliases stream buffers copies w
      = (Ok tt, w') /\
    kernel_heap w' = kernel_heap w /\ same_calls w w'.
Proof.
  induction aliases as [| [[i o] size] rest IH]; intros copies w Hin; simpl.
  - exists w. split; [done |]. split; [done | apply same_calls_refl].
  - destruct (Hin i o size) as [Hi _]; [left |].
    apply lookup_lt_is_Some in Hi as [p Hp].
    unfold bind at 1. unfold read_buffer at 1. rewrite Hp. cbv beta iota delta [ret].
    unfold bind at 1. rewrite (CUDA_accepts env Haccept). cbv beta iota.
    match goal with
    | |- context [AutotunedKernelCall.restore_aliased_inputs _ _ _ _ ?c ?w0] =>
        destruct (IH c w0) as (w' & H & Hh & Hs)
    end.
    { intros i' o' size' H. apply (Hin i' o' size'). by right. }
    exists w'. split; [done |]. split; [by rewrite Hh |].
    destruct Hs as [Hh' Hk']. split; [by rewrite Hh' | by rewrite Hk'].
Qed.
End Unhindered.

Section UnhinderedAutotune.
Context (env : Environment) (stream : CUstream) (buffers : list CUdeviceptr).
Context (Haccept : accepting (driver env)).
Context (self : nat) (obj0 : AutotunedKernelCall).

Lemma select_succeeds timed_iters n : forall i best w,
  (i + n = length (configs_ obj0))%nat ->
  ready env buffers (configs_ obj0) w -> reordered self obj0 w ->
  exists w',
    AutotunedKernelCall.select env self stream buffers timed_iters n i best w
      = (Ok tt, w') /\
    ready env buffers (configs_ obj0) w' /\ reordered self obj0 w'.
Proof.
  induction n as [| n IH]; intros i best w Hin Hready (cs & Hself & Hperm); simpl.
  - exists w. split; [done |]. split; [done | by exists cs].
  - unfold bind at 1. unfold load_autotuned at 1. rewrite Hself. cbv beta iota.
    cbn [configs_ with_configs].
    assert (is_Some (cs !! i)) as [config Hconfig].
    { apply lookup_lt_is_Some. rewrite (Permutation_length Hperm). lia. }
    rewrite Hconfig.
    assert (config ∈ configs_ obj0) as Hc.
    { rewrite <- Hperm. apply list_elem_of_lookup. by exists i. }
    destruct (Benchmark_succeeds env stream buffers Haccept (configs_ obj0) config
                timed_iters w Hc Hready)
      as (t & start & stop & w1 & H1 & Hr1 & [Hh1 Hk1]).
    unfold bind at 1. rewrite H1. cbv beta iota.
    unfold bind at 1. unfold LOG at 1, emit at 1. cbv beta iota.
    assert (self < length (call_heap w1))%nat as Hlt
      by (rewrite Hh1; by apply lookup_lt_Some in Hself).
    destruct (f32_ltb _ best).
    + unfold bind at 1. unfold LOG at 1, emit at 1. cbv beta iota.
      unfold bind at 1. unfold store_autotuned at 1. cbv beta iota.
      apply IH; [lia | |].
      * eapply ready_evolves; [| exact Hr1]. by apply kernels_evolve_same.
      * exists (swap_with_front i cs). split.
        -- simpl. by apply list_lookup_insert_eq.
        -- by rewrite swap_with_front_Permutation.
    + apply IH; [lia | by apply ready_record |].
      exists cs. split; [| done]. simpl. by rewrite Hh1.
Qed.

Lemma Autotune_body_succeeds w :
  call_heap w !! self = Some (IsAutotunedKernelCall obj0) ->
  configs_ obj0 <> [] ->
  unhindered env buffers obj0 w ->
  exists w', AutotunedKernelCall.Autotune_body env self stream buffers w = (Ok tt, w').
Proof.
  intros Hself Hne (_ & Hready & Haliases & Hcast).
  unfold AutotunedKernelCall.Autotune_body.
  unfold bind at 1. unfold load_autotuned at 1. rewrite Hself. cbv beta iota.
  destruct (save_aliased_inputs_succeeds env stream buffers Haccept
              (input_output_aliases_ obj0) ∅ w Haliases)
    as (copies & w1 & H1 & Hk1 & [Hh1 _]).
  unfold bind at 1. rewrite H1. cbv beta iota.
  unfold bind at 1. unfold LOG at 1, emit at 1. cbv beta iota.
  unfold bind at 1.
  match goal with
  | |- context [AutotunedKernelCall.calibrate _ _ _ _ _ ?w0] => set (w2 := w0)
  end.
  assert (ready env buffers (configs_ obj0) w2) as Hr2.
  { apply ready_record. eapply ready_evolves; [| exact Hready].
    by apply kernels_evolve_same. }
  destruct (calibrate_succeeds env stream buffers Haccept (configs_ obj0) (configs_ obj0)
              f32_infinity w2 (fun c H => H) Hr2)
    as (best & w3 & H3 & Hbest & Hr3 & [Hh3 _]).
  rewrite H3. cbv beta iota.
  assert (is_Some (static_cast_int
                     (f32_div AutotunedKernelCall.kBenchmarkTimeMillis best)))
    as [z Hz].
  { destruct Hbest as [-> | (t & start & stop & ->)]; [| apply Hcast].
    exists 0. by vm_compute. }
  unfold bind at 1. rewrite (choose_timed_iters_Some best z w3 Hz). cbv beta iota.
  unfold bind at 1.
  match goal with
  | |- context [AutotunedKernelCall.select _ _ _ _ ?n0 _ _ _ ?w0] =>
      destruct (select_succeeds n0 (length (configs_ obj0)) 0%nat f32_infinity w0)
        as (w5 & H5 & Hr5 & (cs & Hself5 & Hperm))
  end.
  { done. }
  { by apply ready_record. }
  { exists (configs_ obj0). split; [| done].
    rewrite with_configs_configs. simpl. rewrite Hh3. simpl. by rewrite Hh1. }
  rewrite H5. cbv beta iota.
  assert (self < length (call_heap w5))%nat as Hlt by by apply lookup_lt_Some in Hself5.
  unfold bind at 1. unfold AutotunedKernelCall.discard_all_but_best.
  unfold bind at 1. unfold load_autotuned at 1. rewrite Hself5. cbv beta iota.
  unfold store_autotuned at 1. cbv beta iota.
  unfold bind at 1. unfold load_autotuned at 1.
  cbn [call_heap set_call_heap].
  rewrite list_lookup_insert_eq by done. cbv beta iota.
  cbn [configs_ with_configs name_ input_output_aliases_].
  destruct cs as [| c rest].
  { apply Permutation_nil_l in Hperm. by destruct Hne. }
  cbn [take lookup list_lookup].
  unfold bind at 1. unfold LOG at 1, emit at 1. cbv beta iota.
  unfold bind at 1.
  match goal with
  | |- context [AutotunedKernelCall.restore_aliased_inputs _ _ _ _ _ ?w0] =>
      destruct (restore_aliased_inputs_succeeds env stream buffers Haccept
                  (input_output_aliases_ obj0) copies w0 Haliases)
        as (w7 & H7 & _)
  end.
  rewrite H7. cbv beta iota.
  unfold bind at 1. rewrite (CUDA_accepts env Haccept). cbv beta iota.
  by eexists.
Qed.

Lemma Autotune_succeeds w :
  call_heap w !! self = Some (IsAutotunedKernelCall obj0) ->
  configs_ obj0 <> [] ->
  unhindered env buffers obj0 w ->
  exists w', AutotunedKernelCall.Autotune env self stream buffers w = (Ok tt, w').
Proof.
  intros Hself Hne (_ & Hready & Haliases & Hcast).
  unfold AutotunedKernelCall.Autotune.
  unfold bind at 1. rewrite (CUDA_accepts env Haccept). cbv beta iota.
  unfold bind at 1. rewrite (CUDA_accepts env Haccept). cbv beta iota.
  unfold finally.
  match goal with
  | |- context [AutotunedKernelCall.Autotune_body _ _ _ _ ?w0] =>
      destruct (Autotune_body_succeeds w0) as (wb & ->)
  end; [done | done | | by eexists].
  split; [done |]. split; [| done].
  do 2 apply ready_record. done.
Qed.

End UnhinderedAutotune.

(** ** The two claims on autotuning *)

Section AutotuneClaims.
Context (env : Environment) (stream : CUstream) (buffers : list CUdeviceptr).

(** C9. Iteration calibration.  In an autotuning that gets through its
    calibration loop, every config has been benchmarked over one iteration,
    in order, and [best] is the least of the times the driver reported for
    these runs (the running [std::min] from infinity).  When the quotient
    [10.0 / best] has an [int] value, the iteration count is
    [max(1, floor(10.0 / best))] capped at 100, hence within [1, 100]; it is
    the count the log announces, the count of every timed run reported, and,
    when autotuning succeeds, the number of iterations over which each
    config is then benchmarked.  When the quotient has no [int] value
    ([best] is zero, or so small that the quotient exceeds [INT_MAX]), the
    conversion [static_cast<int>] is undefined: no count in [1, 100] is
    arrived at, and the autotuning does not return.  An autotuning that
    nothing stops (the driver accepts every call and reports times whose
    quotient has an [int] value, every config can be launched, the aliased
    buffers are there) does return ok. *)
Theorem timed_iters_calibrated self obj w :
  call_heap w !! self = Some (IsAutotunedKernelCall obj) ->
  configs_ obj <> [] ->
  (forall r w',
     AutotunedKernelCall.Autotune env self stream buffers w = (r, w') ->
     exists evs,
       trace w' = trace w ++ evs /\
       ((not_ok r /\ Forall uncalibrated evs) \/
        exists ts1 evs1 rest,
          evs = evs1 ++ rest /\ calibration stream buffers obj ts1 evs1 /\
          let best := foldl f32_min f32_infinity ts1 in
          (forall t, t ∈ ts1 -> f32_ltb t best = false) /\
          (best = f32_infinity \/ best ∈ ts1) /\
          match static_cast_int (f32_div (f32_of_Z 10) best) with
          | None => r = Fatal UndefinedBehaviour /\ rest = []
          | Some _ =>
              exists q n rest',
                f32_floor (f32_div (f32_of_Z 10) best) = Some q /\
                n = Z.min (Z.max 1 q) 100 /\ 1 <= n <= 100 /\
                rest = EvLog (if 100 <? Z.max 1 q then LogBenchmarkingCapped
                              else LogBenchmarkingWith n) :: rest' /\
                Forall (timed_with n) rest' /\
                (r = Ok tt ->
                 exists ts sel post,
                   rest' = sel ++ post /\ selection stream buffers obj n ts sel)
          end)) /\
  (unhindered env buffers obj w ->
   exists w', AutotunedKernelCall.Autotune env self stream buffers w = (Ok tt, w')).
Proof.
  intros Hself Hne. split.
  2: { intros Hun.
       exact (Autotune_succeeds env stream buffers (proj1 Hun) self obj w Hself Hne Hun). }
  intros r w' H.
  apply Autotune_run with (obj := obj) in H as (_ & evs & Htr & H); [| done | done].
  exists evs. split; [done |].
  destruct H as [(Hr & _ & Hall) | (ts1 & evs1 & rest & -> & Hcalib & H)];
    [by left |].
  right. exists ts1, evs1, rest. split; [done |]. split; [done |].
  cbv zeta. split.
  { intros t Ht.
    apply (foldl_min_lower_bound ts1 f32_infinity []); [by intros s Hs%elem_of_nil | done]. }
  split; [apply foldl_min_attained |].
  change (f32_of_Z 10) with AutotunedKernelCall.kBenchmarkTimeMillis.
  destruct (static_cast_int _) as [z |] eqn:Hz.
  - destruct H as (rest' & -> & Hall & H).
    apply static_cast_int_floor in Hz as (_ & q & Hq & _ & Hmax).
    exists q, (Z.min (Z.max 1 q) 100), rest'. split; [done |]. split; [done |].
    split; [lia |]. unfold announcement. rewrite Hmax in *. split; [done |].
    split; [done |]. intros ->.
    destruct H as [(Hr & _) | (ts & sel & post & k & c & -> & Hsel & _)];
      [by destruct (Hr tt) |].
    by exists ts, sel, (EvLog (LogFinished (name_ obj) (description c)) :: post).
  - by destruct H as (-> & -> & _).
Qed.

End AutotuneClaims.

Lemma timed_iters_calibrated_witness :
  exists w',
    AutotunedKernelCall.Autotune (env_of timing_driver) 0 5 [] a_and_b_world
      = (Ok tt, w') /\
    exists evs,
      trace w' = trace a_and_b_world ++ evs /\
      ((not_ok (Ok tt) /\ Forall uncalibrated evs) \/
       exists ts1 evs1 rest,
         evs = evs1 ++ rest /\ calibration 5 [] a_and_b ts1 evs1 /\
         let best := foldl f32_min f32_infinity ts1 in
         (forall t, t ∈ ts1 -> f32_ltb t best = false) /\
         (best = f32_infinity \/ best ∈ ts1) /\
         match static_cast_int (f32_div (f32_of_Z 10) best) with
         | None => Ok tt = Fatal UndefinedBehaviour /\ rest = []
         | Some _ =>
             exists q n rest',
               f32_floor (f32_div (f32_of_Z 10) best) = Some q /\
               n = Z.min (Z.max 1 q) 100 /\ 1 <= n <= 100 /\
               rest = EvLog (if 100 <? Z.max 1 q then LogBenchmarkingCapped
                             else LogBenchmarkingWith n) :: rest' /\
               Forall (timed_with n) rest' /\
               (Ok tt = Ok tt ->
                exists ts sel post,
                  rest' = sel ++ post /\ selection 5 [] a_and_b n ts sel)
         end).
Proof.
  destruct (timed_iters_calibrated (env_of timing_driver) 5 [] 0 a_and_b a_and_b_world)
    as [Hall Htotal]; [reflexivity | discriminate |].
  destruct Htotal as [w' Hrun].
  { split; [intros t c; by destruct c |].
    split.
    { intros c Hc. simpl in Hc. rewrite !elem_of_cons, elem_of_nil in Hc.
      destruct Hc as [-> | [-> | []]];
        (split; [exists (Kernel_new "image" "kernel" 4 0);
                 split; [reflexivity | left; vm_compute; discriminate] |];
         split; [simpl; lia |]; intros j q (a & Hps & _); by destruct j). }
    split; [intros i o size Hin; simpl in Hin; by apply elem_of_nil in Hin |].
    intros t start stop.
    change (driver (env_of timing_driver) t (cuEventElapsedTime start stop))
      with (ok_reply 0 (f32_of_Z (if last_grid t =? 8 then 1 else 2))).
    destruct (last_grid t =? 8); eexists; vm_compute; reflexivity. }
  exists w'. split; [exact Hrun |]. exact (Hall _ _ Hrun).
Defined.

(** On the driver that times A at 2 ms and B at 1 ms, the single
    iterations give [best = 1], and ten iterations are announced and run. *)
Example ten_iterations_at_one_millisecond :
  fst a_and_b_calibration = Ok (f32_of_Z 1) /\
  static_cast_int (f32_div (f32_of_Z 10) (f32_of_Z 1)) = Some 10 /\
  timed_runs (logs (trace (snd (a_and_b_autotune timing_driver))))
    = [("A"%string, 10, f32_of_Z 2); ("B"%string, 10, f32_of_Z 1)].
Proof. by vm_compute. Qed.

(** A best time of zero has no iteration count: the quotient is infinite,
    its conversion to [int] is undefined, and [max(1, floor(10.0 / best))]
    capped at 100 is not what the code computes. *)
Lemma zero_best_is_undefined s :
  f32_div (f32_of_Z 10) (S754_zero s) = S754_infinity s /\
  static_cast_int (f32_div (f32_of_Z 10) (S754_zero s)) = None.
Proof. by destruct s. Qed.

(** C9, at the failing input: on a driver that reports no time between the
    two events of a benchmark, the single iterations give [best = 0]; the
    autotuning is lost at the conversion, before any count is announced. *)
Example zero_time_calibration_is_undefined :
  fst (AutotunedKernelCall.calibrate (env_of zero_timing_driver) (configs_ a_and_b)
         5 [] f32_infinity a_and_b_world) = Ok (S754_zero false) /\
  fst (a_and_b_autotune zero_timing_driver) = Fatal UndefinedBehaviour /\
  Forall uncalibrated (trace (snd (a_and_b_autotune zero_timing_driver))).
Proof.
  split; [by vm_compute |]. split; [by vm_compute |].
  vm_compute. repeat constructor.
Qed.


(** When every time is a NaN no config is ever selected, and the first
    config is the one that is left. *)
Example nan_times_select_nothing :
  fst (a_and_b_run nan_timing_driver) = Ok tt /\
  call_heap (snd (a_and_b_run nan_timing_driver)) =
    [IsAutotunedKernelCall
       {| name_ := "f"; configs_ := [config_on 4 "A"]; input_output_aliases_ := [];
          autotune_once_ := true; autotune_status_ := OkStatus |}].
Proof. by vm_compute. Qed.
